(* ===== verification/_CoqProject ===== *)
-Q . S2P
Prelude.v
Fifo8.v
Dll.v
Timer.v
Io.v
Pic.v
I8080.v
Nvr.v
PitExact.v
Pit.v
Dma.v
DmaBlock.v
DmaSafe.v
Nmc93.v
I2c.v
I2cGpio.v
I2cEeprom.v
NvrAt.v
