(* ===== verification/Prelude.v ===== *)
(** * A verification library for BluMach

    BluMach is a PC emulator in C (a descendant of 86Box).  This library
    models the parts of src/src/ on which every emulated machine rests, as
    executable functions over explicit state, and proves what makes them
    correct.  This file is the guide and the prelude the other files share.

    ** The parts and how they interact

    The machine runs on a queue of timers ordered by a 64-bit time stamp
    counter (timer.c); devices schedule their work there.  The CPU reaches
    devices through 64K I/O ports, each with a chain of handlers (io.c), and
    devices reach the CPU through two cascaded interrupt controllers (pic.c),
    which sit on the ports, too, and use a timer.  The real-time clock (nvr.c)
    runs on a timer, and the clock chip of the AT (nvr_at.c) shows it in its
    registers, with timers of its own.  The 8080 core (cpu/i8080.c) is the second processor
    inside the emulated NEC V20 and V30.  Byte queues (utils/fifo8.c) buffer
    the data of devices.  Devices move blocks between themselves and memory
    through the DMA controllers (dma.c), which sit on the ports.  Cards keep
    their settings in serial memories: some on three lines of their own
    (mem/nmc93cxx.c), some (mem/i2c_eeprom.c) on an I2C bus (device/i2c.c),
    which software drives bit by bit (device/i2c_gpio.c).

    - [Prelude]: C integers of fixed width ([wrap], [swrap], [in_width] and
      the operators of [c_scope]), arrays with bounds, sorted lists,
      exhaustive reasoning on bytes.
    - [Fifo8]: utils/fifo8.c.  Every call sequence refines a bounded list
      queue.
    - [Dll]: the intrusive doubly linked lists of timer.c and io.c, once, as
      an interface on nodes ([DllNode]) with the lemmas for insertion and
      removal.
    - [Timer]: timer.c and include/86box/timer.h.  The queue stays sorted
      and well linked under enabling and disabling; [timer_process] runs the
      due callbacks, in order, once; deadlines are exact in 32.32 fixed
      point; a change of the clock keeps the time left.
    - [Io]: io.c.  Handler registration refines a list of handlers per port;
      byte accesses are the wired AND of the handlers; wide accesses equal
      byte accesses in address order whose handlers see the number and the
      width of the one access ([seen]); traps.
    - [Pic]: pic.c and include/86box/pic.h.  Initialisation, priority
      resolution, acknowledge through the cascade, end of interrupt, shared
      level-triggered inputs.
    - [I8080]: cpu/i8080.c.  The 256-way switch equals a decoder on bit
      fields; exact arithmetic, comparison, decimal adjustment, rotations;
      the stack; cycles; interrupts; no call through NULL.
    - [Nvr]: nvr.c.  The clock follows the Gregorian calendar; a hundred
      expiries are a second (on the queue of [Timer]); what is saved is
      loaded.
    - [PitExact]: pit_exact.c and include/86box/pit_exact.h, the counters of
      the programmable timers.  The waveforms of modes 0, 2, 3 and 4 on both
      chips, in binary and BCD; latched counts; ranges.
    - [Pit]: pit.c, the device that is built by default, on the timer queue
      and the ports; its counters agree with those of [PitExact] although
      they are another implementation.
    - [Dma]: dma.c and include/86box/dma.h.  The two 8237 controllers of an
      AT with their page registers, the calls of devices
      ([dma_channel_read], [dma_channel_write]), software requests and
      memory-to-memory copies, the scatter/gather engines of the PCI
      chipsets with their bus-master transfers, and the register interface
      of the PS/2.
    - [DmaBlock]: whole transfers.  What a driver programs is what the device
      and the memory get, unit by unit up to the terminal count; registers
      read in between show the progress; addresses stay in their page;
      which software requests end.
    - [DmaSafe]: every register keeps its C type on all sequences of
      accesses, device calls, chipset operations and resets, and each of
      these returns but for the requests of [may_not_return]; what the engine
      does at the end of a scatter/gather list.
    - [Nmc93]: mem/nmc93cxx.c.  Bit by bit on its lines the device refines a
      memory with a lock and a busy time; which parts survive any activity
      on the lines; the image file.
    - [I2c]: device/i2c.c.  The chains of the bus, on [Dll], refine a list of
      devices per address.
    - [I2cGpio]: device/i2c_gpio.c.  Steps of the two lines refine the
      protocol of the bus, one call per byte.
    - [I2cEeprom]: mem/i2c_eeprom.c, on [I2c] and under [I2cGpio]: what a
      driver writes bit by bit it reads back, for every size of memory.
    - [NvrAt]: nvr_at.c, on [Nvr], [Timer] and [Io].  The time registers hold
      the clock of [Nvr]; an update cycle; the interrupt line follows the
      flags under all accesses and timers, none of which but the update of a
      date that does not exist can crash.

    ** How the model corresponds to the code

    Definitions carry the names of the C functions and follow their order of
    statements; a loop or a block that is used in a proof by itself is a
    definition of its own, named after what it does.  A struct is a record
    with the same fields; a pointer to one of several structs is an address
    into a [gmap], and NULL is [None].  An unsigned integer of w bits is a
    [Z] kept in [[0, 2^w)] by [wrap w] where the C code stores it; C
    operators on bits are the notations of [c_scope].  C [double]s are
    [SpecFloat]'s binary64.  A function that can crash - NULL or dangling
    pointer, index out of range, undefined shift, failed assertion,
    [fatal] - returns an [option], and [None] is the crash; theorems on
    such functions say that the result exists.  A signed overflow is [None]
    in the calendar; the count of a DMA channel, an [int] that a device could
    drive below -2^31 only with that many calls after its terminal count,
    wraps around.  Logging is left out.

    Code outside the modelled files is an interface: a type class of
    functions on the state of the rest of the machine ([PicEnv],
    [I8080Env], [NvrEnv], [DmaMachine] - memory, ports and the interrupt
    lines as dma.c uses them, with the laws of RAM in [PlainMemory],
    [CommandTimer], [RtcMachine] with its laws in [RtcMachineLaws],
    [I2cBus] - which [I2cEeprom] implements with [I2c]), or arguments of a
    Section ([call] in [Timer], [callees] in [Io] and [I2c]); theorems that
    need a contract of such a function state it, and their witnesses
    instantiate it with concrete functions.

    ** Fuel

    Loops over linked lists have fuel.  The loops of [Timer] on the queue
    take the number of timers as fuel, which is enough because a well-formed
    queue has no duplicates; [process_loop] takes its fuel as an argument
    and [timer_process_total] gives an amount that is enough when callbacks
    keep their contract.  The loops of [Io] over a chain of handlers take the
    number of nodes or an argument, with the theorems saying that a
    well-formed chain needs no more.  In [Dma] a block has at most 65536
    units, so [block_fuel] is 65537; [sg_loop] has two rounds more than the
    bytes it is asked for, since each block but the first takes at least one;
    [ps2_fuel] is one more than the count after the first unit.  A
    scatter/gather list can reload the count in the middle, so the loops of a
    block request and of a PS/2 transfer get [extra_rounds] of the
    configuration on top: theorems hold for every such number, hence for
    every run of the C code that ends.  A software request for 65536 units
    has more rounds than any fuel: the loop of the C code does not end there
    ([block_request_ends]).  [registers_typed] lists all operations that may
    run out of fuel.  The loops of [I2c] over a chain take the number
    of nodes of the bus; [count_bits] and [log2i_loop] halve a 32-bit number
    and take 32; the loops over cells are bounded by the address bits.

    ** Not modelled

    Subsystems of the repository that the library does not cover: the
    x86 cores with the recompiler and the FPU, memory mapping and flash
    memories, keyboard controllers, PCI and the chipsets, disks,
    CD-ROM and SCSI, video, sound, network and serial devices,
    configuration and machine tables.  Of dma.c the path of the exact XT
    controller is left out, with the refresh requests that only it serves:
    it is compiled under DMA_FORCE_REWRITE, which the build never defines.
    Of nvr_at.c the images of particular machines and the decoding of the
    options in nvr_at_init are left out, and nvr_ps2.c.
    The user interfaces, the platform
    layers and the vendored libraries (zlib, zstd, libchdr, imgui, softfloat,
    MUNT, SLiRP, ...) are outside its scope. *)
From stdpp Require Export base decidable option list numbers gmap.
From coqutil Require Export Datatypes.RecordSettersUsingExistingGetters.
From Stdlib Require Export Bool Lia Sorted.

#[export] Set Default Goal Selector "!".
Open Scope Z_scope.

(** Record updates [r <| field := v |>] reduce to the constructor under [cbn]. *)
#[global] Arguments const {E} newValue _ /.

(** Projections of an updated record. *)
Ltac fields := unfold set; cbn.

(** ** Fixed-width C integers

    A C object of an unsigned w-bit type is a [Z] in [0, 2^w); storing into
    it goes through [wrap].  Signed conversions go through [swrap]. *)

Definition wrap (w x : Z) : Z := x `mod` 2 ^ w.
Definition swrap (w x : Z) : Z := (x + 2 ^ (w - 1)) `mod` 2 ^ w - 2 ^ (w - 1).

Abbreviation u8 := (wrap 8).
Abbreviation u16 := (wrap 16).
Abbreviation u32 := (wrap 32).
Abbreviation u64 := (wrap 64).
Abbreviation s64 := (swrap 64).

Definition in_width (w x : Z) : Prop := 0 <= x < 2 ^ w.
Abbreviation is_u8 := (in_width 8).
Abbreviation is_u16 := (in_width 16).
Abbreviation is_u32 := (in_width 32).
Abbreviation is_u64 := (in_width 64).

(** C operators on integers, and C truth of an integer. *)
Declare Scope c_scope.
Delimit Scope c_scope with c.
Notation "a .& b" := (Z.land a b) (at level 40, left associativity) : c_scope.
Notation "a .^ b" := (Z.lxor a b) (at level 45, left associativity) : c_scope.
Notation "a .| b" := (Z.lor a b) (at level 49, left associativity) : c_scope.
Notation "a <<< b" := (Z.shiftl a b) (at level 38, left associativity) : c_scope.
Notation "a >>> b" := (Z.shiftr a b) (at level 38, left associativity) : c_scope.
Notation "a .&~ b" := (Z.land a (Z.lnot b)) (at level 40, left associativity) : c_scope.
Open Scope c_scope.

(** [if (x)] / [!!x] on an integer, and a truth value used as an integer. *)
Definition ctrue (x : Z) : bool := negb (x =? 0).
Definition cbool (b : bool) : Z := if b then 1 else 0.

(** ** Arrays indexed by C integers: out of range is [None] (undefined). *)
Definition arr_get {A} (l : list A) (i : Z) : option A :=
  if decide (0 <= i) then l !! Z.to_nat i else None.
Definition arr_set {A} (l : list A) (i : Z) (x : A) : option (list A) :=
  if decide (0 <= i < Z.of_nat (length l)) then Some (<[Z.to_nat i := x]> l) else None.

(** [memcpy (&dst[off], src, n)] for [src] already cut to [n] bytes. *)
Definition memcpy {A} (dst : list A) (off : Z) (src : list A) : option (list A) :=
  if decide (0 <= off /\ off + Z.of_nat (length src) <= Z.of_nat (length dst))
  then Some (take (Z.to_nat off) dst ++ src ++ drop (Z.to_nat off + length src) dst)
  else None.

(** ** Range lemmas *)
Create HintDb cint.

Lemma wrap_range w x : 0 <= w -> in_width w (wrap w x).
Proof. intros ?. apply Z.mod_pos_bound. lia. Qed.

Lemma wrap_id w x : in_width w x -> wrap w x = x.
Proof. intros ?. by apply Z.mod_small. Qed.

Lemma wrap_wrap w x : 0 <= w -> wrap w (wrap w x) = wrap w x.
Proof. intros ?. by apply wrap_id, wrap_range. Qed.

Lemma wrap_add_wrap_l w x y : wrap w (wrap w x + y) = wrap w (x + y).
Proof. unfold wrap. by rewrite Zplus_mod_idemp_l. Qed.

Lemma wrap_add_wrap_r w x y : wrap w (x + wrap w y) = wrap w (x + y).
Proof. unfold wrap. by rewrite Zplus_mod_idemp_r. Qed.

Lemma in_width_testbit w x :
  0 <= w -> in_width w x <-> 0 <= x /\ forall i, w <= i -> Z.testbit x i = false.
Proof.
  intros Hw. split.
  - intros [Hx Hlt]. split; [done|]. intros i Hi.
    destruct (decide (x = 0)) as [->|]; [apply Z.testbit_0_l|].
    apply Z.bits_above_log2; [done|]. apply Z.log2_lt_pow2; [lia|].
    apply Z.lt_le_trans with (2 ^ w); [done|]. apply Z.pow_le_mono_r; lia.
  - intros [Hx Hb]. split; [done|].
    assert (x = x `mod` 2 ^ w) as ->; [|apply Z.mod_pos_bound; lia].
    rewrite <- Z.land_ones by done. apply Z.bits_inj'. intros i Hi.
    rewrite Z.land_spec. destruct (decide (i < w)).
    + rewrite Z.ones_spec_low by lia. by rewrite andb_true_r.
    + rewrite Hb by lia. done.
Qed.

Lemma in_width_land_l w x y : 0 <= w -> in_width w x -> in_width w (x .& y).
Proof.
  intros Hw. rewrite !in_width_testbit by done. intros [Hx Hb]. split.
  - apply Z.land_nonneg. by left.
  - intros i Hi. by rewrite Z.land_spec, Hb.
Qed.

Lemma in_width_land_r w x y : 0 <= w -> in_width w y -> in_width w (x .& y).
Proof. intros. rewrite Z.land_comm. by apply in_width_land_l. Qed.

Lemma in_width_lor w x y :
  0 <= w -> in_width w x -> in_width w y -> in_width w (x .| y).
Proof.
  intros Hw. rewrite !in_width_testbit by done. intros [Hx Hb] [Hy Hc]. split.
  - by apply Z.lor_nonneg.
  - intros i Hi. by rewrite Z.lor_spec, Hb, Hc.
Qed.

Lemma in_width_lxor w x y :
  0 <= w -> in_width w x -> in_width w y -> in_width w (x .^ y).
Proof.
  intros Hw. rewrite !in_width_testbit by done. intros [Hx Hb] [Hy Hc]. split.
  - by apply Z.lxor_nonneg.
  - intros i Hi. by rewrite Z.lxor_spec, Hb, Hc.
Qed.

Lemma in_width_shiftr w x k : 0 <= w -> 0 <= k -> in_width w x -> in_width w (x >>> k).
Proof.
  intros Hw Hk. rewrite !in_width_testbit by done. intros [Hx Hb]. split.
  - by apply Z.shiftr_nonneg.
  - intros i Hi. rewrite Z.shiftr_spec by lia. apply Hb. lia.
Qed.

Lemma in_width_mono w w' x : 0 <= w <= w' -> in_width w x -> in_width w' x.
Proof.
  intros Hw [? Hlt]. split; [done|]. apply Z.lt_le_trans with (2 ^ w); [done|].
  apply Z.pow_le_mono_r; lia.
Qed.

Lemma in_width_cbool b : in_width 1 (cbool b).
Proof. by destruct b. Qed.

#[export] Hint Resolve in_width_land_l in_width_land_r in_width_lor in_width_lxor
  in_width_shiftr : cint.
#[export] Hint Extern 1 (in_width _ (wrap _ _)) => (apply wrap_range; lia) : cint.
#[export] Hint Extern 2 (0 <= _) => lia : cint.
#[export] Hint Extern 2 (in_width _ (Zpos _)) => (unfold in_width; lia) : cint.
#[export] Hint Extern 2 (in_width _ Z0) => (unfold in_width; lia) : cint.

(** Discharges range goals by the closure lemmas above. *)
Ltac width := first [assumption | by eauto 8 with cint | unfold in_width in *; lia].

(** ** Masks and packed words *)

Lemma land_pow2 n k : 0 <= k -> n .& 2 ^ k = if Z.testbit n k then 2 ^ k else 0.
Proof.
  intros Hk. apply Z.bits_inj'. intros i Hi. rewrite Z.land_spec.
  destruct (decide (i = k)) as [->|Hne].
  - rewrite Z.pow2_bits_true by done. destruct (Z.testbit n k).
    + by rewrite Z.pow2_bits_true.
    + by rewrite Z.testbit_0_l.
  - rewrite Z.pow2_bits_false by done. rewrite andb_false_r.
    destruct (Z.testbit n k); [by rewrite Z.pow2_bits_false|by rewrite Z.testbit_0_l].
Qed.

Lemma ctrue_bit n k : 0 <= k -> ctrue (n .& 2 ^ k) = Z.testbit n k.
Proof.
  intros Hk. rewrite land_pow2 by done. unfold ctrue.
  destruct (Z.testbit n k); [|done]. apply negb_true_iff, Z.eqb_neq. by apply Z.pow_nonzero.
Qed.

Lemma shiftl_1 k : 0 <= k -> 1 <<< k = 2 ^ k.
Proof. intros. rewrite Z.shiftl_mul_pow2 by done. lia. Qed.

Lemma u8_bit k : 0 <= k < 8 -> u8 (1 <<< k) = 2 ^ k.
Proof.
  intros Hk. rewrite shiftl_1 by lia. apply wrap_id. split; [lia|]. apply Z.pow_lt_mono_r; lia.
Qed.

Lemma wrap_testbit w x i : 0 <= w -> Z.testbit (wrap w x) i = (i <? w) && Z.testbit x i.
Proof.
  intros Hw. unfold wrap. destruct (Z.ltb_spec i w).
  - by apply Z.mod_pow2_bits_low.
  - by apply Z.mod_pow2_bits_high.
Qed.

Lemma lor_bit n k i : 0 <= k -> Z.testbit (n .| 2 ^ k) i = Z.testbit n i || (i =? k).
Proof.
  intros. rewrite Z.lor_spec. f_equal. rewrite Z.pow2_bits_eqb by done. apply Z.eqb_sym.
Qed.

Lemma ldiff_bit n k i : 0 <= k -> 0 <= i -> Z.testbit (n .&~ 2 ^ k) i = Z.testbit n i && negb (i =? k).
Proof.
  intros. rewrite Z.land_spec, Z.lnot_spec, Z.pow2_bits_eqb by done. by rewrite (Z.eqb_sym k).
Qed.

(** The top bit of a word decides whether it is in the upper half. *)
Lemma testbit_top n k : 0 <= k -> in_width (k + 1) n -> Z.testbit n k = (2 ^ k <=? n).
Proof.
  intros Hk [Hn Hlt]. rewrite Z.pow_add_r in Hlt by lia.
  destruct (Z.leb_spec (2 ^ k) n) as [Hle|Hle].
  - apply Z.testbit_true; [done|]. replace (n `div` 2 ^ k) with 1; [done|].
    apply Z.div_unique with (n - 2 ^ k); lia.
  - apply Z.testbit_false; [done|]. by rewrite Z.div_small.
Qed.

Lemma lor_shiftl_add n m k : 0 <= k -> in_width k n -> n .| (m <<< k) = n + m * 2 ^ k.
Proof.
  intros Hk Hn. rewrite <- Z.shiftl_mul_pow2 by done.
  assert (n .& (m <<< k) = 0) as E.
  { apply Z.bits_inj'. intros i Hi. rewrite Z.land_spec, Z.testbit_0_l.
    apply in_width_testbit in Hn as [_ Hb]; [|done]. destruct (decide (i < k)).
    - rewrite Z.shiftl_spec_low by lia. apply andb_false_r.
    - rewrite Hb by lia. done. }
  rewrite Z.add_nocarry_lxor by done. by rewrite Z.lxor_lor.
Qed.

Lemma land_mask n k : 0 <= k -> n .& Z.ones k = n `mod` 2 ^ k.
Proof. apply Z.land_ones. Qed.

(** Writing the low byte of a 16-bit word, then reading it back. *)
Lemma low_byte x v : in_width 8 v -> ((x .& 0xff00) .| v) .& 0x00ff = v.
Proof.
  intros Hv. apply Z.bits_inj'. intros i Hi. rewrite Z.land_spec, Z.lor_spec, Z.land_spec.
  change 0x00ff with (Z.ones 8). change 0xff00 with (Z.ones 8 <<< 8). destruct (decide (i < 8)).
  - by rewrite Z.shiftl_spec_low, andb_false_r, Z.ones_spec_low, andb_true_r by lia.
  - rewrite Z.ones_spec_high, andb_false_r by lia. symmetry. apply (in_width_testbit 8); [lia|done|lia].
Qed.

Lemma swrap_range w x : 0 < w -> - 2 ^ (w - 1) <= swrap w x < 2 ^ (w - 1).
Proof.
  intros Hw. unfold swrap. assert (2 ^ w = 2 ^ (w - 1) + 2 ^ (w - 1)) as ->.
  { replace w with ((w - 1) + 1) at 1 by lia. rewrite Z.pow_add_r by lia. lia. }
  pose proof (Z.mod_pos_bound (x + 2 ^ (w - 1)) (2 ^ (w - 1) + 2 ^ (w - 1)) ltac:(lia)). lia.
Qed.

Lemma swrap_id w x : 0 < w -> - 2 ^ (w - 1) <= x < 2 ^ (w - 1) -> swrap w x = x.
Proof.
  intros Hw Hx. assert (2 ^ w = 2 ^ (w - 1) + 2 ^ (w - 1)).
  { replace w with ((w - 1) + 1) at 1 by lia. rewrite Z.pow_add_r by lia. lia. }
  unfold swrap. rewrite Z.mod_small by lia. lia.
Qed.

(** [swrap] keeps the value modulo the width. *)
Lemma swrap_wrap w x : wrap w (swrap w x) = wrap w x.
Proof. unfold wrap, swrap. rewrite Zminus_mod_idemp_l. f_equal. lia. Qed.

Lemma wrap_sub_idemp w x y : wrap w (wrap w x - y) = wrap w (x - y).
Proof. unfold wrap. by rewrite Zminus_mod_idemp_l. Qed.

(** ** Exhaustive reasoning on bytes *)

Lemma u8_forallb (P : Z -> bool) :
  forallb P (map Z.of_nat (seq 0 256)) = true -> forall x, is_u8 x -> P x = true.
Proof.
  rewrite forallb_forall. intros H x [Hx0 Hx]. apply H.
  apply in_map_iff. exists (Z.to_nat x). split; [lia|]. apply in_seq. lia.
Qed.

(** The same for a property that is no test: the 256 cases are goals. *)
Lemma u8_cases (P : Z -> Prop) :
  Forall P (map Z.of_nat (seq 0 256)) -> forall x, is_u8 x -> P x.
Proof.
  rewrite List.Forall_forall. intros H x [Hx0 Hx]. apply H.
  apply in_map_iff. exists (Z.to_nat x). split; [lia|]. apply in_seq. lia.
Qed.

(** Checks the 256 cases of a goal [P x] for a byte [x] by computation. *)
Ltac byte_cases x :=
  revert x; apply u8_cases; cbn [map seq];
  repeat (apply Forall_cons_2; [reflexivity|]); constructor.

(** Decides every comparison of the goal and the hypotheses and closes what
    arithmetic refutes. *)
Ltac decide_z :=
  repeat match goal with
  | |- context [?x =? ?y] => destruct (Z.eqb_spec x y)
  | |- context [?x <? ?y] => destruct (Z.ltb_spec x y)
  | |- context [?x <=? ?y] => destruct (Z.leb_spec x y)
  | _ : context [?x =? ?y] |- _ => destruct (Z.eqb_spec x y)
  | _ : context [?x <? ?y] |- _ => destruct (Z.ltb_spec x y)
  | _ : context [?x <=? ?y] |- _ => destruct (Z.leb_spec x y)
  end; try done; try lia; try (exfalso; lia).

Lemma odd_mod x : Z.odd x = (x `mod` 2 =? 1).
Proof. rewrite Zmod_odd. by destruct (Z.odd x). Qed.

(** ** Lists *)

Lemma arr_get_Some {A} (l : list A) i x :
  arr_get l i = Some x <-> 0 <= i /\ l !! Z.to_nat i = Some x.
Proof. unfold arr_get. case_decide; naive_solver. Qed.

Lemma arr_get_lt {A} (l : list A) i :
  0 <= i < Z.of_nat (length l) -> exists x, arr_get l i = Some x.
Proof.
  intros Hi. unfold arr_get. rewrite decide_True by lia.
  apply lookup_lt_is_Some. lia.
Qed.

Lemma arr_set_Some {A} (l : list A) i x :
  0 <= i < Z.of_nat (length l) -> arr_set l i x = Some (<[Z.to_nat i := x]> l).
Proof. intros. unfold arr_set. by rewrite decide_True. Qed.

Lemma Forall_nth_default {A} (P : A -> Prop) l d n : Forall P l -> P d -> P (nth n l d).
Proof.
  intros Hl Hd. destruct (nth_in_or_default n l d) as [Hin| ->]; [|done].
  rewrite Forall_forall in Hl. by apply Hl, list_elem_of_In.
Qed.

(** [slice l off n]: the [n] elements from [off], when they all exist. *)
Definition slice {A} (l : list A) (off n : Z) : option (list A) :=
  if decide (0 <= off /\ 0 <= n /\ off + n <= Z.of_nat (length l))
  then Some (take (Z.to_nat n) (drop (Z.to_nat off) l))
  else None.

Lemma memcpy_lookup {A} (dst : list A) off src r :
  memcpy dst off src = Some r ->
  length r = length dst /\
  forall i, r !! i = if decide (off <= Z.of_nat i < off + Z.of_nat (length src))
                     then src !! (i - Z.to_nat off)%nat else dst !! i.
Proof.
  unfold memcpy. case_decide as H; [|done]. intros [= <-].
  assert (length (take (Z.to_nat off) dst) = Z.to_nat off) as Hl
    by (rewrite length_take; lia).
  split; [rewrite !length_app, length_drop; lia|]. intros i.
  case_decide as Hi.
  - rewrite lookup_app_r, Hl by lia. rewrite lookup_app_l by lia. done.
  - destruct (decide (Z.of_nat i < off)).
    + rewrite lookup_app_l by lia. by rewrite lookup_take_lt by lia.
    + rewrite !lookup_app_r by lia. rewrite lookup_drop, Hl. f_equal. lia.
Qed.

Lemma slice_Some {A} (l : list A) off n s :
  slice l off n = Some s ->
  0 <= off /\ 0 <= n /\ off + n <= Z.of_nat (length l) /\ length s = Z.to_nat n /\
  forall i, (i < Z.to_nat n)%nat -> s !! i = l !! (Z.to_nat off + i)%nat.
Proof.
  unfold slice. case_decide as H; [|done]. intros [= <-].
  repeat split; try lia; [rewrite length_take, length_drop; lia|].
  intros i Hi. by rewrite lookup_take_lt, lookup_drop by done.
Qed.

Lemma slice_total {A} (l : list A) off n :
  0 <= off -> 0 <= n -> off + n <= Z.of_nat (length l) -> exists s, slice l off n = Some s.
Proof. intros. unfold slice. rewrite decide_True by lia. eauto. Qed.

Lemma memcpy_total {A} (dst : list A) off src :
  0 <= off -> off + Z.of_nat (length src) <= Z.of_nat (length dst) ->
  exists r, memcpy dst off src = Some r.
Proof. intros. unfold memcpy. rewrite decide_True by lia. eauto. Qed.

(** Sorted lists *)
Lemma StronglySorted_mono {A} (R R' : A -> A -> Prop) (l : list A) :
  (forall a b, a ∈ l -> b ∈ l -> R a b -> R' a b) -> StronglySorted R l -> StronglySorted R' l.
Proof.
  intros HR Hl. induction Hl as [|a l Hl IH Ha]; constructor.
  - apply IH. intros. apply HR; set_solver.
  - rewrite Forall_forall in *. intros b Hb. apply HR; [set_solver..|by apply Ha].
Qed.

Lemma StronglySorted_remove {A} (R : A -> A -> Prop) l1 x l2 :
  StronglySorted R (l1 ++ x :: l2) -> StronglySorted R (l1 ++ l2).
Proof.
  induction l1 as [|a l1 IH]; cbn; intros Hs; inversion Hs; subst; [done|].
  constructor; [by apply IH|]. rewrite Forall_app, Forall_cons in *. tauto.
Qed.

Lemma StronglySorted_insert {A} (R : A -> A -> Prop) l1 x l2 :
  (forall a b c, R a b -> R b c -> R a c) ->
  StronglySorted R (l1 ++ l2) -> (forall y, y ∈ l1 -> R y x) ->
  (forall y, head l2 = Some y -> R x y) -> StronglySorted R (l1 ++ x :: l2).
Proof.
  intros HR Hs H1 H2. induction l1 as [|a l1 IH]; cbn in *.
  - constructor; [done|]. destruct l2 as [|b l2]; [done|]. cbn in H2.
    inversion Hs as [|? ? ? Hb]; subst. constructor; [by apply H2|].
    eapply Forall_impl; [exact Hb|]. intros z ?. apply HR with b; [by apply H2|done].
  - inversion Hs as [|? ? Hs' Ha]; subst. constructor.
    + apply IH; [done|]. intros. apply H1. by right.
    + rewrite Forall_app in Ha |- *. rewrite Forall_cons. split_and!; [tauto| |tauto].
      apply H1. by left.
Qed.

(** A duplicate-free list of keys of a map is no longer than the map. *)
Lemma length_le_size `{Countable K} {V} (m : gmap K V) (l : list K) :
  NoDup l -> (forall x, x ∈ l -> is_Some (m !! x)) -> (length l <= size m)%nat.
Proof.
  intros Hnd Hin. rewrite <- size_dom, <- (size_list_to_set (C := gset K)) by done.
  apply subseteq_size. intros x Hx%elem_of_list_to_set. by apply elem_of_dom, Hin.
Qed.
