(* ===== verification/Fifo8.v ===== *)
(** * Fifo8: the byte FIFO of src/src/utils/fifo8.c

    A circular buffer of [capacity] bytes used by the SCSI, serial and network
    devices.  [Fifo8] is the C structure; each operation is one definition.
    [None] stands for a failed [assert], a division by zero or an access
    outside a buffer.  [contents] is the abstract queue the buffer stands
    for; the theorems show that the operations implement the queue
    operations on [contents] (append, take and drop), wrap-around included. *)
From S2P Require Import Prelude.

(** [data] is [NULL] ([None]) after [fifo8_destroy]. *)
Record Fifo8 := mkFifo8 {
  data : option (list Z);
  capacity : Z;
  head : Z;
  num : Z;
}.

Definition fifo8_reset (f : Fifo8) : Fifo8 :=
  f <| num := 0 |> <| head := 0 |>.

(** [calloc] is assumed to succeed. *)
Definition fifo8_create (f : Fifo8) (cap : Z) : Fifo8 :=
  fifo8_reset (f <| data := Some (replicate (Z.to_nat cap) 0) |> <| capacity := cap |>).

Definition fifo8_destroy (f : Fifo8) : Fifo8 :=
  match data f with Some _ => f <| data := None |> | None => f end.

Definition fifo8_push (f : Fifo8) (b : Z) : option Fifo8 :=
  if num f <? capacity f then
    d ← data f;
    d' ← arr_set d (u32 (head f + num f) `mod` capacity f) b;
    Some (f <| data := Some d' |> <| num := u32 (num f + 1) |>)
  else None.

(** The [memcpy] calls of [fifo8_push_all]: one, or two across the wrap. *)
Definition push_copy (d : list Z) (start cap : Z) (src : list Z) (n : Z) : option (list Z) :=
  if u32 (start + n) <=? cap then
    s ← slice src 0 n;
    memcpy d start s
  else
    let avail := u32 (cap - start) in
    s1 ← slice src 0 avail;
    d1 ← memcpy d start s1;
    s2 ← slice src avail (u32 (n - avail));
    memcpy d1 0 s2.

Definition fifo8_push_all (f : Fifo8) (src : list Z) (n : Z) : option Fifo8 :=
  if (u32 (num f + n) <=? capacity f) && negb (capacity f =? 0) then
    d ← data f;
    let start := u32 (head f + num f) `mod` capacity f in
    d' ← push_copy d start (capacity f) src n;
    Some (f <| data := Some d' |> <| num := u32 (num f + n) |>)
  else None.

Definition fifo8_pop (f : Fifo8) : option (Fifo8 * Z) :=
  if 0 <? num f then
    d ← data f;
    ret ← arr_get d (head f);
    if capacity f =? 0 then None else
    Some (f <| head := u32 (head f + 1) `mod` capacity f |> <| num := u32 (num f - 1) |>, ret)
  else None.

(** The returned pointer [&fifo->data[fifo->head]] is the index [head f]; the
    third component is [*numptr]. *)
Definition fifo8_peekpop_buf (f : Fifo8) (max : Z) (do_pop : bool) : option (Fifo8 * Z * Z) :=
  if (0 <? max) && (max <=? num f) then
    let n := Z.min (u32 (capacity f - head f)) max in
    if do_pop then
      if capacity f =? 0 then None else
      Some (f <| head := u32 (head f + n) `mod` capacity f |> <| num := u32 (num f - n) |>,
            head f, n)
    else Some (f, head f, n)
  else None.

Definition fifo8_peek_bufptr (f : Fifo8) (max : Z) : option (Fifo8 * Z * Z) :=
  fifo8_peekpop_buf f max false.

Definition fifo8_pop_bufptr (f : Fifo8) (max : Z) : option (Fifo8 * Z * Z) :=
  fifo8_peekpop_buf f max true.

Definition fifo8_is_empty (f : Fifo8) : bool := num f =? 0.
Definition fifo8_is_full (f : Fifo8) : bool := num f =? capacity f.
Definition fifo8_num_free (f : Fifo8) : Z := u32 (capacity f - num f).
Definition fifo8_num_used (f : Fifo8) : Z := num f.

(** [if (dest) memcpy (&dest[at], &fifo->data[buf], n)]. *)
Definition copy_out (f : Fifo8) (dest : option (list Z)) (off buf n : Z)
    : option (option (list Z)) :=
  match dest with
  | None => Some None
  | Some b =>
      d ← data f;
      s ← slice d buf n;
      b' ← memcpy b off s;
      Some (Some b')
  end.

(** Returns the number of bytes popped; [dest] may be [NULL] ([None]). *)
Definition fifo8_pop_buf (f : Fifo8) (dest : option (list Z)) (destlen : Z)
    : option (Fifo8 * option (list Z) * Z) :=
  if destlen =? 0 then Some (f, dest, 0) else
  '(f1, buf, n1) ← fifo8_pop_bufptr f destlen;
  dest1 ← copy_out f1 dest 0 buf n1;
  let len := Z.min (u32 (destlen - n1)) (fifo8_num_used f1) in
  if len =? 0 then Some (f1, dest1, n1) else
  '(f2, buf2, n2) ← fifo8_pop_bufptr f1 len;
  dest2 ← copy_out f2 dest1 n1 buf2 n2;
  Some (f2, dest2, u32 (n1 + n2)).

Definition fifo8_drop (f : Fifo8) (len : Z) : option Fifo8 :=
  '(f', _, n) ← fifo8_pop_buf f None len;
  if u32 (len - n) =? 0 then Some f' else None.

(** ** Invariant and abstraction *)

Record fifo8_wf (f : Fifo8) : Prop := {
  wf_data : exists d, data f = Some d /\ Z.of_nat (length d) = capacity f;
  wf_capacity : 0 < capacity f <= 2 ^ 31;
  wf_head : 0 <= head f < capacity f;
  wf_num : 0 <= num f <= capacity f;
}.

(** Slot of the [i]-th oldest byte. *)
Definition slot (f : Fifo8) (i : Z) : Z := (head f + i) `mod` capacity f.

(** The queue, oldest byte first. *)
Definition contents (f : Fifo8) : list Z :=
  match data f with
  | None => []
  | Some d => (fun i => nth (Z.to_nat (slot f (Z.of_nat i))) d 0) <$> seq 0 (Z.to_nat (num f))
  end.

Lemma length_contents f : fifo8_wf f -> Z.of_nat (length (contents f)) = num f.
Proof.
  intros [[d [Hd Hl]] Hc Hh Hn]. unfold contents. rewrite Hd, length_fmap, length_seq. lia.
Qed.

Lemma contents_lookup f d (i : nat) :
  fifo8_wf f -> data f = Some d -> Z.of_nat i < num f ->
  contents f !! i = d !! Z.to_nat (slot f (Z.of_nat i)).
Proof.
  intros [[d' [Hd' Hl]] Hc Hh Hn] Hd Hi.
  rewrite Hd in Hd'. injection Hd' as <-. unfold contents. rewrite Hd.
  rewrite list_lookup_fmap, lookup_seq_lt by lia. cbn.
  pose proof (Z.mod_pos_bound (head f + Z.of_nat i) (capacity f) ltac:(lia)) as Hs.
  fold (slot f (Z.of_nat i)) in Hs.
  destruct (d !! Z.to_nat (slot f (Z.of_nat i))) as [x|] eqn:E.
  - f_equal. apply nth_lookup_Some with (d := 0) in E. exact E.
  - apply lookup_ge_None in E. lia.
Qed.

(** Two queues are equal when they have the same slots. *)
Lemma contents_ext f d l :
  fifo8_wf f -> data f = Some d -> Z.of_nat (length l) = num f ->
  (forall i : nat, Z.of_nat i < num f -> d !! Z.to_nat (slot f (Z.of_nat i)) = l !! i) ->
  contents f = l.
Proof.
  intros Hwf Hd Hl Hi. apply list_eq. intros i.
  destruct (decide (Z.of_nat i < num f)) as [Hlt|Hge].
  - rewrite (contents_lookup f d); [by apply Hi|done..].
  - rewrite !lookup_ge_None_2; [done| |]; [lia|].
    pose proof (length_contents f Hwf). lia.
Qed.

(** Slots are computed without 32-bit wrap-around under the invariant. *)
Lemma slot_u32 f : fifo8_wf f -> u32 (head f + num f) `mod` capacity f = slot f (num f).
Proof. intros [? Hc Hh Hn]. unfold slot. by rewrite wrap_id by (unfold in_width; lia). Qed.

(** A slot is either before or after the wrap. *)
Lemma slot_cases f i :
  fifo8_wf f -> 0 <= i <= capacity f ->
  (slot f i = head f + i /\ head f + i < capacity f) \/
  (slot f i = head f + i - capacity f /\ capacity f <= head f + i).
Proof.
  intros [? Hc Hh Hn] Hi. unfold slot.
  destruct (decide (head f + i < capacity f)).
  - left. split; [apply Z.mod_small; lia|done].
  - right. split; [|lia]. symmetry. apply Z.mod_unique with 1; lia.
Qed.

(** ** Helper lemmas: growing at the tail, advancing the head *)

(** Storing new bytes in the free slots and raising [num] appends them. *)
Lemma contents_grow f d d' l :
  fifo8_wf f -> data f = Some d -> length d' = length d ->
  num f + Z.of_nat (length l) <= capacity f ->
  (forall i : nat, Z.of_nat i < num f ->
     d' !! Z.to_nat (slot f (Z.of_nat i)) = d !! Z.to_nat (slot f (Z.of_nat i))) ->
  (forall i : nat, (i < length l)%nat ->
     d' !! Z.to_nat (slot f (num f + Z.of_nat i)) = l !! i) ->
  let f' := f <| data := Some d' |> <| num := num f + Z.of_nat (length l) |> in
  fifo8_wf f' /\ contents f' = contents f ++ l.
Proof.
  intros Hwf Hd Hlen Hle Hold Hnew f'.
  pose proof Hwf as [[d0 [Hd0 Hl]] Hc Hh Hn]. rewrite Hd in Hd0. injection Hd0 as <-.
  assert (fifo8_wf f') as Hwf'.
  { split; cbn; try lia. exists d'. split; [done|lia]. }
  split; [done|]. pose proof (length_contents f Hwf) as HL.
  apply (contents_ext f' d'); [done|done| |].
  { rewrite length_app. cbn. lia. }
  intros i Hi. cbn in Hi. change (slot f' (Z.of_nat i)) with (slot f (Z.of_nat i)).
  destruct (decide (Z.of_nat i < num f)).
  - rewrite lookup_app_l by lia. rewrite (contents_lookup f d); [by apply Hold|done..].
  - rewrite lookup_app_r by lia. rewrite <- Hnew by lia. do 2 f_equal. f_equal. lia.
Qed.

(** Advancing [head] by [n] bytes drops them from the queue. *)
Lemma contents_advance f n :
  fifo8_wf f -> 0 <= n <= num f ->
  let f' := f <| head := u32 (head f + n) `mod` capacity f |> <| num := u32 (num f - n) |> in
  fifo8_wf f' /\ contents f' = drop (Z.to_nat n) (contents f) /\ num f' = num f - n.
Proof.
  intros Hwf Hn f'. pose proof Hwf as [[d [Hd Hl]] Hc Hh Hnum].
  assert (num f' = num f - n) as Hnum' by (cbn; apply wrap_id; unfold in_width; lia).
  assert (head f' = slot f n) as Hh'.
  { cbn. unfold slot. by rewrite wrap_id by (unfold in_width; lia). }
  assert (fifo8_wf f') as Hwf'.
  { split; [by exists d|done| |rewrite Hnum'; cbn; lia].
    rewrite Hh'. cbn. apply Z.mod_pos_bound. lia. }
  split_and!; [done| |done]. pose proof (length_contents f Hwf) as HL.
  apply (contents_ext f' d); [done|done| |].
  { rewrite length_drop. lia. }
  intros i Hi. rewrite lookup_drop, (contents_lookup f d); [|done|done|lia].
  do 2 f_equal. unfold slot at 1. rewrite Hh'. unfold slot. cbn.
  rewrite Zplus_mod_idemp_l. f_equal. lia.
Qed.

(** The [n] bytes from the read pointer, up to the wrap, are a prefix. *)
Lemma slice_contents f d n :
  fifo8_wf f -> data f = Some d -> 0 <= n <= num f -> head f + n <= capacity f ->
  slice d (head f) n = Some (take (Z.to_nat n) (contents f)).
Proof.
  intros Hwf Hd Hn Hle. pose proof Hwf as [[d0 [Hd0 Hl]] Hc Hh Hnum].
  rewrite Hd in Hd0. injection Hd0 as <-. pose proof (length_contents f Hwf) as HL.
  unfold slice. rewrite decide_True by lia. f_equal. apply list_eq. intros i.
  destruct (decide (i < Z.to_nat n)%nat) as [Hi|Hi].
  - rewrite !lookup_take_lt by done. rewrite lookup_drop, (contents_lookup f d); [|done|done|lia].
    destruct (slot_cases f (Z.of_nat i) Hwf) as [[-> ?]|[-> ?]]; [lia|f_equal; lia|lia].
  - rewrite !lookup_ge_None_2; [done| |]; rewrite length_take; lia.
Qed.

(** The data after the one or two [memcpy] of [fifo8_push_all]. *)
Lemma push_all_data f d src n :
  fifo8_wf f -> data f = Some d -> 0 <= n <= Z.of_nat (length src) -> n < 2 ^ 31 ->
  num f + n <= capacity f ->
  exists d', push_copy d (slot f (num f)) (capacity f) src n = Some d' /\ length d' = length d /\
          (forall i, 0 <= i < num f -> d' !! Z.to_nat (slot f i) = d !! Z.to_nat (slot f i)) /\
          (forall i : nat, (i < Z.to_nat n)%nat ->
             d' !! Z.to_nat (slot f (num f + Z.of_nat i)) = src !! i).
Proof.
  intros Hwf Hd Hn Hn31 Hle. pose proof Hwf as [[d0 [Hd0 Hl]] Hc Hh Hnum].
  rewrite Hd in Hd0. injection Hd0 as <-.
  pose proof (slot_cases f (num f) Hwf ltac:(lia)) as Hs. unfold push_copy.
  rewrite (wrap_id 32 (slot f (num f) + n)) by (unfold in_width; lia).
  destruct (Z.leb_spec (slot f (num f) + n) (capacity f)) as [Hfit|Hfit].
  - destruct (slice_total src 0 n) as [s Es]; [lia..|]. rewrite Es. cbn [mbind option_bind].
    apply slice_Some in Es as (_ & _ & _ & Hls & Hs').
    destruct (memcpy_total d (slot f (num f)) s) as [d' Ed]; [lia..|].
    exists d'. apply memcpy_lookup in Ed as Hd'. destruct Hd' as [Hlen Hlk].
    split_and!; [done|done| |].
    + intros i Hi. rewrite Hlk. case_decide; [|done].
      destruct (slot_cases f i Hwf); lia.
    + intros i Hi.
      destruct (slot_cases f (num f + Z.of_nat i) Hwf ltac:(lia)) as [[E ?]|[E ?]]; rewrite E, Hlk, decide_True by lia;
        rewrite Hs' by lia; f_equal; lia.
  - cbn zeta. rewrite (wrap_id 32 (capacity f - _)) by (unfold in_width; lia).
    set (avail := capacity f - slot f (num f)) in *.
    rewrite (wrap_id 32 (n - avail)) by (unfold in_width; lia).
    destruct (slice_total src 0 avail) as [s1 Es1]; [lia..|]. rewrite Es1. cbn [mbind option_bind].
    apply slice_Some in Es1 as (_ & _ & _ & Hls1 & Hs1).
    destruct (memcpy_total d (slot f (num f)) s1) as [d1 Ed1]; [lia..|]. rewrite Ed1. cbn [mbind option_bind].
    apply memcpy_lookup in Ed1 as [Hlen1 Hlk1].
    destruct (slice_total src avail (n - avail)) as [s2 Es2]; [lia..|]. rewrite Es2. cbn [mbind option_bind].
    apply slice_Some in Es2 as (_ & _ & _ & Hls2 & Hs2).
    destruct (memcpy_total d1 0 s2) as [d' Ed']; [lia..|].
    exists d'. apply memcpy_lookup in Ed' as Hd'. destruct Hd' as [Hlen' Hlk'].
    split_and!; [done|lia| |].
    + intros i Hi. destruct (slot_cases f i Hwf ltac:(lia)) as [[E ?]|[E ?]]; rewrite E, Hlk', decide_False by lia;
        rewrite Hlk1, decide_False by lia; done.
    + intros i Hi. destruct (slot_cases f (num f + Z.of_nat i) Hwf ltac:(lia)) as [[E ?]|[E ?]]; rewrite E, Hlk'.
      * rewrite decide_False, Hlk1, decide_True by lia. rewrite Hs1 by lia. f_equal. lia.
      * rewrite decide_True by lia. rewrite Hs2 by lia. f_equal. lia.
Qed.

(** ** Each operation against the queue *)

(** [fifo8_push] appends one byte; its [assert] fails exactly on a full FIFO. *)
Lemma fifo8_push_spec f b :
  fifo8_wf f ->
  match fifo8_push f b with
  | Some f' => num f < capacity f /\ fifo8_wf f' /\ contents f' = contents f ++ [b]
  | None => fifo8_is_full f = true
  end.
Proof.
  intros Hwf. pose proof Hwf as [[d [Hd Hl]] Hc Hh Hn]. unfold fifo8_push, fifo8_is_full.
  destruct (Z.ltb_spec (num f) (capacity f)); [|lia]. rewrite Hd. cbn [mbind option_bind].
  rewrite slot_u32 by done. pose proof (slot_cases f (num f) Hwf ltac:(lia)) as Hs.
  rewrite arr_set_Some by lia. cbn [mbind option_bind]. split; [done|].
  rewrite wrap_id by (unfold in_width; lia).
  apply (contents_grow f d _ [b]); [done|done|by rewrite length_insert|cbn; lia| |].
  - intros i Hi. apply list_lookup_insert_ne.
    destruct (slot_cases f (Z.of_nat i) Hwf ltac:(lia)); lia.
  - intros [|i] Hi; [|cbn in Hi; lia]. rewrite Z.add_0_r.
    apply list_lookup_insert_eq. lia.
Qed.

(** [fifo8_push_all] appends the first [n] bytes of the source, wrap
    included; its [assert] fails exactly when they do not fit. *)
Lemma fifo8_push_all_spec f src n :
  fifo8_wf f -> 0 <= n <= Z.of_nat (length src) -> n < 2 ^ 31 ->
  match fifo8_push_all f src n with
  | Some f' => n <= fifo8_num_free f /\ fifo8_wf f' /\
               contents f' = contents f ++ take (Z.to_nat n) src
  | None => fifo8_num_free f < n
  end.
Proof.
  intros Hwf Hn Hn31. pose proof Hwf as [[d [Hd Hl]] Hc Hh Hnum].
  unfold fifo8_push_all, fifo8_num_free.
  rewrite (wrap_id 32 (num f + n)) by (unfold in_width; lia).
  rewrite (wrap_id 32 (capacity f - num f)) by (unfold in_width; lia).
  destruct (Z.leb_spec (num f + n) (capacity f)); [|cbn [andb]; lia].
  destruct (Z.eqb_spec (capacity f) 0); [lia|]. cbn [andb negb].
  rewrite Hd. cbn [mbind option_bind]. rewrite slot_u32 by done.
  destruct (push_all_data f d src n)
    as (d' & -> & Hld & Hold & Hnew); [done..|].
  cbn [mbind option_bind]. split; [lia|].
  assert (length (take (Z.to_nat n) src) = Z.to_nat n) as Hlt by (rewrite length_take; lia).
  pose proof (contents_grow f d d' (take (Z.to_nat n) src) Hwf Hd Hld) as Hg.
  rewrite Hlt, Z2Nat.id in Hg by lia. apply Hg; [lia| |].
  - intros i Hi. apply Hold. lia.
  - intros i Hi. rewrite lookup_take_lt by done. by apply Hnew.
Qed.

(** The read side of one run of [fifo8_pop_buf]: the run stops at the wrap. *)
Lemma pop_bufptr_run f d n dest off :
  fifo8_wf f -> data f = Some d -> 0 < n <= num f ->
  0 <= off -> off + n <= Z.of_nat (length dest) ->
  exists f' k dest',
    fifo8_pop_bufptr f n = Some (f', head f, k) /\
    k = Z.min (capacity f - head f) n /\
    copy_out f' (Some dest) off (head f) k = Some (Some dest') /\
    dest' = take (Z.to_nat off) dest ++ take (Z.to_nat k) (contents f)
            ++ drop (Z.to_nat off + Z.to_nat k) dest /\
    fifo8_wf f' /\ data f' = Some d /\ contents f' = drop (Z.to_nat k) (contents f) /\
    num f' = num f - k /\ (k < n -> head f' = 0) /\ capacity f' = capacity f.
Proof.
  intros Hwf Hd Hn Hoff Hdest. pose proof Hwf as [[d0 [Hd0 Hl]] Hc Hh Hnum].
  pose proof (length_contents f Hwf) as HL.
  unfold fifo8_pop_bufptr, fifo8_peekpop_buf.
  destruct (Z.ltb_spec 0 n); [|lia]. destruct (Z.leb_spec n (num f)); [|lia]. cbn [andb].
  rewrite (wrap_id 32 (capacity f - head f)) by (unfold in_width; lia).
  set (k := Z.min (capacity f - head f) n).
  destruct (Z.eqb_spec (capacity f) 0); [lia|].
  destruct (contents_advance f k Hwf ltac:(lia)) as (Hwf' & Hcont & Hnum').
  eexists _, k, _. split_and!; [done|done| |reflexivity|exact Hwf'|done|exact Hcont|exact Hnum'| |done].
  - unfold copy_out. cbn [data set]. cbn. rewrite Hd. cbn [mbind option_bind].
    rewrite (slice_contents f d) by (done || lia). cbn [mbind option_bind].
    assert (length (take (Z.to_nat k) (contents f)) = Z.to_nat k) as Hk
      by (rewrite length_take; lia).
    unfold memcpy. rewrite Hk, decide_True by lia. done.
  - intros Hlt. cbn. rewrite (wrap_id 32) by (unfold in_width; lia).
    replace (head f + k) with (capacity f) by lia. apply Z_mod_same_full.
Qed.

(** Two consecutive runs of [k] and [n - k] bytes make one of [n]. *)
Lemma two_runs (c dest : list Z) n k :
  0 < k <= n -> n <= Z.of_nat (length c) -> n <= Z.of_nat (length dest) ->
  let dest1 := take (Z.to_nat 0) dest ++ take (Z.to_nat k) c ++ drop (Z.to_nat 0 + Z.to_nat k) dest in
  take (Z.to_nat k) dest1 ++ take (Z.to_nat (n - k)) (drop (Z.to_nat k) c)
    ++ drop (Z.to_nat k + Z.to_nat (n - k)) dest1
  = take (Z.to_nat n) c ++ drop (Z.to_nat n) dest.
Proof.
  intros Hk Hc Hd. change (Z.to_nat 0) with 0%nat. rewrite take_0. cbn [app Nat.add].
  assert (length (take (Z.to_nat k) c) = Z.to_nat k) as Hlk by (rewrite length_take; lia).
  rewrite take_app_length' by lia. rewrite app_assoc. f_equal.
  - rewrite <- (take_drop (Z.to_nat k) (take (Z.to_nat n) c)), take_take, take_drop_commute.
    f_equal; [|f_equal]; f_equal; lia.
  - rewrite drop_app, drop_drop, Hlk. rewrite (drop_ge (take _ _)) by lia. cbn. f_equal. lia.
Qed.

(** [fifo8_pop_buf] delivers the [n] oldest bytes in order and removes
    them from the queue, in one or two runs; the [assert] fails exactly when
    fewer than [n] bytes are queued. *)
Lemma fifo8_pop_buf_spec f dest n :
  fifo8_wf f -> 0 <= n <= Z.of_nat (length dest) ->
  match fifo8_pop_buf f (Some dest) n with
  | Some (f', dest', k) =>
      n <= num f /\ k = n /\ fifo8_wf f' /\ contents f' = drop (Z.to_nat n) (contents f) /\
      dest' = Some (take (Z.to_nat n) (contents f) ++ drop (Z.to_nat n) dest)
  | None => num f < n
  end.
Proof.
  intros Hwf Hn. pose proof Hwf as [[d [Hd Hl]] Hc Hh Hnum].
  pose proof (length_contents f Hwf) as HL. unfold fifo8_pop_buf.
  destruct (Z.eqb_spec n 0) as [->|Hn0].
  { split_and!; [lia|done|done|by rewrite drop_0|by rewrite drop_0]. }
  destruct (decide (n <= num f)) as [Hle|Hgt].
  2: { unfold fifo8_pop_bufptr, fifo8_peekpop_buf.
       destruct (Z.leb_spec n (num f)); [lia|]. rewrite andb_false_r. cbn. lia. }
  destruct (pop_bufptr_run f d n dest 0 Hwf Hd) as
    (f1 & k & dest1 & -> & Ek & Hcp & Hd1 & Hwf1 & Hdf1 & Hc1 & Hn1 & Hh1 & Hcap1); [lia..|].
  cbn [mbind option_bind]. rewrite Hcp. cbn [mbind option_bind].
  rewrite (wrap_id 32 (n - k)) by (unfold in_width; lia).
  unfold fifo8_num_used. rewrite Hn1, (Z.min_l (n - k)) by lia.
  destruct (Z.eqb_spec (n - k) 0) as [E0|E0].
  { assert (k = n) as -> by lia. rewrite Hd1. done. }
  destruct (pop_bufptr_run f1 d (n - k) dest1 k Hwf1 Hdf1) as
    (f2 & k2 & dest2 & -> & Ek2 & Hcp2 & Hd2 & Hwf2 & _ & Hc2 & Hn2 & _ & _).
  1-2: lia.
  { rewrite Hd1, !length_app, !length_take, length_drop. lia. }
  rewrite Hh1 in Ek2 by lia. assert (k2 = n - k) as -> by lia.
  cbn [mbind option_bind]. rewrite Hcp2. cbn [mbind option_bind].
  rewrite wrap_id by (unfold in_width; lia).
  split_and!; [lia|lia|done| |].
  - rewrite Hc2, Hc1, drop_drop. f_equal. lia.
  - rewrite Hd2, Hd1, Hc1. f_equal. by apply two_runs; lia.
Qed.

(** With [dest == NULL] only the copies are skipped. *)
Lemma pop_buf_null f b n f' b' k :
  fifo8_pop_buf f (Some b) n = Some (f', b', k) ->
  fifo8_pop_buf f None n = Some (f', None, k).
Proof.
  unfold fifo8_pop_buf. destruct (n =? 0); [by intros [= <- <- <-]|].
  destruct (fifo8_pop_bufptr f n) as [[[f1 buf] n1]|]; [|done]. cbn [mbind option_bind].
  destruct (copy_out f1 (Some b) 0 buf n1); [|done]. cbn [mbind option_bind copy_out].
  destruct (_ =? 0); [by intros [= <- <- <-]|].
  destruct (fifo8_pop_bufptr f1 _) as [[[f2 buf2] n2]|]; [|done]. cbn [mbind option_bind].
  destruct (copy_out f2 _ n1 buf2 n2); [|done]. by intros [= <- <- <-].
Qed.

Lemma fifo8_drop_spec f n :
  fifo8_wf f -> 0 <= n ->
  match fifo8_drop f n with
  | Some f' => n <= num f /\ fifo8_wf f' /\ contents f' = drop (Z.to_nat n) (contents f)
  | None => num f < n
  end.
Proof.
  intros Hwf Hn. unfold fifo8_drop.
  pose proof (fifo8_pop_buf_spec f (replicate (Z.to_nat n) 0) n Hwf) as Hs.
  rewrite length_replicate in Hs. specialize (Hs ltac:(lia)).
  destruct (fifo8_pop_buf f (Some _) n) as [[[f' b'] k]|] eqn:E.
  - rewrite (pop_buf_null _ _ _ _ _ _ E). cbn [mbind option_bind].
    destruct Hs as (? & -> & ? & ? & _). by rewrite Z.sub_diag.
  - unfold fifo8_pop_buf, fifo8_pop_bufptr, fifo8_peekpop_buf.
    destruct (Z.eqb_spec n 0); [pose proof (wf_num f Hwf); lia|].
    destruct (Z.leb_spec n (num f)); [lia|]. by rewrite andb_false_r.
Qed.

Lemma fifo8_pop_spec f :
  fifo8_wf f ->
  match fifo8_pop f with
  | Some (f', b) => fifo8_wf f' /\ contents f = b :: contents f'
  | None => contents f = []
  end.
Proof.
  intros Hwf. pose proof Hwf as [[d [Hd Hl]] Hc Hh Hn]. pose proof (length_contents f Hwf) as HL.
  unfold fifo8_pop. destruct (Z.ltb_spec 0 (num f)).
  2: { apply nil_length_inv. lia. }
  rewrite Hd. cbn [mbind option_bind]. destruct (arr_get_lt d (head f)) as [b Hb]; [lia|].
  rewrite Hb. cbn [mbind option_bind]. destruct (Z.eqb_spec (capacity f) 0); [lia|].
  destruct (contents_advance f 1 Hwf ltac:(lia)) as (Hwf' & Hcont & _).
  split; [exact Hwf'|]. cbn [Z.to_nat] in Hcont. change (Z.to_nat 1) with 1%nat in Hcont.
  assert (contents f !! 0%nat = Some b) as H0.
  { rewrite (contents_lookup f d) by (done || cbn; lia).
    apply arr_get_Some in Hb as [_ Hb]. rewrite <- Hb. do 2 f_equal.
    unfold slot. rewrite Z.add_0_r. apply Z.mod_small. lia. }
  rewrite <- (take_drop 1 (contents f)). rewrite <- Hcont.
  destruct (contents f); [done|]. by injection H0 as ->.
Qed.

(** ** Refinement: every sequence of calls behaves as on a bounded queue *)

Inductive op :=
  | Push (b : Z)
  | PushAll (src : list Z)
  | Pop
  | PopBuf (n : Z)
  | Drop (n : Z)
  | Reset.

(** The lengths a caller passes: below 2^31, so that [num + n] does not wrap. *)
Definition op_ok (o : op) : Prop :=
  match o with
  | PushAll src => Z.of_nat (length src) < 2 ^ 31
  | PopBuf n | Drop n => 0 <= n < 2 ^ 31
  | _ => True
  end.

(** One call, with the bytes it returns to the caller. *)
Definition impl_step (f : Fifo8) (o : op) : option (Fifo8 * list Z) :=
  match o with
  | Push b => f' ← fifo8_push f b; Some (f', [])
  | PushAll src => f' ← fifo8_push_all f src (Z.of_nat (length src)); Some (f', [])
  | Pop => '(f', b) ← fifo8_pop f; Some (f', [b])
  | PopBuf n =>
      '(f', dest, _) ← fifo8_pop_buf f (Some (replicate (Z.to_nat n) 0)) n;
      out ← dest; Some (f', out)
  | Drop n => f' ← fifo8_drop f n; Some (f', [])
  | Reset => Some (fifo8_reset f, [])
  end.

(** The specification: a list of at most [cap] bytes, oldest first. *)
Definition spec_step (cap : Z) (q : list Z) (o : op) : option (list Z * list Z) :=
  let enough n := n <=? Z.of_nat (length q) in
  match o with
  | Push b => if Z.of_nat (length q) <? cap then Some (q ++ [b], []) else None
  | PushAll src =>
      if Z.of_nat (length q + length src) <=? cap then Some (q ++ src, []) else None
  | Pop => match q with [] => None | b :: q' => Some (q', [b]) end
  | PopBuf n =>
      if enough n then Some (drop (Z.to_nat n) q, take (Z.to_nat n) q) else None
  | Drop n => if enough n then Some (drop (Z.to_nat n) q, []) else None
  | Reset => Some ([], [])
  end.

(** Runs calls in order and concatenates what they return. *)
Fixpoint run {S} (step : S -> op -> option (S * list Z)) (s : S) (ops : list op)
    : option (S * list Z) :=
  match ops with
  | [] => Some (s, [])
  | o :: ops' =>
      '(s1, out1) ← step s o;
      '(s2, out2) ← run step s1 ops';
      Some (s2, out1 ++ out2)
  end.

(** Same success, same bytes, and the abstraction is maintained. *)
Definition refines (cap : Z) (ri : option (Fifo8 * list Z)) (rs : option (list Z * list Z)) : Prop :=
  match ri, rs with
  | Some (f', out), Some (q', out') =>
      fifo8_wf f' /\ capacity f' = cap /\ contents f' = q' /\ out = out'
  | None, None => True
  | _, _ => False
  end.

(** No operation changes the capacity. *)
Lemma pop_bufptr_capacity f n f' buf k :
  fifo8_pop_bufptr f n = Some (f', buf, k) -> capacity f' = capacity f.
Proof.
  unfold fifo8_pop_bufptr, fifo8_peekpop_buf.
  destruct (_ && _); [|done]. destruct (_ =? 0); [done|]. by intros [= <- _ _].
Qed.

Lemma pop_buf_capacity f dest n f' dest' k :
  fifo8_pop_buf f dest n = Some (f', dest', k) -> capacity f' = capacity f.
Proof.
  unfold fifo8_pop_buf. destruct (n =? 0); [by intros [= <- _ _]|].
  destruct (fifo8_pop_bufptr f n) as [[[f1 buf] n1]|] eqn:E1; [|done]. cbn [mbind option_bind].
  apply pop_bufptr_capacity in E1.
  destruct (copy_out _ _ _ _ _); [|done]. cbn [mbind option_bind].
  destruct (_ =? 0); [by intros [= <- _ _]|].
  destruct (fifo8_pop_bufptr f1 _) as [[[f2 buf2] n2]|] eqn:E2; [|done]. cbn [mbind option_bind].
  apply pop_bufptr_capacity in E2.
  destruct (copy_out _ _ _ _ _); [|done]. intros [= <- _ _]. congruence.
Qed.

Lemma impl_step_capacity f o f' out :
  impl_step f o = Some (f', out) -> capacity f' = capacity f.
Proof.
  destruct o; cbn; unfold fifo8_push, fifo8_push_all, fifo8_pop, fifo8_drop; intros H;
    repeat (apply bind_Some in H as (? & ? & H) || case_match || done); simplify_option_eq;
    repeat case_match; simplify_option_eq; eauto using pop_buf_capacity.
Qed.

(** Rewrites the guard of the specification with the bound in the context. *)
Ltac guard_case :=
  match goal with
  | |- context [?a <? ?b] => destruct (Z.ltb_spec a b); try lia
  | |- context [?a <=? ?b] => destruct (Z.leb_spec a b); try lia
  end.

(** One call refines one step of the bounded queue. *)
Lemma step_refines f o :
  fifo8_wf f -> op_ok o ->
  refines (capacity f) (impl_step f o) (spec_step (capacity f) (contents f) o).
Proof.
  intros Hwf Ho. pose proof (length_contents f Hwf) as HL. pose proof (wf_num f Hwf) as Hn.
  pose proof (wf_capacity f Hwf) as Hc.
  pose proof (impl_step_capacity f o) as Hcap.
  assert (forall f' out, impl_step f o = Some (f', out) -> capacity f' = capacity f) as Hcap' by eauto.
  clear Hcap. destruct o as [b|src| |n|n|]; cbn [op_ok] in Ho; cbn [impl_step spec_step] in *.
  - pose proof (fifo8_push_spec f b Hwf) as Hs. unfold fifo8_is_full in Hs.
    destruct (fifo8_push f b) as [f1|]; cbn; guard_case; naive_solver.
  - pose proof (fifo8_push_all_spec f src (Z.of_nat (length src)) Hwf ltac:(lia) Ho) as Hs.
    unfold fifo8_num_free in Hs. rewrite wrap_id in Hs by (unfold in_width; lia).
    rewrite Nat2Z.id, firstn_all in Hs.
    destruct (fifo8_push_all f src _) as [f1|]; cbn; guard_case; naive_solver.
  - pose proof (fifo8_pop_spec f Hwf) as Hs.
    destruct (fifo8_pop f) as [[f1 b]|]; cbn; [destruct Hs as [? ->]|by rewrite Hs]. naive_solver.
  - pose proof (fifo8_pop_buf_spec f (replicate (Z.to_nat n) 0) n Hwf) as Hs.
    rewrite length_replicate in Hs. specialize (Hs ltac:(lia)).
    destruct (fifo8_pop_buf f _ n) as [[[f1 dest] k]|].
    + destruct Hs as (? & -> & ? & Hq & ->).
      rewrite (drop_ge (replicate _ _)), app_nil_r in * by (rewrite length_replicate; lia).
      cbn in *. guard_case. eauto.
    + cbn. by guard_case.
  - pose proof (fifo8_drop_spec f n Hwf ltac:(lia)) as Hs.
    destruct (fifo8_drop f n) as [f1|]; cbn; guard_case; naive_solver.
  - cbn. split_and!; [|done| |done].
    + destruct Hwf as [? ? ? ?]. by split; cbn; try lia.
    + unfold contents. cbn. by destruct (data f).
Qed.

(** C1: Every sequence of FIFO calls within the size limits succeeds, fails
    its [assert] and returns bytes exactly as on a bounded queue of
    [capacity] bytes; the FIFO stays well formed and stands for the queue. *)
Theorem fifo8_refines_queue f ops :
  fifo8_wf f -> Forall op_ok ops ->
  refines (capacity f) (run impl_step f ops) (run (spec_step (capacity f)) (contents f) ops).
Proof.
  intros Hwf Hops. remember (capacity f) as cap eqn:Hcap. revert f Hwf Hcap.
  induction Hops as [|o ops Ho _ IH]; intros f Hwf ->; [done|].
  pose proof (step_refines f o Hwf Ho) as Hs. cbn.
  destruct (impl_step f o) as [[f1 out1]|], (spec_step _ _ o) as [[q1 out1']|]; try done.
  destruct Hs as (Hwf1 & Hc1 & <- & ->). specialize (IH f1 Hwf1 (eq_sym Hc1)). cbn.
  destruct (run impl_step f1 ops) as [[f2 out2]|], (run _ (contents f1) ops) as [[q2 out2']|];
    try done.
  destruct IH as (? & ? & ? & ->). by cbn.
Qed.

(** A FIFO of four slots holding three bytes across the wrap. *)
Definition sample : Fifo8 := mkFifo8 (Some [13; 14; 11; 12]) 4 2 3.

Lemma fifo8_refines_queue_witness :
  let ops := [Push 20; PopBuf 3; PushAll [21; 22; 23]; Pop] in
  fifo8_wf sample /\ Forall op_ok ops /\
  refines 4 (run impl_step sample ops) (run (spec_step 4) (contents sample) ops).
Proof.
  intros ops.
  assert (fifo8_wf sample) as Hwf by (split; cbn; try lia; by eexists).
  assert (Forall op_ok ops) as Hops by (repeat constructor; cbn; lia).
  split; [done|]. split; [done|]. exact (fifo8_refines_queue sample ops Hwf Hops).
Defined.
