(* ===== verification/Dll.v ===== *)
(** * Dll: intrusive doubly linked lists

    The timer queue (src/src/timer.c) and the I/O handler chains
    (src/src/io.c) are NULL-terminated lists of nodes linked by [prev] and
    [next] pointers.  A heap is a [gmap] from locations to nodes; [DllNode]
    is the interface a node type offers (its two link fields), and [dseg]
    says that a list of locations is laid out as a segment of such a chain.
    The lemmas rebuild a segment after the pointer writes of an insertion
    and of a removal. *)
From S2P Require Import Prelude.

(** A node type with its link fields; a pointer is [None] when NULL. *)
Class DllNode (L N : Type) := {
  nprev : N -> option L;
  nnext : N -> option L;
  set_nprev : option L -> N -> N;
  set_nnext : option L -> N -> N;
}.

(** The fields are independent. *)
Class DllNodeLaws (L N : Type) `{!DllNode L N} : Prop := {
  nprev_set_nprev p nd : nprev (set_nprev p nd) = p;
  nnext_set_nnext p nd : nnext (set_nnext p nd) = p;
  nprev_set_nnext p nd : nprev (set_nnext p nd) = nprev nd;
  nnext_set_nprev p nd : nnext (set_nprev p nd) = nnext nd;
}.

(** [loc->field = ...]: a write through a pointer; NULL or dangling is [None]. *)
Definition upd `{Countable L} {N} (x : L) (f : N -> N) (h : gmap L N) : option (gmap L N) :=
  nd ← h !! x; Some (<[x := f nd]> h).

(** First location of a chain that ends in [n], last location of one that
    starts after [p]. *)
Definition first {L} (l : list L) (n : option L) : option L :=
  match l with [] => n | x :: _ => Some x end.

Fixpoint final {L} (p : option L) (l : list L) : option L :=
  match l with [] => p | x :: l' => final (Some x) l' end.

Section dll.
Context {L N : Type} `{Countable L} `{!DllNode L N} `{!DllNodeLaws L N}.
Implicit Types (h : gmap L N) (l : list L) (p n : option L) (nd : N).

(** The locations [l] are linked in order; the node before is [p] and the
    node after is [n]. *)
Fixpoint dseg h p l n : Prop :=
  match l with
  | [] => True
  | x :: l' =>
      exists nd, h !! x = Some nd /\ nprev nd = p /\ nnext nd = first l' n /\
                 dseg h (Some x) l' n
  end.

Lemma first_app l1 l2 n : first (l1 ++ l2) n = first l1 (first l2 n).
Proof. by destruct l1. Qed.

Lemma final_app p l1 l2 : final p (l1 ++ l2) = final (final p l1) l2.
Proof. revert p. induction l1; intros p; cbn; auto. Qed.

Lemma dseg_app h p l1 l2 n :
  dseg h p (l1 ++ l2) n <-> dseg h p l1 (first l2 n) /\ dseg h (final p l1) l2 n.
Proof.
  revert p. induction l1 as [|x l1 IH]; intros p; cbn; [naive_solver|].
  setoid_rewrite IH. rewrite first_app. naive_solver.
Qed.

Lemma dseg_lookup h p l n x : dseg h p l n -> x ∈ l -> is_Some (h !! x).
Proof.
  revert p. induction l as [|y l IH]; intros p; [by intros _ ?%elem_of_nil|].
  cbn. intros (nd & Hx & _ & _ & Hl) [->|Hin]%elem_of_cons; eauto.
Qed.

(** Only the links of the listed nodes matter. *)
Lemma dseg_links h h' p l n :
  dseg h p l n ->
  (forall x nd, x ∈ l -> h !! x = Some nd ->
     exists nd', h' !! x = Some nd' /\ nprev nd' = nprev nd /\ nnext nd' = nnext nd) ->
  dseg h' p l n.
Proof.
  revert p. induction l as [|y l IH]; intros p; cbn; [done|].
  intros (nd & Hy & Hp & Hn & Hl) Hh.
  destruct (Hh y nd) as (nd' & Hy' & Hp' & Hn'); [by left|done|].
  exists nd'. rewrite Hp', Hn'. split_and!; [done..|].
  apply IH; [done|]. intros x ndx Hx. apply Hh. by right.
Qed.

Lemma dseg_frame h p l n x nd : x ∉ l -> dseg h p l n -> dseg (<[x := nd]> h) p l n.
Proof.
  intros Hx Hl. apply (dseg_links _ _ _ _ _ Hl). intros y ndy Hy Hlk.
  rewrite lookup_insert_ne by set_solver. eauto.
Qed.

(** Redirecting the [prev] link of the first node. *)
Lemma dseg_set_nprev h p p' x l n nd :
  NoDup (x :: l) -> h !! x = Some nd -> dseg h p (x :: l) n ->
  dseg (<[x := set_nprev p' nd]> h) p' (x :: l) n.
Proof.
  intros [Hnot _]%NoDup_cons Hx (nd' & Hx' & Hp & Hn & Hl). simplify_eq. cbn.
  rewrite lookup_insert_eq. eexists. rewrite nprev_set_nprev, nnext_set_nprev.
  split_and!; [done..|]. by apply dseg_frame.
Qed.

(** Redirecting the [next] link of the last node. *)
Lemma dseg_set_nnext h p x l n n' nd :
  NoDup (l ++ [x]) -> h !! x = Some nd -> dseg h p (l ++ [x]) n ->
  dseg (<[x := set_nnext n' nd]> h) p (l ++ [x]) n'.
Proof.
  intros Hnd Hx. rewrite !dseg_app. cbn. intros (Hl & nd' & Hx' & Hp & Hn & _). simplify_eq.
  apply NoDup_app in Hnd as (_ & Hnot & _).
  split.
  - apply dseg_frame; [|done]. intros Hin. eapply Hnot; [done|]. by left.
  - rewrite lookup_insert_eq. eexists. by rewrite nprev_set_nnext, nnext_set_nnext.
Qed.

(** Following [next] from a listed node stays in the list. *)
Lemma dseg_mid h p l1 x l2 n :
  dseg h p (l1 ++ x :: l2) n ->
  exists nd, h !! x = Some nd /\ nprev nd = final p l1 /\ nnext nd = first l2 n.
Proof. rewrite dseg_app. cbn. naive_solver. Qed.

Lemma final_Some p l x : final p l = Some x -> l = [] /\ p = Some x \/ exists l', l = l' ++ [x].
Proof.
  destruct l as [|y l _] using rev_ind; [auto|]. rewrite final_app. cbn. intros [= ->]. eauto.
Qed.

Lemma final_None p l : final p l = None -> l = [] /\ p = None.
Proof. destruct l as [|y l _] using rev_ind; [auto|]. by rewrite final_app. Qed.
End dll.

(** [write_opt o f h]: [if (o) o->field = ...]. *)
Definition upd_opt `{Countable L} {N} (o : option L) (f : N -> N) (h : gmap L N)
    : option (gmap L N) :=
  match o with None => Some h | Some x => upd x f h end.

Section edit.
Context {L N : Type} `{Countable L} `{!DllNode L N} `{!DllNodeLaws L N}.
Implicit Types (h : gmap L N) (l : list L) (p n : option L) (nd : N).

(** The writes that link a node [x], not yet in the chain, in front of [y]. *)
Definition link_before (x y : L) h : option (gmap L N) :=
  h ← upd x (set_nnext (Some y)) h;
  ndy ← h !! y;
  h ← upd x (set_nprev (nprev ndy)) h;
  h ← upd y (set_nprev (Some x)) h;
  ndx ← h !! x;
  upd_opt (nprev ndx) (set_nnext (Some x)) h.

(** The writes that link [x] after the last node [y]. *)
Definition link_after (x y : L) h : option (gmap L N) :=
  h ← upd y (set_nnext (Some x)) h;
  upd x (set_nprev (Some y)) h.

(** The writes that bypass [x] in its neighbours. *)
Definition unlink (x : L) h : option (gmap L N) :=
  nd ← h !! x;
  h ← upd_opt (nprev nd) (set_nnext (nnext nd)) h;
  nd ← h !! x;
  upd_opt (nnext nd) (set_nprev (nprev nd)) h.

(** The two heaps agree on everything but the links. *)
Definition same_data h h' : Prop :=
  forall (P : Type) (f : N -> P),
    (forall p nd, f (set_nprev p nd) = f nd) -> (forall p nd, f (set_nnext p nd) = f nd) ->
    forall z, f <$> h' !! z = f <$> h !! z.

(** What an edit of a chain over the locations [l] may change. *)
Record edits (l : list L) h h' : Prop := {
  edits_data : same_data h h';
  edits_frame : forall z, z ∉ l -> h' !! z = h !! z;
}.

Lemma edits_refl l h : edits l h h.
Proof. by split. Qed.

Lemma edits_trans l h1 h2 h3 : edits l h1 h2 -> edits l h2 h3 -> edits l h1 h3.
Proof.
  intros [Hd1 Hf1] [Hd2 Hf2]. split.
  - intros P f Hp Hn z. by rewrite (Hd2 P f), (Hd1 P f).
  - intros z Hz. by rewrite Hf2, Hf1.
Qed.

Lemma edits_mono l l' h h' : l ⊆ l' -> edits l h h' -> edits l' h h'.
Proof. intros Hl [Hd Hf]. split; [done|]. intros z Hz. apply Hf. set_solver. Qed.

(** [nd'] is [nd] up to its links. *)
Inductive relinked : N -> N -> Prop :=
  | relinked_refl nd : relinked nd nd
  | relinked_prev p nd nd' : relinked nd nd' -> relinked nd (set_nprev p nd')
  | relinked_next p nd nd' : relinked nd nd' -> relinked nd (set_nnext p nd').
Hint Constructors relinked : core.

Lemma edits_insert l x nd nd' h :
  h !! x = Some nd -> x ∈ l -> relinked nd nd' -> edits l h (<[x := nd']> h).
Proof.
  intros Hx Hl Hr. split.
  - intros P f Hp Hn z. destruct (decide (z = x)) as [->|].
    + rewrite lookup_insert_eq, Hx. cbn. f_equal. clear Hx. induction Hr; congruence.
    + by rewrite lookup_insert_ne.
  - intros z Hz. by rewrite lookup_insert_ne by set_solver.
Qed.

Lemma edits_is_Some l h h' z : edits l h h' -> is_Some (h !! z) -> is_Some (h' !! z).
Proof.
  intros [Hd _] [nd Hz]. specialize (Hd unit (fun _ => tt) ltac:(done) ltac:(done) z).
  rewrite Hz in Hd. destruct (h' !! z); [eauto|done].
Qed.

Lemma dseg_edits l' h h' p l n :
  edits l' h h' -> (forall x, x ∈ l -> x ∉ l') -> dseg h p l n -> dseg h' p l n.
Proof.
  intros [_ Hf] Hdis Hl. apply (dseg_links _ _ _ _ _ Hl). intros x nd Hx Hlk.
  rewrite Hf by auto. eauto.
Qed.

(** The two halves of a removal: [if (prev) prev->next = n'] ... *)
Lemma relink_next l h n n' :
  dseg h None l n -> NoDup l ->
  exists h', upd_opt (final None l) (set_nnext n') h = Some h' /\
             dseg h' None l n' /\ edits l h h'.
Proof.
  intros Hd Hnd. destruct l as [|z l _] using rev_ind.
  { exists h. cbn. auto using edits_refl. }
  rewrite final_app. cbn. destruct (dseg_mid _ _ _ _ _ _ Hd) as (ndz & Hz & _ & _).
  unfold upd. rewrite Hz. eexists. split; [done|]. split.
  - by apply dseg_set_nnext with n.
  - eapply edits_insert; [exact Hz|set_solver|eauto].
Qed.

(** ... and [if (next) next->prev = p']. *)
Lemma relink_prev l h p p' :
  dseg h p l None -> NoDup l ->
  exists h', upd_opt (first l None) (set_nprev p') h = Some h' /\
             dseg h' p' l None /\ edits l h h'.
Proof.
  intros Hd Hnd. destruct l as [|z l].
  { exists h. cbn. auto using edits_refl. }
  pose proof Hd as (ndz & Hz & _). cbn [first upd_opt]. unfold upd. rewrite Hz.
  eexists. split; [done|]. split.
  - by apply dseg_set_nprev with p.
  - eapply edits_insert; [exact Hz|set_solver|eauto].
Qed.

(** Appending [x] after the last node [y]. *)
Lemma link_after_ok x y l h ndx :
  dseg h None (l ++ [y]) None -> NoDup (l ++ [y]) -> x ∉ l ++ [y] ->
  h !! x = Some ndx -> nnext ndx = None ->
  exists h', link_after x y h = Some h' /\ dseg h' None ((l ++ [y]) ++ [x]) None /\
             edits (x :: l ++ [y]) h h'.
Proof.
  intros Hd Hnd Hx Hlk Hnx. unfold link_after, upd.
  destruct (dseg_mid _ _ _ _ _ _ Hd) as (ndy & Hy & _ & _). rewrite Hy. cbn.
  assert (x <> y) as Hxy by set_solver.
  rewrite lookup_insert_ne, Hlk by done. cbn. eexists. split; [done|]. split.
  - apply dseg_app. rewrite final_app. cbn [final dseg first]. split.
    + apply dseg_frame; [done|]. by apply dseg_set_nnext with None.
    + rewrite lookup_insert_eq. eexists. by rewrite nprev_set_nprev, nnext_set_nprev.
  - apply edits_trans with (<[y := set_nnext (Some x) ndy]> h).
    + eapply edits_insert; [exact Hy|set_solver|eauto].
    + eapply edits_insert; [by rewrite lookup_insert_ne|set_solver|eauto].
Qed.

(** Linking [x] in front of [y]. *)
Lemma link_before_ok x y l1 l2 h ndx :
  dseg h None (l1 ++ y :: l2) None -> NoDup (l1 ++ y :: l2) -> x ∉ l1 ++ y :: l2 ->
  h !! x = Some ndx ->
  exists h' ndx', link_before x y h = Some h' /\ dseg h' None (l1 ++ x :: y :: l2) None /\
             h' !! x = Some ndx' /\ nprev ndx' = final None l1 /\
             edits (x :: l1 ++ y :: l2) h h'.
Proof.
  intros Hd Hnd Hx Hlk. pose proof Hd as Hd0. unfold link_before, upd. rewrite Hlk. cbn.
  assert (x <> y) as Hxy by set_solver.
  destruct (dseg_mid _ _ _ _ _ _ Hd) as (ndy & Hy & Hpy & Hny).
  rewrite (lookup_insert_ne h x y), Hy by done. cbn. rewrite lookup_insert_eq. cbn.
  rewrite insert_insert_eq, (lookup_insert_ne h x y), Hy by done. cbn.
  rewrite (lookup_insert_ne _ y x), lookup_insert_eq by done. cbn.
  rewrite nprev_set_nprev, Hpy.
  set (ndx' := set_nprev (final None l1) (set_nnext (Some y) ndx)).
  set (h1 := <[y:=set_nprev (Some x) ndy]> (<[x:=ndx']> h)).
  assert (edits (x :: l1 ++ y :: l2) h h1) as Hed.
  { apply edits_trans with (<[x:=ndx']> h).
    - eapply edits_insert; [exact Hlk|set_solver|unfold ndx'; eauto].
    - eapply edits_insert; [by rewrite lookup_insert_ne|set_solver|eauto]. }
  apply dseg_app in Hd as [Hd1 Hd2]. apply NoDup_app in Hnd as (Hn1 & Hn12 & Hn2).
  assert (dseg h1 (Some x) (y :: l2) None) as Hs2.
  { apply dseg_set_nprev with (final None l1); [done|by rewrite lookup_insert_ne|].
    apply dseg_frame; [set_solver|done]. }
  assert (dseg h1 None l1 (Some y)) as Hs1.
  { unfold h1. apply dseg_frame; [intros Hin; apply (Hn12 y); [done|by left]|].
    by apply dseg_frame; [set_solver|]. }
  destruct (relink_next l1 h1 (Some y) (Some x) Hs1 Hn1) as (h2 & -> & Hs1' & Hed2).
  assert (h2 !! x = Some ndx') as Hx2.
  { rewrite (edits_frame _ _ _ Hed2) by set_solver. unfold h1.
    by rewrite lookup_insert_ne, lookup_insert_eq. }
  exists h2, ndx'. split_and!; [done| |done|by apply nprev_set_nprev|].
  - apply dseg_app. cbn [first dseg]. split; [done|]. exists ndx'. split; [done|].
    unfold ndx'. rewrite nprev_set_nprev, nnext_set_nprev, nnext_set_nnext.
    split_and!; [done..|]. apply (dseg_edits l1 h1 _ _ (y :: l2)); [done| |exact Hs2].
    intros z Hz Hz1. by apply (Hn12 z).
  - eapply edits_trans; [exact Hed|]. eapply edits_mono; [|exact Hed2]. set_solver.
Qed.

(** Bypassing [x]; its own links are left as they were. *)
Lemma unlink_ok x l1 l2 h :
  dseg h None (l1 ++ x :: l2) None -> NoDup (l1 ++ x :: l2) ->
  exists h', unlink x h = Some h' /\ dseg h' None (l1 ++ l2) None /\ edits (l1 ++ l2) h h'.
Proof.
  intros Hd Hnd. unfold unlink.
  destruct (dseg_mid _ _ _ _ _ _ Hd) as (ndx & Hx & Hpx & Hnx). rewrite Hx. cbn.
  rewrite Hpx, Hnx. apply dseg_app in Hd as [Hd1 Hd2].
  apply NoDup_app in Hnd as (Hn1 & Hn12 & [Hx2 Hn2]%NoDup_cons).
  assert (x ∉ l1) as Hx1 by (intros Hin; apply (Hn12 x); [done|by left]).
  assert (forall z, z ∈ l2 -> z ∉ l1) as H21 by (intros z Hz Hz1; apply (Hn12 z); [done|by right]).
  destruct (relink_next l1 h _ (first l2 None) Hd1 Hn1) as (h1 & -> & Hs1 & He1). cbn.
  rewrite (edits_frame _ _ _ He1) by done. rewrite Hx. cbn. rewrite Hpx, Hnx.
  destruct Hd2 as (ndx' & _ & _ & _ & Hd2).
  apply (dseg_edits l1 h h1) in Hd2; [|done..].
  destruct (relink_prev l2 h1 _ (final None l1) Hd2 Hn2) as (h2 & -> & Hs2 & He2).
  exists h2. split_and!; [done| |].
  - apply dseg_app. split; [|done]. apply (dseg_edits l2 h1); [done| |done].
    intros z Hz Hz2. by apply (H21 z).
  - eapply edits_trans; (eapply edits_mono; [|done]); set_solver.
Qed.
End edit.
