(* ===== verification/Timer.v ===== *)
(** * Timer: the event queue of src/src/timer.c and include/86box/timer.h

    Every device schedules its work with a [pc_timer_t]; enabled timers form
    a doubly linked queue ordered by expiry.  [world] holds the timer
    structures by address, the globals of timer.c, the time stamp counter
    and the state of the devices ([dev]); callbacks are functions on the
    whole world.  [None] is a crash of the C code (NULL or dangling
    pointer, [fatal]) or exhausted fuel; the fuel that suffices is part of
    the theorems.  Periods are IEEE doubles ([spec_float]). *)
From Stdlib Require Import SpecFloat Sorted.
From stdpp Require Import sorting.
From S2P Require Import Prelude Dll.

(** ** Data *)

(** Addresses of timer structures; callbacks are code addresses. *)
Abbreviation ptr := Z.

Record pc_timer := mkTimer {
  ts_integer : Z;
  ts_frac : Z;
  flags : Z;
  in_callback : Z;
  period : spec_float;
  callback : option Z;
  priv : Z;
  prev : option ptr;
  next : option ptr;
}.

#[export] Instance timer_node : DllNode ptr pc_timer := {
  nprev := prev;
  nnext := next;
  set_nprev p t := t <| prev := p |>;
  set_nnext p t := t <| next := p |>;
}.

#[export] Instance timer_node_laws : DllNodeLaws ptr pc_timer.
Proof. by split. Qed.

Definition MAX_USEC64 : Z := 1000000.
Definition TIMER_SPLIT : Z := 2.
Definition TIMER_ENABLED : Z := 1.

(** Doubles: conversions from and to 64-bit integers, and the operations
    timer.c uses (C's [double] is IEEE binary64). *)
Definition dbl_of_Z (z : Z) : spec_float := binary_normalize 53 1024 z 0 false.
Definition dbl_mul : spec_float -> spec_float -> spec_float := SFmul 53 1024.
Definition dbl_sub : spec_float -> spec_float -> spec_float := SFsub 53 1024.

(** [(uint64_t) d]: truncation; undefined outside the range of the type. *)
Definition u64_of_dbl (d : spec_float) : option Z :=
  match d with
  | S754_zero _ => Some 0
  | S754_finite s m e =>
      let t := (if s then -1 else 1) * (Zpos m <<< e) in
      if (0 <=? t) && (t <? 2 ^ 64) then Some t else None
  | _ => None
  end.

Definition MAX_USEC : spec_float := dbl_of_Z 1000000.
Definition dbl_zero : spec_float := S754_zero false.

Definition TIMER_LESS_THAN (a b : pc_timer) : bool := s64 (ts_integer a - ts_integer b) <=? 0.
Definition TIMER_LESS_THAN_VAL (a : pc_timer) (b : Z) : bool := s64 (ts_integer a - b) <=? 0.
Definition TIMER_VAL_LESS_THAN_VAL (a b : Z) : bool := s64 (a - b) <=? 0.

(** [timer->prev = timer->next = NULL] and [timer->flags &= ~TIMER_ENABLED]. *)
Definition isolate (tm : pc_timer) : pc_timer := tm <| prev := None |> <| next := None |>.
Definition clear_enabled (tm : pc_timer) : pc_timer :=
  tm <| flags ::= (fun fl => fl .&~ TIMER_ENABLED) |>.

Section timer.
(** The state of the devices, opaque to the timer code. *)
Context {D : Type}.

Record world := mkWorld {
  timers : gmap ptr pc_timer;
  timer_head : option ptr;
  timer_target : Z;
  timer_inited : bool;
  tsc : Z;
  TIMER_USEC : Z;
  dev : D;
}.

(** [call f p w]: run the callback [f] with private data [p]. *)
Variable call : Z -> Z -> world -> option world.

(** Reads and writes through a timer pointer. *)
Definition rd (w : world) (x : ptr) : option pc_timer := timers w !! x.
Definition wr (x : ptr) (f : pc_timer -> pc_timer) (w : world) : option world :=
  h ← upd x f (timers w); Some (w <| timers := h |>).
Definition edit (f : gmap ptr pc_timer -> option (gmap ptr pc_timer)) (w : world)
    : option world :=
  h ← f (timers w); Some (w <| timers := h |>).

(** ** Queue operations *)

Definition timer_disable (t : option ptr) (w : world) : option world :=
  match t with
  | None => Some w
  | Some x =>
      if negb (timer_inited w) then Some w else
      tm ← rd w x;
      if negb (ctrue (flags tm .& TIMER_ENABLED)) then Some w else
      if decide (next tm = None /\ prev tm = None /\ timer_head w <> Some x) then None else
      w ← wr x (fun tm => clear_enabled tm <| in_callback := 0 |>) w;
      w ← edit (unlink x) w;
      let w := match prev tm with None => w <| timer_head := next tm |> | Some _ => w end in
      wr x isolate w
  end.

(** Linking [x] in front of [node]; without a predecessor it is the new head. *)
Definition enable_before (x node : ptr) (w : world) : option world :=
  w ← edit (link_before x node) w;
  tm ← rd w x;
  match prev tm with
  | Some _ => Some w
  | None => Some (w <| timer_head := Some x |> <| timer_target := ts_integer tm |>)
  end.

(** The [while (1)] of [timer_enable], from [node] on. *)
Fixpoint enable_loop (fuel : nat) (x node : ptr) (w : world) : option world :=
  match fuel with
  | O => None
  | S fuel =>
      tm ← rd w x;
      tn ← rd w node;
      if TIMER_LESS_THAN tm tn then
        enable_before x node w
      else
        match next tn with
        | None => edit (link_after x node) w
        | Some node' => enable_loop fuel x node' w
        end
  end.

(** The loop visits each queued timer at most once. *)
Definition timer_enable (t : option ptr) (w : world) : option world :=
  x ← t;
  tm ← rd w x;
  w ← (if ctrue (flags tm .& TIMER_ENABLED) then timer_disable (Some x) w else Some w);
  tm ← rd w x;
  if negb (bool_decide (next tm = None /\ prev tm = None)) then None else
  w ← wr x (fun tm => tm <| flags ::= Z.lor TIMER_ENABLED |>) w;
  match timer_head w with
  | None =>
      w ← wr x isolate w;
      Some (w <| timer_head := Some x |> <| timer_target := ts_integer tm |>)
  | Some node => enable_loop (size (timers w)) x node w
  end.

Definition timer_remove_head (w : world) : option world :=
  match timer_head w with
  | None => Some w
  | Some x =>
      tm ← rd w x;
      let w := w <| timer_head := next tm |> in
      (* timer_head->prev = NULL: crashes when the queue had one timer *)
      y ← timer_head w;
      w ← wr y (fun tm => tm <| prev := None |>) w;
      wr x (fun tm => clear_enabled (isolate tm)) w
  end.

(** [timer_set_delay_u64] and [timer_advance_u64]: 32:32 fixed point. *)
Definition sext_delay (delay : Z) : Z :=
  let int_delay := delay >>> 32 in
  if ctrue (int_delay .& 0x80000000) then int_delay .| 0xffffffff00000000 else int_delay.

Definition timer_advance_u64 (t : option ptr) (delay : Z) (w : world) : option world :=
  x ← t;
  let int_delay := sext_delay delay in
  let frac_delay := delay .& 0xffffffff in
  w ← wr x (fun tm =>
        let tm := if u32 (frac_delay + ts_frac tm) <? frac_delay
                  then tm <| ts_integer ::= (fun i => u64 (i + 1)) |> else tm in
        tm <| ts_frac ::= (fun f => u32 (f + frac_delay)) |>
           <| ts_integer ::= (fun i => u64 (i + int_delay)) |>) w;
  timer_enable t w.

Definition timer_set_delay_u64 (t : option ptr) (delay : Z) (w : world) : option world :=
  x ← t;
  let int_delay := sext_delay delay in
  let frac_delay := delay .& 0xffffffff in
  w ← wr x (fun tm => tm <| ts_frac := frac_delay |>
                         <| ts_integer := u64 (int_delay + tsc w) |>) w;
  timer_enable t w.

Definition timer_is_enabled (tm : pc_timer) : bool := ctrue (flags tm .& TIMER_ENABLED).
Definition timer_is_on (tm : pc_timer) : bool :=
  ctrue (flags tm .& TIMER_SPLIT) && ctrue (flags tm .& TIMER_ENABLED).
Definition timer_get_ts_int (tm : pc_timer) : Z := ts_integer tm.

(** The 128-bit operands are below 2^96, so their difference is exact. *)
Definition timer_get_remaining_u64 (tm : pc_timer) (w : world) : Z :=
  if ctrue (flags tm .& TIMER_ENABLED) then
    let remaining := (ts_integer tm <<< 32 .| ts_frac tm) - (tsc w <<< 32) in
    if remaining <? 0 then 0 else remaining
  else 0.

Definition timer_get_remaining_us (tm : pc_timer) (w : world) : option Z :=
  if ctrue (flags tm .& TIMER_ENABLED) then
    let remaining := (ts_integer tm <<< 32 .| ts_frac tm) - (tsc w <<< 32) in
    if remaining <? 0 then Some 0
    else if TIMER_USEC w =? 0 then None else Some (u64 (remaining `quot` TIMER_USEC w))
  else Some 0.

Definition timer_set_callback (x : ptr) (f : option Z) : world -> option world :=
  wr x (fun tm => tm <| callback := f |>).
Definition timer_set_p (x : ptr) (p : Z) : world -> option world :=
  wr x (fun tm => tm <| priv := p |>).

(** ** Long periods, split in parts of at most one second *)

Definition timer_do_period (t : option ptr) (per : Z) (start : bool) (w : world) : option world :=
  if negb (timer_inited w) || bool_decide (t = None) then Some w
  else if start then timer_set_delay_u64 t per w else timer_advance_u64 t per w.

Definition timer_advance_ex (t : option ptr) (start : bool) (w : world) : option world :=
  if negb (timer_inited w) || bool_decide (t = None) then Some w else
  x ← t;
  tm ← rd w x;
  if SFltb MAX_USEC (period tm) then
    w ← timer_do_period t (u64 (MAX_USEC64 * TIMER_USEC w)) start w;
    wr x (fun tm => tm <| period ::= (fun p => dbl_sub p MAX_USEC) |>
                       <| flags ::= Z.lor TIMER_SPLIT |>) w
  else
    w ← (if SFltb dbl_zero (period tm) then
           per ← u64_of_dbl (dbl_mul (period tm) (dbl_of_Z (TIMER_USEC w)));
           timer_do_period t per start w
         else timer_disable t w);
    wr x (fun tm => tm <| period := dbl_zero |>
                       <| flags ::= (fun fl => fl .&~ TIMER_SPLIT) |>) w.

Definition timer_stop (t : option ptr) (w : world) : option world :=
  if negb (timer_inited w) || bool_decide (t = None) then Some w else
  x ← t;
  w ← wr x (fun tm => tm <| period := dbl_zero |>) w;
  tm ← rd w x;
  w ← (if ctrue (flags tm .& TIMER_ENABLED) then timer_disable t w else Some w);
  wr x (fun tm => tm <| flags ::= (fun fl => fl .&~ TIMER_SPLIT) |> <| in_callback := 0 |>) w.

Definition timer_on (t : option ptr) (per : spec_float) (start : bool) (w : world) : option world :=
  if negb (timer_inited w) || bool_decide (t = None) then Some w else
  x ← t;
  w ← wr x (fun tm => tm <| period := per |>) w;
  timer_advance_ex t start w.

Definition timer_on_auto (t : option ptr) (per : spec_float) (w : world) : option world :=
  if negb (timer_inited w) || bool_decide (t = None) then Some w else
  x ← t;
  if SFltb dbl_zero per then
    tm ← rd w x;
    timer_on t per (SFleb (period tm) dbl_zero && negb (ctrue (in_callback tm))) w
  else timer_stop t w.

(** ** Running the expired timers *)

(** What [timer_process] does for the timer [x] it just removed. *)
Definition fire (x : ptr) (w : world) : option world :=
  tm ← rd w x;
  if ctrue (flags tm .& TIMER_SPLIT) then timer_advance_ex (Some x) false w
  else match callback tm with
       | None => Some w
       | Some f =>
           w ← wr x (fun tm => tm <| in_callback := 1 |>) w;
           w ← call f (priv tm) w;
           wr x (fun tm => tm <| in_callback := 0 |>) w
       end.

Fixpoint process_loop (fuel : nat) (w : world) : option world :=
  match fuel with
  | O => None
  | S fuel =>
      x ← timer_head w;
      tm ← rd w x;
      if negb (TIMER_LESS_THAN_VAL tm (tsc w)) then Some w else
      w ← timer_remove_head w;
      w ← fire x w;
      process_loop fuel w
  end.

Definition timer_process (fuel : nat) (w : world) : option world :=
  match timer_head w with
  | None => Some w
  | Some _ =>
      w ← process_loop fuel w;
      x ← timer_head w;
      tm ← rd w x;
      Some (w <| timer_target := ts_integer tm |>)
  end.

(** ** Start and end of a session *)

Fixpoint close_loop (fuel : nat) (t : option ptr) (w : world) : option world :=
  match t, fuel with
  | None, _ => Some w
  | Some _, O => None
  | Some r, S fuel =>
      w ← wr r isolate w;
      tm ← rd w r;
      close_loop fuel (next tm) w
  end.

Definition timer_close (w : world) : option world :=
  w ← close_loop (S (size (timers w))) (timer_head w) w;
  Some (w <| timer_head := None |> <| timer_inited := false |>).

(** [rivatimer_init] (src/src/video) is a parameter. *)
Definition timer_init (rivatimer_init : world -> world) (w : world) : world :=
  (rivatimer_init (w <| timer_target := 0 |> <| tsc := 0 |>)) <| timer_inited := true |>.

Definition timer_add (x : ptr) (cb : option Z) (p : Z) (start_timer : bool) (w : world)
    : option world :=
  w ← wr x (fun _ => mkTimer 0 0 0 0 dbl_zero cb p None None) w;
  if start_timer then timer_set_delay_u64 (Some x) 0 w else Some w.

(** The loop of [timer_set_new_tsc] over the queue. *)
Fixpoint new_tsc_loop (fuel : nat) (t : option ptr) (new_tsc : Z) (w : world) : option world :=
  match t, fuel with
  | None, _ => Some w
  | Some _, O => None
  | Some x, S fuel =>
      tm ← rd w x;
      let offset_from_current_tsc := s64 (timer_get_ts_int tm - tsc w) in
      w ← wr x (fun tm => tm <| ts_integer := u64 (new_tsc + offset_from_current_tsc) |>) w;
      new_tsc_loop fuel (next tm) new_tsc w
  end.

(** Without the dynamic recompiler ([update_tsc] is not called). *)
Definition timer_set_new_tsc (new_tsc : Z) (w : world) : option world :=
  match timer_head w with
  | None => Some (w <| tsc := new_tsc |>)
  | Some x =>
      tm ← rd w x;
      let w := w <| timer_target := u64 (new_tsc + s64 (timer_get_ts_int tm - tsc w)) |> in
      w ← new_tsc_loop (S (size (timers w))) (Some x) new_tsc w;
      Some (w <| tsc := new_tsc |>)
  end.
End timer.

Arguments world : clear implicits.

(** ** Time stamps in a window

    Time stamps are compared by the sign of their 64-bit difference, which
    is an order only on stamps that lie in a window of 2^63 ticks.  [key
    base ts] is the offset of [ts] in the window that starts at [base]. *)

Definition key (base ts : Z) : Z := u64 (ts - base).
Definition in_window (base ts : Z) : Prop := key base ts < 2 ^ 63.

Lemma key_nonneg base ts : 0 <= key base ts.
Proof. apply wrap_range. lia. Qed.

Lemma s64_diff base a b :
  in_window base a -> in_window base b -> s64 (a - b) = key base a - key base b.
Proof.
  unfold in_window, key. pose proof (key_nonneg base a). pose proof (key_nonneg base b).
  unfold key in *. intros Ha Hb. unfold swrap.
  replace ((a - b + 2 ^ (64 - 1)) `mod` 2 ^ 64)
    with ((u64 (a - base) - u64 (b - base) + 2 ^ (64 - 1)) `mod` 2 ^ 64).
  - rewrite Z.mod_small; lia.
  - unfold wrap. rewrite <- Zplus_mod_idemp_l, <- Zminus_mod, Zplus_mod_idemp_l.
    f_equal. lia.
Qed.

Lemma s64_leb_key base a b :
  in_window base a -> in_window base b -> (s64 (a - b) <=? 0) = (key base a <=? key base b).
Proof.
  intros Ha Hb. rewrite (s64_diff base) by done.
  destruct (Z.leb_spec (key base a - key base b) 0), (Z.leb_spec (key base a) (key base b)); lia.
Qed.

(** ** The queue invariant *)

Section invariant.
Context {D : Type}.
Implicit Types (w : world D) (l : list ptr) (x y : ptr) (base : Z).

(** Expiry of the timer at [x], as an offset in the window. *)
Definition expiry base w x : Z :=
  match timers w !! x with Some tm => key base (ts_integer tm) | None => 0 end.

Definition enabled w x : Prop :=
  exists tm, timers w !! x = Some tm /\ timer_is_enabled tm = true.

(** [l] lists the queued timers, soonest first. *)
Record queue_ok base w l : Prop := {
  q_inited : timer_inited w = true;
  q_seg : dseg (timers w) None l None;
  q_head : timer_head w = first l None;
  q_nodup : NoDup l;
  q_enabled : forall x, enabled w x <-> x ∈ l;
  q_free : forall x tm, timers w !! x = Some tm -> x ∉ l -> prev tm = None /\ next tm = None;
  q_window : forall x tm, timers w !! x = Some tm -> x ∈ l -> in_window base (ts_integer tm);
  q_sorted : StronglySorted (fun x y => expiry base w x <= expiry base w y) l;
}.

(** [timer_target], the time at which the CPU next calls [timer_process],
    is never later than the first expiry. *)
Definition target_ok base w l : Prop :=
  match l with
  | [] => True
  | x :: _ => key base (timer_target w) <= expiry base w x
  end.

(** Everything of a timer but its links and flags. *)
Definition payload (tm : pc_timer) : Z * Z * spec_float * option Z * Z :=
  (ts_integer tm, ts_frac tm, period tm, callback tm, priv tm).

(** A queue operation on [x] keeps the payloads, the flags of the other
    timers and the rest of the world. *)
Record calm x w w' : Prop := {
  calm_payload : forall y, payload <$> timers w' !! y = payload <$> timers w !! y;
  calm_flags : forall y, y <> x -> flags <$> timers w' !! y = flags <$> timers w !! y;
  calm_tsc : tsc w' = tsc w;
  calm_usec : TIMER_USEC w' = TIMER_USEC w;
  calm_dev : dev w' = dev w;
  calm_inited : timer_inited w' = timer_inited w;
}.

Lemma calm_refl x w : calm x w w.
Proof. by split. Qed.

Lemma calm_trans x w1 w2 w3 : calm x w1 w2 -> calm x w2 w3 -> calm x w1 w3.
Proof.
  intros [] []. split; [| |congruence..].
  - intros y. congruence.
  - intros y Hy. rewrite calm_flags1 by done. by apply calm_flags0.
Qed.

Lemma calm_lookup x w w' y tm :
  calm x w w' -> timers w !! y = Some tm ->
  exists tm', timers w' !! y = Some tm' /\ payload tm' = payload tm.
Proof.
  intros Hc Hy. pose proof (calm_payload _ _ _ Hc y) as Hp. rewrite Hy in Hp.
  destruct (timers w' !! y); [|done]. apply (inj Some) in Hp. eauto.
Qed.

Lemma calm_expiry x base w w' y : calm x w w' -> expiry base w' y = expiry base w y.
Proof.
  intros Hc. pose proof (calm_payload _ _ _ Hc y) as Hp. unfold expiry.
  destruct (timers w !! y), (timers w' !! y); try done. unfold payload in Hp. cbn in Hp.
  by injection Hp as ->.
Qed.

Lemma calm_enabled x w w' y : calm x w w' -> y <> x -> enabled w' y <-> enabled w y.
Proof.
  intros Hc Hy. pose proof (calm_flags _ _ _ Hc y Hy) as Hf. unfold enabled, timer_is_enabled.
  destruct (timers w !! y), (timers w' !! y); try done; cbn in Hf; simplify_eq; naive_solver congruence.
Qed.

(** Link edits are calm. *)
Lemma edits_calm l x w h head target :
  edits l (timers w) h ->
  calm x w (w <| timers := h |> <| timer_head := head |> <| timer_target := target |>).
Proof.
  intros [Hd _]. split; cbn; try done.
  - intros y. by apply Hd.
  - intros y _. by apply Hd.
Qed.

(** So is changing the flags or links of [x] itself. *)
Lemma insert_calm x w tm tm' :
  timers w !! x = Some tm -> payload tm' = payload tm ->
  calm x w (w <| timers := <[x := tm']> (timers w) |>).
Proof.
  intros Hx Hp. split; cbn; try done.
  - intros y. destruct (decide (y = x)) as [->|].
    + rewrite lookup_insert_eq, Hx. cbn. by f_equal.
    + by rewrite lookup_insert_ne.
  - intros y Hy. by rewrite lookup_insert_ne.
Qed.

Lemma wr_insert x f w tm :
  timers w !! x = Some tm -> wr x f w = Some (w <| timers := <[x := f tm]> (timers w) |>).
Proof. intros Hx. unfold wr, upd. by rewrite Hx. Qed.

(** Rebuilding the invariant after a calm operation on [x]. *)
Lemma queue_ok_calm base x w w' l l' :
  queue_ok base w l -> calm x w w' ->
  dseg (timers w') None l' None -> timer_head w' = first l' None -> NoDup l' ->
  (enabled w' x <-> x ∈ l') -> (forall y, y <> x -> y ∈ l' <-> y ∈ l) ->
  (forall y tm, timers w' !! y = Some tm -> y ∉ l' -> prev tm = None /\ next tm = None) ->
  (forall tm, timers w !! x = Some tm -> x ∈ l' -> in_window base (ts_integer tm)) ->
  StronglySorted (fun x y => expiry base w x <= expiry base w y) l' ->
  queue_ok base w' l'.
Proof.
  intros Hq Hc Hseg Hhead Hnd Hen Hmem Hfree Hwin Hsort. split; try done.
  - rewrite (calm_inited _ _ _ Hc). apply Hq.
  - intros y. destruct (decide (y = x)) as [->|Hy]; [done|].
    rewrite (calm_enabled _ _ _ _ Hc Hy), (q_enabled _ _ _ Hq), Hmem by done. done.
  - intros y tm' Hlk Hy. pose proof (calm_payload _ _ _ Hc y) as Hp. rewrite Hlk in Hp.
    destruct (timers w !! y) as [tm|] eqn:Hy0; [|done]. unfold payload in Hp. cbn in Hp. injection Hp as Hts _ _ _ _.
    rewrite Hts. destruct (decide (y = x)) as [->|Hyx]; [by apply Hwin|].
    eapply (q_window _ _ _ Hq); [done|]. by apply Hmem.
  - eapply StronglySorted_mono; [|exact Hsort]. intros a b _ _.
    by rewrite !(calm_expiry _ _ _ _ _ Hc).
Qed.

Lemma flag_cleared fl : ctrue ((fl .&~ TIMER_ENABLED) .& TIMER_ENABLED) = false.
Proof.
  unfold ctrue. rewrite <- Z.land_assoc, (Z.land_comm (Z.lnot _)), Z.land_lnot_diag.
  by rewrite Z.land_0_r.
Qed.

Lemma flag_set fl : ctrue ((TIMER_ENABLED .| fl) .& TIMER_ENABLED) = true.
Proof.
  unfold ctrue. apply negb_true_iff, Z.eqb_neq. intros E.
  apply (f_equal (fun z => Z.testbit z 0)) in E.
  rewrite Z.land_spec, Z.lor_spec, Z.testbit_0_l in E. done.
Qed.

(** ** [timer_disable] *)

Lemma timer_disable_split base w l1 x l2 :
  queue_ok base w (l1 ++ x :: l2) ->
  exists w', timer_disable (Some x) w = Some w' /\ queue_ok base w' (l1 ++ l2) /\
             calm x w w' /\ timer_target w' = timer_target w.
Proof.
  intros Hq. pose proof Hq as [Hin Hseg Hhead Hnd Hen Hfree Hwin Hsort].
  destruct (proj2 (Hen x)) as (tm & Hx & Hfl); [set_solver|].
  destruct (dseg_mid _ _ _ _ _ _ Hseg) as (tm0 & Hx0 & Hp & Hn).
  rewrite Hx in Hx0. injection Hx0 as <-. cbn in Hp, Hn.
  unfold timer_disable. rewrite Hin. unfold rd. rewrite Hx. cbn [mbind option_bind negb].
  unfold timer_is_enabled in Hfl. rewrite Hfl. cbn [negb].
  rewrite decide_False.
  2: { rewrite Hp, Hn, Hhead. intros (_ & E & Hh). destruct (final_None _ _ E) as [-> _]. by apply Hh. }
  set (f1 := fun tm : pc_timer => clear_enabled tm <| in_callback := 0 |>). erewrite wr_insert by done. cbn [mbind option_bind].
  set (w1 := w <| timers := _ |>).
  assert (dseg (timers w1) None (l1 ++ x :: l2) None) as Hseg1.
  { apply (dseg_links _ _ _ _ _ Hseg). intros y tmy _ Hy. cbn.
    destruct (decide (y = x)) as [->|]; [|rewrite lookup_insert_ne by done; eauto].
    rewrite lookup_insert_eq. rewrite Hx in Hy. injection Hy as <-. by eexists. }
  destruct (unlink_ok x l1 l2 (timers w1) Hseg1 Hnd) as (h2 & Hun & Hseg2 & Hed).
  unfold edit. rewrite Hun. cbn [mbind option_bind].
  assert ((x ∉ l1 ++ l2) /\ NoDup (l1 ++ l2)) as [Hxl Hnd'].
  { rewrite <- Permutation_middle in Hnd. by apply NoDup_cons in Hnd. }
  assert (h2 !! x = Some (f1 tm)) as Hx2.
  { rewrite (edits_frame _ _ _ Hed) by done. cbn. by rewrite lookup_insert_eq. }
  set (w2 := match prev tm with Some _ => _ | None => _ end).
  assert (timers w2 = h2) as Ht2 by (unfold w2; by destruct (prev tm)).
  erewrite wr_insert by (by rewrite Ht2). rewrite Ht2.
  eexists. split; [reflexivity|].
  assert (calm x w w2) as Hc2.
  { eapply calm_trans; [by eapply (insert_calm x w tm (f1 tm))|].
    fold w1. unfold w2.
    destruct (prev tm); [apply (edits_calm _ x w1 h2 (timer_head w1) (timer_target w1) Hed)
                        |apply (edits_calm _ x w1 h2 (next tm) (timer_target w1) Hed)]. }
  assert (calm x w (w2 <| timers := <[x := isolate (f1 tm)]> h2 |>)) as Hc.
  { eapply calm_trans; [exact Hc2|]. rewrite <- Ht2. by eapply insert_calm; [rewrite Ht2|]. }
  split_and!; [|done|unfold w2; by destruct (prev tm)].
  eapply queue_ok_calm; [exact Hq|exact Hc|..]; cbn.
  - by apply dseg_frame.
  - unfold w2. rewrite Hp. destruct l1 as [|a l1]; cbn; [by rewrite Hn|].
    destruct (final (Some a) l1) eqn:E; [by cbn; rewrite Hhead|].
    by destruct (final_None _ _ E).
  - done.
  - split; [|done]. unfold enabled. cbn. rewrite lookup_insert_eq.
    intros (? & [= <-] & Hfl'). unfold timer_is_enabled, isolate, f1, clear_enabled in Hfl'. cbn in Hfl'.
    by rewrite flag_cleared in Hfl'.
  - intros y Hy. set_solver.
  - intros y tmy. destruct (decide (y = x)) as [->|Hy].
    + rewrite lookup_insert_eq. by intros [= <-].
    + rewrite lookup_insert_ne by done. intros Hlk Hyl.
      rewrite (edits_frame _ _ _ Hed) in Hlk by done. cbn in Hlk.
      rewrite lookup_insert_ne in Hlk by done. apply (Hfree y tmy); [done|]. set_solver.
  - by intros ? ? ?%Hxl.
  - by eapply StronglySorted_remove.
Qed.

(** ** [timer_enable] *)

(** [x] has been linked into the chain [l], in expiry order, and became
    the head (and the target) if it is first. *)
Definition inserted base w x tm l w' : Prop :=
  exists h la lb,
    l = la ++ lb /\
    w' = w <| timers := h |> <| timer_head := first (la ++ x :: lb) None |>
           <| timer_target := match la with [] => ts_integer tm | _ => timer_target w end |> /\
    dseg h None (la ++ x :: lb) None /\ edits (x :: la ++ lb) (timers w) h /\
    (forall z, z ∈ la -> expiry base w z < expiry base w x) /\
    (forall z, list.head lb = Some z -> expiry base w x <= expiry base w z).

Section enable.
Context (base : Z) (w : world D) (x : ptr) (tm : pc_timer).
Context (Hlk : timers w !! x = Some tm) (Hnx : next tm = None).

Lemma before_inserted l1 y l2 :
  dseg (timers w) None (l1 ++ y :: l2) None -> NoDup (l1 ++ y :: l2) -> x ∉ (l1 ++ y :: l2) ->
  timer_head w = first (l1 ++ y :: l2) None ->
  (forall z, z ∈ l1 -> expiry base w z < expiry base w x) ->
  expiry base w x <= expiry base w y ->
  exists w', enable_before x y w = Some w' /\ inserted base w x tm (l1 ++ y :: l2) w'.
Proof.
  intros Hseg Hnd Hx Hhead Hlt Hle.
  destruct (link_before_ok x y l1 l2 (timers w) tm Hseg Hnd Hx Hlk)
    as (h & tm' & Hlb & Hseg' & Hx' & Hp' & Hed). cbn in Hp'.
  pose proof (edits_data _ _ _ Hed _ ts_integer ltac:(done) ltac:(done) x) as Hts.
  rewrite Hx', Hlk in Hts. apply (inj Some) in Hts.
  unfold enable_before, edit, rd. rewrite Hlb. cbn. rewrite Hx'. cbn. rewrite Hp'.
  eexists. split.
  2: { exists h, l1, (y :: l2). split_and!; [done|reflexivity|done|done|done|].
       by intros z [= <-]. }
  destruct l1 as [|a l1]; cbn.
  - by rewrite Hts.
  - destruct (final (Some a) l1) eqn:E; [|by destruct (final_None _ _ E)].
    cbn in Hhead. by rewrite <- Hhead.
Qed.

Lemma after_inserted l y :
  dseg (timers w) None (l ++ [y]) None -> NoDup (l ++ [y]) -> x ∉ (l ++ [y]) ->
  timer_head w = first (l ++ [y]) None ->
  (forall z, z ∈ l ++ [y] -> expiry base w z < expiry base w x) ->
  exists w', edit (link_after x y) w = Some w' /\ inserted base w x tm (l ++ [y]) w'.
Proof.
  intros Hseg Hnd Hx Hhead Hlt.
  destruct (link_after_ok x y l (timers w) tm Hseg Hnd Hx Hlk Hnx) as (h & Hla & Hseg' & Hed).
  unfold edit. rewrite Hla. cbn. eexists. split; [reflexivity|].
  exists h, (l ++ [y]), []. rewrite !app_nil_r. split_and!; try done.
  cbn. destruct (l ++ [y]) as [|a l'] eqn:E; [by destruct l|].
  cbn in Hhead |- *. by rewrite <- Hhead.
Qed.

(** The loop, started at [y] when every timer before [y] expires before [x]. *)
Lemma enable_loop_inserted l1 y l2 fuel :
  dseg (timers w) None (l1 ++ y :: l2) None -> NoDup (l1 ++ y :: l2) -> x ∉ (l1 ++ y :: l2) ->
  timer_head w = first (l1 ++ y :: l2) None ->
  (forall z tmz, timers w !! z = Some tmz -> z ∈ x :: l1 ++ y :: l2 ->
     in_window base (ts_integer tmz)) ->
  (forall z, z ∈ l1 -> expiry base w z < expiry base w x) ->
  (length (y :: l2) <= fuel)%nat ->
  exists w', enable_loop fuel x y w = Some w' /\ inserted base w x tm (l1 ++ y :: l2) w'.
Proof.
  intros Hseg Hnd Hx Hhead Hwin. revert l1 y fuel Hseg Hnd Hx Hhead Hwin.
  induction l2 as [|y' l2 IH]; intros l1 y [|fuel] Hseg Hnd Hx Hhead Hwin Hlt Hfuel;
    cbn [length] in Hfuel; try lia.
  all: destruct (dseg_mid _ _ _ _ _ _ Hseg) as (tmy & Hy & _ & Hny); cbn in Hny.
  all: cbn [enable_loop]; unfold rd at 1 2; rewrite Hlk, Hy; cbn [mbind option_bind].
  all: unfold TIMER_LESS_THAN; rewrite (s64_leb_key base) by (eapply Hwin; [done|set_solver]).
  all: assert (key base (ts_integer tm) = expiry base w x) as -> by (unfold expiry; by rewrite Hlk).
  all: assert (key base (ts_integer tmy) = expiry base w y) as -> by (unfold expiry; by rewrite Hy).
  all: destruct (Z.leb_spec (expiry base w x) (expiry base w y)) as [Hle|Hgt];
    [by apply before_inserted|].
  all: assert (forall z, z ∈ l1 ++ [y] -> expiry base w z < expiry base w x) as Hlt'
    by (intros z [Hz|Hz%list_elem_of_singleton]%elem_of_app; [auto|by subst]).
  all: rewrite Hny; cbn [first].
  - by apply after_inserted.
  - specialize (IH (l1 ++ [y]) y' fuel). rewrite <- app_assoc in IH. apply IH; try done. cbn. lia.
Qed.
End enable.

(** The position of [x] in the new queue. *)
Definition expiry_order base w x (la lb : list ptr) : Prop :=
  (forall z, z ∈ la -> expiry base w z < expiry base w x) /\
  (forall z, list.head lb = Some z -> expiry base w x <= expiry base w z).

(** A timer that is not queued is put in expiry order. *)
Lemma timer_enable_new base w l x tm :
  queue_ok base w l -> timers w !! x = Some tm -> x ∉ l -> in_window base (ts_integer tm) ->
  exists w' la lb,
    timer_enable (Some x) w = Some w' /\ l = la ++ lb /\ queue_ok base w' (la ++ x :: lb) /\
    expiry_order base w x la lb /\ calm x w w' /\
    timer_target w' = match la with [] => ts_integer tm | _ => timer_target w end.
Proof.
  intros Hq Hlk Hxl Hwx. pose proof Hq as [Hin Hseg Hhead Hnd Hen Hfree Hwin Hsort].
  destruct (Hfree x tm Hlk Hxl) as [Hp Hn].
  assert (ctrue (flags tm .& TIMER_ENABLED) = false) as Hfl.
  { destruct (ctrue _) eqn:E; [|done]. destruct Hxl. apply Hen. by exists tm. }
  unfold timer_enable, rd. cbn [mbind option_bind]. rewrite Hlk. cbn [mbind option_bind].
  rewrite Hfl. cbn [mbind option_bind]. rewrite Hlk. cbn [mbind option_bind].
  rewrite bool_decide_eq_true_2 by done. cbn [negb].
  set (tm1 := tm <| flags ::= Z.lor TIMER_ENABLED |>).
  erewrite wr_insert by done. fold tm1. cbn [mbind option_bind].
  set (w1 := w <| timers := <[x:=tm1]> (timers w) |>).
  assert (calm x w w1) as Hc1 by (by eapply insert_calm).
  assert (timers w1 !! x = Some tm1) as Hlk1 by (cbn; by rewrite lookup_insert_eq).
  assert (dseg (timers w1) None l None) as Hseg1 by (by apply dseg_frame).
  assert (exists w', match timer_head w1 with
      | Some node => enable_loop (size (timers w1)) x node w1
      | None => w ← wr x isolate w1;
          Some (w <| timer_head := Some x |> <| timer_target := ts_integer tm |>)
      end = Some w' /\ inserted base w1 x tm1 l w') as (w' & Hrun & Hins).
  { cbn [timer_head w1 set]. change (timer_head w1) with (timer_head w). rewrite Hhead.
    destruct l as [|y l]; cbn [first].
    - erewrite wr_insert by done. cbn [mbind option_bind]. eexists. split; [reflexivity|].
      exists (<[x := isolate tm1]> (timers w1)), [], []. split_and!; try done.
      + cbn. rewrite lookup_insert_eq. by eexists.
      + eapply edits_insert; [exact Hlk1|set_solver|].
        exact (relinked_next None _ _ (relinked_prev None _ _ (relinked_refl _))).
      + intros z. by intros ?%not_elem_of_nil.
    - apply (enable_loop_inserted base w1 x tm1 Hlk1 Hn []); try done.
      + intros z tmz. cbn. intros Hz Hin'. destruct (decide (z = x)) as [->|Hzx].
        * rewrite lookup_insert_eq in Hz. by injection Hz as <-.
        * rewrite lookup_insert_ne in Hz by done. apply (Hwin z); [done|set_solver].
      + by intros z ?%not_elem_of_nil.
      + apply length_le_size; [done|]. intros z Hz.
        destruct (dseg_lookup _ _ _ _ z Hseg1 Hz) as [? ->]. eauto. }
  rewrite Hrun. destruct Hins as (h & la & lb & -> & Hw' & Hseg' & Hed & Hlt & Hle).
  exists w', la, lb.
  assert (calm x w w') as Hc.
  { subst w'. eapply calm_trans; [exact Hc1|by eapply edits_calm]. }
  assert (forall z, expiry base w1 z = expiry base w z) as Hexp
    by (intros; by eapply calm_expiry).
  assert (expiry_order base w x la lb) as Hord.
  { split; intros z Hz; rewrite <- !Hexp; auto. }
  split_and!; [done|done| |done|done|subst w'; cbn; by destruct la].
  eapply queue_ok_calm; [exact Hq|exact Hc|by subst w'|by subst w'| | | | | |].
  - rewrite <- Permutation_middle. by constructor.
  - split; [set_solver|]. intros _. subst w'. unfold enabled. cbn.
    pose proof (edits_data _ _ _ Hed _ flags ltac:(done) ltac:(done) x) as Hf.
    rewrite Hlk1 in Hf. destruct (h !! x) as [tm2|]; [|done].
    apply (inj Some) in Hf. exists tm2. split; [done|].
    unfold timer_is_enabled. rewrite Hf. apply flag_set.
  - intros y Hy. set_solver.
  - intros y tmy. subst w'. cbn. intros Hy Hyl.
    rewrite (edits_frame _ _ _ Hed) in Hy by set_solver. cbn in Hy.
    rewrite lookup_insert_ne in Hy by set_solver. apply (Hfree y); [done|set_solver].
  - intros tm' Htm' _. rewrite Hlk in Htm'. by injection Htm' as <-.
  - destruct Hord as [Hlt' Hle']. apply StronglySorted_insert; [intros ???; lia|done| |done].
    intros z Hz. specialize (Hlt' z Hz). lia.
Qed.

Lemma filter_ne_notin l x : x ∉ l -> filter (.≠ x) l = l.
Proof.
  induction l as [|y l IH]; [done|]. intros Hx. rewrite filter_cons_True by set_solver.
  f_equal. apply IH. set_solver.
Qed.

Lemma filter_ne_split l1 x l2 : NoDup (l1 ++ x :: l2) -> filter (.≠ x) (l1 ++ x :: l2) = l1 ++ l2.
Proof.
  intros Hnd. rewrite <- (filter_ne_notin (l1 ++ l2) x), !filter_app.
  - by rewrite filter_cons_False by auto.
  - rewrite <- Permutation_middle in Hnd. by apply NoDup_cons in Hnd as [? _].
Qed.

(** Removing a timer leaves a target that is not too late. *)
Lemma target_ok_remove base w w' l1 x l2 :
  queue_ok base w (l1 ++ x :: l2) -> calm x w w' -> timer_target w' = timer_target w ->
  target_ok base w (l1 ++ x :: l2) -> target_ok base w' (l1 ++ l2).
Proof.
  intros Hq Hc Ht. unfold target_ok. rewrite Ht. pose proof (q_sorted _ _ _ Hq) as Hs.
  destruct l1 as [|a l1]; cbn in *; [|by rewrite (calm_expiry _ _ _ _ _ Hc)].
  destruct l2 as [|b l2]; [done|]. rewrite (calm_expiry _ _ _ _ _ Hc).
  inversion Hs as [|? ? ? Hx]; subst. rewrite Forall_cons in Hx. lia.
Qed.

Lemma timer_disable_queued base w l x :
  queue_ok base w l -> x ∈ l ->
  exists w', timer_disable (Some x) w = Some w' /\ queue_ok base w' (filter (.≠ x) l) /\
             calm x w w' /\ (target_ok base w l -> target_ok base w' (filter (.≠ x) l)).
Proof.
  intros Hq (l1 & l2 & ->)%list_elem_of_split.
  rewrite filter_ne_split by apply Hq.
  destruct (timer_disable_split _ _ _ _ _ Hq) as (w' & ? & ? & ? & ?).
  exists w'. split_and!; try done. intros. by eapply target_ok_remove.
Qed.

(** Disabling a timer that is not queued does nothing. *)
Lemma timer_disable_unqueued base w l x tm :
  queue_ok base w l -> timers w !! x = Some tm -> x ∉ l -> timer_disable (Some x) w = Some w.
Proof.
  intros Hq Hlk Hx. unfold timer_disable, rd. rewrite (q_inited _ _ _ Hq), Hlk. cbn.
  destruct (ctrue (flags tm .& TIMER_ENABLED)) eqn:E; [|done].
  destruct Hx. apply (q_enabled _ _ _ Hq). by exists tm.
Qed.

(** Disabling a timer succeeds and removes exactly that timer from the
    queue; the others keep their order, time stamps and flags, and the
    next call of [timer_process] is still not too late. *)
Theorem timer_disable_removes base w l x tm :
  queue_ok base w l -> target_ok base w l -> timers w !! x = Some tm ->
  exists w', timer_disable (Some x) w = Some w' /\ queue_ok base w' (filter (.≠ x) l) /\
             target_ok base w' (filter (.≠ x) l) /\ calm x w w' /\ ~ enabled w' x.
Proof.
  intros Hq Ht Hlk.
  assert (exists w', timer_disable (Some x) w = Some w' /\ queue_ok base w' (filter (.≠ x) l) /\
             target_ok base w' (filter (.≠ x) l) /\ calm x w w') as (w' & ? & Hq' & ? & ?).
  { destruct (decide (x ∈ l)) as [Hx|Hx].
    - destruct (timer_disable_queued _ _ _ _ Hq Hx) as (w' & ? & ? & ? & ?). eauto 6.
    - exists w. rewrite filter_ne_notin by done. split_and!; try done.
      by eapply timer_disable_unqueued. }
  exists w'. split_and!; try done. rewrite (q_enabled _ _ _ Hq'), list_elem_of_filter. tauto.
Qed.

(** *** Arming a timer: a new time stamp, then [timer_enable] *)

Definition retime (i f : Z) (tm : pc_timer) : pc_timer :=
  tm <| ts_integer := i |> <| ts_frac := f |>.
Definition retime_at x i f w : world D := w <| timers ::= alter (retime i f) x |>.

Lemma upd_retime x i f y (g : pc_timer -> pc_timer) (h : gmap ptr pc_timer) :
  (forall tm, g (retime i f tm) = retime i f (g tm)) ->
  upd y g (alter (retime i f) x h) = alter (retime i f) x <$> upd y g h.
Proof.
  intros Hg. unfold upd. destruct (decide (y = x)) as [->|Hyx].
  - rewrite lookup_alter_eq. destruct (h !! x) as [tm|] eqn:E; cbn; [|done]. f_equal.
    rewrite Hg. apply map_eq. intros z. destruct (decide (z = x)) as [->|].
    + by rewrite lookup_insert_eq, lookup_alter_eq, lookup_insert_eq.
    + by rewrite lookup_insert_ne, !lookup_alter_ne, lookup_insert_ne by done.
  - rewrite lookup_alter_ne by done. destruct (h !! y); cbn; [|done]. f_equal.
    by rewrite alter_insert_ne.
Qed.

Lemma unlink_retime x i f (h : gmap ptr pc_timer) :
  unlink x (alter (retime i f) x h) = alter (retime i f) x <$> unlink x h.
Proof.
  unfold unlink. rewrite lookup_alter_eq. destruct (h !! x) as [tm|]; cbn; [|done].
  assert (upd_opt (prev tm) (fun t => t <| next := next tm |>) (alter (retime i f) x h) =
          alter (retime i f) x <$> upd_opt (prev tm) (fun t => t <| next := next tm |>) h) as ->.
  { destruct (prev tm); [|done]. by apply upd_retime. }
  destruct (upd_opt _ _ h) as [h1|]; cbn; [|done].
  rewrite lookup_alter_eq. destruct (h1 !! x) as [tm1|]; cbn; [|done].
  destruct (next tm1); [|done]. by apply upd_retime.
Qed.

Lemma wr_retime x i f y g w :
  (forall tm, g (retime i f tm) = retime i f (g tm)) ->
  wr y g (retime_at x i f w) = retime_at x i f <$> wr y g w.
Proof.
  intros Hg. unfold wr. cbn. rewrite upd_retime by done. by destruct (upd y g (timers w)).
Qed.

Lemma timer_disable_retime x i f w :
  timer_disable (Some x) (retime_at x i f w) = retime_at x i f <$> timer_disable (Some x) w.
Proof.
  unfold timer_disable, rd. change (timer_inited (retime_at x i f w)) with (timer_inited w).
  change (timer_head (retime_at x i f w)) with (timer_head w).
  change (timers (retime_at x i f w)) with (alter (retime i f) x (timers w)).
  destruct (timer_inited w); [|done]. cbn [negb]. rewrite lookup_alter_eq.
  destruct (timers w !! x) as [tm|]; cbn; [|done].
  destruct (ctrue (flags tm .& TIMER_ENABLED)); cbn [negb]; [|done]. case_decide; [done|].
  rewrite (wr_retime x i f x (fun tm => clear_enabled tm <| in_callback := 0 |>)) by done.
  destruct (wr x _ w) as [w1|]; cbn; [|done].
  unfold edit. cbn. rewrite unlink_retime. destruct (unlink x (timers w1)) as [h|]; cbn; [|done].
  rewrite <- (wr_retime x i f x isolate) by done. by destruct (prev tm).
Qed.

Lemma retime_queue_ok base x i f w l :
  x ∉ l -> queue_ok base w l -> queue_ok base (retime_at x i f w) l.
Proof.
  intros Hx [Hin Hseg Hhead Hnd Hen Hfree Hwin Hsort].
  assert (forall y, y ∈ l -> alter (retime i f) x (timers w) !! y = timers w !! y) as Hl.
  { intros y Hy. apply lookup_alter_ne. set_solver. }
  split; try done.
  - apply (dseg_links _ _ _ _ _ Hseg). intros y tm Hy Hlk. cbn. rewrite Hl by done. eauto.
  - intros y. rewrite <- Hen. unfold enabled. cbn. destruct (decide (y = x)) as [->|].
    + rewrite lookup_alter_eq. destruct (timers w !! x); cbn; [|done].
      split; intros (? & [= <-] & ?); by eexists.
    + by rewrite lookup_alter_ne.
  - intros y tm. cbn. destruct (decide (y = x)) as [->|].
    + rewrite lookup_alter_eq, fmap_Some. intros (tm0 & Hlk & ->). cbn. exact (Hfree x tm0 Hlk).
    + rewrite lookup_alter_ne by done. apply Hfree.
  - intros y tm. cbn. intros Hlk Hy. rewrite Hl in Hlk by done. by eapply Hwin.
  - eapply StronglySorted_mono; [|exact Hsort]. intros a b Ha Hb. unfold expiry. cbn.
    by rewrite !Hl.
Qed.

Lemma retime_target_ok base x i f w l :
  x ∉ l -> target_ok base w l -> target_ok base (retime_at x i f w) l.
Proof.
  unfold target_ok, expiry. destruct l as [|y l]; [done|]. intros Hx. cbn.
  by rewrite lookup_alter_ne by set_solver.
Qed.

Lemma retime_calm x i f w w' : calm x w w' -> calm x (retime_at x i f w) (retime_at x i f w').
Proof.
  intros [Hp Hf]. split; try done.
  - intros y. specialize (Hp y). cbn. destruct (decide (y = x)) as [->|].
    + rewrite !lookup_alter_eq. destruct (timers w !! x), (timers w' !! x); try done.
      unfold payload in *. cbn in *. injection Hp as ? ? ? ? ?. congruence.
    + by rewrite !lookup_alter_ne.
  - intros y Hy. cbn. rewrite !lookup_alter_ne by done. by apply Hf.
Qed.

(** [timer_enable] of a queued timer starts with [timer_disable]. *)
Lemma timer_enable_via w w1 x :
  enabled w x -> timer_disable (Some x) w = Some w1 -> is_Some (timers w1 !! x) ->
  ~ enabled w1 x -> timer_enable (Some x) w = timer_enable (Some x) w1.
Proof.
  intros (tm & Hlk & Hfl) Hd [tm1 Hlk1] Hne. unfold timer_enable, rd. cbn [mbind option_bind].
  rewrite Hlk, Hlk1. cbn [mbind option_bind]. unfold timer_is_enabled in Hfl. rewrite Hfl, Hd.
  cbn [mbind option_bind]. destruct (ctrue (flags tm1 .& TIMER_ENABLED)) eqn:E; [|done].
  destruct Hne. by exists tm1.
Qed.

(** Arming [x], queued or not: the queue stays in order and nothing but
    [x] changes. *)
Lemma rearm base w l x tm i f :
  queue_ok base w l -> target_ok base w l -> timers w !! x = Some tm -> in_window base i ->
  exists w' la lb,
    timer_enable (Some x) (retime_at x i f w) = Some w' /\ filter (.≠ x) l = la ++ lb /\
    queue_ok base w' (la ++ x :: lb) /\ expiry_order base (retime_at x i f w) x la lb /\
    target_ok base w' (la ++ x :: lb) /\ calm x (retime_at x i f w) w'.
Proof.
  intros Hq Ht Hlk Hwin.
  assert (exists w1 tm1, timer_enable (Some x) (retime_at x i f w) =
      timer_enable (Some x) (retime_at x i f w1) /\
    queue_ok base w1 (filter (.≠ x) l) /\ target_ok base w1 (filter (.≠ x) l) /\
    calm x w w1 /\ timers w1 !! x = Some tm1)
    as (w1 & tm1 & -> & Hq1 & Ht1 & Hc1 & Hlk1).
  { destruct (decide (x ∈ l)) as [Hx|Hx].
    - destruct (timer_disable_queued _ _ _ _ Hq Hx) as (w1 & Hd & Hq1 & Hc1 & Ht1).
      destruct (calm_lookup _ _ _ _ _ Hc1 Hlk) as (tm1 & Hlk1 & _).
      exists w1, tm1. split_and!; auto. apply timer_enable_via.
      + destruct (proj2 (q_enabled _ _ _ Hq x) Hx) as (t & Hlk' & Hfl).
        exists (retime i f t). cbn. by rewrite lookup_alter_eq, Hlk'.
      + by rewrite timer_disable_retime, Hd.
      + cbn. rewrite lookup_alter_eq, Hlk1. eauto.
      + intros (t & Hlk' & Hfl). cbn in Hlk'. rewrite lookup_alter_eq, Hlk1 in Hlk'.
        cbn in Hlk'. injection Hlk' as <-.
        assert (x ∈ filter (.≠ x) l) as Hin by (apply (q_enabled _ _ _ Hq1); by exists tm1).
        by apply list_elem_of_filter in Hin as [].
    - exists w, tm. rewrite filter_ne_notin by done. split_and!; auto using calm_refl. }
  assert (x ∉ filter (.≠ x) l) as Hxf by (rewrite list_elem_of_filter; tauto).
  destruct (timer_enable_new base (retime_at x i f w1) (filter (.≠ x) l) x (retime i f tm1))
    as (w' & la & lb & Hrun & Hl & Hq' & Hord & Hc & Htgt); try done.
  { by apply retime_queue_ok. }
  { cbn. by rewrite lookup_alter_eq, Hlk1. }
  pose proof (retime_calm x i f _ _ Hc1) as Hc1'.
  apply (retime_target_ok _ x i f) in Ht1; [|done].
  exists w', la, lb. rewrite Hl in Ht1. split_and!; try done.
  - destruct Hord as [Hlt Hle].
    split; intros z Hz; rewrite <- !(calm_expiry _ _ _ _ _ Hc1'); auto.
  - unfold target_ok in *. destruct la as [|a la]; cbn in *; rewrite Htgt.
    + rewrite (calm_expiry _ _ _ _ _ Hc). unfold expiry. cbn. by rewrite lookup_alter_eq, Hlk1.
    + by rewrite (calm_expiry _ _ _ _ _ Hc).
  - by eapply calm_trans.
Qed.

Lemma retime_at_id x tm w :
  timers w !! x = Some tm -> retime_at x (ts_integer tm) (ts_frac tm) w = w.
Proof.
  intros Hlk. destruct w as [m hd tg ini ts us d]. cbn in Hlk.
  change (mkWorld (alter (retime (ts_integer tm) (ts_frac tm)) x m) hd tg ini ts us d =
          mkWorld m hd tg ini ts us d). f_equal.
  apply alter_id. intros t Ht. rewrite Hlk in Ht. injection Ht as <-. by destruct tm.
Qed.

(** C4: Enabling a timer (queued or not) succeeds - the search loop ends -
    and puts it in the queue in front of the first timer that does not
    expire earlier; nothing else changes, and [timer_target] is not later
    than the first expiry. *)
Theorem timer_enable_sorted base w l x tm :
  queue_ok base w l -> target_ok base w l ->
  timers w !! x = Some tm -> in_window base (ts_integer tm) ->
  exists w' la lb,
    timer_enable (Some x) w = Some w' /\ filter (.≠ x) l = la ++ lb /\
    queue_ok base w' (la ++ x :: lb) /\ expiry_order base w x la lb /\
    target_ok base w' (la ++ x :: lb) /\ calm x w w'.
Proof.
  intros Hq Ht Hlk Hwin.
  pose proof (rearm base w l x tm (ts_integer tm) (ts_frac tm) Hq Ht Hlk Hwin) as Hr.
  by rewrite (retime_at_id x tm w Hlk) in Hr.
Qed.

(** ** [timer_process] *)

Lemma timer_remove_head_ok base w x y l :
  queue_ok base w (x :: y :: l) ->
  exists w', timer_remove_head w = Some w' /\ queue_ok base w' (y :: l) /\ calm x w w' /\
    flags <$> timers w' !! x = (fun tm => flags tm .&~ TIMER_ENABLED) <$> timers w !! x.
Proof.
  intros Hq. pose proof Hq as [Hin Hseg Hhead Hnd Hen Hfree Hwin Hsort].
  pose proof Hseg as (tm & Hx & _ & Hn & Hseg2). cbn [first] in Hn.
  pose proof Hseg2 as (ty & Hy & _ & Hny & Hseg3). cbn in Hn, Hny.
  apply NoDup_cons in Hnd as [Hxn Hnd].
  assert (y <> x) as Hyx by set_solver.
  unfold timer_remove_head, rd. rewrite Hhead. cbn [first]. rewrite Hx. cbn [mbind option_bind].
  cbn. rewrite Hn. cbn.
  set (w1 := w <| timer_head := Some y |>).
  rewrite (wr_insert y _ w1 ty) by done. cbn [mbind option_bind].
  set (w2 := w1 <| timers := _ |>).
  assert (timers w2 !! x = Some tm) as Hx2 by (cbn; by rewrite lookup_insert_ne).
  rewrite (wr_insert x _ w2 tm Hx2). eexists. split; [reflexivity|].
  set (w3 := w2 <| timers := _ |>).
  assert (calm x w w3) as Hc.
  { apply calm_trans with w2; [|by eapply insert_calm].
    split; try done; intros z; cbn; (destruct (decide (z = y)) as [->|];
      [rewrite lookup_insert_eq, Hy|rewrite lookup_insert_ne by done]; done). }
  split_and!; [|done|cbn; by rewrite lookup_insert_eq].
  eapply queue_ok_calm; [exact Hq|exact Hc|..].
  - apply (dseg_frame (N := pc_timer)); [done|]. 
    change (timers w2) with (<[y := set_nprev None ty]> (timers w)).
    by apply dseg_set_nprev with (Some x).
  - done.
  - done.
  - split; [|done]. unfold enabled. cbn. rewrite lookup_insert_eq. intros (? & [= <-] & Hfl).
    unfold timer_is_enabled in Hfl. cbn in Hfl. by rewrite flag_cleared in Hfl.
  - intros z Hz. set_solver.
  - intros z tz. cbn. destruct (decide (z = x)) as [->|Hzx].
    + rewrite lookup_insert_eq. by intros [= <-].
    + rewrite lookup_insert_ne by done. intros Hz Hzl. rewrite lookup_insert_ne in Hz by set_solver.
      apply (Hfree z); [done|set_solver].
  - by intros ? ? ?%Hxn.
  - by inversion Hsort.
Qed.

(** Setting [in_callback] does not disturb the queue. *)
Lemma wr_in_callback base w l x v tm :
  queue_ok base w l -> timers w !! x = Some tm ->
  exists w', wr x (fun tm => tm <| in_callback := v |>) w = Some w' /\ queue_ok base w' l /\
             calm x w w' /\ flags <$> timers w' !! x = Some (flags tm) /\ timer_head w' = timer_head w.
Proof.
  intros Hq Hlk. erewrite wr_insert by done. eexists. split; [reflexivity|].
  set (w' := w <| timers := _ |>).
  assert (calm x w w') as Hc by (by eapply insert_calm).
  assert (flags <$> timers w' !! x = Some (flags tm)) as Hf
    by (cbn; by rewrite lookup_insert_eq).
  split_and!; try done. pose proof Hq as [Hin Hseg Hhead Hnd Hen Hfree Hwin Hsort].
  eapply queue_ok_calm; [exact Hq|exact Hc|..]; try done.
  - apply (dseg_links _ _ _ _ _ Hseg). intros y tmy _ Hy. cbn.
    destruct (decide (y = x)) as [->|]; [|rewrite lookup_insert_ne by done; eauto].
    rewrite lookup_insert_eq. rewrite Hlk in Hy. injection Hy as <-. by eexists.
  - rewrite <- Hen. unfold enabled, timer_is_enabled. cbn. rewrite lookup_insert_eq, Hlk.
    split; intros (? & [= <-] & ?); by eexists.
  - intros y ty. cbn. destruct (decide (y = x)) as [->|].
    + rewrite lookup_insert_eq. intros [= <-] Hx. exact (Hfree x tm Hlk Hx).
    + rewrite lookup_insert_ne by done. apply Hfree.
  - intros ? ? Hx. by apply (Hwin x).
Qed.

(** Timers at or before the current time stamp, in the queue. *)
Definition expired base w x : Prop := expiry base w x <= key base (tsc w).

#[export] Instance expired_dec base w x : Decision (expired base w x).
Proof. unfold expired. apply _. Defined.

Definition nexpired base w l : nat := length (filter (expired base w) l).

Definition unsplit w l : Prop :=
  forall x tm, x ∈ l -> timers w !! x = Some tm -> ctrue (flags tm .& TIMER_SPLIT) = false.

(** A queue on which [timer_process] may run: the clock is in the window,
    no timer is in the middle of a split period, and some timer is still
    to come (timer.c dereferences the head after the last one). *)
Record ready base w l : Prop := {
  r_queue : queue_ok base w l;
  r_now : in_window base (tsc w);
  r_unsplit : unsplit w l;
  r_live : exists y, y ∈ l /\ ~ expired base w y;
}.

Lemma split_after_clear fl :
  ctrue ((fl .&~ TIMER_ENABLED) .& TIMER_SPLIT) = ctrue (fl .& TIMER_SPLIT).
Proof.
  unfold ctrue. do 2 f_equal. rewrite <- Z.land_assoc. f_equal.
Qed.

Lemma calm_expired x base w w' y : calm x w w' -> expired base w' y <-> expired base w y.
Proof. intros Hc. unfold expired. by rewrite (calm_expiry _ _ _ _ _ Hc), (calm_tsc _ _ _ Hc). Qed.

Lemma calm_nexpired x base w w' l : calm x w w' -> nexpired base w' l = nexpired base w l.
Proof.
  intros Hc. unfold nexpired. f_equal. apply list_filter_iff. intros y. by eapply calm_expired.
Qed.

Lemma calm_unsplit x w w' l : calm x w w' -> x ∉ l -> unsplit w l -> unsplit w' l.
Proof.
  intros Hc Hx Hu y tm' Hy Hlk. pose proof (calm_flags _ _ _ Hc y ltac:(set_solver)) as Hf.
  rewrite Hlk in Hf. destruct (timers w !! y) as [tm|] eqn:E; [|done].
  apply (inj Some) in Hf. rewrite Hf. by apply (Hu y).
Qed.

(** Removing an expired head keeps the queue ready. *)
Lemma remove_head_ready base w x l tm :
  ready base w (x :: l) -> expired base w x -> timers w !! x = Some tm ->
  exists w' tm', timer_remove_head w = Some w' /\ ready base w' l /\ calm x w w' /\
    timers w' !! x = Some tm' /\ payload tm' = payload tm /\
    ctrue (flags tm' .& TIMER_SPLIT) = false.
Proof.
  intros [Hq Hnow Hun (y & Hy & Hlive)] Hex Hlk.
  apply elem_of_cons in Hy as [->|Hy]; [done|].
  destruct l as [|z l]; [by apply elem_of_nil in Hy|].
  pose proof (q_nodup _ _ _ Hq) as [Hxl _]%NoDup_cons.
  destruct (timer_remove_head_ok _ _ _ _ _ Hq) as (w' & Hr & Hq' & Hc & Hf).
  destruct (calm_lookup _ _ _ _ _ Hc Hlk) as (tm' & Hlk' & Hp).
  exists w', tm'. split_and!; try done.
  - split; [done|by rewrite (calm_tsc _ _ _ Hc)| |].
    + apply (calm_unsplit x w); [done|done|]. intros u tu Hu. apply Hun. by right.
    + exists y. split; [done|]. by rewrite (calm_expired _ _ _ _ _ Hc).
  - rewrite Hlk, Hlk' in Hf. apply (inj Some) in Hf. rewrite Hf, split_after_clear.
    apply (Hun x); [by left|done].
Qed.

(** What the callbacks of the devices may do to the queue: start, stop and
    re-arm timers, as long as no new expired timer appears, the clock does
    not move and no timer structure is freed. *)
Definition callbacks_ok base (call : Z -> Z -> world D -> option (world D)) : Prop :=
  forall f p w l, ready base w l ->
    exists w' l', call f p w = Some w' /\ ready base w' l' /\ tsc w' = tsc w /\
      (nexpired base w' l' <= nexpired base w l)%nat /\
      (forall x, is_Some (timers w !! x) -> is_Some (timers w' !! x)).

Lemma ready_in_callback base w l x v tm :
  ready base w l -> timers w !! x = Some tm ->
  exists w', wr x (fun tm => tm <| in_callback := v |>) w = Some w' /\ ready base w' l /\
    calm x w w' /\ is_Some (timers w' !! x).
Proof.
  intros [Hq Hnow Hun (y & Hy & Hlive)] Hlk.
  destruct (wr_in_callback base w l x v tm Hq Hlk) as (w' & Hw & Hq' & Hc & Hf & _).
  exists w'. split_and!; try done.
  - split; [done|by rewrite (calm_tsc _ _ _ Hc)| |].
    + intros u tu Hu Hlku. destruct (decide (u = x)) as [->|Hux].
      * rewrite Hlku in Hf. injection Hf as ->. by apply (Hun x).
      * pose proof (calm_flags _ _ _ Hc u Hux) as Hfu. rewrite Hlku in Hfu.
        destruct (timers w !! u) eqn:E; [|done]. injection Hfu as ->. by apply (Hun u).
    + exists y. split; [done|]. by rewrite (calm_expired _ _ _ _ _ Hc).
  - by destruct (timers w' !! x).
Qed.

Section process.
Context (base : Z) (call : Z -> Z -> world D -> option (world D)).

(** One iteration of the loop fires one expired timer. *)
Lemma fire_step w x l :
  callbacks_ok base call -> ready base w (x :: l) -> expired base w x ->
  exists w1 w' l', timer_remove_head w = Some w1 /\ fire call x w1 = Some w' /\
    ready base w' l' /\ tsc w' = tsc w /\
    (nexpired base w' l' < nexpired base w (x :: l))%nat.
Proof.
  intros Hcall Hrdy Hex.
  destruct (proj2 (q_enabled _ _ _ (r_queue _ _ _ Hrdy) x)) as (tm & Hlk & _); [by left|].
  destruct (remove_head_ready _ _ _ _ _ Hrdy Hex Hlk) as (w1 & tm1 & Hr & Hrdy1 & Hc1 & Hlk1 & _ & Hsp).
  assert (nexpired base w1 l < nexpired base w (x :: l))%nat as Hlt.
  { rewrite (calm_nexpired _ _ _ _ _ Hc1). unfold nexpired.
    rewrite filter_cons_True by done. cbn. lia. }
  pose proof (calm_tsc _ _ _ Hc1) as Ht1.
  exists w1. unfold fire, rd. rewrite Hlk1. cbn [mbind option_bind]. rewrite Hsp.
  destruct (callback tm1) as [f|]; [|eauto 8].
  destruct (ready_in_callback base w1 l x 1 tm1 Hrdy1 Hlk1) as (w2 & Hw2 & Hrdy2 & Hc2 & Hx2).
  rewrite Hw2. cbn [mbind option_bind].
  destruct (Hcall f (priv tm1) w2 l Hrdy2) as (w3 & l3 & Hw3 & Hrdy3 & Ht3 & Hn3 & Hdom).
  rewrite Hw3. cbn [mbind option_bind]. destruct (Hdom x Hx2) as [tm3 Hlk3].
  destruct (ready_in_callback base w3 l3 x 0 tm3 Hrdy3 Hlk3) as (w4 & Hw4 & Hrdy4 & Hc4 & _).
  exists w4, l3. split_and!; [done|done|done| |].
  - rewrite (calm_tsc _ _ _ Hc4), Ht3, (calm_tsc _ _ _ Hc2). done.
  - rewrite (calm_nexpired _ _ _ _ _ Hc4). rewrite (calm_nexpired _ _ _ _ _ Hc2) in Hn3. lia.
Qed.

Lemma head_test w x l tm :
  ready base w (x :: l) -> timers w !! x = Some tm ->
  TIMER_LESS_THAN_VAL tm (tsc w) = bool_decide (expired base w x).
Proof.
  intros [Hq Hnow _ _] Hlk. unfold TIMER_LESS_THAN_VAL.
  pose proof (q_window _ _ _ Hq x tm Hlk ltac:(by left)) as Hw.
  rewrite (s64_leb_key base) by done.
  case_bool_decide as He; unfold expired, expiry in He; rewrite Hlk in He;
    [apply Z.leb_le|apply Z.leb_gt]; lia.
Qed.

(** An expired timer anywhere means an expired head. *)
Lemma expired_head w x l :
  queue_ok base w (x :: l) -> ~ expired base w x -> nexpired base w (x :: l) = 0%nat.
Proof.
  intros Hq Hx. unfold nexpired. rewrite filter_cons_False by done.
  pose proof (q_sorted _ _ _ Hq) as Hs. inversion Hs as [|? ? _ Hall]; subst.
  rewrite Forall_forall in Hall.
  replace (filter (expired base w) l) with (@nil ptr); [done|]. symmetry.
  apply elem_of_nil_inv. intros y [Hy Hin]%list_elem_of_filter.
  specialize (Hall y Hin). apply Hx. unfold expired in *. lia.
Qed.

Lemma ready_cons w l : ready base w l -> exists x l', l = x :: l'.
Proof. intros [_ _ _ (y & Hy & _)]. destruct l; [by apply elem_of_nil in Hy|eauto]. Qed.

Lemma process_loop_ok w l :
  callbacks_ok base call -> ready base w l ->
  exists w' l', (forall fuel, (nexpired base w l < fuel)%nat -> process_loop call fuel w = Some w') /\
    ready base w' l' /\ nexpired base w' l' = 0%nat /\ tsc w' = tsc w.
Proof.
  intros Hcall. remember (nexpired base w l) as n eqn:Hn. revert w l Hn.
  induction (lt_wf n) as [n _ IH]. intros w l -> Hrdy.
  destruct (ready_cons _ _ Hrdy) as (x & l' & ->).
  destruct (proj2 (q_enabled _ _ _ (r_queue _ _ _ Hrdy) x)) as (tm & Hlk & _); [by left|].
  pose proof (q_head _ _ _ (r_queue _ _ _ Hrdy)) as Hhead. cbn in Hhead.
  pose proof (head_test _ _ _ _ Hrdy Hlk) as Htest.
  destruct (decide (expired base w x)) as [Hex|Hex].
  - destruct (fire_step _ _ _ Hcall Hrdy Hex) as (w1 & w2 & l2 & Hr & Hf & Hrdy2 & Ht2 & Hlt).
    destruct (IH _ Hlt w2 l2 eq_refl Hrdy2) as (w' & l'' & Hrun & Hrdy' & Hn' & Ht').
    exists w', l''. split_and!; [|done|done|congruence].
    intros [|fuel] Hfuel; [lia|]. cbn. unfold rd. rewrite Hhead. cbn. rewrite Hlk. cbn.
    rewrite Htest, bool_decide_eq_true_2 by done. cbn. rewrite Hr. cbn. rewrite Hf. cbn.
    apply Hrun. lia.
  - exists w, (x :: l'). split_and!; [|done|by eapply expired_head; [apply Hrdy|]|done].
    intros [|fuel] Hfuel; [lia|]. cbn. unfold rd. rewrite Hhead. cbn. rewrite Hlk. cbn.
    by rewrite Htest, bool_decide_eq_false_2.
Qed.

(** C3: [timer_process] terminates and returns whenever some queued timer
    is not yet due, none is split and callbacks keep their contract:
    afterwards no queued timer is due, the queue is in order, and [timer_target] is the time
    stamp of its head.  Fuel above the number of due timers suffices. *)
Theorem timer_process_total w l :
  callbacks_ok base call -> ready base w l ->
  exists w' x l' tm,
    (forall fuel, (nexpired base w l < fuel)%nat -> timer_process call fuel w = Some w') /\
    queue_ok base w' (x :: l') /\ (forall y, y ∈ x :: l' -> ~ expired base w' y) /\
    timers w' !! x = Some tm /\ timer_target w' = ts_integer tm /\ tsc w' = tsc w.
Proof.
  intros Hcall Hrdy. destruct (process_loop_ok w l Hcall Hrdy) as (w' & l1 & Hrun & Hrdy' & Hn & Ht).
  destruct (ready_cons _ _ Hrdy') as (x & l' & ->).
  pose proof (r_queue _ _ _ Hrdy') as Hq'. pose proof (q_head _ _ _ Hq') as Hhead'. cbn in Hhead'.
  destruct (proj2 (q_enabled _ _ _ Hq' x)) as (tm & Hlk & _); [by left|].
  destruct (ready_cons _ _ Hrdy) as (x0 & l0 & ->).
  pose proof (q_head _ _ _ (r_queue _ _ _ Hrdy)) as Hhead. cbn in Hhead.
  exists (w' <| timer_target := ts_integer tm |>), x, l', tm. split_and!; try done.
  - intros fuel Hfuel. unfold timer_process, rd. rewrite Hhead, Hrun by done.
    cbn [mbind option_bind]. rewrite Hhead'. cbn [mbind option_bind]. by rewrite Hlk.
  - by destruct Hq'.
  - intros y Hy Hex. apply length_zero_iff_nil in Hn.
    assert (y ∈ filter (expired base w') (x :: l')) as Hin by by apply list_elem_of_filter.
    rewrite Hn in Hin. by apply elem_of_nil in Hin.
Qed.
End process.

(** ** One-shot timers: the order of the callbacks *)

(** A callback that only changes the devices. *)
Definition one_shot (g : Z -> Z -> D -> D) (f p : Z) (w : world D) : option (world D) :=
  Some (w <| dev ::= g f p |>).

(** The callback of [x], run on the devices. *)
Definition run_callback (g : Z -> Z -> D -> D) w (d : D) x : D :=
  match payload <$> timers w !! x with
  | Some (_, _, _, Some f, p) => g f p d
  | _ => d
  end.

Lemma ready_dev base w l d : ready base w l -> ready base (w <| dev := d |>) l.
Proof.
  intros [Hq Hnow Hun Hlive]. split; [|exact Hnow|exact Hun|exact Hlive].
  destruct Hq as [? ? ? ? Hen ? ? ?]. split; try done.
Qed.

Lemma run_callback_payload g w w' d x :
  payload <$> timers w' !! x = payload <$> timers w !! x ->
  run_callback g w' d x = run_callback g w d x.
Proof. unfold run_callback. by intros ->. Qed.

Lemma one_shot_step g base w x l :
  ready base w (x :: l) -> expired base w x ->
  exists w1 w', timer_remove_head w = Some w1 /\ fire (one_shot g) x w1 = Some w' /\
    ready base w' l /\ tsc w' = tsc w /\ dev w' = run_callback g w (dev w) x /\
    (forall y, payload <$> timers w' !! y = payload <$> timers w !! y).
Proof.
  intros Hrdy Hex.
  destruct (proj2 (q_enabled _ _ _ (r_queue _ _ _ Hrdy) x)) as (tm & Hlk & _); [by left|].
  destruct (remove_head_ready _ _ _ _ _ Hrdy Hex Hlk) as (w1 & tm1 & Hr & Hrdy1 & Hc1 & Hlk1 & Hp & Hsp).
  exists w1. unfold fire, rd. rewrite Hlk1. cbn [mbind option_bind]. rewrite Hsp.
  unfold run_callback. rewrite Hlk. cbn [fmap option_fmap option_map].
  rewrite <- Hp. unfold payload at 1.
  pose proof (calm_tsc _ _ _ Hc1). pose proof (calm_dev _ _ _ Hc1).
  destruct (callback tm1) as [f|] eqn:Hcb.
  2: { exists w1. split_and!; try done. apply Hc1. }
  destruct (ready_in_callback base w1 l x 1 tm1 Hrdy1 Hlk1) as (w2 & Hw2 & Hrdy2 & Hc2 & Hx2).
  rewrite Hw2. cbn [mbind option_bind one_shot].
  set (w3 := w2 <| dev ::= _ |>). destruct Hx2 as [tm3 Hlk3].
  destruct (ready_in_callback base w3 l x 0 tm3) as (w4 & Hw4 & Hrdy4 & Hc4 & _); [by apply ready_dev|done|].
  exists w4. split_and!; [done|exact Hw4|done| | |].
  - rewrite (calm_tsc _ _ _ Hc4). cbn. rewrite (calm_tsc _ _ _ Hc2). done.
  - rewrite (calm_dev _ _ _ Hc4). cbn. rewrite (calm_dev _ _ _ Hc2). congruence.
  - intros y. rewrite (calm_payload _ _ _ Hc4). cbn. rewrite (calm_payload _ _ _ Hc2).
    apply Hc1.
Qed.

Lemma one_shot_loop g base due live w fuel :
  ready base w (due ++ live) ->
  (forall x, x ∈ due -> expired base w x) -> (forall x, x ∈ live -> ~ expired base w x) ->
  (length due < fuel)%nat ->
  exists w', process_loop (one_shot g) fuel w = Some w' /\ ready base w' live /\
    tsc w' = tsc w /\ dev w' = fold_left (run_callback g w) due (dev w).
Proof.
  revert w fuel. induction due as [|x due IH]; intros w [|fuel] Hrdy Hdue Hlive Hfuel;
    cbn [length app] in *; try lia.
  all: destruct (ready_cons _ _ _ Hrdy) as (z & l' & E).
  all: pose proof (q_head _ _ _ (r_queue _ _ _ Hrdy)) as Hhead.
  - rewrite E in Hhead, Hrdy, Hlive. cbn in Hhead.
    destruct (proj2 (q_enabled _ _ _ (r_queue _ _ _ Hrdy) z)) as (tm & Hlk & _); [by left|].
    exists w. cbn. unfold rd. rewrite Hhead. cbn. rewrite Hlk. cbn.
    rewrite (head_test _ _ _ _ _ Hrdy Hlk), bool_decide_eq_false_2 by (apply Hlive; by left).
    by rewrite E.
  - clear z l' E. cbn in Hhead.
    destruct (proj2 (q_enabled _ _ _ (r_queue _ _ _ Hrdy) x)) as (tm & Hlk & _); [by left|].
    assert (expired base w x) as Hex by (apply Hdue; by left).
    destruct (one_shot_step g _ _ _ _ Hrdy Hex) as (w1 & w2 & Hr & Hf & Hrdy2 & Ht2 & Hd2 & Hp2).
    assert (forall y, expired base w2 y <-> expired base w y) as Hexp.
    { intros y. unfold expired, expiry. rewrite Ht2. specialize (Hp2 y).
      destruct (timers w !! y), (timers w2 !! y); try done.
      unfold payload in Hp2. cbn in Hp2. by injection Hp2 as ->. }
    destruct (IH w2 fuel Hrdy2) as (w' & Hrun & Hrdy' & Ht' & Hd').
    + intros y Hy. apply Hexp, Hdue. by right.
    + intros y Hy. rewrite Hexp. by apply Hlive.
    + lia.
    + exists w'. split_and!; [|done|congruence|].
      * cbn. unfold rd. rewrite Hhead. cbn. rewrite Hlk. cbn.
        rewrite (head_test _ _ _ _ _ Hrdy Hlk), bool_decide_eq_true_2 by done. cbn.
        rewrite Hr. cbn. by rewrite Hf.
      * rewrite Hd', Hd2. cbn. clear -Hp2. generalize (run_callback g w (dev w) x).
        induction due as [|y due IHd]; intros d; cbn; [done|].
        by rewrite (run_callback_payload g w w2) by apply Hp2.
Qed.

(** C2: With one-shot timers, none of them split, and one queued that is
    not due, [timer_process] runs the callbacks of exactly the due timers,
    once each and in expiry order, and leaves exactly the timers that are not
    due in the queue. *)
Theorem timer_process_order g base due live w fuel :
  ready base w (due ++ live) ->
  (forall x, x ∈ due -> expired base w x) -> (forall x, x ∈ live -> ~ expired base w x) ->
  (length due < fuel)%nat ->
  exists w', timer_process (one_shot g) fuel w = Some w' /\ queue_ok base w' live /\
    dev w' = fold_left (run_callback g w) due (dev w).
Proof.
  intros Hrdy Hdue Hlive Hfuel.
  destruct (one_shot_loop g base due live w fuel) as (w' & Hrun & Hrdy' & Ht & Hd); [done..|].
  destruct (ready_cons _ _ _ Hrdy) as (z & l0 & E).
  pose proof (q_head _ _ _ (r_queue _ _ _ Hrdy)) as Hhead. rewrite E in Hhead. cbn in Hhead.
  destruct (ready_cons _ _ _ Hrdy') as (x & l' & ->).
  pose proof (r_queue _ _ _ Hrdy') as Hq'. pose proof (q_head _ _ _ Hq') as Hhead'. cbn in Hhead'.
  destruct (proj2 (q_enabled _ _ _ Hq' x)) as (tm & Hlk & _); [by left|].
  exists (w' <| timer_target := ts_integer tm |>). split_and!; [|by destruct Hq'|done].
  unfold timer_process, rd. rewrite Hhead, Hrun. cbn [mbind option_bind].
  rewrite Hhead'. cbn [mbind option_bind]. by rewrite Hlk.
Qed.

(** ** Deadlines: 64.32 fixed point, modulo 2^96 *)

Definition stamp (tm : pc_timer) : Z := ts_integer tm * 2 ^ 32 + ts_frac tm.

Lemma sext_delay_spec d : is_u64 d -> sext_delay d = u64 (s64 d `div` 2 ^ 32).
Proof.
  intros [Hd Hd']. unfold sext_delay. rewrite Z.shiftr_div_pow2 by done.
  set (n := d `div` 2 ^ 32).
  assert (in_width 32 n) as Hn.
  { unfold n. split; [apply Z.div_pos; lia|]. apply Z.div_lt_upper_bound; lia. }
  change 2147483648 with (2 ^ 31). rewrite land_pow2, (testbit_top n 31) by done.
  assert (d = 2 ^ 32 * n + d `mod` 2 ^ 32) as Hdm by (by apply Z.div_mod).
  pose proof (Z.mod_pos_bound d (2 ^ 32) ltac:(lia)) as Hm.
  destruct (Z.leb_spec (2 ^ 31) n) as [Hle|Hlt];
    [change (ctrue (2 ^ 31)) with true|change (ctrue 0) with false]; cbn iota.
  - change 0xffffffff00000000 with (0xffffffff <<< 32). rewrite lor_shiftl_add by done.
    assert (s64 d = d - 2 ^ 64) as ->.
    { unfold swrap. rewrite <- (Z.mod_unique (d + 2 ^ (64 - 1)) (2 ^ 64) 1 (d - 2 ^ 63)); lia. }
    assert ((d - 2 ^ 64) `div` 2 ^ 32 = n - 2 ^ 32) as ->.
    { symmetry. apply Z.div_unique with (d `mod` 2 ^ 32); lia. }
    apply Z.mod_unique with (-1); destruct Hn; lia.
  - assert (s64 d = d) as ->.
    { unfold swrap. rewrite Z.mod_small; lia. }
    fold n. rewrite wrap_id; [done|]. destruct Hn. split; lia.
Qed.

Lemma low_half d : is_u64 d -> d .& 0xffffffff = s64 d `mod` 2 ^ 32.
Proof.
  intros Hd. change 0xffffffff with (Z.ones 32). rewrite land_mask by done.
  rewrite <- (wrap_id 64 d Hd) at 1. rewrite <- (swrap_wrap 64). unfold wrap.
  change (2 ^ 64) with (2 ^ 32 * 2 ^ 32). rewrite Z.rem_mul_r by lia.
  rewrite (Z.mul_comm (2 ^ 32)), Z_mod_plus_full. by rewrite Z.mod_mod.
Qed.

(** Splitting a sum of fixed-point numbers in its two halves. *)
Lemma stamp_split i f d :
  0 <= f < 2 ^ 32 ->
  let s := i * 2 ^ 32 + f + d in
  u64 (s `div` 2 ^ 32) * 2 ^ 32 + s `mod` 2 ^ 32 = s `mod` 2 ^ 96.
Proof.
  intros Hf s. change (2 ^ 96) with (2 ^ 32 * 2 ^ 64). rewrite Z.rem_mul_r by lia.
  unfold wrap. lia.
Qed.

Definition deadline_set base w l x (s : Z) (w' : world D) : Prop :=
  exists la lb tm',
    filter (.≠ x) l = la ++ lb /\ queue_ok base w' (la ++ x :: lb) /\
    target_ok base w' (la ++ x :: lb) /\
    timers w' !! x = Some tm' /\ stamp tm' = s /\
    (forall y, y <> x -> payload <$> timers w' !! y = payload <$> timers w !! y) /\
    tsc w' = tsc w.

Lemma arm_deadline base w l x tm i f :
  queue_ok base w l -> target_ok base w l -> timers w !! x = Some tm -> in_window base i ->
  exists w', timer_enable (Some x) (retime_at x i f w) = Some w' /\
    deadline_set base w l x (i * 2 ^ 32 + f) w'.
Proof.
  intros Hq Ht Hlk Hwin.
  destruct (rearm base w l x tm i f) as (w' & la & lb & Hrun & Hl & Hq' & _ & Ht' & Hc); try done.
  destruct (calm_lookup _ _ w' x (retime i f tm) Hc) as (tm' & Hlk' & Hp).
  { cbn. by rewrite lookup_alter_eq, Hlk. }
  exists w'. split; [done|]. exists la, lb, tm'. split_and!; try done.
  - unfold payload in Hp. cbn in Hp. injection Hp as Hi Hf _ _ _. unfold stamp. congruence.
  - intros y Hy. rewrite (calm_payload _ _ _ Hc). cbn. by rewrite lookup_alter_ne.
  - by rewrite (calm_tsc _ _ _ Hc).
Qed.

Lemma wr_retime_at x g w tm i f :
  timers w !! x = Some tm -> g tm = retime i f tm -> wr x g w = Some (retime_at x i f w).
Proof.
  intros Hlk Hg. rewrite (wr_insert x g w tm Hlk). unfold retime_at. f_equal.
  change (w <| timers := <[x := g tm]> (timers w) |> =
          w <| timers := alter (retime i f) x (timers w) |>).
  do 2 f_equal. rewrite Hg. apply map_eq. intros z. destruct (decide (z = x)) as [->|].
  - by rewrite lookup_insert_eq, lookup_alter_eq, Hlk.
  - by rewrite lookup_insert_ne, lookup_alter_ne.
Qed.

(** Setting a delay is arming the timer for its new time. *)
Lemma set_delay_retimes w x tm delay :
  let s := tsc w * 2 ^ 32 + s64 delay in
  timers w !! x = Some tm -> is_u64 delay ->
  timer_set_delay_u64 (Some x) delay w =
  timer_enable (Some x) (retime_at x (u64 (s `div` 2 ^ 32)) (s `mod` 2 ^ 32) w).
Proof.
  intros s Hlk Hd. unfold timer_set_delay_u64. cbn [mbind option_bind]. erewrite wr_retime_at; [reflexivity|done|].
  unfold retime, s. rewrite sext_delay_spec, low_half by done.
  rewrite Z.div_add_l, wrap_add_wrap_l, (Z.add_comm (tsc w)) by done.
  by rewrite (Z.add_comm (tsc w * 2 ^ 32)), Z.mod_add.
Qed.

(** [timer_set_delay_u64], on a queued or an idle timer, puts it in
    the queue with a deadline exactly [delay] after the present (a signed
    32.32 fixed-point number), and touches no other timer. *)
Theorem timer_set_delay_deadline base w l x tm delay :
  let s := tsc w * 2 ^ 32 + s64 delay in
  queue_ok base w l -> target_ok base w l -> timers w !! x = Some tm -> is_u64 delay ->
  in_window base (u64 (s `div` 2 ^ 32)) ->
  exists w', timer_set_delay_u64 (Some x) delay w = Some w' /\
    deadline_set base w l x (s `mod` 2 ^ 96) w'.
Proof.
  intros s Hq Ht Hlk Hd Hwin.
  destruct (arm_deadline base w l x tm _ (s `mod` 2 ^ 32) Hq Ht Hlk Hwin) as (w' & Hrun & Hs).
  exists w'. pose proof (stamp_split (tsc w) 0 (s64 delay)) as E. rewrite Z.add_0_r in E.
  unfold s in *. rewrite E in Hs by lia. split; [|done].
  by rewrite (set_delay_retimes w x tm).
Qed.

(** [timer_advance_u64] moves the deadline of a timer by exactly
    [delay] - carrying from the fraction to the integer part, so that
    periodic timers do not drift - and queues it in order. *)
Theorem timer_advance_deadline base w l x tm delay :
  let s := stamp tm + s64 delay in
  queue_ok base w l -> target_ok base w l -> timers w !! x = Some tm ->
  is_u32 (ts_frac tm) -> is_u64 delay -> in_window base (u64 (s `div` 2 ^ 32)) ->
  exists w', timer_advance_u64 (Some x) delay w = Some w' /\
    deadline_set base w l x (s `mod` 2 ^ 96) w'.
Proof.
  intros s Hq Ht Hlk Hf Hd Hwin.
  destruct (arm_deadline base w l x tm _ (s `mod` 2 ^ 32) Hq Ht Hlk Hwin) as (w' & Hrun & Hs).
  exists w'. pose proof (stamp_split (ts_integer tm) (ts_frac tm) (s64 delay) Hf) as E.
  unfold s, stamp in *. rewrite E in Hs. split; [|done].
  unfold timer_advance_u64. cbn [mbind option_bind]. erewrite wr_retime_at; [exact Hrun|done|].
  rewrite sext_delay_spec, low_half by done. clear -Hf Hd.
  generalize (s64 delay) as d. intros d.
  pose proof (Z.div_mod d (2 ^ 32) ltac:(lia)) as Hdm.
  pose proof (Z.mod_pos_bound d (2 ^ 32) ltac:(lia)) as Hm.
  set (q := d `div` 2 ^ 32) in *. set (r := d `mod` 2 ^ 32) in *.
  assert (forall c, 0 <= c <= 1 -> c * 2 ^ 32 <= ts_frac tm + r < (c + 1) * 2 ^ 32 ->
    (ts_integer tm * 2 ^ 32 + ts_frac tm + d) `div` 2 ^ 32 = ts_integer tm + c + q /\
    (ts_integer tm * 2 ^ 32 + ts_frac tm + d) `mod` 2 ^ 32 = ts_frac tm + r - c * 2 ^ 32) as Hc.
  { intros c Hc Hr.
    split; symmetry; [apply Z.div_unique with (ts_frac tm + r - c * 2 ^ 32)
                     |apply Z.mod_unique with (ts_integer tm + c + q)]; lia. }
  destruct Hf as [Hf0 Hf].
  destruct (decide (r + ts_frac tm < 2 ^ 32)) as [Hlt|Hge].
  - rewrite (wrap_id 32 (r + ts_frac tm)) by (split; lia).
    rewrite (proj2 (Z.ltb_ge _ _)) by lia.
    destruct (Hc 0) as [-> ->]; [lia..|].
    transitivity (retime (u64 (ts_integer tm + u64 q)) (u32 (ts_frac tm + r)) tm); [done|].
    f_equal.
    + rewrite wrap_add_wrap_r. f_equal. lia.
    + rewrite wrap_id by (split; lia). lia.
  - assert (forall z, z = r + ts_frac tm -> u32 z = r + ts_frac tm - 2 ^ 32) as Hu.
    { intros z ->. symmetry. apply Z.mod_unique with 1; lia. }
    rewrite Hu, (proj2 (Z.ltb_lt _ _)) by lia.
    destruct (Hc 1) as [-> ->]; [lia..|].
    transitivity (retime (u64 (u64 (ts_integer tm + 1) + u64 q)) (u32 (ts_frac tm + r)) tm);
      [done|].
    f_equal.
    + rewrite wrap_add_wrap_l, wrap_add_wrap_r. f_equal; lia.
    + rewrite Hu; lia.
Qed.

(** ** [timer_set_new_tsc]: moving the clock under the queue *)

Definition shift_to (new now : Z) (tm : pc_timer) : pc_timer :=
  tm <| ts_integer := u64 (new + s64 (timer_get_ts_int tm - now)) |>.

Lemma new_tsc_loop_ok w new l p fuel :
  dseg (timers w) p l None -> NoDup l -> (length l < fuel)%nat ->
  exists h, new_tsc_loop fuel (first l None) new w = Some (w <| timers := h |>) /\
    forall y, h !! y = if decide (y ∈ l) then shift_to new (tsc w) <$> timers w !! y
                       else timers w !! y.
Proof.
  revert w p fuel. induction l as [|x l IH]; intros w p [|fuel]; try (cbn; lia).
  { intros _ _ _. exists (timers w). split; [by destruct w|].
    intros y. rewrite decide_False; [done|apply not_elem_of_nil]. }
  intros (tm & Hx & Hp & Hn & Hl) [Hxl Hnd]%NoDup_cons Hfuel.
  cbn [length] in Hfuel. cbn [first new_tsc_loop].
  unfold rd. rewrite Hx. cbn [mbind option_bind].
  rewrite (wr_insert x _ w tm Hx). cbn [mbind option_bind]. cbn in Hn. rewrite Hn.
  set (w1 := w <| timers := _ |>).
  destruct (IH w1 (Some x) fuel) as (h & Hrun & Hh); [by apply dseg_frame|done|lia|].
  exists h. split; [by rewrite Hrun|]. intros y. rewrite Hh. cbn.
  destruct (decide (y = x)) as [->|Hyx].
  - rewrite decide_False, decide_True by set_solver. by rewrite lookup_insert_eq, Hx.
  - rewrite lookup_insert_ne by done.
    destruct (decide (y ∈ l)); [rewrite decide_True|rewrite decide_False]; set_solver.
Qed.

Lemma shift_key base new now ts :
  key (base + (new - now)) (u64 (new + s64 (ts - now))) = key base ts.
Proof.
  unfold key. rewrite wrap_sub_idemp.
  replace (new + s64 (ts - now) - (base + (new - now))) with (s64 (ts - now) + (now - base)) by lia.
  rewrite <- wrap_add_wrap_l, swrap_wrap, wrap_add_wrap_l. f_equal. lia.
Qed.

(** [timer_set_new_tsc] ends and moves every queued timer with the
    clock: the time left of each timer, the order of the queue and
    everything else about the timers are kept. *)
Theorem timer_set_new_tsc_keeps base w l new :
  queue_ok base w l ->
  exists w', timer_set_new_tsc new w = Some w' /\ tsc w' = new /\
    queue_ok (base + (new - tsc w)) w' l /\
    (l <> [] -> target_ok (base + (new - tsc w)) w' l) /\
    forall x, timers w' !! x = if decide (x ∈ l) then shift_to new (tsc w) <$> timers w !! x
                               else timers w !! x.
Proof.
  intros [Hin Hseg Hhead Hnd Hen Hfree Hwin Hsort]. unfold timer_set_new_tsc. rewrite Hhead.
  destruct l as [|x l]; cbn [first].
  { eexists. split; [done|]. split_and!; try done.
    - split; try done; [intros ? ? _ []%elem_of_nil|constructor]. }
  pose proof Hseg as (tm & Hx & _). unfold rd. rewrite Hx. cbn [mbind option_bind].
  set (w0 := w <| timer_target := _ |>).
  destruct (new_tsc_loop_ok w0 new (x :: l) None (S (size (timers w0)))) as (h & Hrun & Hh);
    [done|done| |].
  { apply le_n_S, length_le_size; [done|]. intros y Hy.
    destruct (dseg_lookup _ _ _ _ y Hseg Hy) as [? E]. cbn. rewrite E. eauto. }
  cbn [first] in Hrun. rewrite Hrun. cbn [mbind option_bind].
  set (w' := w0 <| timers := h |> <| tsc := new |>).
  change (forall y, h !! y = if decide (y ∈ x :: l)
    then shift_to new (tsc w) <$> timers w !! y else timers w !! y) in Hh.
  assert (forall y, y ∈ x :: l ->
    expiry (base + (new - tsc w)) w' y = expiry base w y) as Hexp.
  { intros y Hy. unfold expiry. cbn. rewrite Hh, decide_True by done.
    destruct (timers w !! y); cbn; [|done]. apply shift_key. }
  exists w'. split; [done|]. split; [done|]. split_and!; [split; try done| |done].
  - apply (dseg_links _ _ _ _ _ Hseg). intros y ty Hy Hlk. cbn. rewrite Hh, decide_True, Hlk by done.
    cbn. by eexists.
  - intros y. rewrite <- Hen. unfold enabled. cbn. rewrite Hh. case_decide; [|done].
    destruct (timers w !! y); cbn; [|done]. split; intros (? & [= <-] & ?); by eexists.
  - intros y ty. cbn. rewrite Hh. intros Hy Hn. rewrite decide_False in Hy by done. by apply (Hfree y).
  - intros y ty. cbn. rewrite Hh. intros Hy Hl. rewrite decide_True in Hy by done.
    apply fmap_Some in Hy as (t0 & Hy & ->). unfold in_window, shift_to. cbn.
    rewrite shift_key. by apply (Hwin y).
  - eapply StronglySorted_mono; [|exact Hsort]. intros a b Ha Hb. by rewrite !Hexp.
  - intros _. unfold target_ok. rewrite Hexp by by left. unfold expiry. rewrite Hx. cbn.
    rewrite shift_key. done.
Qed.

(** ** Corner cases of timer.c *)

(** C5: Removing the last timer of the queue dereferences NULL, so
    [timer_process] crashes when every queued timer is due. *)
Theorem timer_process_last_crashes call base w x tm fuel :
  queue_ok base w [x] -> timers w !! x = Some tm -> TIMER_LESS_THAN_VAL tm (tsc w) = true ->
  timer_process call fuel w = None.
Proof.
  intros [Hin Hseg Hhead Hnd Hen Hfree Hwin Hsort] Hx Hdue. cbn in Hhead.
  destruct Hseg as (tm' & Hx' & _ & Hn & _). rewrite Hx in Hx'. injection Hx' as <-. cbn in Hn.
  unfold timer_process. rewrite Hhead. destruct fuel; [done|]. cbn. unfold rd.
  rewrite Hhead. cbn. rewrite Hx. cbn. rewrite Hdue. cbn.
  unfold timer_remove_head, rd. rewrite Hhead, Hx. cbn. by rewrite Hn.
Qed.

(** [timer_close] unlinks the head only: the second timer keeps its link
    to the first. *)
Theorem timer_close_first_only base w x y l :
  queue_ok base w (x :: y :: l) ->
  exists w' ty, timer_close w = Some w' /\ timer_head w' = None /\ timer_inited w' = false /\
    timers w' !! y = Some ty /\ prev ty = Some x.
Proof.
  intros [Hin Hseg Hhead Hnd Hen Hfree Hwin Hsort]. cbn in Hhead.
  destruct Hseg as (tx & Hx & _ & Hnx & ty & Hy & Hp & _).
  assert (x <> y) as Hxy by (apply NoDup_cons in Hnd; set_solver).
  assert (forall n (v : world D), close_loop n None v = Some v) as Hend by (by destruct n).
  unfold timer_close. rewrite Hhead. cbn [close_loop].
  rewrite (wr_insert x _ w tx Hx). cbn [mbind option_bind]. unfold rd.
  change (timers (w <| timers := <[x := isolate tx]> (timers w) |>))
    with (<[x := isolate tx]> (timers w)).
  rewrite lookup_insert_eq. cbn [mbind option_bind]. rewrite Hend. cbn [mbind option_bind].
  eexists _, ty. split_and!; [done..| |done]. cbn. by rewrite lookup_insert_ne.
Qed.
End invariant.

(** ** A concrete queue

    Timers 1 and 2 are queued (2 is still to come), 3 is idle. *)
Section sample.
Definition sample_timer (ts fl : Z) (p n : option ptr) : pc_timer :=
  mkTimer ts 0x80000000 fl 0 dbl_zero (Some 7) 5 p n.

Definition sample : world (list Z) :=
  mkWorld {[ 1 := sample_timer 100 1 None (Some 2); 2 := sample_timer 200 1 (Some 1) None;
             3 := sample_timer 150 0 None None ]}
          (Some 1) 100 true 120 1000 [].

(** The device state logs the callbacks. *)
Definition log_call (f p : Z) (d : list Z) : list Z := d ++ [f; p].

Lemma sample_lookup x tm :
  timers sample !! x = Some tm ->
  x = 1 /\ tm = sample_timer 100 1 None (Some 2) \/
  x = 2 /\ tm = sample_timer 200 1 (Some 1) None \/
  x = 3 /\ tm = sample_timer 150 0 None None.
Proof.
  cbn. rewrite !lookup_insert_Some, lookup_singleton_Some. naive_solver.
Qed.

Lemma sample_ok : queue_ok 0 sample [1; 2].
Proof.
  split; try done.
  - by repeat (eexists; split_and!; [vm_compute; reflexivity|done|done|]).
  - apply (bool_decide_unpack (NoDup [1; 2])). by vm_compute.
  - intros x. split.
    + intros (tm & [[-> ->]|[[-> ->]|[-> ->]]]%sample_lookup & Hf); [set_solver..|done].
    + intros Hx. assert (x = 1 \/ x = 2) as [-> | ->] by set_solver; by eexists.
  - intros x tm [[-> ->]|[[-> ->]|[-> ->]]]%sample_lookup Hx; [set_solver..|done].
  - by intros x tm [[-> ->]|[[-> ->]|[-> ->]]]%sample_lookup _.
  - repeat constructor. by vm_compute.
Qed.

Lemma sample_target : target_ok 0 sample [1; 2].
Proof. by vm_compute. Qed.

Lemma sample_ready : ready 0 sample [1; 2].
Proof.
  split; [exact sample_ok|done| |].
  - by intros x tm _ [[_ ->]|[[_ ->]|[_ ->]]]%sample_lookup.
  - exists 2. split; [set_solver|by vm_compute].
Qed.

(** Callbacks that leave the timers alone keep the contract. *)
Lemma one_shot_ok {D} base (g : Z -> Z -> D -> D) : callbacks_ok base (one_shot g).
Proof.
  intros f p w l Hrdy. exists (w <| dev ::= g f p |>), l.
  split_and!; [done|by apply ready_dev|done|done|done].
Qed.

Lemma timer_disable_removes_witness :
  exists w', timer_disable (Some 1) sample = Some w' /\ queue_ok 0 w' [2] /\
             target_ok 0 w' [2] /\ calm 1 sample w' /\ ~ enabled w' 1.
Proof.
  exact (timer_disable_removes 0 sample [1; 2] 1 _ sample_ok sample_target eq_refl).
Defined.

Lemma timer_enable_sorted_witness :
  exists w' la lb,
    timer_enable (Some 3) sample = Some w' /\ [1; 2] = la ++ lb /\
    queue_ok 0 w' (la ++ 3 :: lb) /\ expiry_order 0 sample 3 la lb /\
    target_ok 0 w' (la ++ 3 :: lb) /\ calm 3 sample w'.
Proof.
  exact (timer_enable_sorted 0 sample [1; 2] 3 _ sample_ok sample_target eq_refl eq_refl).
Defined.

Lemma timer_process_total_witness :
  exists w' x l' tm,
    (forall fuel, (1 < fuel)%nat -> timer_process (one_shot log_call) fuel sample = Some w') /\
    queue_ok 0 w' (x :: l') /\ (forall y, y ∈ x :: l' -> ~ expired 0 w' y) /\
    timers w' !! x = Some tm /\ timer_target w' = ts_integer tm /\ tsc w' = 120.
Proof.
  exact (timer_process_total 0 (one_shot log_call) sample [1; 2] (one_shot_ok 0 log_call)
           sample_ready).
Defined.

Lemma timer_process_order_witness :
  exists w', timer_process (one_shot log_call) 2 sample = Some w' /\ queue_ok 0 w' [2] /\
             dev w' = [7; 5].
Proof.
  apply (timer_process_order log_call 0 [1] [2] sample 2 sample_ready).
  - intros x ->%list_elem_of_singleton. by vm_compute.
  - intros x ->%list_elem_of_singleton. by vm_compute.
  - cbn. lia.
Defined.

Lemma timer_set_delay_deadline_witness :
  exists w', timer_set_delay_u64 (Some 1) (50 * 2 ^ 32) sample = Some w' /\
    deadline_set 0 sample [1; 2] 1 (170 * 2 ^ 32) w'.
Proof.
  apply (timer_set_delay_deadline 0 sample [1; 2] 1 _ (50 * 2 ^ 32) sample_ok sample_target eq_refl).
  - split; lia.
  - by vm_compute.
Defined.

Lemma timer_advance_deadline_witness :
  exists w', timer_advance_u64 (Some 3) (50 * 2 ^ 32 + 0x80000000) sample = Some w' /\
    deadline_set 0 sample [1; 2] 3 (201 * 2 ^ 32) w'.
Proof.
  apply (timer_advance_deadline 0 sample [1; 2] 3 (sample_timer 150 0 None None)
           (50 * 2 ^ 32 + 0x80000000) sample_ok sample_target eq_refl).
  - split; cbn; lia.
  - split; lia.
  - by vm_compute.
Defined.

Lemma timer_set_new_tsc_keeps_witness :
  exists w', timer_set_new_tsc 1000 sample = Some w' /\ tsc w' = 1000 /\
    queue_ok 880 w' [1; 2] /\ ([1; 2] <> [] -> target_ok 880 w' [1; 2]) /\
    forall x, timers w' !! x = if decide (x ∈ [1; 2]) then shift_to 1000 120 <$> timers sample !! x
                               else timers sample !! x.
Proof. exact (timer_set_new_tsc_keeps 0 sample [1; 2] 1000 sample_ok). Defined.

(** Timer 2 alone and due: the crash happens. *)
Definition lone : world (list Z) :=
  mkWorld {[ 2 := sample_timer 200 1 None None ]} (Some 2) 200 true 200 1000 [].

Lemma lone_ok : queue_ok 0 lone [2].
Proof.
  assert (forall x tm, timers lone !! x = Some tm -> x = 2 /\ tm = sample_timer 200 1 None None)
    as Hlk by (cbn; intros x tm [<- <-]%lookup_singleton_Some; done).
  split; try done.
  - by repeat (eexists; split_and!; [vm_compute; reflexivity|done|done|]).
  - apply NoDup_singleton.
  - intros x. rewrite list_elem_of_singleton. split.
    + by intros (tm & [-> ->]%Hlk & _).
    + intros ->. by eexists.
  - by intros x tm [-> ->]%Hlk ?.
  - by intros x tm [-> ->]%Hlk _.
  - repeat constructor.
Qed.

Lemma timer_process_last_crashes_witness :
  timer_process (one_shot log_call) 100 lone = None.
Proof.
  exact (timer_process_last_crashes (one_shot log_call) 0 lone 2 _ 100 lone_ok eq_refl eq_refl).
Defined.

Lemma timer_close_first_only_witness :
  exists w' ty, timer_close sample = Some w' /\ timer_head w' = None /\ timer_inited w' = false /\
    timers w' !! 2 = Some ty /\ prev ty = Some 1.
Proof. exact (timer_close_first_only 0 sample 1 2 [] sample_ok). Defined.
End sample.
