(* ===== verification/Io.v ===== *)
(** * Io: the I/O port dispatcher of src/src/io.c

    Every port has a chain of handler nodes, linked in both directions;
    devices register the same six functions and private pointer on a range
    of ports.  [iobus] holds the nodes by address, the chain heads and tails
    by port, the I/O traps, the PCI window, the bookkeeping of the last
    access and the devices ([dev]).  Function pointers are [fn]: the trap
    functions of io.c, or the address of a device function, whose behaviour
    is an argument ([callees]); device functions may change the whole bus.
    [None] is a crash or exhausted fuel. *)
From stdpp Require Import functions.
From S2P Require Import Prelude Dll.

Abbreviation ptr := Z.
Definition NPORTS : Z := 65536.

(** A function pointer stored in a handler. *)
Inductive fn := Trap | Dev (a : Z).

(** What a device registers: [io_t] without its links. *)
Record io_ops := mkOps {
  inb_fn : option fn;
  inw_fn : option fn;
  inl_fn : option fn;
  outb_fn : option fn;
  outw_fn : option fn;
  outl_fn : option fn;
  priv : Z;
}.

#[export] Instance fn_eq_dec : EqDecision fn.
Proof. solve_decision. Defined.
#[export] Instance io_ops_eq_dec : EqDecision io_ops.
Proof. solve_decision. Defined.

Record io_t := mkIo { ops : io_ops; prev : option ptr; next : option ptr }.

#[export] Instance io_node : DllNode ptr io_t := {
  nprev := prev;
  nnext := next;
  set_nprev p n := n <| prev := p |>;
  set_nnext p n := n <| next := p |>;
}.

#[export] Instance io_node_laws : DllNodeLaws ptr io_t.
Proof. by split. Qed.

Record io_trap_t := mkTrap {
  enable : Z;
  base : Z;
  trap_size : Z;
  func : Z;
  trap_priv : Z;
}.

(** Constants of pci.h and m_amstrad.h. *)
Definition FLAG_CONFIG_IO_ON : Z := 8.
Definition FLAG_CONFIG_DEV0_IO_ON : Z := 16.
Definition AMSTRAD_NOLATCH : Z := 0.
Definition AMSTRAD_SW9 : Z := 1.
Definition AMSTRAD_SW10 : Z := 2.

Section bus.
Context {D : Type}.

Record iobus := mkBus {
  nodes : gmap ptr io_t;
  io : gmap Z ptr;
  io_last : gmap Z ptr;
  traps : gmap ptr io_trap_t;
  brk : ptr;                       (* the next address [calloc] returns *)
  initialized : Z;
  pci_flags : Z;
  pci_base : Z;
  pci_size : Z;
  amstrad_latch : Z;
  cycles : Z;
  io_delay : Z;
  is_ibm5550 : bool;               (* the machine is an IBM 5550 *)
  use_debug_regs : bool;           (* built with USE_DEBUG_REGS_486 *)
  dr : list Z;
  cr4 : Z;
  trap : Z;
  io_access_sequence : Z;
  io_access_width : Z;
  io_port : Z;
  io_val : Z;
  dev : D;
}.

(** ** Registration *)

(** [io_init] frees every node that a chain reaches from its tail. *)
Fixpoint free_chain (fuel : nat) (p : option ptr) (w : iobus) : option iobus :=
  match p, fuel with
  | None, _ => Some w
  | Some _, O => None
  | Some x, S fuel =>
      n ← nodes w !! x;
      free_chain fuel (prev n) (w <| nodes ::= delete x |>)
  end.

Fixpoint io_init_ports (n : nat) (c : Z) (w : iobus) : option iobus :=
  match n with
  | O => Some w
  | S n =>
      w ← free_chain (S (size (nodes w))) (io_last w !! c) w;
      io_init_ports n (c + 1) (w <| io ::= delete c |> <| io_last ::= delete c |>)
  end.

Definition io_init (w : iobus) : option iobus :=
  let w := if initialized w =? 0
           then w <| io := ∅ |> <| io_last := ∅ |> <| initialized := 1 |> else w in
  io_init_ports (Z.to_nat NPORTS) 0 w.

(** One iteration of [io_sethandler_common]: a node at the tail of [port]. *)
Definition link_tail (port : Z) (q : ptr) (w : iobus) : option iobus :=
  match io_last w !! port with
  | Some p => h ← link_after q p (nodes w); Some (w <| nodes := h |>)
  | None => Some (w <| io ::= insert port q |>)
  end.

Definition set_port (port : Z) (o : io_ops) (w : iobus) : option iobus :=
  if negb (port <? NPORTS) then None else
  let q := brk w in
  let w := w <| brk ::= Z.succ |> <| nodes ::= insert q (mkIo o None None) |> in
  w ← link_tail port q w;
  Some (w <| io_last ::= insert port q |>).

(** The search loop of one iteration of [io_removehandler_common]. *)
Fixpoint find_ops (fuel : nat) (o : io_ops) (p : option ptr) (w : iobus) : option (option ptr) :=
  match p, fuel with
  | None, _ => Some None
  | Some _, O => None
  | Some x, S fuel =>
      n ← nodes w !! x;
      if decide (ops n = o) then Some (Some x) else find_ops fuel o (next n) w
  end.

Definition unlink_port (port : Z) (x : ptr) (w : iobus) : option iobus :=
  n ← nodes w !! x;
  h ← unlink x (nodes w);
  let w := match prev n with
           | Some _ => w
           | None => w <| io ::= partial_alter (fun _ => next n) port |>
           end in
  let w := match next n with
           | Some _ => w
           | None => w <| io_last ::= partial_alter (fun _ => prev n) port |>
           end in
  Some (w <| nodes := delete x h |>).

Definition remove_port (port : Z) (o : io_ops) (w : iobus) : option iobus :=
  if negb (port <? NPORTS) then None else
  r ← find_ops (S (size (nodes w))) o (io w !! port) w;
  match r with
  | None => Some w
  | Some x => unlink_port port x w
  end.

(** [for (c = 0; c < size; c += step)] over the ports of a range. *)
Fixpoint for_ports (fuel : nat) (f : Z -> iobus -> option iobus) (base size step c : Z)
    (w : iobus) : option iobus :=
  if negb (c <? size) then Some w else
  match fuel with
  | O => None
  | S fuel => w ← f (base + c) w; for_ports fuel f base size step (u32 (c + step)) w
  end.

(** At most [size] iterations when [step] is positive. *)
Definition io_sethandler_common (base size : Z) (o : io_ops) (step : Z) (w : iobus) :=
  for_ports (Z.to_nat size) (fun port => set_port port o) base size step 0 w.
Definition io_removehandler_common (base size : Z) (o : io_ops) (step : Z) (w : iobus) :=
  for_ports (Z.to_nat size) (fun port => remove_port port o) base size step 0 w.

Definition io_handler_common (set : Z) (base size : Z) (o : io_ops) (step : Z) (w : iobus) :=
  if ctrue set then io_sethandler_common base size o step w
  else io_removehandler_common base size o step w.

Definition io_sethandler (base size : Z) (o : io_ops) (w : iobus) :=
  io_sethandler_common base size o 1 w.
Definition io_removehandler (base size : Z) (o : io_ops) (w : iobus) :=
  io_removehandler_common base size o 1 w.
Definition io_handler (set base size : Z) (o : io_ops) (w : iobus) :=
  io_handler_common set base size o 1 w.
Definition io_sethandler_interleaved (base size : Z) (o : io_ops) (w : iobus) :=
  io_sethandler_common base size o 2 w.
Definition io_removehandler_interleaved (base size : Z) (o : io_ops) (w : iobus) :=
  io_removehandler_common base size o 2 w.
Definition io_handler_interleaved (set base size : Z) (o : io_ops) (w : iobus) :=
  io_handler_common set base size o 2 w.

(** ** Address breakpoints *)

(** Does breakpoint [i] of the debug registers hit [port]? *)
Definition debug_hit (dr : list Z) (i port : Z) : bool :=
  let dr_addr := nth (Z.to_nat i) dr 0 .& 0xffff in
  let dr7 := nth 7 dr 0 in
  let breakpoint_enabled := ctrue (dr7 .& (3 <<< (2 * i))) in
  let len_type_pair := ((dr7 >>> 16) .& (15 <<< (4 * i))) >>> (4 * i) in
  breakpoint_enabled && ((len_type_pair .& 3) =? 2) &&
  match (len_type_pair >>> 2) .& 3 with
  | 0 => dr_addr =? port
  | 1 => ((dr_addr .&~ 1) =? port) || ((dr_addr .&~ 1) + 1 =? port + 1)
  | 3 => let dr_addr := dr_addr .&~ 3 in (dr_addr <=? port) && (port <? dr_addr + 4)
  | _ => false
  end.

Definition io_debug_check_addr (port : Z) (w : iobus) : iobus :=
  if negb (ctrue (nth 7 (dr w) 0 .& 0xff)) then w else
  if negb (ctrue (cr4 w .& 8)) then w else
  let hits := List.filter (fun i => debug_hit (dr w) i port) [0; 1; 2; 3] in
  let dr6 := fold_left (fun d i => d .| (1 <<< i)) hits (nth 6 (dr w) 0) in
  let w := w <| dr ::= <[6%nat := dr6]> |> in
  match hits with [] => w | _ => w <| trap ::= (fun t => t .| 4) |> end.
End bus.

Arguments iobus : clear implicits.

(** ** Device functions

    [W] is what a device function may change: the whole bus, or the devices
    alone ([lift] below).  The accessors of pci.c belong here too. *)
Record callees (W : Type) := mkCallees {
  c_inb : Z -> Z -> Z -> W -> option (Z * W);           (* function, port, priv *)
  c_inw : Z -> Z -> Z -> W -> option (Z * W);
  c_inl : Z -> Z -> Z -> W -> option (Z * W);
  c_outb : Z -> Z -> Z -> Z -> W -> option W;           (* function, port, val, priv *)
  c_outw : Z -> Z -> Z -> Z -> W -> option W;
  c_outl : Z -> Z -> Z -> Z -> W -> option W;
  c_trap : Z -> Z -> Z -> Z -> Z -> Z -> W -> option W; (* function, size, port, write, val, priv *)
  pci_read : Z -> W -> option (Z * W);
  pci_readw : Z -> W -> option (Z * W);
  pci_readl : Z -> W -> option (Z * W);
  pci_write : Z -> Z -> W -> option W;                  (* port, val *)
  pci_writew : Z -> Z -> W -> option W;
  pci_writel : Z -> Z -> W -> option W;
}.
Arguments mkCallees {W}.
Arguments c_inb {W}. Arguments c_inw {W}. Arguments c_inl {W}.
Arguments c_outb {W}. Arguments c_outw {W}. Arguments c_outl {W}.
Arguments c_trap {W}. Arguments pci_read {W}. Arguments pci_readw {W}. Arguments pci_readl {W}.
Arguments pci_write {W}. Arguments pci_writew {W}. Arguments pci_writel {W}.

(** ** The handlers of io.c itself, and calls through a function pointer *)
Section calls.
Context {W : Type} (tr : W -> gmap ptr io_trap_t) (c : callees W).

(** [trap->func (size, port, write, val, trap->priv)]; [val] is a byte. *)
Definition trap_call (size port write val pv : Z) (w : W) : option W :=
  t ← tr w !! pv;
  c_trap c (func t) size port write (u8 val) (trap_priv t) w.

Definition io_trap_readb (port pv : Z) (w : W) : option (Z * W) :=
  w ← trap_call 1 port 0 0 pv w; Some (0xff, w).
Definition io_trap_readw (port pv : Z) (w : W) : option (Z * W) :=
  w ← trap_call 2 port 0 0 pv w; Some (0xffff, w).
Definition io_trap_readl (port pv : Z) (w : W) : option (Z * W) :=
  w ← trap_call 4 port 0 0 pv w; Some (0xffffffff, w).
Definition io_trap_writeb (port val pv : Z) (w : W) : option W := trap_call 1 port 1 val pv w.
Definition io_trap_writew (port val pv : Z) (w : W) : option W := trap_call 2 port 1 val pv w.
Definition io_trap_writel (port val pv : Z) (w : W) : option W := trap_call 4 port 1 val pv w.

Definition run_inb (f : fn) (port pv : Z) (w : W) : option (Z * W) :=
  match f with Trap => io_trap_readb port pv w | Dev a => c_inb c a port pv w end.
Definition run_inw (f : fn) (port pv : Z) (w : W) : option (Z * W) :=
  match f with Trap => io_trap_readw port pv w | Dev a => c_inw c a port pv w end.
Definition run_inl (f : fn) (port pv : Z) (w : W) : option (Z * W) :=
  match f with Trap => io_trap_readl port pv w | Dev a => c_inl c a port pv w end.
Definition run_outb (f : fn) (port val pv : Z) (w : W) : option W :=
  match f with Trap => io_trap_writeb port val pv w | Dev a => c_outb c a port val pv w end.
Definition run_outw (f : fn) (port val pv : Z) (w : W) : option W :=
  match f with Trap => io_trap_writew port val pv w | Dev a => c_outw c a port val pv w end.
Definition run_outl (f : fn) (port val pv : Z) (w : W) : option W :=
  match f with Trap => io_trap_writel port val pv w | Dev a => c_outl c a port val pv w end.

(** *** The bodies of the chain loops

    A read accumulates the value and the [found] bits, a write the [found]
    bits.  [read_inb] serves the narrow handlers of a wider access: it runs
    only where [skip] does not hold. *)

Definition read_with (run : fn -> Z -> Z -> W -> option (Z * W)) (sel : io_ops -> option fn)
    (skip : io_ops -> bool) (bit port : Z) (o : io_ops) (a : Z * Z) (w : W)
    : option ((Z * Z) * W) :=
  match sel o with
  | Some f =>
      if skip o then Some (a, w) else
      '(v, w) ← run f port (priv o) w;
      Some ((fst a .& v, snd a .| bit), w)
  | None => Some (a, w)
  end.

Definition write_with (run : fn -> Z -> Z -> Z -> W -> option W) (sel : io_ops -> option fn)
    (skip : io_ops -> bool) (bit port val : Z) (o : io_ops) (a : Z) (w : W)
    : option (Z * W) :=
  match sel o with
  | Some f =>
      if skip o then Some (a, w) else
      w ← run f port val (priv o) w;
      Some (a .| bit, w)
  | None => Some (a, w)
  end.
End calls.

Definition no_skip (o : io_ops) : bool := false.
Definition has_inw (o : io_ops) : bool := bool_decide (is_Some (inw_fn o)).
Definition has_inl (o : io_ops) : bool := bool_decide (is_Some (inl_fn o)).
Definition has_outw (o : io_ops) : bool := bool_decide (is_Some (outw_fn o)).
Definition has_outl (o : io_ops) : bool := bool_decide (is_Some (outl_fn o)).

(** ** Port accesses *)
Section access.
Context {D : Type} (c : callees (iobus D)).
Implicit Types w : iobus D.

(** [while (p) { q = p->next; body; p = q; }]: the successor is read before
    the handler runs.  [fuel] bounds the nodes visited. *)
Fixpoint chain {A} (fuel : nat) (step : io_ops -> A -> iobus D -> option (A * iobus D))
    (p : option ptr) (a : A) w : option (A * iobus D) :=
  match p, fuel with
  | None, _ => Some (a, w)
  | Some _, O => None
  | Some x, S fuel =>
      n ← nodes w !! x;
      let q := next n in
      '(a, w) ← step (ops n) a w;
      chain fuel step q a w
  end.

Definition in_pci_window (port : Z) w : bool :=
  (ctrue (pci_flags w .& FLAG_CONFIG_IO_ON) && (pci_base w <=? port) &&
   (port <? u32 (pci_base w + pci_size w))) ||
  (ctrue (pci_flags w .& FLAG_CONFIG_DEV0_IO_ON) && (0xc000 <=? port) && (port <? 0xc100)).

(** The bookkeeping at the start of an access. *)
Definition begin_access (width port : Z) w : iobus D :=
  let w := w <| io_access_sequence ::= (fun s => u64 (s + 1)) |>
             <| io_access_width := width |> <| io_port := port |> in
  if use_debug_regs w then io_debug_check_addr port w else w.

Definition begin_write (width port val : Z) w : iobus D :=
  let w := w <| io_access_sequence ::= (fun s => u64 (s + 1)) |>
             <| io_access_width := width |> <| io_port := port |> <| io_val := val |> in
  if use_debug_regs w then io_debug_check_addr port w else w.

Definition update_amstrad (port : Z) w : iobus D :=
  if ctrue (amstrad_latch w .& 0x80000000) then
    w <| amstrad_latch :=
      (if ctrue (port .& 0x80) then AMSTRAD_NOLATCH
       else if ctrue (port .& 0x4000) then AMSTRAD_SW10 else AMSTRAD_SW9) .| 0x80000000 |>
  else w.

Definition delay w : iobus D := w <| cycles ::= (fun n => n - io_delay w) |>.

Definition end_read (port found : Z) w : iobus D :=
  let w := update_amstrad port w in
  if (found =? 0) || is_ibm5550 w then delay w else w.

(** One loop over the chain of [port + i]; the handler is given [port + i]
    as a 16-bit value. *)
Definition pass {A} (fuel : nat) (i port : Z)
    (step : Z -> io_ops -> A -> iobus D -> option (A * iobus D)) (a : A) w :=
  let p := (port + i) .& 0xffff in
  chain fuel (step p) (io w !! p) a w.

Definition rd_inb (skip : io_ops -> bool) (port : Z) :=
  read_with (run_inb traps c) inb_fn skip 1 port.
Definition rd_inw (skip : io_ops -> bool) (port : Z) :=
  read_with (run_inw traps c) inw_fn skip 2 port.
Definition rd_inl (port : Z) := read_with (run_inl traps c) inl_fn no_skip 4 port.
Definition wr_outb (skip : io_ops -> bool) (val port : Z) :=
  write_with (run_outb traps c) outb_fn skip 1 port (u8 val).
Definition wr_outw (skip : io_ops -> bool) (val port : Z) :=
  write_with (run_outw traps c) outw_fn skip 2 port (u16 val).
Definition wr_outl (val port : Z) := write_with (run_outl traps c) outl_fn no_skip 4 port val.

Definition inb (fuel : nat) (port : Z) w : option (Z * iobus D) :=
  let w := begin_access 1 port w in
  '((ret, found), w) ←
    (if in_pci_window port w then '(ret, w) ← pci_read c port w; Some ((ret, 1), w)
     else pass fuel 0 port (rd_inb no_skip) (0xff, 0) w);
  Some (ret, end_read port found w).

Definition outb (fuel : nat) (port val : Z) w : option (iobus D) :=
  let w := begin_write 1 port val w in
  '(found, w) ←
    (if in_pci_window port w then w ← pci_write c port val w; Some (1, w)
     else pass fuel 0 port (wr_outb no_skip val) 0 w);
  Some (if (found =? 0) || (port =? 0x84) then delay w else w).

Definition inw (fuel : nat) (port : Z) w : option (Z * iobus D) :=
  let w := begin_access 2 port w in
  '((ret, found), w) ←
    (if in_pci_window port w then '(ret, w) ← pci_readw c port w; Some ((ret, 2), w)
     else
       '((ret, found), w) ← pass fuel 0 port (rd_inw no_skip) (0xffff, 0) w;
       '((r0, found), w) ← pass fuel 0 port (rd_inb has_inw) (ret .& 0xff, found) w;
       '((r1, found), w) ← pass fuel 1 port (rd_inb has_inw) ((ret >>> 8) .& 0xff, found) w;
       Some (((r1 <<< 8) .| r0, found), w));
  Some (ret, end_read port found w).

Definition outw (fuel : nat) (port val : Z) w : option (iobus D) :=
  let w := begin_write 2 port val w in
  '(found, w) ←
    (if in_pci_window port w then w ← pci_writew c port val w; Some (2, w)
     else
       '(found, w) ← pass fuel 0 port (wr_outw no_skip val) 0 w;
       '(found, w) ← pass fuel 0 port (wr_outb has_outw val) found w;
       pass fuel 1 port (wr_outb has_outw (val >>> 8)) found w);
  Some (if found =? 0 then delay w else w).

(** Byte handlers serve a double word only without a wider handler. *)
Definition has_wide_in (o : io_ops) : bool := has_inw o || has_inl o.
Definition has_wide_out (o : io_ops) : bool := has_outw o || has_outl o.

Definition inl (fuel : nat) (port : Z) w : option (Z * iobus D) :=
  let w := begin_access 4 port w in
  '((ret, found), w) ←
    (if in_pci_window port w then '(ret, w) ← pci_readl c port w; Some ((ret, 4), w)
     else
       '((ret, found), w) ← pass fuel 0 port rd_inl (0xffffffff, 0) w;
       '((h0, found), w) ← pass fuel 0 port (rd_inw has_inl) (ret .& 0xffff, found) w;
       '((h1, found), w) ← pass fuel 2 port (rd_inw has_inl) ((ret >>> 16) .& 0xffff, found) w;
       let ret := (h1 <<< 16) .| h0 in
       '((r0, found), w) ← pass fuel 0 port (rd_inb has_wide_in) (ret .& 0xff, found) w;
       '((r1, found), w) ← pass fuel 1 port (rd_inb has_wide_in) ((ret >>> 8) .& 0xff, found) w;
       '((r2, found), w) ← pass fuel 2 port (rd_inb has_wide_in) ((ret >>> 16) .& 0xff, found) w;
       '((r3, found), w) ← pass fuel 3 port (rd_inb has_wide_in) ((ret >>> 24) .& 0xff, found) w;
       Some (((r3 <<< 24) .| (r2 <<< 16) .| (r1 <<< 8) .| r0, found), w));
  Some (ret, end_read port found w).

Definition outl (fuel : nat) (port val : Z) w : option (iobus D) :=
  let w := begin_write 4 port val w in
  '(found, w) ←
    (if in_pci_window port w then w ← pci_writel c port val w; Some (4, w)
     else
       '(found, w) ← pass fuel 0 port (wr_outl val) 0 w;
       '(found, w) ← pass fuel 0 port (wr_outw has_outl val) found w;
       '(found, w) ← pass fuel 2 port (wr_outw has_outl (val >>> 16)) found w;
       '(found, w) ← pass fuel 0 port (wr_outb has_wide_out val) found w;
       '(found, w) ← pass fuel 1 port (wr_outb has_wide_out (val >>> 8)) found w;
       '(found, w) ← pass fuel 2 port (wr_outb has_wide_out (val >>> 16)) found w;
       pass fuel 3 port (wr_outb has_wide_out (val >>> 24)) found w);
  Some (if found =? 0 then delay w else w).

(** ** Traps *)

Definition trap_ops (handle : ptr) : io_ops :=
  mkOps (Some Trap) (Some Trap) (Some Trap) (Some Trap) (Some Trap) (Some Trap) handle.

Definition io_trap_add (f pv : Z) w : ptr * iobus D :=
  (brk w, w <| brk ::= Z.succ |> <| traps ::= insert (brk w) (mkTrap 0 0 0 f pv) |>).

Definition io_trap_remap (handle : option ptr) (en port size : Z) w : option (iobus D) :=
  match handle with
  | None => Some w
  | Some h =>
      t ← traps w !! h;
      w ← (if ctrue (enable t) && ctrue (trap_size t)
           then io_removehandler (base t) (trap_size t) (trap_ops h) w else Some w);
      let w := w <| traps ::= insert h (mkTrap (cbool (ctrue en)) port size (func t) (trap_priv t)) |> in
      if ctrue en && ctrue size then io_sethandler port size (trap_ops h) w else Some w
  end.

Definition io_trap_remove (handle : option ptr) w : option (iobus D) :=
  match handle with
  | None => Some w
  | Some h => w ← io_trap_remap (Some h) 0 0 0 w; Some (w <| traps ::= delete h |>)
  end.
End access.

(** ** The abstract bus: a list of registrations per port *)

Abbreviation view := (Z -> list io_ops).

(** The ports a call with [base], [size] and [step] visits. *)
Definition covers (base size step port : Z) : bool :=
  (base <=? port) && (port <? base + size) && ((port - base) mod step =? 0).

Fixpoint remove_first (o : io_ops) (l : list io_ops) : list io_ops :=
  match l with
  | [] => []
  | o' :: l => if decide (o' = o) then l else o' :: remove_first o l
  end.

Definition on_ports (f : list io_ops -> list io_ops) (base size step : Z) (v : view) : view :=
  fun port => if covers base size step port then f (v port) else v port.

Definition spec_set (base size : Z) (o : io_ops) (step : Z) : view -> view :=
  on_ports (fun l => l ++ [o]) base size step.
Definition spec_remove (base size : Z) (o : io_ops) (step : Z) : view -> view :=
  on_ports (remove_first o) base size step.

Definition is_port (port : Z) : Prop := 0 <= port < NPORTS.

Section invariant.
Context {D : Type}.
Implicit Types (w : iobus D) (ch : Z -> list ptr) (l : list ptr) (v : view).

(** [ch] lists the nodes of every chain. *)
Record io_ok ch w : Prop := {
  io_seg : forall port, is_port port -> dseg (nodes w) None (ch port) None;
  io_head : forall port, is_port port -> io w !! port = first (ch port) None;
  io_tail : forall port, is_port port -> io_last w !! port = final None (ch port);
  io_nodup : forall port, is_port port -> NoDup (ch port);
  io_disjoint : forall p q x, is_port p -> is_port q -> x ∈ ch p -> x ∈ ch q -> p = q;
  io_fresh : forall x, is_Some (nodes w !! x) -> x < brk w;
}.

Definition ops_of (h : gmap ptr io_t) l : list io_ops := omap (fun x => ops <$> h !! x) l.

(** The concrete bus [w] represents the abstract bus [v]. *)
Definition represents w v : Prop :=
  exists ch, io_ok ch w /\ forall port, is_port port -> ops_of (nodes w) (ch port) = v port.

(** Everything but the chains. *)
Definition rest w : iobus D :=
  w <| nodes := ∅ |> <| io := ∅ |> <| io_last := ∅ |> <| brk := 0 |>.

Lemma ops_of_ext (h h' : gmap ptr io_t) l :
  (forall x, x ∈ l -> ops <$> h' !! x = ops <$> h !! x) -> ops_of h' l = ops_of h l.
Proof.
  intros Hl. induction l as [|x l IH]; [done|]. unfold ops_of in *. cbn.
  rewrite Hl by (by left). rewrite IH; [done|]. intros y Hy. apply Hl. by right.
Qed.

Lemma ops_of_app (h : gmap ptr io_t) l1 l2 : ops_of h (l1 ++ l2) = ops_of h l1 ++ ops_of h l2.
Proof. apply omap_app. Qed.

Lemma edits_ops l (h h' : gmap ptr io_t) z : edits l h h' -> ops <$> h' !! z = ops <$> h !! z.
Proof. intros He. by apply (edits_data _ _ _ He _ ops). Qed.

Lemma ch_upd_eq ch port l : <[port := l]> ch port = l.
Proof. apply fn_lookup_insert. Qed.
Lemma ch_upd_ne ch p q l : p <> q -> <[p := l]> ch q = ch q.
Proof. intros. by apply fn_lookup_insert_ne. Qed.

(** Rebuilding the invariant after a change of one chain. *)
Lemma io_ok_upd ch w w' port l' :
  io_ok ch w -> is_port port ->
  dseg (nodes w') None l' None -> io w' !! port = first l' None ->
  io_last w' !! port = final None l' -> NoDup l' ->
  (forall q, q <> port -> io w' !! q = io w !! q /\ io_last w' !! q = io_last w !! q) ->
  (forall q x, is_port q -> q <> port -> x ∈ ch q -> nodes w' !! x = nodes w !! x /\ x ∉ l') ->
  (forall x, is_Some (nodes w' !! x) -> x < brk w') ->
  io_ok (<[port := l']> ch) w'.
Proof.
  intros [Hseg Hhead Htail Hnd Hdis Hfr] Hport Hseg' Hhead' Htail' Hnd' Hoth Hkeep Hfr'.
  split; [..|done]; try (intros q Hq; destruct (decide (port = q)) as [<-|Hne];
    [by rewrite ch_upd_eq|rewrite ch_upd_ne by done]).
  - apply (dseg_links _ _ _ _ _ (Hseg q Hq)). intros x nd Hx Hlk.
    destruct (Hkeep q x) as [-> _]; [done..|]. eauto.
  - destruct (Hoth q) as [-> _]; [done|]. by apply Hhead.
  - destruct (Hoth q) as [_ ->]; [done|]. by apply Htail.
  - by apply Hnd.
  - intros p q x Hp Hq. destruct (decide (port = p)) as [<-|Hnp], (decide (port = q)) as [<-|Hnq];
      rewrite ?ch_upd_eq, ?ch_upd_ne by done; try done.
    + intros Hx Hxq. by destruct (Hkeep q x) as [_ []].
    + intros Hxp Hx. by destruct (Hkeep p x) as [_ []].
    + by apply Hdis.
Qed.

Lemma represents_upd ch w w' v port l' os :
  io_ok ch w -> (forall q, is_port q -> ops_of (nodes w) (ch q) = v q) ->
  io_ok (<[port := l']> ch) w' ->
  (forall q x, is_port q -> q <> port -> x ∈ ch q -> nodes w' !! x = nodes w !! x) ->
  os = ops_of (nodes w') l' -> represents w' (<[port := os]> v).
Proof.
  intros Hok Hv Hok' Hkeep ->. exists (<[port := l']> ch). split; [done|]. intros q Hq.
  destruct (decide (port = q)) as [<-|Hne].
  - by rewrite ch_upd_eq, fn_lookup_insert.
  - rewrite ch_upd_ne, fn_lookup_insert_ne by done. rewrite <- Hv by done.
    apply ops_of_ext. intros x Hx. by rewrite (Hkeep q).
Qed.

(** *** One port of [io_sethandler_common] *)

Lemma link_tail_ok ch w port q o :
  io_ok ch w -> is_port port -> q ∉ ch port ->
  let w1 := w <| brk ::= Z.succ |> <| nodes ::= insert q (mkIo o None None) |> in
  exists w2, link_tail port q w1 = Some w2 /\
    dseg (nodes w2) None (ch port ++ [q]) None /\ io w2 !! port = first (ch port ++ [q]) None /\
    (forall r, r <> port -> io w2 !! r = io w !! r) /\ io_last w2 = io_last w /\
    brk w2 = brk w + 1 /\ rest w2 = rest w /\ edits (q :: ch port) (nodes w1) (nodes w2).
Proof.
  intros [Hseg Hhead Htail Hnd Hdis Hfr] Hport Hq w1. unfold link_tail.
  change (io_last w1) with (io_last w). rewrite (Htail port Hport).
  destruct (ch port) as [|y l _] eqn:Ech using rev_ind.
  - eexists. split; [reflexivity|]. cbn. rewrite !lookup_insert_eq. split_and!; try done.
    + eexists. split_and!; [reflexivity|done..].
    + intros r Hr. by rewrite lookup_insert_ne.
  - rewrite final_app. cbn [final].
    assert (dseg (nodes w1) None (l ++ [y]) None) as Hseg1.
    { apply dseg_frame; [done|]. rewrite <- Ech. by apply Hseg. }
    destruct (link_after_ok q y l (nodes w1) (mkIo o None None)) as (h & Hla & Hseg2 & He);
      [done|rewrite <- Ech; by apply Hnd|done|cbn; by rewrite lookup_insert_eq|done|].
    rewrite Hla. eexists. split; [reflexivity|]. split_and!; try done. cbn.
    rewrite (Hhead port Hport), Ech. by destruct l.
Qed.

Lemma set_port_ok w v port o :
  represents w v -> is_port port ->
  exists w', set_port port o w = Some w' /\ represents w' (<[port := v port ++ [o]]> v) /\
             rest w' = rest w.
Proof.
  intros (ch & Hok & Hv) Hport. pose proof Hok as [Hseg Hhead Htail Hnd Hdis Hfr].
  unfold set_port. rewrite (proj2 (Z.ltb_lt _ _)) by apply Hport. cbn [negb].
  set (q := brk w).
  assert (forall p x, is_port p -> x ∈ ch p -> x <> q) as Hne.
  { intros p x Hp Hx ->. destruct (dseg_lookup _ _ _ _ q (Hseg p Hp) Hx) as [n Hn].
    specialize (Hfr q ltac:(eauto)). unfold q in *. lia. }
  destruct (link_tail_ok ch w port q o Hok Hport) as
    (w2 & -> & Hseg2 & Hio2 & Hio2' & Hl2 & Hb2 & Hr2 & He2).
  { intros Hin. by eapply (Hne port). }
  cbn [mbind option_bind]. eexists. split; [reflexivity|].
  assert (forall p x, is_port p -> p <> port -> x ∈ ch p -> x ∉ q :: ch port) as Hsep.
  { intros p x Hp Hpp Hx [->|Hin]%elem_of_cons; [by eapply (Hne p)|].
    destruct Hpp. by apply (Hdis p port x). }
  assert (forall p x, is_port p -> p <> port -> x ∈ ch p -> nodes w2 !! x = nodes w !! x) as Hkeep.
  { intros p x Hp Hpp Hx. rewrite (edits_frame _ _ _ He2) by by apply (Hsep p).
    cbn. rewrite lookup_insert_ne; [done|]. intros <-. by eapply (Hne p). }
  assert (io_ok (<[port := ch port ++ [q]]> ch) (w2 <| io_last ::= insert port q |>)) as Hok'.
  { apply (io_ok_upd ch w); try done; cbn.
    - by rewrite lookup_insert_eq, final_app.
    - apply NoDup_app. split_and!; [by apply Hnd| |apply NoDup_singleton].
      intros x Hx ->%list_elem_of_singleton. by eapply (Hne port).
    - intros r Hr. rewrite lookup_insert_ne, Hl2 by done. auto.
    - intros p x Hp Hpp Hx. split; [by apply (Hkeep p)|]. specialize (Hsep p x). set_solver.
    - intros x [n Hx]. rewrite Hb2. destruct (decide (x = q)) as [->|Hxq]; [unfold q; lia|].
      destruct (nodes w !! x) eqn:E; [specialize (Hfr x ltac:(eauto)); lia|].
      pose proof (edits_ops _ _ _ x He2) as Ho. cbn in Ho.
      by rewrite lookup_insert_ne, E, Hx in Ho. }
  split; [|by rewrite <- Hr2].
  apply (represents_upd ch w _ _ _ (ch port ++ [q])); try done. cbn.
  rewrite ops_of_app, <- (Hv port Hport). cbn. f_equal.
  - symmetry. apply ops_of_ext. intros x Hx. rewrite (edits_ops _ _ _ x He2). cbn.
    rewrite lookup_insert_ne; [done|]. intros <-. by eapply (Hne port).
  - pose proof (edits_ops _ _ _ q He2) as Ho. cbn in Ho. rewrite lookup_insert_eq in Ho.
    by rewrite Ho.
Qed.

(** *** One port of [io_removehandler_common] *)

Lemma find_ops_ok w p l o fuel :
  dseg (nodes w) p l None -> (length l < fuel)%nat ->
  (find_ops fuel o (first l None) w = Some None /\ o ∉ ops_of (nodes w) l) \/
  exists l1 x l2, l = l1 ++ x :: l2 /\ find_ops fuel o (first l None) w = Some (Some x) /\
    ops <$> nodes w !! x = Some o /\ o ∉ ops_of (nodes w) l1.
Proof.
  revert p fuel. induction l as [|x l IH]; intros p [|fuel]; try (cbn; lia).
  { intros _ _. left. split; [done|apply not_elem_of_nil]. }
  intros (n & Hx & Hp & Hn & Hl) Hfuel. cbn [length] in Hfuel. cbn [first find_ops].
  rewrite Hx. cbn [mbind option_bind]. cbn in Hn.
  assert (ops_of (nodes w) (x :: l) = ops n :: ops_of (nodes w) l) as Eo
    by (unfold ops_of; cbn; by rewrite Hx).
  case_decide as Ho.
  - right. exists [], x, l. rewrite Hx. split_and!; [done|done|by cbn; f_equal|apply not_elem_of_nil].
  - rewrite Hn. destruct (IH (Some x) fuel Hl ltac:(lia)) as [[-> Hnot]|(l1 & y & l2 & -> & -> & Hy & Hnot)].
    + left. split; [done|]. rewrite Eo. set_solver.
    + right. exists (x :: l1), y, l2. split_and!; try done.
      unfold ops_of. cbn. rewrite Hx. cbn. fold (ops_of (nodes w) l1). set_solver.
Qed.

Lemma remove_first_notin o (l : list io_ops) : o ∉ l -> remove_first o l = l.
Proof.
  induction l as [|o' l IH]; [done|]. cbn. intros Hin. rewrite decide_False by set_solver.
  f_equal. apply IH. set_solver.
Qed.

Lemma remove_first_app o (l1 l2 : list io_ops) : o ∉ l1 -> remove_first o (l1 ++ o :: l2) = l1 ++ l2.
Proof.
  induction l1 as [|o' l1 IH]; cbn; intros Hin; [by rewrite decide_True|].
  rewrite decide_False by set_solver. f_equal. apply IH. set_solver.
Qed.

Lemma unlink_port_ok ch w port l1 x l2 :
  io_ok ch w -> is_port port -> ch port = l1 ++ x :: l2 ->
  exists w', unlink_port port x w = Some w' /\ io_ok (<[port := l1 ++ l2]> ch) w' /\
    (forall y, y <> x -> ops <$> nodes w' !! y = ops <$> nodes w !! y) /\
    (forall q y, is_port q -> q <> port -> y ∈ ch q -> nodes w' !! y = nodes w !! y) /\
    rest w' = rest w.
Proof.
  intros Hok Hport Ech. pose proof Hok as [Hseg Hhead Htail Hnd Hdis Hfr].
  pose proof (Hseg port Hport) as Hs. pose proof (Hnd port Hport) as Hn. rewrite Ech in Hs, Hn.
  destruct (dseg_mid _ _ _ _ _ _ Hs) as (n & Hx & Hp & Hnx). cbn in Hp, Hnx.
  destruct (unlink_ok x l1 l2 (nodes w) Hs Hn) as (h & Hun & Hs' & He).
  unfold unlink_port. rewrite Hx, Hun. cbn [mbind option_bind]. rewrite Hp, Hnx.
  rewrite <- Permutation_middle in Hn. apply NoDup_cons in Hn as [Hxn Hn].
  assert (forall q y, is_port q -> q <> port -> y ∈ ch q -> y ∉ (x :: l1 ++ l2)) as Hsep.
  { intros q y Hq Hqp Hy Hin. destruct Hqp. apply (Hdis q port y); try done.
    rewrite Ech, <- Permutation_middle. done. }
  assert (forall q y, is_port q -> q <> port -> y ∈ ch q -> delete x h !! y = nodes w !! y) as Hkeep.
  { intros q y Hq Hqp Hy. specialize (Hsep q y Hq Hqp Hy).
    rewrite lookup_delete_ne by set_solver. apply (edits_frame _ _ _ He). set_solver. }
  eexists. split; [reflexivity|]. set (wn := _ <| nodes := _ |>).
  assert (nodes wn = delete x h) as Hnn by done.
  assert (brk wn = brk w /\ rest wn = rest w) as [Hb Hr]
    by (unfold wn; destruct (final None l1), (first l2 None); done).
  assert (forall q, q <> port -> io wn !! q = io w !! q /\ io_last wn !! q = io_last w !! q) as Hoth.
  { intros q Hq. unfold wn. destruct (final None l1), (first l2 None); cbn;
      rewrite ?lookup_partial_alter_ne by done; done. }
  assert (io wn !! port = first (l1 ++ l2) None) as Hio.
  { unfold wn. destruct l1 as [|a l1]; cbn.
    - destruct l2; cbn; by rewrite lookup_partial_alter_eq.
    - destruct (final (Some a) l1) eqn:E; [|by destruct (final_None _ _ E)].
      destruct (first l2 None); cbn; by rewrite (Hhead port Hport), Ech. }
  assert (io_last wn !! port = final None (l1 ++ l2)) as Hla.
  { unfold wn. rewrite final_app. destruct l2 as [|b l2]; cbn.
    - destruct (final None l1); cbn; by rewrite lookup_partial_alter_eq.
    - destruct (final None l1); cbn; by rewrite (Htail port Hport), Ech, final_app. }
  split_and!; [|intros y Hy; rewrite Hnn, lookup_delete_ne by done; by apply (edits_ops _ _ _ y He)
               |by rewrite Hnn|done].
  apply (io_ok_upd ch w); try done.
  - rewrite Hnn. apply (dseg_links _ _ _ _ _ Hs'). intros y ny Hy Hlk.
    rewrite lookup_delete_ne by set_solver. eauto.
  - intros q y Hq Hqp Hy. rewrite Hnn. split; [by apply (Hkeep q)|]. specialize (Hsep q y). set_solver.
  - intros y [ny Hy]. rewrite Hb. apply Hfr. rewrite Hnn in Hy. apply lookup_delete_Some in Hy as [Hxy Hy].
    pose proof (edits_ops _ _ _ y He) as Ho. rewrite Hy in Ho. destruct (nodes w !! y); [eauto|done].
Qed.

Lemma remove_port_ok w v port o :
  represents w v -> is_port port ->
  exists w', remove_port port o w = Some w' /\
             represents w' (<[port := remove_first o (v port)]> v) /\ rest w' = rest w.
Proof.
  intros (ch & Hok & Hv) Hport. pose proof Hok as [Hseg Hhead Htail Hnd Hdis Hfr].
  unfold remove_port. rewrite (proj2 (Z.ltb_lt _ _)) by apply Hport. cbn [negb].
  rewrite (Hhead port Hport).
  destruct (find_ops_ok w None (ch port) o (S (size (nodes w)))) as [[-> Hnot]|(l1 & x & l2 & Ech & -> & Hx & Hnot)];
    [by apply Hseg| | |].
  - apply le_n_S, length_le_size; [by apply Hnd|]. intros x Hx. by eapply dseg_lookup; [apply Hseg|].
  - exists w. split_and!; try done. exists ch. split; [done|]. intros q Hq.
    destruct (decide (port = q)) as [<-|]; [|by rewrite fn_lookup_insert_ne; auto].
    rewrite fn_lookup_insert, remove_first_notin; [auto|]. by rewrite <- Hv.
  - cbn [mbind option_bind].
    destruct (unlink_port_ok ch w port l1 x l2 Hok Hport Ech) as (w' & Hw & Hok' & Hops & Hkeep & Hr).
    exists w'. split_and!; [done| |done].
    apply (represents_upd ch w _ _ _ (l1 ++ l2)); try done.
    rewrite <- Hv, Ech by done. pose proof (Hnd port Hport) as Hn. rewrite Ech in Hn.
    rewrite <- Permutation_middle in Hn. apply NoDup_cons in Hn as [Hxn _].
    rewrite (ops_of_ext (nodes w) (nodes w')) by (intros y Hy; apply Hops; set_solver).
    rewrite !ops_of_app. unfold ops_of at 2. cbn. rewrite Hx. by rewrite remove_first_app.
Qed.

(** *** Ranges of ports *)

(** Only the chains matter. *)
Lemma represents_chains w w' v :
  nodes w' = nodes w -> io w' = io w -> io_last w' = io_last w -> brk w' = brk w ->
  represents w v -> represents w' v.
Proof.
  intros E1 E2 E3 E4 (ch & [Hs Hh Ht Hn Hd Hf] & Hv). exists ch.
  split; [split|]; rewrite ?E1, ?E2, ?E3, ?E4; done.
Qed.

Lemma represents_ext w v v' :
  (forall port, is_port port -> v' port = v port) -> represents w v -> represents w v'.
Proof. intros He (ch & Hok & Hv). exists ch. split; [done|]. intros q Hq. by rewrite He, Hv. Qed.

Lemma represents_fun w v v' :
  represents w v -> represents w v' -> forall port, is_port port -> v port = v' port.
Proof.
  intros (ch & [Hs Hh _ _ _ _] & Hv) (ch' & [Hs' Hh' _ _ _ _] & Hv') port Hp.
  rewrite <- Hv, <- Hv' by done. f_equal.
  specialize (Hs port Hp). specialize (Hs' port Hp).
  pose proof (eq_trans (eq_sym (Hh port Hp)) (Hh' port Hp)) as Ef.
  clear -Hs Hs' Ef. revert Hs Hs' Ef. generalize (ch' port) as l'. generalize (ch port) as l.
  generalize (@None ptr) at 1 3 as p. intros p l. revert p.
  induction l as [|x l IH]; intros p [|x' l']; cbn; try done.
  intros (n & Hx & _ & Hn & Hl) (n' & Hx' & _ & Hn' & Hl') [= <-].
  rewrite Hx in Hx'. injection Hx' as <-. f_equal. apply (IH (Some x)); [done..|congruence].
Qed.

Lemma covers_step base size step c port :
  0 < step -> base + c < base + size ->
  covers (base + c) (size - c) step port =
  bool_decide (port = base + c) || covers (base + (c + step)) (size - (c + step)) step port.
Proof.
  intros Hs Hc. unfold covers.
  replace (port - (base + (c + step))) with (port - (base + c) + (-1) * step) by lia.
  rewrite Z_mod_plus_full.
  destruct (decide (port = base + c)) as [->|Hne].
  - rewrite bool_decide_eq_true_2 by done. rewrite Z.sub_diag.
    rewrite (proj2 (Z.leb_le _ _)), (proj2 (Z.ltb_lt _ _)) by lia. done.
  - rewrite bool_decide_eq_false_2 by done. cbn [orb].
    destruct (Z.eqb_spec ((port - (base + c)) mod step) 0) as [Hm|]; [|by rewrite !andb_false_r].
    apply Z.mod_divide in Hm as [k Hk]; [|lia].
    assert (port < base + c \/ base + (c + step) <= port) as Hp.
    { destruct (decide (k <= 0)); [left; assert (k <> 0) by (intros ->; lia)|right]; nia. }
    replace (base + (c + step) + (size - (c + step))) with (base + c + (size - c)) by lia.
    destruct (Z.leb_spec (base + c) port), (Z.leb_spec (base + (c + step)) port);
      cbn; try lia; done.
Qed.

(** An operation on one port, lifted to a range. *)
Lemma for_ports_ok f (g : list io_ops -> list io_ops) base size step :
  (forall w v port, represents w v -> is_port port ->
     exists w', f port w = Some w' /\ represents w' (<[port := g (v port)]> v) /\ rest w' = rest w) ->
  0 <= base -> base + size <= NPORTS -> 0 < step < 256 ->
  forall fuel c w v, represents w v -> 0 <= c -> size - c <= Z.of_nat fuel ->
  exists w', for_ports fuel f base size step c w = Some w' /\
    represents w' (on_ports g (base + c) (size - c) step v) /\ rest w' = rest w.
Proof.
  intros Hf Hb Hsz Hst. induction fuel as [|fuel IH]; intros c w v Hw Hc Hfuel.
  all: cbn [for_ports]; destruct (Z.ltb_spec c size) as [Hlt|Hge]; cbn [negb]; try lia.
  1, 3: exists w; split_and!; [done| |done]; apply (represents_ext w v); [|done];
    intros port _; unfold on_ports, covers;
    destruct (Z.leb_spec (base + c) port), (Z.ltb_spec port (base + c + (size - c))); try done; lia.
  destruct (Hf w v (base + c) Hw) as (w1 & -> & Hw1 & Hr1); [unfold is_port; lia|].
  cbn [mbind option_bind]. rewrite wrap_id by (unfold in_width, NPORTS in *; lia).
  destruct (IH (c + step) w1 _ Hw1) as (w' & Hrun & Hw' & Hr'); [lia..|].
  exists w'. split_and!; [done| |by rewrite Hr'].
  apply (represents_ext w' _ _) with (2 := Hw'). intros port _. unfold on_ports.
  rewrite covers_step by lia. destruct (decide (port = base + c)) as [->|Hne].
  - rewrite bool_decide_eq_true_2, fn_lookup_insert by done. cbn.
    assert (covers (base + (c + step)) (size - (c + step)) step (base + c) = false) as ->; [|done].
    unfold covers. destruct (Z.leb_spec (base + (c + step)) (base + c)); [lia|done].
  - rewrite bool_decide_eq_false_2, fn_lookup_insert_ne by done. done.
Qed.

Lemma sethandler_ok w v base size o step :
  represents w v -> 0 <= base -> 0 <= size -> base + size <= NPORTS -> 0 < step < 256 ->
  exists w', io_sethandler_common base size o step w = Some w' /\
    represents w' (spec_set base size o step v) /\ rest w' = rest w.
Proof.
  intros Hw Hb Hs Hbs Hst.
  destruct (for_ports_ok (fun port => set_port port o) (fun os => os ++ [o]) base size step
    ltac:(intros; by apply set_port_ok) Hb Hbs Hst (Z.to_nat size) 0 w v Hw) as (w' & ? & Hw' & ?);
    [lia..|].
  exists w'. rewrite Z.add_0_r, Z.sub_0_r in Hw'. done.
Qed.

Lemma removehandler_ok w v base size o step :
  represents w v -> 0 <= base -> 0 <= size -> base + size <= NPORTS -> 0 < step < 256 ->
  exists w', io_removehandler_common base size o step w = Some w' /\
    represents w' (spec_remove base size o step v) /\ rest w' = rest w.
Proof.
  intros Hw Hb Hs Hbs Hst.
  destruct (for_ports_ok (fun port => remove_port port o) (remove_first o) base size step
    ltac:(intros; by apply remove_port_ok) Hb Hbs Hst (Z.to_nat size) 0 w v Hw) as (w' & ? & Hw' & ?);
    [lia..|].
  exists w'. rewrite Z.add_0_r, Z.sub_0_r in Hw'. done.
Qed.

Lemma remove_first_last o (l : list io_ops) :
  remove_first o (l ++ [o]) ≡ₚ l /\ (o ∉ l -> remove_first o (l ++ [o]) = l).
Proof.
  split.
  - induction l as [|o' l IH]; cbn; [by rewrite decide_True|].
    case_decide as E; [subst; by rewrite Permutation_app_comm|]. by rewrite IH.
  - intros Hn. rewrite remove_first_app by done. apply app_nil_r.
Qed.

(** C6: [io_handler_common] refines the abstract bus: with [set] it
    registers the handler at the end of the chain of every port of the
    range, otherwise it removes the first registration with the same
    functions and private data; the other ports and the rest of the machine
    are left alone and the doubly linked chains stay well formed. *)
Theorem io_handler_refines w v set base size o step :
  represents w v -> 0 <= base -> 0 <= size -> base + size <= NPORTS -> 0 < step < 256 ->
  exists w', io_handler_common set base size o step w = Some w' /\
    represents w' ((if ctrue set then spec_set else spec_remove) base size o step v) /\
    rest w' = rest w.
Proof.
  intros. unfold io_handler_common.
  destruct (ctrue set); [by apply sethandler_ok|by apply removehandler_ok].
Qed.

(** Removing a handler right after registering it restores every chain
    up to order, and exactly where the handler was not registered before. *)
Theorem io_handler_roundtrip w v base size o step :
  represents w v -> 0 <= base -> 0 <= size -> base + size <= NPORTS -> 0 < step < 256 ->
  exists w1 w2 v2,
    io_sethandler_common base size o step w = Some w1 /\
    io_removehandler_common base size o step w1 = Some w2 /\
    represents w2 v2 /\ rest w2 = rest w /\
    forall port, v2 port ≡ₚ v port /\ (o ∉ v port -> v2 port = v port).
Proof.
  intros Hw Hb Hs Hbs Hst.
  destruct (sethandler_ok w v base size o step) as (w1 & -> & Hw1 & Hr1); try done.
  destruct (removehandler_ok w1 (spec_set base size o step v) base size o step) as (w2 & E & Hw2 & Hr2);
    try done.
  exists w1, w2, (spec_remove base size o step (spec_set base size o step v)).
  split_and!; [done|done|done|by rewrite Hr2|]. intros port. unfold spec_remove, spec_set, on_ports.
  destruct (covers base size step port); [apply remove_first_last|done].
Qed.

(** Remapping a trap unregisters its old range, if it was enabled, and
    registers the new one, if it is. *)
Theorem io_trap_remap_moves w v h t en port size :
  represents w v -> traps w !! h = Some t ->
  0 <= base t -> 0 <= trap_size t -> base t + trap_size t <= NPORTS ->
  0 <= port -> 0 <= size -> port + size <= NPORTS ->
  exists w', io_trap_remap (Some h) en port size w = Some w' /\
    represents w'
      (let v := if ctrue (enable t) && ctrue (trap_size t)
                then spec_remove (base t) (trap_size t) (trap_ops h) 1 v else v in
       if ctrue en && ctrue size then spec_set port size (trap_ops h) 1 v else v) /\
    traps w' = <[h := mkTrap (cbool (ctrue en)) port size (func t) (trap_priv t)]> (traps w).
Proof.
  intros Hw Ht Hb Hs Hbs Hp Hs' Hps. unfold io_trap_remap. rewrite Ht. cbn [mbind option_bind].
  set (v1 := if ctrue (enable t) && ctrue (trap_size t) then _ else v).
  assert (exists w1, (if ctrue (enable t) && ctrue (trap_size t)
    then io_removehandler (base t) (trap_size t) (trap_ops h) w else Some w) = Some w1 /\
    represents w1 v1 /\ traps w1 = traps w) as (w1 & -> & Hw1 & Ht1).
  { unfold v1. destruct (_ && _); [|by exists w].
    destruct (removehandler_ok w v (base t) (trap_size t) (trap_ops h) 1) as (w1 & ? & ? & Hr); try done.
    exists w1. split_and!; try done. by apply (f_equal traps) in Hr. }
  cbn [mbind option_bind]. rewrite <- Ht1. set (w2 := w1 <| traps ::= _ |>).
  assert (represents w2 v1) as Hw2 by by apply (represents_chains w1).
  destruct (ctrue en && ctrue size).
  - destruct (sethandler_ok w2 v1 port size (trap_ops h) 1) as (w' & ? & ? & Hr); try done.
    exists w'. split_and!; try done. by apply (f_equal traps) in Hr.
  - exists w2. done.
Qed.
End invariant.

(** ** Accesses to devices

    For the functional behaviour of accesses the device functions are
    functions on the devices that may also look at the number and the width
    of the access ([io_access_sequence], [io_access_width]), as handlers of
    some machines do: [lift] runs them on the bus. *)

Definition lift_read {D} (f : D -> option (Z * D)) (w : iobus D) : option (Z * iobus D) :=
  '(v, d) ← f (dev w); Some (v, w <| dev := d |>).
Definition lift_write {D} (f : D -> option D) (w : iobus D) : option (iobus D) :=
  d ← f (dev w); Some (w <| dev := d |>).

(** The functions as the access that runs on [w] sees them. *)
Definition seen {D} (s : Z -> Z -> callees D) (w : iobus D) : callees D :=
  s (io_access_sequence w) (io_access_width w).

Definition lift {D} (s : Z -> Z -> callees D) : callees (iobus D) := {|
  c_inb a port pv w := lift_read (c_inb (seen s w) a port pv) w;
  c_inw a port pv w := lift_read (c_inw (seen s w) a port pv) w;
  c_inl a port pv w := lift_read (c_inl (seen s w) a port pv) w;
  c_outb a port val pv w := lift_write (c_outb (seen s w) a port val pv) w;
  c_outw a port val pv w := lift_write (c_outw (seen s w) a port val pv) w;
  c_outl a port val pv w := lift_write (c_outl (seen s w) a port val pv) w;
  c_trap a sz port wr val pv w := lift_write (c_trap (seen s w) a sz port wr val pv) w;
  pci_read port w := lift_read (pci_read (seen s w) port) w;
  pci_readw port w := lift_read (pci_readw (seen s w) port) w;
  pci_readl port w := lift_read (pci_readl (seen s w) port) w;
  pci_write port val w := lift_write (pci_write (seen s w) port val) w;
  pci_writew port val w := lift_write (pci_writew (seen s w) port val) w;
  pci_writel port val w := lift_write (pci_writel (seen s w) port val) w;
|}.

(** The abstract counterpart of [chain]. *)
Fixpoint fold_ops {A D} (step : io_ops -> A -> D -> option (A * D)) (os : list io_ops)
    (a : A) (d : D) : option (A * D) :=
  match os with
  | [] => Some (a, d)
  | o :: os => '(a, d) ← step o a d; fold_ops step os a d
  end.

Section accesses.
Context {D : Type} (s : Z -> Z -> callees D).
Implicit Types (w : iobus D) (v : view) (d : D) (c : callees D).

Definition lifted {A} w (m : option (A * D)) : option (A * iobus D) :=
  '(a, d) ← m; Some (a, w <| dev := d |>).

Definition sp_inb c (T : gmap ptr io_trap_t) (skip : io_ops -> bool) (port : Z) :=
  read_with (run_inb (fun _ : D => T) c) inb_fn skip 1 port.
Definition sp_outb c (T : gmap ptr io_trap_t) (skip : io_ops -> bool) (val port : Z) :=
  write_with (run_outb (fun _ : D => T) c) outb_fn skip 1 port (u8 val).

Lemma trap_call_lift size port wr val pv w :
  trap_call traps (lift s) size port wr val pv w =
  lift_write (trap_call (fun _ => traps w) (seen s w) size port wr val pv) w.
Proof. unfold trap_call, lift_write. by destruct (traps w !! pv). Qed.

Lemma rd_inb_lift skip port o a w :
  rd_inb (lift s) skip port o a w = lifted w (sp_inb (seen s w) (traps w) skip port o a (dev w)).
Proof.
  unfold rd_inb, sp_inb, read_with, lifted. destruct (inb_fn o) as [f|]; [|by destruct w].
  destruct (skip o); [by destruct w|]. destruct f; cbn; unfold lift_read.
  - unfold io_trap_readb. rewrite trap_call_lift. unfold lift_write.
    by destruct (trap_call (fun _ => traps w) (seen s w) 1 port 0 0 (priv o) (dev w)).
  - by destruct (c_inb (seen s w) a0 port (priv o) (dev w)) as [[]|].
Qed.

Lemma wr_outb_lift skip val port o a w :
  wr_outb (lift s) skip val port o a w = lifted w (sp_outb (seen s w) (traps w) skip val port o a (dev w)).
Proof.
  unfold wr_outb, sp_outb, write_with, lifted. destruct (outb_fn o) as [f|]; [|by destruct w].
  destruct (skip o); [by destruct w|]. destruct f; cbn.
  - unfold io_trap_writeb. rewrite trap_call_lift. unfold lift_write.
    by destruct (trap_call (fun _ => traps w) (seen s w) 1 port 1 (u8 val) (priv o) (dev w)).
  - unfold lift_write. by destruct (c_outb (seen s w) a0 port (u8 val) (priv o) (dev w)) as [|].
Qed.

(** What a handler may depend on besides the devices. *)
Definition context w : gmap ptr io_trap_t * callees D := (traps w, seen s w).

Lemma length_ops_of (h : gmap ptr io_t) p l n : dseg h p l n -> length (ops_of h l) = length l.
Proof.
  revert p. induction l as [|x l IH]; intros p; [done|]. intros (nd & Hx & _ & _ & Hl).
  unfold ops_of. cbn. rewrite Hx. cbn. f_equal. by eapply IH.
Qed.

Lemma chain_lift {A} (step : io_ops -> A -> iobus D -> option (A * iobus D)) sstep l :
  forall p fuel (a : A) w K,
  (forall o a w', context w' = K -> step o a w' = lifted w' (sstep o a (dev w'))) ->
  context w = K -> dseg (nodes w) p l None -> (length l <= fuel)%nat ->
  chain fuel step (first l None) a w = lifted w (fold_ops sstep (ops_of (nodes w) l) a (dev w)).
Proof.
  induction l as [|x l IH]; intros p [|fuel] a w T Hstep HT Hseg Hfuel; cbn [length] in *;
    try lia; try by destruct w.
  destruct Hseg as (n & Hx & _ & Hn & Hl). cbn in Hn. unfold ops_of. cbn. rewrite Hx. cbn.
  rewrite Hn, Hstep by done. unfold lifted at 1.
  destruct (sstep (ops n) a (dev w)) as [[a' d']|]; [|done]. cbn [mbind option_bind].
  rewrite (IH (Some x) fuel a' _ T); [done|done|done|done|lia].
Qed.

Lemma pass_lift {A} (step : Z -> io_ops -> A -> iobus D -> option (A * iobus D)) sstep fuel i port
    (a : A) w v K :
  let p := (port + i) .& 0xffff in
  (forall o a w', context w' = K -> step p o a w' = lifted w' (sstep p o a (dev w'))) ->
  context w = K -> represents w v -> (length (v p) <= fuel)%nat ->
  pass fuel i port step a w = lifted w (fold_ops (sstep p) (v p) a (dev w)).
Proof.
  intros p Hstep HT (ch & [Hseg Hhead _ _ _ _] & Hv) Hfuel. unfold pass. fold p.
  assert (is_port p) as Hp.
  { unfold p. change 0xffff with (Z.ones 16). rewrite land_mask by done. by apply Z.mod_pos_bound. }
  rewrite Hhead by done. rewrite <- Hv in Hfuel |- * by done.
  rewrite (length_ops_of _ _ _ _ (Hseg p Hp)) in Hfuel. by eapply chain_lift; [..|by apply Hseg|].
Qed.

(** The fields an access leaves alone. *)
Record same_bus w w' : Prop := {
  sb_nodes : nodes w' = nodes w;
  sb_io : io w' = io w;
  sb_last : io_last w' = io_last w;
  sb_brk : brk w' = brk w;
  sb_traps : traps w' = traps w;
  sb_flags : pci_flags w' = pci_flags w;
  sb_base : pci_base w' = pci_base w;
  sb_size : pci_size w' = pci_size w;
}.

Lemma same_bus_represents w w' v : same_bus w w' -> represents w v -> represents w' v.
Proof. intros [E1 E2 E3 E4 _ _ _ _]. by apply represents_chains. Qed.

Lemma same_bus_window w w' port : same_bus w w' -> in_pci_window port w' = in_pci_window port w.
Proof. intros [_ _ _ _ _ E1 E2 E3]. unfold in_pci_window. by rewrite E1, E2, E3. Qed.

Lemma same_bus_trans w1 w2 w3 : same_bus w1 w2 -> same_bus w2 w3 -> same_bus w1 w3.
Proof. intros [] []. split; congruence. Qed.

Lemma debug_same port w : same_bus w (io_debug_check_addr port w) /\
  dev (io_debug_check_addr port w) = dev w.
Proof.
  unfold io_debug_check_addr. destruct (negb _); [done|]. destruct (negb _); [done|].
  by destruct (List.filter _ _).
Qed.

Lemma begin_same width port w : same_bus w (begin_access width port w) /\
  dev (begin_access width port w) = dev w.
Proof.
  unfold begin_access. set (w1 := _ <| io_port := port |>).
  assert (same_bus w w1 /\ dev w1 = dev w) as [Hs Hd] by done.
  change (use_debug_regs w1) with (use_debug_regs w). destruct (use_debug_regs w); [|done].
  destruct (debug_same port w1) as [Hs' Hd']. split; [by eapply same_bus_trans|by rewrite Hd'].
Qed.

Lemma begin_write_same width port val w : same_bus w (begin_write width port val w) /\
  dev (begin_write width port val w) = dev w.
Proof.
  unfold begin_write. set (w1 := _ <| io_val := val |>).
  assert (same_bus w w1 /\ dev w1 = dev w) as [Hs Hd] by done.
  change (use_debug_regs w1) with (use_debug_regs w). destruct (use_debug_regs w); [|done].
  destruct (debug_same port w1) as [Hs' Hd']. split; [by eapply same_bus_trans|by rewrite Hd'].
Qed.

Lemma begin_access_seen width port w :
  seen s (begin_access width port w) = s (u64 (io_access_sequence w + 1)) width.
Proof.
  unfold begin_access, io_debug_check_addr. destruct (use_debug_regs _); [|done].
  destruct (negb _); [done|]. destruct (negb _); [done|]. by destruct (List.filter _ _).
Qed.

Lemma begin_write_seen width port val w :
  seen s (begin_write width port val w) = s (u64 (io_access_sequence w + 1)) width.
Proof.
  unfold begin_write, io_debug_check_addr. destruct (use_debug_regs _); [|done].
  destruct (negb _); [done|]. destruct (negb _); [done|]. by destruct (List.filter _ _).
Qed.

Lemma end_same port found w : same_bus w (end_read port found w) /\
  dev (end_read port found w) = dev w.
Proof.
  unfold end_read, update_amstrad. destruct (ctrue (amstrad_latch w .& 2147483648)); cbn [is_ibm5550].
  all: by destruct (_ || _).
Qed.

Lemma port_mask port : is_port port -> (port + 0) .& 0xffff = port.
Proof.
  intros [? ?]. change 0xffff with (Z.ones 16). rewrite land_mask by done.
  rewrite Z.add_0_r. by apply Z.mod_small.
Qed.

(** The functions as the next byte access sees them. *)
Definition byte_seen w : callees D := s (u64 (io_access_sequence w + 1)) 1.

(** A byte read outside the PCI window runs the handlers of the port in
    order of registration. *)
Lemma inb_handlers fuel port w v :
  represents w v -> is_port port -> in_pci_window port w = false -> (length (v port) <= fuel)%nat ->
  inb (lift s) fuel port w =
    '((ret, found), w') ← lifted (begin_access 1 port w)
        (fold_ops (sp_inb (byte_seen w) (traps w) no_skip port) (v port) (0xff, 0) (dev w));
    Some (ret, end_read port found w').
Proof.
  intros Hw Hp Hwin Hfuel. unfold inb. destruct (begin_same 1 port w) as [Hs Hd].
  rewrite (same_bus_window _ _ _ Hs), Hwin. rewrite <- Hd.
  pose proof (port_mask port Hp) as Em.
  rewrite (pass_lift (rd_inb (lift s) no_skip) (sp_inb (byte_seen w) (traps w) no_skip) _ _ _ _ _ v (traps w, byte_seen w)).
  - by rewrite Em.
  - intros o a w' [= HT HS]. by rewrite rd_inb_lift, HT, HS.
  - unfold context. by rewrite (sb_traps _ _ Hs), begin_access_seen.
  - by eapply same_bus_represents.
  - by rewrite Em.
Qed.

Lemma outb_handlers fuel port val w v :
  represents w v -> is_port port -> in_pci_window port w = false -> (length (v port) <= fuel)%nat ->
  outb (lift s) fuel port val w =
    '(found, w') ← lifted (begin_write 1 port val w)
        (fold_ops (sp_outb (byte_seen w) (traps w) no_skip val port) (v port) 0 (dev w));
    Some (if (found =? 0) || (port =? 0x84) then delay w' else w').
Proof.
  intros Hw Hp Hwin Hfuel. unfold outb. destruct (begin_write_same 1 port val w) as [Hs Hd].
  rewrite (same_bus_window _ _ _ Hs), Hwin. rewrite <- Hd.
  pose proof (port_mask port Hp) as Em.
  rewrite (pass_lift (wr_outb (lift s) no_skip val) (sp_outb (byte_seen w) (traps w) no_skip val) _ _ _ _ _ v (traps w, byte_seen w)).
  - by rewrite Em.
  - intros o a w' [= HT HS]. by rewrite wr_outb_lift, HT, HS.
  - unfold context. by rewrite (sb_traps _ _ Hs), begin_write_seen.
  - by eapply same_bus_represents.
  - by rewrite Em.
Qed.

(** *** Wide accesses to byte-wide handlers *)

Definition byte_only (o : io_ops) : Prop :=
  inw_fn o = None /\ inl_fn o = None /\ outw_fn o = None /\ outl_fn o = None.

Lemma fold_ops_skip {A} (step : io_ops -> A -> D -> option (A * D)) os a d :
  (forall o a d, o ∈ os -> step o a d = Some (a, d)) -> fold_ops step os a d = Some (a, d).
Proof.
  intros Hs. induction os as [|o os IH]; [done|]. cbn. rewrite Hs by (by left). cbn.
  apply IH. intros. apply Hs. by right.
Qed.

Lemma fold_ops_ext {A} (step step' : io_ops -> A -> D -> option (A * D)) os a d :
  (forall o a d, o ∈ os -> step o a d = step' o a d) -> fold_ops step os a d = fold_ops step' os a d.
Proof.
  revert a d. induction os as [|o os IH]; intros a d Hs; [done|]. cbn. rewrite Hs by (by left).
  destruct (step' o a d) as [[]|]; [|done]. apply IH. intros. apply Hs. by right.
Qed.

Lemma sp_inb_eq c T skip port o a d :
  sp_inb c T skip port o a d =
  match inb_fn o with
  | Some f =>
      if skip o then Some (a, d) else
      '(v, d) ← run_inb (fun _ => T) c f port (priv o) d; Some ((a.1 .& v, a.2 .| 1), d)
  | None => Some (a, d)
  end.
Proof. done. Qed.

Lemma sp_outb_eq c T skip val port o a d :
  sp_outb c T skip val port o a d =
  match outb_fn o with
  | Some f =>
      if skip o then Some (a, d) else
      d ← run_outb (fun _ => T) c f port (u8 val) (priv o) d; Some (a .| 1, d)
  | None => Some (a, d)
  end.
Proof. done. Qed.

(** The [found] bits do not influence a read, nor a write. *)
Lemma sp_inb_found c T skip port os r f d :
  fold_ops (sp_inb c T skip port) os (r, f) d =
  '((r', f'), d') ← fold_ops (sp_inb c T skip port) os (r, 0) d; Some ((r', f .| f'), d').
Proof.
  enough (forall f g, fold_ops (sp_inb c T skip port) os (r, f .| g) d =
    '((r', f'), d') ← fold_ops (sp_inb c T skip port) os (r, g) d; Some ((r', f .| f'), d')) as Hg.
  { specialize (Hg f 0). by rewrite Z.lor_0_r in Hg. }
  clear f. revert r d. induction os as [|o os IH]; intros r d f g; cbn; [done|].
  rewrite !sp_inb_eq. destruct (inb_fn o); [|apply IH]. destruct (skip o); [apply IH|].
  destruct (run_inb _ _ _ _ _ _) as [[v d']|]; cbn; [|done]. rewrite <- Z.lor_assoc. apply IH.
Qed.

Lemma sp_outb_found c T skip val port os f d :
  fold_ops (sp_outb c T skip val port) os f d =
  '(f', d') ← fold_ops (sp_outb c T skip val port) os 0 d; Some (f .| f', d').
Proof.
  enough (forall f g, fold_ops (sp_outb c T skip val port) os (f .| g) d =
    '(f', d') ← fold_ops (sp_outb c T skip val port) os g d; Some (f .| f', d')) as Hg.
  { specialize (Hg f 0). by rewrite Z.lor_0_r in Hg. }
  clear f. revert d. induction os as [|o os IH]; intros d f g; cbn; [done|].
  rewrite !sp_outb_eq. destruct (outb_fn o); [|apply IH]. destruct (skip o); [apply IH|].
  destruct (run_outb _ _ _ _ _ _ _) as [d'|]; cbn; [|done]. rewrite <- Z.lor_assoc. apply IH.
Qed.

(** A byte read or write, as seen by the handlers and by the next access. *)
Lemma inb_Some fuel port w v r w' :
  represents w v -> is_port port -> in_pci_window port w = false -> (length (v port) <= fuel)%nat ->
  inb (lift s) fuel port w = Some (r, w') ->
  same_bus w w' /\
  exists f, fold_ops (sp_inb (byte_seen w) (traps w) no_skip port) (v port) (0xff, 0) (dev w) = Some ((r, f), dev w').
Proof.
  intros Hw Hp Hwin Hfuel. rewrite (inb_handlers _ _ _ v) by done. unfold lifted.
  destruct (fold_ops _ _ _ _) as [[[r' f] d]|]; [|done]. cbn [mbind option_bind].
  intros [= -> <-]. set (w1 := (begin_access 1 port w) <| dev := d |>).
  destruct (end_same port f w1) as [Hs Hd], (begin_same 1 port w) as [Hs1 Hd1].
  split; [|exists f; by rewrite Hd]. apply (same_bus_trans _ w1); [|done]. by destruct Hs1.
Qed.

Lemma outb_Some fuel port val w v w' :
  represents w v -> is_port port -> in_pci_window port w = false -> (length (v port) <= fuel)%nat ->
  outb (lift s) fuel port val w = Some w' ->
  same_bus w w' /\
  exists f, fold_ops (sp_outb (byte_seen w) (traps w) no_skip val port) (v port) 0 (dev w) = Some (f, dev w').
Proof.
  intros Hw Hp Hwin Hfuel. rewrite (outb_handlers _ _ _ _ v) by done. unfold lifted.
  destruct (fold_ops _ _ _ _) as [[f d]|]; [|done]. cbn [mbind option_bind].
  intros [= <-]. destruct (begin_write_same 1 port val w) as [Hs1 Hd1].
  split; [|exists f; by destruct (_ || _)]. by destruct Hs1, (_ || _).
Qed.

(** One byte of a wide access to byte-wide handlers. *)
Lemma byte_pass fuel i port skip f w w0 v r d c :
  let p := (port + i) .& 0xffff in
  same_bus w0 w -> seen s w = c -> represents w0 v -> (length (v p) <= fuel)%nat ->
  (forall o, o ∈ v p -> skip o = false) ->
  (exists f', fold_ops (sp_inb c (traps w0) no_skip p) (v p) (0xff, 0) (dev w) = Some ((r, f'), d)) ->
  exists f', pass fuel i port (rd_inb (lift s) skip) (0xff, f) w = Some ((r, f'), w <| dev := d |>).
Proof.
  intros p Hs Hc Hw Hfuel Hskip [f' Hf].
  exists (f .| f'). rewrite (pass_lift _ (sp_inb c (traps w0) skip) _ _ _ _ _ v (traps w0, c)).
  - fold p. unfold lifted. rewrite (fold_ops_ext _ (sp_inb c (traps w0) no_skip p)).
    + by rewrite sp_inb_found, Hf.
    + intros o a d' Ho. unfold sp_inb, read_with. by rewrite Hskip.
  - intros o a w' [= HT HS]. by rewrite rd_inb_lift, HT, HS.
  - unfold context. by rewrite (sb_traps _ _ Hs), Hc.
  - by eapply same_bus_represents.
  - done.
Qed.

Lemma byte_wpass fuel i port skip val f w w0 v d c :
  let p := (port + i) .& 0xffff in
  same_bus w0 w -> seen s w = c -> represents w0 v -> (length (v p) <= fuel)%nat ->
  (forall o, o ∈ v p -> skip o = false) ->
  (exists f', fold_ops (sp_outb c (traps w0) no_skip val p) (v p) 0 (dev w) = Some (f', d)) ->
  exists f', pass fuel i port (wr_outb (lift s) skip val) f w = Some (f', w <| dev := d |>).
Proof.
  intros p Hs Hc Hw Hfuel Hskip [f' Hf].
  exists (f .| f'). rewrite (pass_lift _ (sp_outb c (traps w0) skip val) _ _ _ _ _ v (traps w0, c)).
  - fold p. unfold lifted. rewrite (fold_ops_ext _ (sp_outb c (traps w0) no_skip val p)).
    + by rewrite sp_outb_found, Hf.
    + intros o a d' Ho. unfold sp_outb, write_with. by rewrite Hskip.
  - intros o a w' [= HT HS]. by rewrite wr_outb_lift, HT, HS.
  - unfold context. by rewrite (sb_traps _ _ Hs), Hc.
  - by eapply same_bus_represents.
  - done.
Qed.

(** A wide pass finds nothing to do on byte-wide handlers. *)
Lemma wide_pass {A} fuel i port (step : Z -> io_ops -> A -> iobus D -> option (A * iobus D))
    (a : A) w w0 v :
  let p := (port + i) .& 0xffff in
  same_bus w0 w -> represents w0 v -> (length (v p) <= fuel)%nat ->
  (forall o a w', o ∈ v p -> step p o a w' = Some (a, w')) ->
  pass fuel i port step a w = Some (a, w).
Proof.
  intros p Hs Hw Hfuel Hstep. unfold pass. fold p.
  apply (same_bus_represents _ _ _ Hs) in Hw as (ch & [Hseg Hhead _ _ _ _] & Hv).
  assert (is_port p) as Hp.
  { unfold p. change 0xffff with (Z.ones 16). rewrite land_mask by done. by apply Z.mod_pos_bound. }
  rewrite Hhead by done. rewrite <- Hv in Hfuel, Hstep by done.
  rewrite (length_ops_of _ _ _ _ (Hseg p Hp)) in Hfuel. specialize (Hseg p Hp).
  revert Hseg Hfuel Hstep. generalize (ch p) as l, (@None ptr) at 1 as pr. clear -A.
  intros l. revert fuel. induction l as [|x l IH]; intros [|fuel] pr; cbn [length]; try done; try lia.
  intros (n & Hx & _ & Hn & Hl) Hfuel Hstep. cbn in Hn. cbn. rewrite Hx. cbn. rewrite Hn.
  assert (ops_of (nodes w) (x :: l) = ops n :: ops_of (nodes w) l) as E by (unfold ops_of; cbn; by rewrite Hx).
  rewrite Hstep by (rewrite E; by left). cbn. eapply IH; [exact Hl|lia|].
  intros o a' w' Ho. apply Hstep. rewrite E. by right.
Qed.

Lemma port_mask_is_port x : is_port (x .& 0xffff).
Proof. change 0xffff with (Z.ones 16). rewrite land_mask by done. by apply Z.mod_pos_bound. Qed.

Definition at_port (port i : Z) : Z := (port + i) .& 0xffff.

(** Ports [port + i], [i < n], have byte-wide handlers only. *)
Definition byte_ports (n port : Z) fuel v : Prop :=
  forall i, 0 <= i < n ->
    (length (v (at_port port i)) <= fuel)%nat /\ forall o, o ∈ v (at_port port i) -> byte_only o.

Lemma byte_ports_skip n port fuel v i o :
  byte_ports n port fuel v -> 0 <= i < n -> o ∈ v (at_port port i) ->
  has_inw o = false /\ has_inl o = false /\ has_outw o = false /\ has_outl o = false.
Proof.
  intros Hb Hi Ho. destruct (proj2 (Hb i Hi) o Ho) as (E1 & E2 & E3 & E4).
  unfold has_inw, has_inl, has_outw, has_outl. by rewrite E1, E2, E3, E4.
Qed.

(** The accessed ports, outside the PCI window. *)
Definition ports_open (n port : Z) w : Prop :=
  is_port port /\ forall i, 0 <= i < n -> in_pci_window (at_port port i) w = false.

Lemma ports_open_first n port w : 0 < n -> ports_open n port w -> in_pci_window port w = false.
Proof.
  intros Hn [Hp Hwin]. specialize (Hwin 0 ltac:(lia)). unfold at_port in Hwin. by rewrite port_mask in Hwin.
Qed.

(** The passes for wider handlers do nothing. *)
Lemma quiet_inl n port fuel w v a wb :
  represents w v -> byte_ports n port fuel v -> 0 < n -> same_bus w wb ->
  pass fuel 0 port (rd_inl (lift s)) a wb = Some (a, wb).
Proof.
  intros Hw Hb Hn Hs. apply (wide_pass _ _ _ _ _ _ w v); try done; [by apply (Hb 0); lia|].
  intros o a' w' Ho. destruct (proj2 (Hb 0 ltac:(lia)) o Ho) as (_ & E & _).
  unfold rd_inl, read_with. by rewrite E.
Qed.

Lemma quiet_inw n i skip port fuel w v a wb :
  represents w v -> byte_ports n port fuel v -> 0 <= i < n -> same_bus w wb ->
  pass fuel i port (rd_inw (lift s) skip) a wb = Some (a, wb).
Proof.
  intros Hw Hb Hn Hs. apply (wide_pass _ _ _ _ _ _ w v); try done; [by apply (Hb i)|].
  intros o a' w' Ho. destruct (proj2 (Hb i Hn) o Ho) as (E & _).
  unfold rd_inw, read_with. by rewrite E.
Qed.

Lemma quiet_outl n port val fuel w v a wb :
  represents w v -> byte_ports n port fuel v -> 0 < n -> same_bus w wb ->
  pass fuel 0 port (wr_outl (lift s) val) a wb = Some (a, wb).
Proof.
  intros Hw Hb Hn Hs. apply (wide_pass _ _ _ _ _ _ w v); try done; [by apply (Hb 0); lia|].
  intros o a' w' Ho. destruct (proj2 (Hb 0 ltac:(lia)) o Ho) as (_ & _ & _ & E).
  unfold wr_outl, write_with. by rewrite E.
Qed.

Lemma quiet_outw n i skip port val fuel w v a wb :
  represents w v -> byte_ports n port fuel v -> 0 <= i < n -> same_bus w wb ->
  pass fuel i port (wr_outw (lift s) skip val) a wb = Some (a, wb).
Proof.
  intros Hw Hb Hn Hs. apply (wide_pass _ _ _ _ _ _ w v); try done; [by apply (Hb i)|].
  intros o a' w' Ho. destruct (proj2 (Hb i Hn) o Ho) as (_ & _ & E & _).
  unfold wr_outw, write_with. by rewrite E.
Qed.

End accesses.

(** A double word as bytes: byte accesses to handlers to which each of them
    appears as the one wide access, number [q] and width [n] - to the
    handlers that do not look at the access, ordinary byte accesses. *)
Section wide.
Context {D : Type} (s : Z -> Z -> callees D).
Implicit Types (w : iobus D) (v : view) (d : D) (c : callees D).

Definition as_access (q n : Z) : callees (iobus D) := lift (fun _ _ => s q n).

(** A byte read of the sequence, replayed as one pass of a wide read. *)
Lemma replay_inb n i port fuel skip w wi v r wi' q k :
  represents w v -> ports_open n port w -> byte_ports n port fuel v ->
  (forall i, 0 <= i < n -> forall o, o ∈ v (at_port port i) -> skip o = false) -> 0 <= i < n ->
  same_bus w wi -> inb (as_access q k) fuel (at_port port i) wi = Some (r, wi') ->
  same_bus w wi' /\
  forall wb f, same_bus w wb -> seen s wb = s q k -> dev wb = dev wi ->
  exists f' wb', pass fuel i port (rd_inb (lift s) skip) (0xff, f) wb = Some ((r, f'), wb') /\
    same_bus w wb' /\ seen s wb' = s q k /\ dev wb' = dev wi'.
Proof.
  intros Hw Hwin Hb Hskip Hi Hs Hr. specialize (Hskip i Hi).
  pose proof (same_bus_represents _ _ _ Hs Hw) as Hwi.
  destruct (inb_Some _ _ _ _ v _ _ Hwi (port_mask_is_port _)
    ltac:(rewrite (same_bus_window w) by done; by apply Hwin) (proj1 (Hb i Hi)) Hr) as (Hs' & Hf).
  split; [by eapply same_bus_trans|]. intros wb f Hsb Hc Hd.
  rewrite (sb_traps _ _ Hs), <- Hd in Hf.
  destruct (byte_pass s fuel i port skip f wb w v r (dev wi') (s q k) Hsb Hc Hw (proj1 (Hb i Hi)) Hskip Hf)
    as [f' ->].
  exists f', (wb <| dev := dev wi' |>). split_and!; [done|by destruct Hsb|done|done].
Qed.

Lemma replay_outb n i port fuel skip val b w wi v wi' q k :
  represents w v -> ports_open n port w -> byte_ports n port fuel v ->
  (forall i, 0 <= i < n -> forall o, o ∈ v (at_port port i) -> skip o = false) -> 0 <= i < n ->
  same_bus w wi -> u8 b = u8 val -> outb (as_access q k) fuel (at_port port i) b wi = Some wi' ->
  same_bus w wi' /\
  forall wb f, same_bus w wb -> seen s wb = s q k -> dev wb = dev wi ->
  exists f' wb', pass fuel i port (wr_outb (lift s) skip val) f wb = Some (f', wb') /\
    same_bus w wb' /\ seen s wb' = s q k /\ dev wb' = dev wi'.
Proof.
  intros Hw Hwin Hb Hskip Hi Hs Hv Hr. specialize (Hskip i Hi).
  pose proof (same_bus_represents _ _ _ Hs Hw) as Hwi.
  destruct (outb_Some _ _ _ _ _ v _ Hwi (port_mask_is_port _)
    ltac:(rewrite (same_bus_window w) by done; by apply Hwin) (proj1 (Hb i Hi)) Hr) as (Hs' & Hf).
  split; [by eapply same_bus_trans|]. intros wb f Hsb Hc Hd.
  assert (sp_outb (s q k) (traps wi) no_skip b = sp_outb (s q k) (traps w) no_skip val) as E
    by (unfold sp_outb; by rewrite Hv, (sb_traps _ _ Hs)).
  unfold byte_seen in Hf. rewrite E, <- Hd in Hf.
  destruct (byte_wpass s fuel i port skip val f wb w v (dev wi') (s q k) Hsb Hc Hw (proj1 (Hb i Hi)) Hskip Hf)
    as [f' ->].
  exists f', (wb <| dev := dev wi' |>). split_and!; [done|by destruct Hsb|done|done].
Qed.

(** C7: A double-word read of four ports outside the PCI window that have
    only byte-wide handlers is four byte reads in order of address, whose
    handlers see the number and the width of the one access: same value,
    same devices.  (To a handler that looks at the width the access is not
    four ordinary byte reads.) *)
Theorem inl_bytes fuel port w w1 w2 w3 w4 v r0 r1 r2 r3 :
  let read := inb (as_access (u64 (io_access_sequence w + 1)) 4) fuel in
  represents w v -> ports_open 4 port w -> byte_ports 4 port fuel v ->
  read (at_port port 0) w = Some (r0, w1) -> read (at_port port 1) w1 = Some (r1, w2) ->
  read (at_port port 2) w2 = Some (r2, w3) -> read (at_port port 3) w3 = Some (r3, w4) ->
  exists w', inl (lift s) fuel port w =
      Some ((r3 <<< 24) .| (r2 <<< 16) .| (r1 <<< 8) .| r0, w') /\ dev w' = dev w4.
Proof.
  intros read Hw Hwin Hb H0 H1 H2 H3. subst read.
  assert (forall i, 0 <= i < 4 -> forall o, o ∈ v (at_port port i) -> has_wide_in o = false) as Hsk.
  { intros i Hi o Ho. destruct (byte_ports_skip _ _ _ _ i o Hb Hi Ho) as (E1 & E2 & _).
    unfold has_wide_in. by rewrite E1, E2. }
  destruct (replay_inb 4 0 port fuel has_wide_in w w v r0 w1 (u64 (io_access_sequence w + 1)) 4) as [S1 P0]; [done..|by split|exact H0|].
  destruct (replay_inb 4 1 port fuel has_wide_in w w1 v r1 w2 (u64 (io_access_sequence w + 1)) 4) as [S2 P1]; [done..|exact H1|].
  destruct (replay_inb 4 2 port fuel has_wide_in w w2 v r2 w3 (u64 (io_access_sequence w + 1)) 4) as [S3 P2]; [done..|exact H2|].
  destruct (replay_inb 4 3 port fuel has_wide_in w w3 v r3 w4 (u64 (io_access_sequence w + 1)) 4) as [S4 P3]; [done..|exact H3|].
  unfold inl. destruct (begin_same 4 port w) as [Sb Hd]. pose proof (begin_access_seen s 4 port w) as Hc.
  rewrite (same_bus_window _ _ _ Sb), (ports_open_first 4) by done. set (wb := begin_access 4 port w) in *.
  rewrite (quiet_inl s 4 port fuel w v) by done. cbn [mbind option_bind].
  rewrite (quiet_inw s 4 0 _ port fuel w v) by done. cbn [mbind option_bind].
  rewrite (quiet_inw s 4 2 _ port fuel w v) by done. cbn [mbind option_bind].
  change (0xffffffff .& 0xffff) with 0xffff. change ((0xffffffff >>> 16) .& 0xffff) with 0xffff.
  change ((0xffff <<< 16) .| 0xffff) with 0xffffffff. cbn zeta.
  change (0xffffffff .& 0xff) with 0xff. change ((0xffffffff >>> 8) .& 0xff) with 0xff.
  change ((0xffffffff >>> 16) .& 0xff) with 0xff. change ((0xffffffff >>> 24) .& 0xff) with 0xff.
  destruct (P0 wb 0 Sb Hc Hd) as (f0 & b0 & -> & T0 & C0 & D0). cbn [mbind option_bind].
  destruct (P1 b0 f0 T0 C0 D0) as (f1 & b1 & -> & T1 & C1 & D1). cbn [mbind option_bind].
  destruct (P2 b1 f1 T1 C1 D1) as (f2 & b2 & -> & T2 & C2 & D2). cbn [mbind option_bind].
  destruct (P3 b2 f2 T2 C2 D2) as (f3 & b3 & -> & T3 & C3 & D3). cbn [mbind option_bind].
  eexists. split; [reflexivity|]. by destruct (end_same port f3 b3) as [_ ->].
Qed.

(** A double-word write to ports that have only byte-wide handlers is
    four byte writes, low byte first, in order of address. *)
Theorem outl_bytes fuel port val w w1 w2 w3 w4 v :
  let write := outb (as_access (u64 (io_access_sequence w + 1)) 4) fuel in
  represents w v -> ports_open 4 port w -> byte_ports 4 port fuel v ->
  write (at_port port 0) (u8 val) w = Some w1 -> write (at_port port 1) (u8 (val >>> 8)) w1 = Some w2 ->
  write (at_port port 2) (u8 (val >>> 16)) w2 = Some w3 -> write (at_port port 3) (u8 (val >>> 24)) w3 = Some w4 ->
  exists w', outl (lift s) fuel port val w = Some w' /\ dev w' = dev w4.
Proof.
  intros write Hw Hwin Hb H0 H1 H2 H3. subst write.
  assert (forall i, 0 <= i < 4 -> forall o, o ∈ v (at_port port i) -> has_wide_out o = false) as Hsk.
  { intros i Hi o Ho. destruct (byte_ports_skip _ _ _ _ i o Hb Hi Ho) as (_ & _ & E1 & E2).
    unfold has_wide_out. by rewrite E1, E2. }
  pose proof (fun x => wrap_wrap 8 x ltac:(done)) as Hu.
  destruct (replay_outb 4 0 port fuel has_wide_out val (u8 val) w w v w1 (u64 (io_access_sequence w + 1)) 4) as [S1 P0]; [done..|by split|apply Hu|exact H0|].
  destruct (replay_outb 4 1 port fuel has_wide_out (val >>> 8) (u8 (val >>> 8)) w w1 v w2 (u64 (io_access_sequence w + 1)) 4) as [S2 P1]; [done..|apply Hu|exact H1|].
  destruct (replay_outb 4 2 port fuel has_wide_out (val >>> 16) (u8 (val >>> 16)) w w2 v w3 (u64 (io_access_sequence w + 1)) 4) as [S3 P2]; [done..|apply Hu|exact H2|].
  destruct (replay_outb 4 3 port fuel has_wide_out (val >>> 24) (u8 (val >>> 24)) w w3 v w4 (u64 (io_access_sequence w + 1)) 4) as [S4 P3]; [done..|apply Hu|exact H3|].
  unfold outl. destruct (begin_write_same 4 port val w) as [Sb Hd]. pose proof (begin_write_seen s 4 port val w) as Hc.
  rewrite (same_bus_window _ _ _ Sb), (ports_open_first 4) by done. set (wb := begin_write 4 port val w) in *.
  rewrite (quiet_outl s 4 port _ fuel w v) by done. cbn [mbind option_bind].
  rewrite (quiet_outw s 4 0 _ port _ fuel w v) by done. cbn [mbind option_bind].
  rewrite (quiet_outw s 4 2 _ port _ fuel w v) by done. cbn [mbind option_bind].
  destruct (P0 wb 0 Sb Hc Hd) as (f0 & b0 & -> & T0 & C0 & D0). cbn [mbind option_bind].
  destruct (P1 b0 f0 T0 C0 D0) as (f1 & b1 & -> & T1 & C1 & D1). cbn [mbind option_bind].
  destruct (P2 b1 f1 T1 C1 D1) as (f2 & b2 & -> & T2 & C2 & D2). cbn [mbind option_bind].
  destruct (P3 b2 f2 T2 C2 D2) as (f3 & b3 & -> & T3 & C3 & D3). cbn [mbind option_bind].
  eexists. split; [reflexivity|]. by destruct (f3 =? 0).
Qed.
End wide.

(** *** Open bus *)
Section open_bus.
Context {D : Type} (s : Z -> Z -> callees D).
Implicit Types (w : iobus D) (v : view) (d : D) (c : callees D).

Definition has_inb (o : io_ops) : bool := bool_decide (is_Some (inb_fn o)).

(** The byte a handler with a constant answer drives. *)
Definition driven (val : Z -> Z -> Z) (i : Z) (o : io_ops) : bool :=
  match inb_fn o with Some (Dev a) => Z.testbit (val a (priv o)) i | _ => true end.

Lemma fold_inb_const c (val : Z -> Z -> Z) port os d :
  (forall o f, o ∈ os -> inb_fn o = Some f ->
     exists a, f = Dev a /\ forall d, c_inb c a port (priv o) d = Some (val a (priv o), d)) ->
  forall T r f, exists r' f', fold_ops (sp_inb c T no_skip port) os (r, f) d = Some ((r', f'), d) /\
    (forall i, Z.testbit r' i = Z.testbit r i && forallb (driven val i) os) /\
    f' = if existsb has_inb os then f .| 1 else f.
Proof.
  intros Hos T. induction os as [|o os IH]; intros r f; cbn [fold_ops forallb existsb].
  { exists r, f. split_and!; [done| |done]. intros i. by rewrite andb_true_r. }
  rewrite sp_inb_eq. unfold no_skip at 1, driven at 1, has_inb at 1.
  destruct (inb_fn o) as [g|] eqn:Eg.
  - destruct (Hos o g) as (a & -> & Hc); [by left|done|]. cbn [run_inb]. rewrite Hc.
    cbn [mbind option_bind fst snd].
    destruct IH with (r := r .& val a (priv o)) (f := f .| 1) as (r' & f' & Hr & Hb & Hf).
    { intros o' f0 Ho'. apply Hos. by right. }
    exists r', f'. split_and!; [done| |].
    + intros i. rewrite Hb, Z.land_spec. by rewrite andb_assoc.
    + rewrite Hf. cbn. destruct (existsb has_inb os); [|done]. by rewrite <- Z.lor_assoc.
  - cbn [mbind option_bind]. apply IH. intros o' f0 Ho'. apply Hos. by right.
Qed.

Lemma begin_access_cycles width port w :
  cycles (begin_access width port w) = cycles w /\ io_delay (begin_access width port w) = io_delay w /\
  is_ibm5550 (begin_access width port w) = is_ibm5550 w.
Proof.
  unfold begin_access. set (w1 := _ <| io_port := port |>).
  change (use_debug_regs w1) with (use_debug_regs w). destruct (use_debug_regs w); [|done].
  unfold io_debug_check_addr. destruct (negb _); [done|]. destruct (negb _); [done|].
  by destruct (List.filter _ _).
Qed.

Lemma end_read_cycles port f w :
  cycles (end_read port f w) =
  if (f =? 0) || is_ibm5550 w then cycles w - io_delay w else cycles w.
Proof.
  unfold end_read. assert (forall w', is_ibm5550 w' = is_ibm5550 w -> cycles w' = cycles w ->
    io_delay w' = io_delay w -> cycles (if (f =? 0) || is_ibm5550 w' then delay w' else w') =
    if (f =? 0) || is_ibm5550 w then cycles w - io_delay w else cycles w) as H.
  { intros w' -> Hc Hd. destruct (_ || _); cbn; by rewrite ?Hc, ?Hd. }
  by apply H; unfold update_amstrad; destruct (ctrue (amstrad_latch w .& 0x80000000)).
Qed.

(** A byte read is the wired AND of what the handlers of the port
    drive, 0xff without any, and then (or on an IBM 5550) it costs the
    I/O delay. *)
Theorem inb_wired_and fuel port w v val :
  represents w v -> is_port port -> in_pci_window port w = false -> (length (v port) <= fuel)%nat ->
  (forall o f, o ∈ v port -> inb_fn o = Some f ->
     exists a, f = Dev a /\ forall d, c_inb (byte_seen s w) a port (priv o) d = Some (val a (priv o), d)) ->
  exists r w', inb (lift s) fuel port w = Some (r, w') /\
    (forall i, Z.testbit r i = Z.testbit 0xff i && forallb (driven val i) (v port)) /\
    dev w' = dev w /\
    cycles w' = (if existsb has_inb (v port) && negb (is_ibm5550 w) then cycles w
                 else cycles w - io_delay w).
Proof.
  intros Hw Hp Hwin Hfuel Hos. rewrite (inb_handlers _ _ _ _ v) by done.
  destruct (fold_inb_const (byte_seen s w) val port (v port) (dev w) Hos (traps w) 0xff 0) as (r & f & -> & Hb & Hf).
  cbn [lifted mbind option_bind]. exists r. eexists. split; [reflexivity|]. split; [done|].
  destruct (begin_access_cycles 1 port w) as (Hc & Hd & Hi).
  set (w1 := (begin_access 1 port w) <| dev := dev w |>). split.
  { by destruct (end_same port f w1) as [_ ->]. }
  rewrite end_read_cycles, <- Hc, <- Hd, <- Hi.
  assert ((f =? 0) = negb (existsb has_inb (v port))) as ->.
  { rewrite Hf. by destruct (existsb has_inb (v port)). }
  by destruct (existsb has_inb (v port)), (is_ibm5550 _).
Qed.
End open_bus.

(** ** Address breakpoints *)

(** A word-wide I/O breakpoint misses the second byte of its range:
    the two tests of the code for that length are the same. *)
Theorem debug_word_misses (regs : list Z) i :
  let a := (nth (Z.to_nat i) regs 0 .& 0xffff) .&~ 1 in
  ((((nth 7 regs 0 >>> 16) .& (15 <<< (4 * i))) >>> (4 * i)) >>> 2) .& 3 = 1 ->
  debug_hit regs i (a + 1) = false.
Proof.
  intros a Hlen. unfold debug_hit. rewrite Hlen. fold a.
  assert ((a =? a + 1) = false) as -> by (apply Z.eqb_neq; lia).
  assert ((a + 1 =? a + 1 + 1) = false) as -> by (apply Z.eqb_neq; lia).
  by rewrite andb_false_r.
Qed.

(** ** A concrete bus: a byte-wide device on ports 0x60 to 0x63

    The devices are a log of the writes; a read of a port answers a value
    that depends on the function, the port and the width of the access. *)
Section sample.

Definition log_dev (q n : Z) : callees (list Z) := {|
  c_inb a port pv d := Some (u8 (a + port + n), d);
  c_inw a port pv d := Some (u16 (a + port), d);
  c_inl a port pv d := Some (u32 (a + port), d);
  c_outb a port val pv d := Some (d ++ [port; val]);
  c_outw a port val pv d := Some (d ++ [port; val]);
  c_outl a port val pv d := Some (d ++ [port; val]);
  c_trap a sz port wr val pv d := Some (d ++ [port; val]);
  pci_read port d := Some (0, d);
  pci_readw port d := Some (0, d);
  pci_readl port d := Some (0, d);
  pci_write port val d := Some d;
  pci_writew port val d := Some d;
  pci_writel port val d := Some d;
|}.

Definition bus0 : iobus (list Z) :=
  mkBus ∅ ∅ ∅ {[ 5 := mkTrap 0 0 0 9 1 ]} 10 1 0 0xc000 0x1000 0 1000 7 false true
        [0; 0; 0; 0; 0; 0; 0; 0] 0 0 0 0 0 0 [].

Definition byte_dev : io_ops := mkOps (Some (Dev 3)) None None (Some (Dev 4)) None None 77.

Definition bus1 : iobus (list Z) := default bus0 (io_sethandler 0x60 4 byte_dev bus0).
Definition view1 : view := spec_set 0x60 4 byte_dev 1 (fun _ => []).

Lemma bus0_ok : represents bus0 (fun _ => []).
Proof.
  exists (fun _ => []). split; [|done]. split; try done.
  - intros. constructor.
  - by intros ? ? ? ? ? ?%not_elem_of_nil.
  - cbn. intros x [n Hn]. by rewrite lookup_empty in Hn.
Qed.

Lemma bus1_ok : represents bus1 view1.
Proof.
  destruct (sethandler_ok bus0 (fun _ => []) 0x60 4 byte_dev 1 bus0_ok) as (w' & E & Hw & _);
    [done..|]. unfold bus1, io_sethandler. by rewrite E.
Qed.

Lemma bus1_bytes : byte_ports 4 0x60 10 view1.
Proof.
  intros i Hi. assert (i = 0 \/ i = 1 \/ i = 2 \/ i = 3) as [-> | [-> | [-> | ->]]] by lia.
  all: split; [vm_compute; lia|].
  all: by intros o ->%list_elem_of_singleton.
Qed.

Lemma bus1_open : ports_open 4 0x60 bus1.
Proof. split; [done|]. intros i Hi. assert (i = 0 \/ i = 1 \/ i = 2 \/ i = 3) as [-> | [-> | [-> | ->]]] by lia; done. Qed.

Definition after_in (port : Z) (w : iobus (list Z)) : iobus (list Z) :=
  match inb (as_access log_dev 1 4) 10 port w with Some (_, w') => w' | None => w end.
Definition after_out (port val : Z) (w : iobus (list Z)) : iobus (list Z) :=
  default w (outb (as_access log_dev 1 4) 10 port val w).

Lemma io_handler_refines_witness :
  exists w', io_handler_common 0 0x60 4 byte_dev 2 bus1 = Some w' /\
    represents w' (spec_remove 0x60 4 byte_dev 2 view1) /\ rest w' = rest bus1.
Proof. by apply (io_handler_refines bus1 view1 0 0x60 4 byte_dev 2 bus1_ok). Defined.

Lemma io_handler_roundtrip_witness :
  exists w1 w2 v2,
    io_sethandler_common 0x62 8 byte_dev 1 bus1 = Some w1 /\
    io_removehandler_common 0x62 8 byte_dev 1 w1 = Some w2 /\
    represents w2 v2 /\ rest w2 = rest bus1 /\
    forall port, v2 port ≡ₚ view1 port /\ (byte_dev ∉ view1 port -> v2 port = view1 port).
Proof. by apply (io_handler_roundtrip bus1 view1 0x62 8 byte_dev 1 bus1_ok). Defined.

Lemma inl_bytes_witness :
  exists w', inl (lift log_dev) 10 0x60 bus1 = Some (0x6a696867, w') /\
    dev w' = dev (after_in 0x63 (after_in 0x62 (after_in 0x61 (after_in 0x60 bus1)))).
Proof.
  apply (inl_bytes log_dev 10 0x60 bus1 (after_in 0x60 bus1) (after_in 0x61 (after_in 0x60 bus1))
    (after_in 0x62 (after_in 0x61 (after_in 0x60 bus1)))
    (after_in 0x63 (after_in 0x62 (after_in 0x61 (after_in 0x60 bus1)))) view1
    0x67 0x68 0x69 0x6a bus1_ok); [exact bus1_open|exact bus1_bytes|by vm_compute..].
Defined.

Lemma outl_bytes_witness :
  exists w', outl (lift log_dev) 10 0x60 0x44332211 bus1 = Some w' /\
    dev w' = [0x60; 0x11; 0x61; 0x22; 0x62; 0x33; 0x63; 0x44].
Proof.
  apply (outl_bytes log_dev 10 0x60 0x44332211 bus1 (after_out 0x60 0x11 bus1)
    (after_out 0x61 0x22 (after_out 0x60 0x11 bus1))
    (after_out 0x62 0x33 (after_out 0x61 0x22 (after_out 0x60 0x11 bus1)))
    (after_out 0x63 0x44 (after_out 0x62 0x33 (after_out 0x61 0x22 (after_out 0x60 0x11 bus1)))) view1
    bus1_ok); [exact bus1_open|exact bus1_bytes|by vm_compute..].
Defined.

Lemma io_trap_remap_moves_witness :
  exists w', io_trap_remap (Some 5) 1 0x100 16 bus1 = Some w' /\
    represents w' (spec_set 0x100 16 (trap_ops 5) 1 view1) /\
    traps w' = <[5 := mkTrap 1 0x100 16 9 1]> (traps bus1).
Proof.
  apply (io_trap_remap_moves bus1 view1 5 (mkTrap 0 0 0 9 1) 1 0x100 16 bus1_ok); [|done..].
  by vm_compute.
Defined.

Lemma inb_wired_and_witness :
  exists r w', inb (lift log_dev) 10 0x60 bus1 = Some (r, w') /\
    (forall i, Z.testbit r i = Z.testbit 0xff i && forallb (driven (fun a _ => u8 (a + 0x60 + 1)) i) [byte_dev]) /\
    dev w' = [] /\ cycles w' = 1000.
Proof.
  apply (inb_wired_and log_dev 10 0x60 bus1 view1 (fun a _ => u8 (a + 0x60 + 1)) bus1_ok); [done|done|vm_compute; lia|].
  intros o f ->%list_elem_of_singleton [= <-]. by exists 3.
Defined.

Lemma debug_word_misses_witness :
  debug_hit [0x300; 0; 0; 0; 0; 0; 0; 0x60001] 0 0x300 = true /\
  debug_hit [0x300; 0; 0; 0; 0; 0; 0; 0x60001] 0 0x301 = false.
Proof.
  split; [by vm_compute|]. by apply (debug_word_misses [0x300; 0; 0; 0; 0; 0; 0; 0x60001] 0).
Defined.
End sample.
