(* ===== verification/Pic.v ===== *)
(** * Pic: the interrupt controllers of src/src/pic.c

    The two 8259s ([pic], the master, and [pic2]), the globals of pic.c and
    the rest of the machine ([env]), which pic.c reaches through the
    interface [PicEnv]: the I/O ports, the delay timer, SMI, the fast-off
    timer, the ACPI status and the second PIT.  A [pic_t *] is a [which].
    [None] is undefined behaviour: a NULL slave, a shift by 32 or more, or
    [fatal]. *)
From Stdlib Require Import SpecFloat.
From S2P Require Import Prelude.

(** [&pic] and [&pic2]. *)
Inductive which := Master | Slave.

#[export] Instance which_eq_dec : EqDecision which.
Proof. solve_decision. Defined.

Definition STATE_NONE : Z := 0.
Definition STATE_ICW2 : Z := 1.
Definition STATE_ICW3 : Z := 2.
Definition STATE_ICW4 : Z := 3.

Record pic_t := mkPic {
  icw1 : Z; icw2 : Z; icw3 : Z; icw4 : Z;
  imr : Z; isr : Z; irr : Z;
  ocw2 : Z; ocw3 : Z;
  int_pending : Z;
  is_master : Z;
  elcr : Z;
  state : Z;
  ack_bytes : Z;
  priority : Z;
  special_mask_mode : Z;
  auto_eoi_rotate : Z;
  interrupt : Z;
  data_bus : Z;
  lines : list Z;
  at_mode : Z;
  zenith : Z;
  slaves : list (option which);
}.

Definition pic_zero : pic_t :=
  mkPic 0 0 0 0 0 0 0 0 0 0 0 0 0 0 0 0 0 0 0 (replicate 8 0) 0 0 (replicate 8 None).

(** The handlers pic.c registers on I/O ports. *)
Inductive pic_io := PicIo (d : which) | ElcrIo (d : which) | LatchIo.

(** What the rest of the machine offers to pic.c. *)
Class PicEnv (E : Type) := {
  cpu_fast_off_flags : E -> Z;
  cpu_fast_off_advance : E -> E;
  smi_raise : E -> E;
  set_acpi_rtc_status : Z -> E -> E;
  timer_on_auto : spec_float -> E -> E;         (* on [pic_timer] *)
  timer_add : E -> E;                           (* [pic_timer], with [pic_callback] *)
  env_io_handler : Z -> Z -> Z -> pic_io -> E -> E;   (* set, base, size *)
  pit2_gate : E -> E;                           (* gate 0 of the second PIT, if there is one *)
}.

(** The two functions [update_pending] points to. *)
Inductive pending_fn := Pending_xt | Pending_at.

(** [1 << n] for an [int]. *)
Definition shl1 (n : Z) : option Z := if (0 <=? n) && (n <? 32) then Some (1 <<< n) else None.

Section pic.
Context {E : Type} `{!PicEnv E}.

Record pics := mkPics {
  pic : pic_t;
  pic2 : pic_t;
  shadow : Z;
  elcr_enabled : Z;
  tmr_inited : Z;
  force_xt_imr_timing : Z;
  pic_pci : Z;
  kbd_latch : Z;
  mouse_latch : Z;
  smi_irq_mask : Z;
  smi_irq_status : Z;
  latched_irqs : Z;
  irq_vector_override : list Z;
  update_pending_ptr : option pending_fn;
  is286 : Z;
  xt_cpu_multi : Z;
  rspeed : Z;
  env : E;
}.
Implicit Types (w : pics) (d : which).

Definition get d w : pic_t := match d with Master => pic w | Slave => pic2 w end.
Definition put d (p : pic_t) w : pics :=
  match d with Master => w <| pic := p |> | Slave => w <| pic2 := p |> end.
Definition upd d (f : pic_t -> pic_t) w : pics := put d (f (get d w)) w.

(** ** SMI, ELCR and settings *)

Definition pic_reset_smi_irq_mask w : pics := w <| smi_irq_mask := 0 |>.

Definition pic_set_smi_irq_mask (irq set : Z) w : pics :=
  if (0 <=? irq) && (irq <=? 15) then
    if ctrue set then w <| smi_irq_mask ::= (fun m => m .| (1 <<< irq)) |>
    else w <| smi_irq_mask ::= (fun m => m .&~ (1 <<< irq)) |>
  else w.

Definition pic_get_smi_irq_status w : Z := smi_irq_status w.

Definition pic_clear_smi_irq_status (irq : Z) w : pics :=
  if (0 <=? irq) && (irq <=? 15) then w <| smi_irq_status ::= (fun m => m .&~ (1 <<< irq)) |> else w.

Definition pic_elcr_write (port val : Z) d w : pics :=
  let val := if ctrue (port .& 1) then val .& 0xde else val .& 0xf8 in
  upd d (fun p => p <| elcr := val |>) w.
Definition pic_elcr_read (port : Z) d w : Z := elcr (get d w).
Definition pic_elcr_get_enabled w : Z := elcr_enabled w.
Definition pic_elcr_set_enabled (enabled : Z) w : pics := w <| elcr_enabled := enabled |>.

Definition io_handler (set base size : Z) (h : pic_io) w : pics :=
  w <| env ::= env_io_handler set base size h |>.

Definition pic_elcr_io_handler (set : Z) w : pics :=
  io_handler set 0x4d1 1 (ElcrIo Slave) (io_handler set 0x4d0 1 (ElcrIo Master) w).

Definition pic_set_shadow (sh : Z) w : pics := w <| shadow := sh |>.
Definition pic_set_force_xt_imr_timing (en : Z) w : pics := w <| force_xt_imr_timing := en |>.
Definition pic_get_pci_flag w : Z := pic_pci w.
Definition pic_set_pci_flag (pci : Z) w : pics := w <| pic_pci := pci |>.

Definition pic_set_vector_override (irq vector : Z) w : pics :=
  if irq <? 8 then
    w <| irq_vector_override ::= <[Z.to_nat irq := if 0 <=? vector then vector .& 0xff else -1]> |>
  else w.

(** ** Priority resolution *)

Definition pic_cascade_mode (p : pic_t) : bool := negb (ctrue (icw1 p .& 2)).

Definition pic_slave_on (p : pic_t) (channel : Z) : option bool :=
  if pic_cascade_mode p && (ctrue (is_master p) || ((icw4 p .& 0xc) =? 0xc)) then
    b ← shl1 channel; Some (ctrue (icw3 p .& b))
  else Some false.

(** The loop of [find_best_interrupt]: the bits in service and requested,
    from the highest priority on. *)
Fixpoint best_scan (fuel : nat) (i : Z) (p : pic_t) : Z :=
  match fuel with
  | O => -1
  | S fuel =>
      let j := (i + priority p) .& 7 in
      let b := u8 (1 <<< j) in
      if ctrue (isr p .& b) then -1
      else if (state p =? 0) && ctrue ((irr p .&~ imr p) .& b) then j
      else best_scan fuel (i + 1) p
  end.

Definition find_best_interrupt d w : Z * pics :=
  let p := get d w in
  let ret := best_scan 8 0 p in
  let intr := if ret =? -1 then 0x17 else ret in
  let w := put d (p <| interrupt := intr |>) w in
  let w :=
    if ctrue (at_mode p) && negb (ret =? -1) then
      let intr := match d with Slave => intr + 8 | Master => intr end in
      if ctrue (cpu_fast_off_flags (env w) .& (1 <<< intr)) then w <| env ::= cpu_fast_off_advance |> else w
    else w in
  (ret, w).

Definition set_pending d (ret : Z) w : pics :=
  upd d (fun p => p <| int_pending := cbool (negb (ret =? -1)) |>) w.

Definition pic_update_pending_xt w : pics :=
  if negb (ctrue (interrupt (pic w) .& 0x20)) then
    let '(r, w) := find_best_interrupt Master w in set_pending Master r w
  else w.

Definition pic_update_pending_at w : option pics :=
  if negb (ctrue (interrupt (pic w) .& 0x20)) then
    let '(r2, w) := find_best_interrupt Slave w in
    let w := set_pending Slave r2 w in
    b ← shl1 (icw3 (pic2 w));
    let w := if ctrue (int_pending (pic2 w))
             then w <| pic ::= (fun p => p <| irr := u8 (irr p .| b) |>) |>
             else w <| pic ::= (fun p => p <| irr := u8 (irr p .&~ b) |>) |> in
    let '(r, w) := find_best_interrupt Master w in
    Some (set_pending Master r w)
  else Some w.

(** The call through the function pointer. *)
Definition update_pending w : option pics :=
  match update_pending_ptr w with
  | None => None
  | Some Pending_xt => Some (pic_update_pending_xt w)
  | Some Pending_at => pic_update_pending_at w
  end.

Definition pic_callback w : option pics := update_pending w.

(** [is_at] and [is_zenith] are properties of the machine. *)
Definition pic_reset (is_at is_zenith : bool) w : pics :=
  let master := pic_zero <| is_master := 1 |> <| interrupt := 0x17 |>
                  <| slaves := if is_at then <[2%nat := Some Slave]> (slaves pic_zero) else slaves pic_zero |>
                  <| at_mode := cbool is_at |> <| zenith := cbool is_zenith |> in
  let slave := pic_zero <| interrupt := 0x17 |>
                  <| at_mode := cbool is_at |> <| zenith := cbool is_zenith |> in
  let w := w <| pic := master |> <| pic2 := slave |> in
  let w := if ctrue (tmr_inited w) then w <| env ::= timer_on_auto (S754_zero false) |> else w in
  w <| env ::= timer_add |> <| tmr_inited := 1 |>
    <| update_pending_ptr := Some (if is_at then Pending_at else Pending_xt) |>
    <| smi_irq_mask := 0 |> <| smi_irq_status := 0 |> <| shadow := 0 |> <| pic_pci := 0 |>.

Definition pic_level_triggered (p : pic_t) (irq : Z) w : bool :=
  if ctrue (elcr_enabled w) then ctrue (elcr p .& (1 <<< irq)) else ctrue (icw1 p .& 8).

Definition picint_is_level (irq : Z) w : bool :=
  pic_level_triggered (if 7 <? irq then pic2 w else pic w) (irq .& 7) w.

(** ** Acknowledgement, EOI and commands *)

Definition line (p : pic_t) (i : Z) : Z := nth (Z.to_nat i) (lines p) 0.

Definition pic_acknowledge d w : pics :=
  let p := get d w in
  let pic_int := interrupt p .& 7 in
  let pic_int_num := 1 <<< pic_int in
  let p := p <| isr := u8 (isr p .| pic_int_num) |> in
  put d (if negb (pic_level_triggered p pic_int w) || (line p pic_int =? 0)
         then p <| irr := u8 (irr p .&~ pic_int_num) |> else p) w.

(** The highest-priority IRQ in service, or 0xff. *)
Fixpoint non_specific_scan (fuel : nat) (i : Z) (p : pic_t) : Z :=
  match fuel with
  | O => 0xff
  | S fuel =>
      let j := (i + priority p) .& 7 in
      let b := u8 (1 <<< j) in
      if ctrue (isr p .& b) && (negb (ctrue (special_mask_mode p)) || negb (ctrue (imr p .& b)))
      then j else non_specific_scan fuel (i + 1) p
  end.

Definition pic_non_specific_find (p : pic_t) : Z := non_specific_scan 8 0 p.

(** The shift comes before the test of [irq], so 0xff is undefined. *)
Definition pic_action d (irq eoi rotate : Z) w : option pics :=
  b ← shl1 irq;
  if negb (irq =? 0xff) then
    let b := u8 b in
    let w := if ctrue eoi then upd d (fun p => p <| isr := isr p .&~ b |>) w else w in
    let w := if ctrue rotate then upd d (fun p => p <| priority := (irq + 1) .& 7 |>) w else w in
    update_pending w
  else Some w.

Definition pic_auto_non_specific_eoi d w : option pics :=
  if ctrue (icw4 (get d w) .& 2)
  then pic_action d (pic_non_specific_find (get d w)) 1 (auto_eoi_rotate (get d w)) w
  else Some w.

Definition pic_command d w : option pics :=
  let p := get d w in
  if ctrue (ocw2 p .& 0x60) then
    let irq := if ctrue (ocw2 p .& 0x40) then ocw2 p .& 7 else pic_non_specific_find p in
    pic_action d irq (ocw2 p .& 0x20) (ocw2 p .& 0x80) w
  else Some (upd d (fun p => p <| auto_eoi_rotate := cbool (ctrue (ocw2 p .& 0x80)) |>) w).

(** ** Raising and lowering interrupts *)

(** The first loop of [picint_common]: requests on slave inputs are dropped,
    IRQ 2 becomes IRQ 9; also counts the slaves. *)
Fixpoint strip_slaves (fuel : nat) (i num slaves : Z) w : Z * Z :=
  match fuel with
  | O => (num, slaves)
  | S fuel =>
      let b := u8 (1 <<< i) in
      let raise := num .& b in
      if ctrue (icw3 (pic w) .& b) then
        let num :=
          if ctrue raise then
            let num := u16 (num .&~ b) in
            if ctrue (at_mode (pic w)) && (i =? 2) then num .| (1 <<< 9) else num
          else num in
        strip_slaves fuel (i + 1) num (slaves + 1) w
      else strip_slaves fuel (i + 1) num slaves w
  end.

(** One iteration of the loop over the level-sensitive lines. *)
Definition level_line (i num set st : Z) (acc : Z * pics) : Z * pics :=
  let '(lns, w) := acc in
  let d := if i <? 8 then Master else Slave in
  let b := i .& 7 in
  let wb := 1 <<< i in
  if ctrue (num .& wb) then
    let changed := negb (Bool.eqb (ctrue st) (ctrue set)) in
    let w := if changed then
               upd d (fun p => p <| lines ::=
                 <[Z.to_nat b := u32 (if ctrue set then line p b + 1 else line p b - 1)]> |>) w
             else w in
    if negb (pic_level_triggered (get d w) b w) ||
       (changed && (line (get d w) b =? cbool (ctrue set)))
    then (lns .| wb, w) else (lns, w)
  else (lns, w).

Definition level_lines (max num set st : Z) (acc : Z * pics) : Z * pics :=
  fold_left (fun acc i => level_line (Z.of_nat i) num set st acc) (seq 0 (Z.to_nat max)) acc.

Definition raise_irqs (num : Z) w : pics :=
  let w := if ctrue (smi_irq_mask w .& num)
           then w <| env ::= smi_raise |> <| smi_irq_status ::= (fun s => s .| num) |> else w in
  let w := if ctrue (num .& 0xff00) then
             let w := if ctrue (num .& 0x1000) && ctrue (mouse_latch w)
                      then w <| latched_irqs ::= (fun l => l .| 0x1000) |> else w in
             w <| pic2 ::= (fun p => p <| irr := u8 (irr p .| (num >>> 8)) |>) |>
           else w in
  if ctrue (num .& 0xff) then
    let w := if ctrue (kbd_latch w) && ctrue (num .& 2)
             then w <| latched_irqs ::= (fun l => l .| 2) |> else w in
    w <| pic ::= (fun p => p <| irr := irr p .| (num .& 0xff) |>) |>
  else w.

Definition lower_irqs (num : Z) w : pics :=
  let w := w <| smi_irq_status ::= (fun s => s .&~ num) |> in
  let w := if ctrue (num .& 0xff00) then
             let w := if ctrue (num .& 0x1000) && ctrue (mouse_latch w)
                      then w <| latched_irqs ::= (fun l => l .& 0xefff) |> else w in
             w <| pic2 ::= (fun p => p <| irr := irr p .&~ (num >>> 8) |>) |>
           else w in
  if ctrue (num .& 0xff) then
    let w := if ctrue (kbd_latch w) && ctrue (num .& 2)
             then w <| latched_irqs ::= (fun l => l .& 0xfffd) |> else w in
    w <| pic ::= (fun p => p <| irr := irr p .&~ (num .& 0xff) |>) |>
  else w.

(** [level], and [*irq_state] before and after (untouched on edges). *)
Definition picint_common (num level set st : Z) w : option (Z * pics) :=
  match update_pending_ptr w with
  | None => Some (st, w)
  | Some _ =>
      let '(num, nslaves) := strip_slaves 8 0 num 0 w in
      let max := if nslaves =? 0 then 8 else 16 in
      if num =? 0 then Some (st, w) else
      let '(num, st, w) :=
        if ctrue level then
          let '(lns, w) := level_lines max num set st (0, w) in
          (lns, (if Bool.eqb (ctrue st) (ctrue set) then st else set), w)
        else (num, st, w) in
      let num := if nslaves =? 0 then num .& 0xff else num in
      let w := if ctrue (num .& 0x100)
               then w <| env ::= set_acpi_rtc_status (cbool (ctrue set)) |> else w in
      if num =? 0 then Some (st, w) else
      w ← update_pending (if ctrue set then raise_irqs num w else lower_irqs num w);
      Some (st, w)
  end.

Definition picint (num : Z) w : option pics := snd <$> picint_common num 0 1 0 w.
Definition picintc (num : Z) w : option pics := snd <$> picint_common num 0 0 0 w.
Definition picintlevel (num st : Z) w : option (Z * pics) := picint_common num 1 1 st w.
Definition picintclevel (num st : Z) w : option (Z * pics) := picint_common num 1 0 st w.

(** ** Port accesses *)

Definition pic_latch_read w : option (Z * pics) :=
  w ← (if ctrue (kbd_latch w) && ctrue (latched_irqs w .& 2) then picintc 2 w else Some w);
  w ← (if ctrue (mouse_latch w) && ctrue (latched_irqs w .& 0x1000) then picintc 0x1000 w else Some w);
  Some (0xff, w).

Definition pic_read_icw (pic_id icw : Z) w : Z :=
  let p := if ctrue pic_id then pic2 w else pic w in
  match icw with 0 => icw1 p | 1 => icw2 p | 2 => icw3 p | 3 => icw4 p | _ => 0xff end.

Definition pic_read_ocw (pic_id ocw : Z) w : Z :=
  let p := if ctrue pic_id then pic2 w else pic w in
  match ocw with 0 => ocw2 p | 1 => ocw3 p | _ => 0xff end.

(** The VIA shadow registers. *)
Definition shadow_byte (addr : Z) (p : pic_t) : Z :=
  if ctrue (addr .& 1) then (icw2 p .& 0xf8) >>> 3
  else (((ocw3 p .& 0x20) >>> 5) <<< 4) .| (((ocw2 p .& 0x80) >>> 7) <<< 3) .|
       (((icw4 p .& 0x10) >>> 4) <<< 2) .| (((icw4 p .& 2) >>> 1) <<< 1) .| ((icw4 p .& 8) >>> 3).

(** Reading in poll mode acknowledges the interrupt. *)
Definition poll_read d w : option pics :=
  let w := upd d (fun p => p <| interrupt ::= (fun i => i .&~ 0x20) |>) w in
  w ← (if ctrue (int_pending (get d w)) then
         let w := upd d (fun p => p <| data_bus := 0x80 .| (interrupt p .& 7) |>) w in
         let w := pic_acknowledge d w in
         update_pending (upd d (fun p => p <| int_pending := 0 |>) w)
       else Some (upd d (fun p => p <| data_bus := 0 |>) w));
  Some (upd d (fun p => p <| ocw3 ::= (fun o => o .&~ 4) |>) w).

Definition pic_read (addr : Z) d w : option (Z * pics) :=
  w ← (if ctrue (shadow w) then Some (upd d (fun p => p <| data_bus := shadow_byte addr p |>) w)
       else
         let w := upd d (fun p => p <| data_bus := irr p |>) w in
         if ctrue (ocw3 (get d w) .& 4) then poll_read d w
         else if ctrue (addr .& 1) then Some (upd d (fun p => p <| data_bus := imr p |>) w)
         else if ctrue (ocw3 (get d w) .& 2) && ctrue (ocw3 (get d w) .& 1)
         then Some (upd d (fun p => p <| data_bus := isr p |>) w)
         else Some w);
  Some (data_bus (get d w), w).

(** [.0 * ((10000000.0 * xt_cpu_multi) / rspeed)] in IEEE doubles. *)
Definition dbl (z : Z) : spec_float := binary_normalize 53 1024 z 0 false.
Definition xt_imr_delay w : spec_float :=
  SFmul 53 1024 (S754_zero false)
    (SFdiv 53 1024 (SFmul 53 1024 (dbl 10000000) (dbl (xt_cpu_multi w))) (dbl (rspeed w))).

(** The mask register: the pending state is recomputed at once, or later. *)
Definition write_imr (val : Z) d w : option pics :=
  let w := upd d (fun p => p <| imr := val |>) w in
  if (ctrue (is286 w) && negb (ctrue (force_xt_imr_timing w))) || ctrue (zenith (get d w))
  then update_pending w
  else if ctrue (force_xt_imr_timing w) then Some (w <| env ::= timer_on_auto (dbl 1) |>)
  else Some (w <| env ::= timer_on_auto (xt_imr_delay w) |>).

(** IRR bits of the lines that are asserted. *)
Definition lines_irr (p : pic_t) : Z :=
  fold_left (fun r i => if 0 <? line p (Z.of_nat i) then r .| (1 <<< Z.of_nat i) else r) (seq 0 8) 0.

Definition write_icw1 (val : Z) (p : pic_t) : pic_t :=
  p <| icw1 := val |> <| icw2 := 0 |> <| icw3 := 0 |>
    <| icw4 := if ctrue (val .& 1) then icw4 p else 0 |>
    <| ocw2 := 0 |> <| ocw3 := 0 |> <| irr := lines_irr p |> <| imr := 0 |> <| isr := 0 |>
    <| ack_bytes := 0 |> <| priority := 0 |> <| auto_eoi_rotate := 0 |> <| special_mask_mode := 0 |>
    <| interrupt := 0x17 |> <| int_pending := 0 |> <| state := STATE_ICW2 |>.

Definition write_ocw3 (val : Z) (p : pic_t) : pic_t :=
  let p := p <| ocw3 := val |> in
  let p := if ctrue (val .& 4) then p <| interrupt ::= (fun i => i .| 0x20) |> else p in
  if ctrue (val .& 0x40) then p <| special_mask_mode := cbool (ctrue (val .& 0x20)) |> else p.

(** The state after ICW2 or ICW3. *)
Definition icw4_or_none (p : pic_t) : Z := if ctrue (icw1 p .& 1) then STATE_ICW4 else STATE_NONE.

Definition pic_write (addr val : Z) d w : option pics :=
  let w := upd d (fun p => p <| data_bus := val |>) w in
  if ctrue (addr .& 1) then
    match state (get d w) with
    | 1 => Some (upd d (fun p => p <| icw2 := val |>
                   <| state := if pic_cascade_mode p then STATE_ICW3 else icw4_or_none p |>) w)
    | 2 => Some (upd d (fun p => p <| icw3 := val |> <| state := icw4_or_none p |>) w)
    | 3 => Some (upd d (fun p => p <| icw4 := val |> <| state := STATE_NONE |>) w)
    | 0 => write_imr val d w
    | _ => Some w
    end
  else if ctrue (val .& 0x10) then
    if ctrue (pic_pci w) && ctrue (val .& 0xe0) then Some w
    else update_pending (upd d (write_icw1 val) w)
  else if ctrue (val .& 8) then Some (upd d (write_ocw3 val) w)
  else pic_command d (upd d (fun p => p <| ocw2 := val |>) w).

(** ** Latches, reset and initialisation *)

Definition pic_set_pci w : pics :=
  let pair w i := io_handler 1 (i + 0x80) 2 (PicIo Slave) (io_handler 1 i 2 (PicIo Master) w) in
  let w := fold_left pair (map (fun n => 0x24 + 4 * Z.of_nat n) (seq 0 7)) w in
  fold_left pair (map (fun n => 0x1120 + 4 * Z.of_nat n) (seq 0 8)) w.

Definition pic_kbd_latch (enable : Z) w : option pics :=
  let w := if Bool.eqb (ctrue (enable .| mouse_latch w)) (ctrue (kbd_latch w .| mouse_latch w)) then w
           else io_handler (cbool (ctrue (enable .| mouse_latch w))) 0x60 1 LatchIo w in
  let w := w <| kbd_latch := cbool (ctrue enable) |> in
  if ctrue enable then Some w else picintc 2 w.

Definition pic_mouse_latch (enable : Z) w : option pics :=
  let w := if Bool.eqb (ctrue (kbd_latch w .| enable)) (ctrue (kbd_latch w .| mouse_latch w)) then w
           else io_handler (cbool (ctrue (kbd_latch w .| enable))) 0x60 1 LatchIo w in
  let w := w <| mouse_latch := cbool (ctrue enable) |> in
  if ctrue enable then Some w else picintc 0x1000 w.

Definition pic_reset_hard (is_at is_zenith is_ps2_kbc : bool) w : option pics :=
  let w := pic_reset is_at is_zenith w in
  let w := w <| kbd_latch := 0 |> <| mouse_latch := 0 |> <| latched_irqs := 0 |> in
  let en := cbool is_ps2_kbc in
  w ← pic_kbd_latch en w; pic_mouse_latch en w.

Definition pic_toggle_latch (is_ps2 : Z) w : option pics :=
  w ← pic_kbd_latch 0 w;
  w ← pic_mouse_latch 0 w;
  let w := w <| kbd_latch := 0 |> <| mouse_latch := 0 |> <| latched_irqs := 0 |> in
  if ctrue is_ps2 then w ← pic_kbd_latch 1 w; pic_mouse_latch 1 w else Some w.

Definition pic_init (is_at is_zenith is_ps2_kbc : bool) w : option pics :=
  let w := w <| irq_vector_override := replicate 8 (-1) |> in
  w ← pic_reset_hard is_at is_zenith is_ps2_kbc w;
  Some (io_handler 1 0x20 2 (PicIo Master) (w <| shadow := 0 |>)).

Definition pic_init_pcjr (is_at is_zenith is_ps2_kbc : bool) w : option pics :=
  w ← pic_reset_hard is_at is_zenith is_ps2_kbc w;
  Some (io_handler 1 0x20 8 (PicIo Master) (w <| shadow := 0 |>)).

Definition pic2_init w : pics :=
  let w := io_handler 1 0xa0 2 (PicIo Slave) w in
  w <| pic ::= (fun p => p <| slaves ::= <[2%nat := Some Slave]> |>) |>.

(** ** Interrupt acknowledge *)

Definition pic_i86_mode (p : pic_t) : bool := ctrue (icw4 p .& 1).

(** [dev->slaves[i]]; NULL stays [None]. *)
Definition slave_of (p : pic_t) (i : Z) : option which :=
  if (0 <=? i) && (i <? 8) then mjoin (slaves p !! Z.to_nat i) else None.

(** One acknowledge cycle of a controller; [rec] is the cycle of a slave. *)
Definition ack_body (rec : option which -> pics -> option (Z * pics)) d (phase : Z) w
    : option (Z * pics) :=
  let intr := interrupt (get d w) .& 0x47 in
  let slave := ctrue (intr .& 0x40) in
  let intr := intr .& 7 in
  let from_slave w := rec (slave_of (get d w) intr) w in
  let drive '(v, w) := upd d (fun p => p <| data_bus := v |>) w in
  w ← (if phase =? 0 then
         let w := upd d (fun p => p <| interrupt ::= (fun i => i .| 0x20) |>) w in
         let w := pic_acknowledge d w in
         if slave then drive <$> from_slave w
         else Some (drive (if pic_i86_mode (get d w) then 0xff else 0xcd, w))
       else if pic_i86_mode (get d w) then
         let w := upd d (fun p => p <| int_pending := 0 |>) w in
         w ← (if slave then drive <$> from_slave w
              else
                let ov := nth (Z.to_nat intr) (irq_vector_override w) (-1) in
                if bool_decide (d = Master) && (0 <=? ov) then Some (drive (u8 ov, w))
                else Some (drive (u8 (intr + (icw2 (get d w) .& 0xf8)), w)));
         pic_auto_non_specific_eoi d w
       else if phase =? 1 then
         if slave then drive <$> from_slave w
         else if ctrue (icw1 (get d w) .& 4)
         then Some (drive (u8 ((intr <<< 2) + (icw1 (get d w) .& 0xe0)), w))
         else Some (drive (u8 ((intr <<< 3) + (icw1 (get d w) .& 0xc0)), w))
       else if phase =? 2 then
         let w := upd d (fun p => p <| int_pending := 0 |>) w in
         w ← (if slave then drive <$> from_slave w else Some (drive (icw2 (get d w), w)));
         pic_auto_non_specific_eoi d w
       else Some w);
  Some (data_bus (get d w), w).

(** Slaves have no slaves, so two levels are enough. *)
Fixpoint pic_irq_ack_read (fuel : nat) (o : option which) (phase : Z) w : option (Z * pics) :=
  match fuel with
  | O => None
  | S fuel => d ← o; ack_body (fun o w => pic_irq_ack_read fuel o phase w) d phase w
  end.

(** Counting the cycles, and the end of the sequence. *)
Definition ack_end w : option pics :=
  let n := (ack_bytes (pic w) + 1) mod (if pic_i86_mode (pic w) then 2 else 3) in
  let w := w <| pic ::= (fun p => p <| ack_bytes := n |>) |> in
  if n =? 0 then
    let w := if ctrue (interrupt (pic w) .& 0x40)
             then w <| pic2 ::= (fun p => p <| interrupt := 0x17 |>) |> else w in
    update_pending (w <| pic ::= (fun p => p <| interrupt := 0x17 |>) |>)
  else Some w.

Definition ack_cycle w : option (Z * pics) :=
  '(ret, w) ← pic_irq_ack_read 3 (Some Master) (ack_bytes (pic w)) w;
  w ← ack_end w;
  Some (ret, w).

Definition mark_slave w : pics :=
  w <| pic ::= (fun p => p <| interrupt ::= (fun i => i .| 0x40) |>) |>.

Definition pic_irq_ack w : option (Z * pics) :=
  w ← (if (ack_bytes (pic w) =? 0) && ctrue (int_pending (pic w)) then
         on ← pic_slave_on (pic w) (interrupt (pic w));
         if (on : bool) then
           d ← slave_of (pic w) (interrupt (pic w));
           if ctrue (int_pending (get d w)) then Some (mark_slave w) else None
         else Some w
       else Some w);
  ack_cycle w.

Definition picinterrupt w : option (Z * pics) :=
  w ← (if ctrue (int_pending (pic w)) then
         on ← pic_slave_on (pic w) (interrupt (pic w));
         if (on : bool) then
           d ← slave_of (pic w) (interrupt (pic w));
           if ctrue (int_pending (get d w)) then Some (mark_slave w)
           else Some (upd d (fun p => p <| int_pending := 1 |> <| interrupt := 7 |>) w)
         else Some w
       else Some (w <| pic ::= (fun p => p <| int_pending := 1 |> <| interrupt := 7 |>) |>));
  let w := if interrupt (pic w) =? 0 then w <| env ::= pit2_gate |> else w in
  '(_, w) ← ack_cycle w;
  ack_cycle w.
End pic.

Arguments pics : clear implicits.

(** ** Priority resolution *)

(** Position of input [j] in the rotating priority order. *)
Definition rank (p : pic_t) (j : Z) : Z := (j - priority p) mod 8.
Definition in_service (p : pic_t) (j : Z) : bool := Z.testbit (isr p) j.
Definition requests (p : pic_t) (j : Z) : bool :=
  (state p =? 0) && Z.testbit (irr p .&~ imr p) j.

(** [r] is the input to serve: requested, unmasked, and no input of the same
    or higher priority is in service or requested. *)
Definition serves (p : pic_t) (r : Z) : Prop :=
  requests p r = true /\
  forall k, 0 <= k < 8 -> rank p k <= rank p r ->
    in_service p k = false /\ (requests p k = true -> k = r).

(** Every request is blocked by an input in service. *)
Definition blocked (p : pic_t) : Prop :=
  forall j, 0 <= j < 8 -> requests p j = true ->
    exists k, 0 <= k < 8 /\ in_service p k = true /\ rank p k <= rank p j.

Definition resolution (p : pic_t) (r : Z) : Prop :=
  (0 <= r < 8 /\ serves p r) \/ (r = -1 /\ blocked p).

Lemma rank_range p j : 0 <= rank p j < 8.
Proof. apply Z.mod_pos_bound. lia. Qed.

Lemma rank_inj p j k : 0 <= j < 8 -> 0 <= k < 8 -> rank p j = rank p k -> j = k.
Proof.
  unfold rank. intros Hj Hk E.
  assert ((j - k) mod 8 = 0) as Hm.
  { replace (j - k) with ((j - priority p) - (k - priority p)) by lia.
    by rewrite Zminus_mod, E, Z.sub_diag. }
  apply Z.mod_divide in Hm as [q Hq]; lia.
Qed.

(** The input the scan visits at step [i]. *)
Lemma scan_input i p : 0 <= i < 8 ->
  let j := (i + priority p) .& 7 in 0 <= j < 8 /\ rank p j = i.
Proof.
  intros Hi j. unfold j. change 7 with (Z.ones 3). rewrite land_mask by done.
  split; [apply Z.mod_pos_bound; lia|]. unfold rank. change (2 ^ 3) with 8.
  rewrite Zminus_mod_idemp_l. replace (i + priority p - priority p) with i by lia.
  by apply Z.mod_small.
Qed.

Lemma best_scan_ok p fuel i :
  i + Z.of_nat fuel = 8 -> 0 <= i ->
  (forall k, 0 <= k < 8 -> rank p k < i -> in_service p k = false /\ requests p k = false) ->
  resolution p (best_scan fuel i p).
Proof.
  revert i. induction fuel as [|fuel IH]; intros i Hi Hi0 Hdone; cbn [best_scan].
  { right. split; [done|]. intros j Hj Hr. pose proof (rank_range p j).
    destruct (Hdone j); [done|lia|congruence]. }
  destruct (scan_input i p) as [Hj Hrank]; [lia|]. set (j := (i + priority p) .& 7) in *.
  rewrite u8_bit, !ctrue_bit by lia.
  destruct (Z.testbit (isr p) j) eqn:Eisr.
  { right. split; [done|]. intros k Hk Hr. exists j. split_and!; [lia..|done|].
    rewrite Hrank. destruct (decide (rank p k < i)); [|lia]. destruct (Hdone k); [done..|congruence]. }
  fold (requests p j). destruct (requests p j) eqn:Ereq.
  - left. split; [done|]. split; [done|]. intros k Hk Hle.
    destruct (decide (k = j)) as [->|Hne]; [done|].
    assert (rank p k <> rank p j) by (intros E; by apply rank_inj in E).
    destruct (Hdone k) as [? E]; [done|lia|]. split; [done|]. by rewrite E.
  - apply IH; [lia..|]. intros k Hk Hlt. destruct (decide (k = j)) as [->|Hne]; [done|].
    apply Hdone; [done|]. assert (rank p k <> rank p j) by (intros E; by apply rank_inj in E). lia.
Qed.

Section resolve.
Context {E : Type} `{!PicEnv E}.
Implicit Types (w : pics E) (d : which).

Lemma get_put_eq d p w : get d (put d p w) = p.
Proof. by destruct d. Qed.
Lemma get_put_ne d d' p w : d <> d' -> get d (put d' p w) = get d w.
Proof. by destruct d, d'. Qed.

Definition best d w : Z := best_scan 8 0 (get d w).
Definition intr_of (r : Z) : Z := if r =? -1 then 0x17 else r.

Lemma find_best_eq d w :
  exists e, find_best_interrupt d w =
    (best d w, (put d ((get d w) <| interrupt := intr_of (best d w) |>) w) <| env := e |>).
Proof.
  unfold find_best_interrupt. fold (best d w). fold (intr_of (best d w)). set (w1 := put d _ w).
  assert (w1 = w1 <| env := env w1 |>) as E1 by by destruct w1.
  destruct (_ && _); [|exists (env w1); by rewrite <- E1].
  destruct (ctrue (cpu_fast_off_flags _ .& _)); [by eexists|exists (env w1); by rewrite <- E1].
Qed.

Lemma best_resolves d w : resolution (get d w) (best d w).
Proof.
  apply best_scan_ok; [done..|]. intros k Hk. pose proof (rank_range (get d w) k). lia.
Qed.

(** C10: [find_best_interrupt] picks the requested, unmasked input of the
    highest (rotating) priority unless one of the same or higher priority
    is in service, and stores it, or 0x17 for none, in [interrupt]. *)
Theorem find_best_interrupt_resolves d w :
  exists r e, find_best_interrupt d w =
      (r, (put d ((get d w) <| interrupt := if r =? -1 then 0x17 else r |>) w) <| env := e |>) /\
    resolution (get d w) r.
Proof.
  destruct (find_best_eq d w) as [e He]. exists (best d w), e. split; [done|apply best_resolves].
Qed.

(** *** What [update_pending] changes *)

(** Everything of a controller but the result of the resolution. *)
Definition core (p : pic_t) : pic_t := p <| interrupt := 0 |> <| int_pending := 0 |> <| irr := 0 |>.

Record refreshed w w' : Prop := {
  rf_rest : exists p p2 e, w' = w <| pic := p |> <| pic2 := p2 |> <| env := e |>;
  rf_core : forall d, core (get d w') = core (get d w);
  rf_irr2 : irr (pic2 w') = irr (pic2 w);
  rf_irr : forall i, 0 <= i < 8 -> (update_pending_ptr w = Some Pending_at -> i <> icw3 (pic2 w)) ->
    Z.testbit (irr (pic w')) i = Z.testbit (irr (pic w)) i;
}.

Lemma refreshed_refl w : refreshed w w.
Proof. split; try done. exists (pic w), (pic2 w), (env w). by destruct w. Qed.

Definition updatable w : Prop :=
  exists f, update_pending_ptr w = Some f /\ (f = Pending_at -> 0 <= icw3 (pic2 w) < 32).

Lemma update_pending_ok w : updatable w ->
  exists w', update_pending w = Some w' /\ refreshed w w'.
Proof.
  intros (f & Hp & Hs). unfold update_pending. rewrite Hp. destruct f.
  - eexists. split; [reflexivity|]. unfold pic_update_pending_xt.
    destruct (ctrue (interrupt (pic w) .& 32)); cbn [negb]; [apply refreshed_refl|].
    destruct (find_best_eq Master w) as [e ->]. split; try done.
    + eexists _, (pic2 w), e. unfold set_pending, upd, put, get. by destruct w.
    + by intros [].
  - unfold pic_update_pending_at.
    destruct (ctrue (interrupt (pic w) .& 32)); cbn [negb]; [exists w; split; [done|apply refreshed_refl]|].
    destruct (find_best_eq Slave w) as [e ->]. unfold set_pending, upd, put, get. cbn [pic2 icw3].
    assert (shl1 (icw3 (pic2 w)) = Some (2 ^ icw3 (pic2 w))) as Hsh.
    { unfold shl1. destruct (Hs eq_refl). rewrite (proj2 (Z.leb_le _ _)), (proj2 (Z.ltb_lt _ _)) by done.
      cbn [andb]. by rewrite shiftl_1. }
    change (shl1 _) with (shl1 (icw3 (pic2 w))). rewrite Hsh. cbn [mbind option_bind].
    set (w2 := if ctrue _ then _ else _).
    destruct (find_best_eq Master w2) as [e2 ->]. eexists. split; [reflexivity|].
    assert (exists r, w2 = w <| pic2 := (pic2 w) <| interrupt := intr_of (best Slave w) |>
        <| int_pending := cbool (negb (best Slave w =? -1)) |> |> <| env := e |>
        <| pic := (pic w) <| irr := r |> |> /\
        forall i, 0 <= i < 8 -> i <> icw3 (pic2 w) -> Z.testbit r i = Z.testbit (irr (pic w)) i)
      as (r & E2 & Hr).
    { unfold w2. destruct (ctrue _); eexists; (split; [by destruct w|]); intros i Hi Hne; cbn;
        rewrite wrap_testbit by done; destruct (Z.ltb_spec i 8); try lia; cbn [andb].
      - rewrite lor_bit by by apply Hs. rewrite (proj2 (Z.eqb_neq _ _)) by done. apply orb_false_r.
      - rewrite ldiff_bit by (by apply Hs || lia). rewrite (proj2 (Z.eqb_neq _ _)) by done.
        apply andb_true_r. }
    rewrite E2. split.
    + eexists _, _, e2. unfold set_pending, upd, put, get. by destruct w.
    + by intros [].
    + done.
    + intros i Hi Hne. cbn. apply Hr; [done|by apply Hne].
Qed.

Lemma core_field {A} (f : pic_t -> A) w w' d :
  refreshed w w' -> (forall p, f p = f (core p)) -> f (get d w') = f (get d w).
Proof. intros [_ Hc _ _] Hf. by rewrite Hf, (Hc d), <- Hf. Qed.

Lemma refreshed_ptr w w' : refreshed w w' -> update_pending_ptr w' = update_pending_ptr w.
Proof. intros [(p & p2 & e & ->) _ _ _]. done. Qed.

Lemma get_upd_eq d f w : get d (upd d f w) = f (get d w).
Proof. apply get_put_eq. Qed.

Lemma updatable_upd d f w :
  updatable w -> (d = Slave -> update_pending_ptr w = Some Pending_at -> 0 <= icw3 (f (pic2 w)) < 32) ->
  updatable (upd d f w).
Proof.
  intros (u & Hu & Hs) Hf. exists u. split; [by destruct d|]. intros ->.
  destruct d; [by apply Hs|by apply Hf].
Qed.

(** ** Initialisation *)

Fixpoint pic_writes d (l : list (Z * Z)) w : option (pics E) :=
  match l with
  | [] => Some w
  | (a, v) :: l => w ← pic_write a v d w; pic_writes d l w
  end.

(** The part of a controller that initialisation programs. *)
Definition prog (p : pic_t) : Z * Z * Z * Z * Z * (Z * Z * Z * Z * Z) :=
  (state p, icw1 p, icw2 p, icw3 p, icw4 p,
   (imr p, isr p, priority p, special_mask_mode p, auto_eoi_rotate p)).

(** What an ICW does to it once ICW1 is in. *)
Definition icw_step (v : Z) (x : Z * Z * Z * Z * Z * (Z * Z * Z * Z * Z)) :=
  let '(st, i1, i2, i3, i4, r) := x in
  let after := if ctrue (i1 .& 1) then STATE_ICW4 else STATE_NONE in
  if st =? STATE_ICW2 then (if negb (ctrue (i1 .& 2)) then STATE_ICW3 else after, i1, v, i3, i4, r)
  else if st =? STATE_ICW3 then (after, i1, i2, v, i4, r)
  else (STATE_NONE, i1, i2, i3, v, r).

Lemma pic_write_icw d w v x :
  prog (get d w) = x -> 1 <= x.1.1.1.1.1 <= 3 ->
  exists w', pic_write 1 v d w = Some w' /\ prog (get d w') = icw_step v x.
Proof.
  intros <- Hs. cbn in Hs. unfold pic_write. change (ctrue (1 .& 1)) with true. cbn iota.
  set (w1 := upd d _ w). assert (get d w1 = (get d w) <| data_bus := v |>) as G by apply get_upd_eq.
  assert (state (get d w1) = state (get d w)) as -> by by rewrite G.
  unfold icw_step, prog.
  assert (state (get d w) = 1 \/ state (get d w) = 2 \/ state (get d w) = 3) as [-> | [-> | ->]] by lia;
    (eexists; split; [reflexivity|]); rewrite get_upd_eq, G; done.
Qed.

Lemma pic_write_icw1 d w v :
  updatable w -> ctrue (v .& 0x10) = true -> ctrue (pic_pci w) && ctrue (v .& 0xe0) = false ->
  exists w', pic_write 0 v d w = Some w' /\
    prog (get d w') = (STATE_ICW2, v, 0, 0, if ctrue (v .& 1) then icw4 (get d w) else 0, (0, 0, 0, 0, 0)).
Proof.
  intros Hu H1 Hpci. unfold pic_write. change (ctrue (0 .& 1)) with false. cbn iota. rewrite H1.
  set (w1 := upd d _ w). assert (pic_pci w1 = pic_pci w) as -> by by destruct d. rewrite Hpci.
  assert (updatable (upd d (write_icw1 v) w1)) as Hu1.
  { apply updatable_upd; [|done]. apply updatable_upd; [done|]. intros -> Hp. cbn.
    destruct Hu as (u & Hu & Hs). rewrite Hp in Hu. injection Hu as <-. by apply Hs. }
  destruct (update_pending_ok _ Hu1) as (w2 & -> & Hr). exists w2. split; [done|].
  assert (prog (get d w2) = prog (get d (upd d (write_icw1 v) w1))) as ->
    by (by apply (core_field prog _ _ d Hr)).
  rewrite get_upd_eq. unfold w1. by rewrite get_upd_eq.
Qed.

(** From any state, writing ICW1 and then the command words it asks for
    leaves the controller ready, with exactly these words in its registers,
    nothing masked, nothing in service and the default priority. *)
Theorem pic_init_sequence d w v1 v2 v3 v4 :
  let cascade := negb (ctrue (v1 .& 2)) in
  let ic4 := ctrue (v1 .& 1) in
  updatable w -> ctrue (v1 .& 0x10) = true -> ctrue (pic_pci w) && ctrue (v1 .& 0xe0) = false ->
  exists w', pic_writes d ((0, v1) :: (1, v2) :: (if cascade then [(1, v3)] else []) ++
                           (if ic4 then [(1, v4)] else [])) w = Some w' /\
    let p := get d w' in
    state p = STATE_NONE /\ icw1 p = v1 /\ icw2 p = v2 /\ icw3 p = (if cascade then v3 else 0) /\
    icw4 p = (if ic4 then v4 else 0) /\ imr p = 0 /\ isr p = 0 /\ priority p = 0 /\
    special_mask_mode p = 0 /\ auto_eoi_rotate p = 0.
Proof.
  intros cascade ic4 Hu H1 Hpci.
  destruct (pic_write_icw1 d w v1 Hu H1 Hpci) as (w1 & Hw1 & C1).
  cbn [pic_writes]. rewrite Hw1. cbn [mbind option_bind].
  assert (forall w', prog (get d w') =
      (STATE_NONE, v1, v2, if cascade then v3 else 0, if ic4 then v4 else 0, (0, 0, 0, 0, 0)) ->
    let p := get d w' in state p = STATE_NONE /\ icw1 p = v1 /\ icw2 p = v2 /\
    icw3 p = (if cascade then v3 else 0) /\ icw4 p = (if ic4 then v4 else 0) /\ imr p = 0 /\ isr p = 0 /\
    priority p = 0 /\ special_mask_mode p = 0 /\ auto_eoi_rotate p = 0) as Hfin.
  { intros w' [= ? ? ? ? ? ? ? ? ? ?]. done. }
  destruct (pic_write_icw d w1 v2 _ C1) as (w2 & -> & C2); [done|]. cbn [mbind option_bind].
  cbn in C2. fold ic4 cascade in C2.
  destruct cascade, ic4 eqn:E4; cbn [app pic_writes].
  - destruct (pic_write_icw d w2 v3 _ C2) as (w3 & -> & C3); [done|]. cbn in C3. fold ic4 in C3.
    rewrite E4 in C3. cbn [mbind option_bind].
    destruct (pic_write_icw d w3 v4 _ C3) as (w4 & -> & C4); [done|]. exists w4. by split; [|apply Hfin].
  - destruct (pic_write_icw d w2 v3 _ C2) as (w3 & -> & C3); [done|]. cbn in C3. fold ic4 in C3.
    rewrite E4 in C3. exists w3. by split; [|apply Hfin].
  - destruct (pic_write_icw d w2 v4 _ C2) as (w3 & -> & C3); [done|]. exists w3. by split; [|apply Hfin].
  - exists w2. by split; [|apply Hfin].
Qed.

(** ** End of interrupt *)

(** In service, and visible to a non-specific EOI. *)
Definition eligible (p : pic_t) (j : Z) : bool :=
  in_service p j && (negb (ctrue (special_mask_mode p)) || negb (Z.testbit (imr p) j)).

Definition highest (p : pic_t) (j : Z) : Prop :=
  0 <= j < 8 /\ eligible p j = true /\
  forall k, 0 <= k < 8 -> eligible p k = true -> rank p j <= rank p k.

Lemma non_specific_scan_ok p fuel i :
  i + Z.of_nat fuel = 8 -> 0 <= i ->
  (forall k, 0 <= k < 8 -> rank p k < i -> eligible p k = false) ->
  highest p (non_specific_scan fuel i p) \/
  (non_specific_scan fuel i p = 0xff /\ forall k, 0 <= k < 8 -> eligible p k = false).
Proof.
  revert i. induction fuel as [|fuel IH]; intros i Hi Hi0 Hdone; cbn [non_specific_scan].
  { right. split; [done|]. intros k Hk. apply Hdone; [done|]. pose proof (rank_range p k). lia. }
  destruct (scan_input i p) as [Hj Hrank]; [lia|]. set (j := (i + priority p) .& 7) in *.
  rewrite u8_bit, !ctrue_bit by lia. fold (in_service p j). fold (eligible p j).
  destruct (eligible p j) eqn:Ej.
  - left. split; [done|]. split; [done|]. intros k Hk He. rewrite Hrank.
    destruct (decide (rank p k < i)); [|lia]. by rewrite Hdone in He.
  - apply IH; [lia..|]. intros k Hk Hlt. destruct (decide (k = j)) as [->|Hne]; [done|].
    apply Hdone; [done|]. assert (rank p k <> rank p j) by (intros E'; by apply rank_inj in E'). lia.
Qed.

(** C11: A non-specific EOI, while an interrupt is in service, ends the one of
    the highest priority (in special mask mode, among the unmasked ones) and
    no other; with rotation that input gets the lowest priority.  With
    nothing to end the code shifts by 255 bits, which is undefined. *)
Theorem pic_eoi_highest d w (rotate : bool) :
  updatable w ->
  let p := get d w in let eoi := pic_write 0 (if rotate then 0xa0 else 0x20) d w in
  ((exists k, 0 <= k < 8 /\ eligible p k = true) ->
   exists j w', eoi = Some w' /\ highest p j /\
     (forall i, 0 <= i -> Z.testbit (isr (get d w')) i = Z.testbit (isr p) i && negb (i =? j)) /\
     priority (get d w') = if rotate then (j + 1) .& 7 else priority p) /\
  ((forall k, 0 <= k < 8 -> eligible p k = false) -> eoi = None).
Proof.
  intros Hu p eoi. subst p eoi. set (v := if rotate then 0xa0 else 0x20). unfold pic_write.
  change (ctrue (0 .& 1)) with false. cbn iota.
  assert (ctrue (v .& 0x10) = false /\ ctrue (v .& 8) = false /\ ctrue (v .& 0x60) = true /\
    ctrue (v .& 0x40) = false /\ ctrue (v .& 0x20) = true /\ ctrue (v .& 0x80) = rotate)
    as (-> & -> & E1 & E2 & E3 & E4) by by destruct rotate.
  set (w1 := upd d (fun p : pic_t => p <| data_bus := v |>) w).
  set (w2 := upd d (fun p : pic_t => p <| ocw2 := v |>) w1).
  assert (get d w2 = (get d w) <| data_bus := v |> <| ocw2 := v |>) as G.
  { unfold w2. rewrite get_upd_eq. unfold w1. by rewrite get_upd_eq. }
  unfold pic_command. rewrite G.
  change (ocw2 ((get d w) <| data_bus := v |> <| ocw2 := v |>)) with v. rewrite E1, E2.
  set (j := pic_non_specific_find _).
  assert (highest (get d w) j \/ (j = 0xff /\ forall k, 0 <= k < 8 -> eligible (get d w) k = false)) as Hj.
  { assert (j = non_specific_scan 8 0 (get d w)) as -> by done.
    apply non_specific_scan_ok; [done..|]. intros k _. pose proof (rank_range (get d w) k). lia. }
  assert (updatable w2) as Hu2.
  { destruct Hu as (u & Hp & Hs). exists u. destruct d; done. }
  unfold pic_action. destruct Hj as [Hj|[-> Hnone]].
  - pose proof Hj as (Hr & He & _). split; [intros _|intros Hn; by rewrite Hn in He].
    unfold shl1. rewrite (proj2 (Z.leb_le 0 j)), (proj2 (Z.ltb_lt j 32)) by lia. cbn [andb mbind option_bind].
    rewrite (proj2 (Z.eqb_neq j 255)) by lia. cbn [negb].
    rewrite E3, E4, u8_bit by done. set (w3 := upd d _ w2). set (w4 := if rotate then _ else w3).
    assert (updatable w4) as Hu4.
    { destruct Hu2 as (u & Hp & Hs). exists u. unfold w4, w3. destruct rotate, d; done. }
    destruct (update_pending_ok w4 Hu4) as (w' & -> & Hrf). exists j, w'. split; [done|]. split; [done|].
    assert (isr (get d w4) = isr (get d w) .&~ 2 ^ j /\
            priority (get d w4) = if rotate then (j + 1) .& 7 else priority (get d w)) as [Ei Ep].
    { unfold w4, w3. destruct rotate; rewrite !get_upd_eq, G; done. }
    rewrite (core_field isr _ _ d Hrf), (core_field priority _ _ d Hrf), Ei, Ep by done.
    split; [|done]. intros i Hi. apply ldiff_bit; lia.
  - split; [|done]. intros (k & Hk & He). by rewrite Hnone in He.
Qed.

(** ** Delivery of an interrupt to the CPU *)

(** The part of a controller that acknowledging does not touch. *)
Definition stat (p : pic_t) :=
  (icw1 p, icw2 p, icw3 p, icw4 p, imr p, elcr p, state p, priority p, is_master p,
   special_mask_mode p, auto_eoi_rotate p, lines p, slaves p, at_mode p).

(** [p'] is [p] after the first acknowledge of input [r]. *)
Definition acked (level : bool) (r : Z) (p p' : pic_t) : Prop :=
  stat p' = stat p /\ interrupt p' = interrupt p .| 0x20 /\ int_pending p' = int_pending p /\
  ack_bytes p' = ack_bytes p /\ isr p' = u8 (isr p .| 2 ^ r) /\
  irr p' = if negb level || (line p r =? 0) then u8 (irr p .&~ 2 ^ r) else irr p.

Lemma intr_input i r : 0 <= r < 8 -> i .& 7 = r -> (i .| 0x20) .& 7 = r.
Proof. intros Hr <-. rewrite Z.land_lor_distr_l. by rewrite Z.lor_0_r. Qed.

Lemma put_put d p p' w : put d p (put d p' w) = put d p w.
Proof. by destruct d. Qed.
Lemma put_upd d p f w : put d p (upd d f w) = put d p w.
Proof. by destruct d. Qed.
Lemma upd_put d f p w : upd d f (put d p w) = put d (f p) w.
Proof. unfold upd. by rewrite get_put_eq, put_put. Qed.

(** [interrupt |= 0x20; pic_acknowledge]. *)
Lemma acknowledge_ok d w r :
  0 <= r < 8 -> interrupt (get d w) .& 7 = r ->
  exists p', pic_acknowledge d (upd d (fun p => p <| interrupt ::= (fun i => i .| 0x20) |>) w) = put d p' w /\
    acked (pic_level_triggered (get d w) r w) r (get d w) p'.
Proof.
  intros Hr Hi. unfold pic_acknowledge. rewrite get_upd_eq. cbn [interrupt].
  change (interrupt (_ <| interrupt ::= _ |>)) with (interrupt (get d w) .| 0x20).
  rewrite (intr_input _ r Hr Hi), shiftl_1 by lia.
  set (p1 := _ <| isr := _ |>).
  assert (forall w' x, elcr_enabled w' = elcr_enabled w -> elcr x = elcr (get d w) -> icw1 x = icw1 (get d w) ->
    pic_level_triggered x r w' = pic_level_triggered (get d w) r w) as El.
  { intros w' x E1 E2 E3. unfold pic_level_triggered. by rewrite E1, E2, E3. }
  rewrite El; [|by destruct d|done|done].
  set (lv := pic_level_triggered (get d w) r w).
  change (line p1 r) with (line (get d w) r).
  destruct (negb lv || (line (get d w) r =? 0)) eqn:Eirr;
    rewrite put_upd; (eexists; split; [reflexivity|]); unfold acked; by rewrite Eirr.
Qed.

Lemma ack_read_S fuel d phase w :
  pic_irq_ack_read (S fuel) (Some d) phase w =
  ack_body (fun o w => pic_irq_ack_read fuel o phase w) d phase w.
Proof. done. Qed.

(** A controller without a slave on the line answers the two acknowledges. *)
Lemma ack_leaf0 fuel d w r :
  0 <= r < 8 -> interrupt (get d w) .& 0x47 = r ->
  exists p', pic_irq_ack_read (S fuel) (Some d) 0 w =
      Some (if pic_i86_mode (get d w) then 0xff else 0xcd, put d p' w) /\
    acked (pic_level_triggered (get d w) r w) r (get d w) p'.
Proof.
  intros Hr Hi. rewrite ack_read_S. unfold ack_body. change (0 =? 0) with true. cbn iota.
  rewrite Hi. assert (ctrue (r .& 0x40) = false) as ->.
  { assert (r = 0 \/ r = 1 \/ r = 2 \/ r = 3 \/ r = 4 \/ r = 5 \/ r = 6 \/ r = 7) as Hc by lia.
    by destruct Hc as [-> | [-> | [-> | [-> | [-> | [-> | [-> | ->]]]]]]]. }
  assert (interrupt (get d w) .& 7 = r) as Hi7.
  { rewrite <- Hi. change 7 with (0x47 .& 7) at 1. rewrite Z.land_assoc, Hi.
    change 7 with (Z.ones 3). rewrite land_mask by done. by apply Z.mod_small. }
  destruct (acknowledge_ok d w r Hr Hi7) as (p' & -> & Ha).
  rewrite get_put_eq. assert (pic_i86_mode p' = pic_i86_mode (get d w)) as ->.
  { unfold pic_i86_mode. destruct Ha as (Hst & _). do 2 f_equal.
    unfold stat in Hst. injection Hst. intros. congruence. }
  rewrite upd_put. cbn [mbind option_bind]. rewrite get_put_eq. by eexists.
Qed.

(** The vector a controller puts on the bus. *)
Definition vector d (r : Z) w : Z :=
  let ov := nth (Z.to_nat r) (irq_vector_override w) (-1) in
  if bool_decide (d = Master) && (0 <=? ov) then u8 ov
  else u8 (r + (icw2 (get d w) .& 0xf8)).

Lemma ack_leaf1 fuel d w r :
  0 <= r < 8 -> interrupt (get d w) .& 0x47 = r ->
  pic_i86_mode (get d w) = true -> ctrue (icw4 (get d w) .& 2) = false ->
  pic_irq_ack_read (S fuel) (Some d) 1 w =
    Some (vector d r w, put d ((get d w) <| int_pending := 0 |> <| data_bus := vector d r w |>) w).
Proof.
  intros Hr Hi Hm Ha. rewrite ack_read_S. unfold ack_body. change (1 =? 0) with false. cbn iota.
  rewrite Hi, Hm. assert (ctrue (r .& 0x40) = false /\ r .& 7 = r) as [-> E7].
  { assert (r = 0 \/ r = 1 \/ r = 2 \/ r = 3 \/ r = 4 \/ r = 5 \/ r = 6 \/ r = 7) as Hc by lia.
    by destruct Hc as [-> | [-> | [-> | [-> | [-> | [-> | [-> | ->]]]]]]]. }
  rewrite E7. set (w1 := upd d _ w).
  assert (irq_vector_override w1 = irq_vector_override w) as -> by by destruct d.
  assert (icw2 (get d w1) = icw2 (get d w)) as -> by (unfold w1; by rewrite get_upd_eq).
  fold (vector d r w). unfold vector at 1.
  assert (forall v, pic_auto_non_specific_eoi d (upd d (fun p => p <| data_bus := v |>) w1) =
    Some (put d ((get d w) <| int_pending := 0 |> <| data_bus := v |>) w)) as Hauto.
  { intros v. unfold pic_auto_non_specific_eoi. rewrite get_upd_eq. unfold w1. rewrite get_upd_eq.
    change (icw4 (_ <| data_bus := v |>)) with (icw4 (get d w)). rewrite Ha. f_equal.
    unfold upd. by rewrite get_put_eq, !put_put. }
  unfold vector. destruct (_ && _); cbn [mbind option_bind]; rewrite Hauto; cbn [mbind option_bind];
    by rewrite get_put_eq.
Qed.

Ltac stat_eq H := unfold stat in H; injection H; intros; congruence.

Lemma small_intr r : 0 <= r < 8 ->
  r .& 0x47 = r /\ (r .| 0x20) .& 0x47 = r /\ ctrue ((r .| 0x20) .& 0x40) = false /\ r .& 7 = r.
Proof.
  intros Hr. assert (r = 0 \/ r = 1 \/ r = 2 \/ r = 3 \/ r = 4 \/ r = 5 \/ r = 6 \/ r = 7) as Hc by lia.
  by destruct Hc as [-> | [-> | [-> | [-> | [-> | [-> | [-> | ->]]]]]]].
Qed.

Lemma updatable_put d p w :
  updatable w -> (d = Slave -> icw3 p = icw3 (pic2 w)) -> updatable (put d p w).
Proof.
  intros (u & Hu & Hs) Hp. exists u. split; [by destruct d|]. intros ->.
  destruct d; [by apply Hs|]. cbn. rewrite Hp by done. by apply Hs.
Qed.

(** The controller is in 8086 mode without automatic EOI. *)
Definition plain_8086 (p : pic_t) : Prop :=
  pic_i86_mode p = true /\ ctrue (icw4 p .& 2) = false.

Lemma ack_end_first w :
  pic_i86_mode (pic w) = true -> ack_bytes (pic w) = 0 ->
  ack_end w = Some (put Master ((pic w) <| ack_bytes := 1 |>) w).
Proof. intros Hm Hb. unfold ack_end. by rewrite Hb, Hm. Qed.

Lemma ack_end_second w :
  updatable w -> pic_i86_mode (pic w) = true -> ack_bytes (pic w) = 1 ->
  exists w', ack_end w = Some w' /\ stat (pic w') = stat (pic w) /\ isr (pic w') = isr (pic w) /\
    ack_bytes (pic w') = 0 /\ core (pic2 w') = core (pic2 w) /\
    (forall i, 0 <= i < 8 -> (update_pending_ptr w = Some Pending_at -> i <> icw3 (pic2 w)) ->
       Z.testbit (irr (pic w')) i = Z.testbit (irr (pic w)) i).
Proof.
  intros Hu Hm Hb. unfold ack_end. rewrite Hb, Hm. change ((1 + 1) mod 2) with 0.
  change (0 =? 0) with true. cbn iota. set (w1 := w <| pic ::= _ |>). set (w2 := if ctrue _ then _ else w1).
  set (w3 := w2 <| pic ::= _ |>).
  assert (exists p2, core p2 = core (pic2 w) /\ icw3 p2 = icw3 (pic2 w) /\ w3 = w <| pic2 := p2 |>
    <| pic := (pic w) <| ack_bytes := 0 |> <| interrupt := 0x17 |> |>) as (p2 & Hp2 & Hp3 & E3).
  { unfold w3, w2, w1. destruct (ctrue _).
    - by exists ((pic2 w) <| interrupt := 0x17 |>); destruct w.
    - by exists (pic2 w); destruct w. }
  assert (updatable w3) as Hu3.
  { destruct Hu as (u & Hp & Hs). exists u. rewrite E3. split; [done|]. cbn. by rewrite Hp3. }
  destruct (update_pending_ok w3 Hu3) as (w' & -> & Hr). exists w'. split; [done|].
  pose proof (core_field stat _ _ Master Hr ltac:(done)) as H1.
  pose proof (core_field isr _ _ Master Hr ltac:(done)) as H2.
  pose proof (core_field ack_bytes _ _ Master Hr ltac:(done)) as H3.
  pose proof (rf_core _ _ Hr Slave) as H4. cbn [get] in *. rewrite H1, H2, H3, H4, E3.
  split_and!; try done. intros i Hi Hne. rewrite (rf_irr _ _ Hr), E3; [done..|].
  rewrite E3. cbn. by rewrite Hp3.
Qed.

(** The two acknowledge cycles of the master alone. *)
Lemma ack_master w r :
  updatable w -> plain_8086 (pic w) -> ack_bytes (pic w) = 0 -> interrupt (pic w) = r -> 0 <= r < 8 ->
  exists w1 w', ack_cycle w = Some (0xff, w1) /\ ack_cycle w1 = Some (vector Master r w, w') /\
    stat (pic w') = stat (pic w) /\ isr (pic w') = u8 (isr (pic w) .| 2 ^ r) /\
    ack_bytes (pic w') = 0 /\ core (pic2 w') = core (pic2 w) /\
    (pic_level_triggered (pic w) r w = false ->
     (update_pending_ptr w = Some Pending_at -> r <> icw3 (pic2 w)) -> Z.testbit (irr (pic w')) r = false).
Proof.
  intros Hu [Hm Ha] Hab Hir Hr. destruct (small_intr r Hr) as (S1 & S2 & S3 & S4).
  destruct (ack_leaf0 2 Master w r Hr) as (p1 & E1 & (Hst & Hi1 & _ & Hb1 & His & Hirr));
    [cbn [get]; by rewrite Hir|]. cbn [get] in E1, Hst, Hi1, Hb1, His, Hirr.
  assert (icw4 p1 = icw4 (pic w) /\ icw2 p1 = icw2 (pic w)) as [H4 H2] by (split; stat_eq Hst).
  assert (pic_i86_mode p1 = true) as Hm1 by (unfold pic_i86_mode; by rewrite H4).
  set (q1 := p1 <| ack_bytes := 1 |>). exists (put Master q1 w).
  assert (ack_cycle w = Some (0xff, put Master q1 w)) as Hc1.
  { unfold ack_cycle. rewrite Hab, E1, Hm. cbn [mbind option_bind].
    by rewrite ack_end_first by (cbn; congruence). }
  set (q2 := q1 <| int_pending := 0 |> <| data_bus := vector Master r (put Master q1 w) |>).
  assert (pic_irq_ack_read 3 (Some Master) 1 (put Master q1 w) =
    Some (vector Master r (put Master q1 w), put Master q2 w)) as E2.
  { rewrite (ack_leaf1 2 Master (put Master q1 w) r); [by rewrite put_put|done|..]; rewrite get_put_eq.
    - change (interrupt q1) with (interrupt p1). by rewrite Hi1, Hir.
    - done.
    - change (icw4 q1) with (icw4 p1). by rewrite H4. }
  assert (vector Master r (put Master q1 w) = vector Master r w) as Hv.
  { unfold vector. change (icw2 (get Master (put Master q1 w))) with (icw2 p1). by rewrite H2. }
  destruct (ack_end_second (put Master q2 w)) as (w' & Hend & R1 & R2 & R3 & R4 & R5).
  { by apply updatable_put. }
  { done. }
  { done. }
  exists w'. split; [done|]. split.
  { unfold ack_cycle. change (ack_bytes (pic (put Master q1 w))) with 1.
    rewrite E2. cbn [mbind option_bind]. rewrite Hend. cbn [mbind option_bind]. by rewrite Hv. }
  split_and!; [by rewrite R1|by rewrite R2|done|done|].
  intros Hlv Hne. rewrite R5 by done. change (irr (pic (put Master q2 w))) with (irr p1).
  rewrite Hirr, Hlv. cbn [negb orb]. rewrite wrap_testbit, ldiff_bit by lia.
  rewrite Z.eqb_refl. cbn. by rewrite !andb_false_r.
Qed.

Lemma marked_intr c : 0 <= c < 8 ->
  (c .| 0x40) .& 0x47 = c .| 0x40 /\ ((c .| 0x40) .| 0x20) .& 0x47 = c .| 0x40 /\
  ctrue ((c .| 0x40) .& 0x40) = true /\ ctrue (((c .| 0x40) .| 0x20) .& 0x40) = true /\
  (c .| 0x40) .& 7 = c /\ (c .| 0x40 =? 0) = false.
Proof.
  intros Hr. assert (c = 0 \/ c = 1 \/ c = 2 \/ c = 3 \/ c = 4 \/ c = 5 \/ c = 6 \/ c = 7) as Hc by lia.
  by destruct Hc as [-> | [-> | [-> | [-> | [-> | [-> | [-> | ->]]]]]]].
Qed.

(** The master passes the acknowledge cycles on to the marked slave. *)
Lemma ack_node0 w c s :
  0 <= c < 8 -> interrupt (pic w) = c .| 0x40 -> slave_of (pic w) c = Some Slave ->
  0 <= s < 8 -> interrupt (pic2 w) = s ->
  exists v p1 p2, pic_irq_ack_read 3 (Some Master) 0 w = Some (v, put Slave p2 (put Master p1 w)) /\
    acked (pic_level_triggered (pic w) c w) c (pic w) p1 /\
    acked (pic_level_triggered (pic2 w) s w) s (pic2 w) p2.
Proof.
  intros Hc Hi Hsl Hs Hi2. destruct (marked_intr c Hc) as (M1 & M2 & M3 & M4 & M5 & _).
  destruct (small_intr s Hs) as (S1 & _).
  rewrite ack_read_S. unfold ack_body. cbn [get]. change (0 =? 0) with true. cbn iota.
  rewrite Hi, M1, M3, M5.
  destruct (acknowledge_ok Master w c Hc) as (p1 & -> & Ha); [cbn [get]; by rewrite Hi|].
  cbn [get] in Ha. change (pic (put Master p1 w)) with p1.
  assert (slave_of p1 c = Some Slave) as ->.
  { rewrite <- Hsl. unfold slave_of. destruct Ha as (Hst & _). assert (slaves p1 = slaves (pic w)) as ->; [|done].
    stat_eq Hst. }
  destruct (ack_leaf0 1 Slave (put Master p1 w) s Hs) as (p2 & E2 & Ha2);
    [change (interrupt (get Slave (put Master p1 w))) with (interrupt (pic2 w)); by rewrite Hi2|].
  rewrite E2.
  cbn [fmap option_fmap option_map mbind option_bind].
  set (v := if pic_i86_mode _ then _ else _). exists v, (p1 <| data_bus := v |>), p2. done.
Qed.

Lemma ack_node1 w c s :
  0 <= c < 8 -> interrupt (pic w) .& 0x47 = c .| 0x40 -> slave_of (pic w) c = Some Slave ->
  plain_8086 (pic w) -> plain_8086 (pic2 w) ->
  0 <= s < 8 -> interrupt (pic2 w) .& 0x47 = s ->
  exists p1 p2, pic_irq_ack_read 3 (Some Master) 1 w =
      Some (vector Slave s w, put Slave p2 (put Master p1 w)) /\
    stat p1 = stat (pic w) /\ isr p1 = isr (pic w) /\ irr p1 = irr (pic w) /\ ack_bytes p1 = ack_bytes (pic w) /\
    stat p2 = stat (pic2 w) /\ isr p2 = isr (pic2 w).
Proof.
  intros Hc Hi Hsl [Hm Ha] [Hm2 Ha2] Hs Hi2. destruct (marked_intr c Hc) as (M1 & M2 & M3 & M4 & M5 & _).
  rewrite ack_read_S. unfold ack_body. cbn [get]. change (1 =? 0) with false. cbn iota.
  rewrite Hi, M3, M5, Hm.
  set (w1 := upd Master _ w). change (slave_of (pic w1) c) with (slave_of (pic w) c). rewrite Hsl.
  pose proof (ack_leaf1 1 Slave w1 s Hs Hi2 Hm2 Ha2) as E2.
  rewrite E2. cbn [fmap option_fmap option_map mbind option_bind].
  unfold pic_auto_non_specific_eoi. rewrite get_upd_eq.
  change (icw4 (_ <| data_bus := _ |>)) with (icw4 (pic w)). rewrite Ha. cbn [mbind option_bind].
  exists ((pic w) <| int_pending := 0 |> <| data_bus := vector Slave s w |>),
    ((pic2 w) <| int_pending := 0 |> <| data_bus := vector Slave s w |>). done.
Qed.

Lemma ack_slave w c s :
  updatable w -> plain_8086 (pic w) -> plain_8086 (pic2 w) -> ack_bytes (pic w) = 0 ->
  0 <= c < 8 -> interrupt (pic w) = c .| 0x40 -> slave_of (pic w) c = Some Slave ->
  0 <= s < 8 -> interrupt (pic2 w) = s ->
  exists v w1 w', ack_cycle w = Some (v, w1) /\ ack_cycle w1 = Some (vector Slave s w, w') /\
    stat (pic w') = stat (pic w) /\ isr (pic w') = u8 (isr (pic w) .| 2 ^ c) /\ ack_bytes (pic w') = 0 /\
    stat (pic2 w') = stat (pic2 w) /\ isr (pic2 w') = u8 (isr (pic2 w) .| 2 ^ s).
Proof.
  intros Hu [Hm Ha] [Hm2 Ha2] Hab Hc Hi Hsl Hs Hi2.
  destruct (marked_intr c Hc) as (M1 & M2 & M3 & M4 & M5 & _). destruct (small_intr s Hs) as (S1 & S2 & _).
  destruct (ack_node0 w c s Hc Hi Hsl Hs Hi2) as (v & p1 & p2 & E1 & (Hst & Hi1 & _ & Hb & His & _) &
    (Hst2 & Hi21 & _ & _ & His2 & _)).
  assert (icw4 p1 = icw4 (pic w) /\ slaves p1 = slaves (pic w)) as [H4 Hsl1] by (split; stat_eq Hst).
  assert (icw4 p2 = icw4 (pic2 w) /\ icw2 p2 = icw2 (pic2 w) /\ icw3 p2 = icw3 (pic2 w)) as (H42 & H22 & H32)
    by (split_and!; stat_eq Hst2).
  set (w1 := put Slave p2 (put Master (p1 <| ack_bytes := 1 |>) w)). exists v, w1.
  assert (ack_cycle w = Some (v, w1)) as ->.
  { unfold ack_cycle. rewrite Hab, E1. cbn [mbind option_bind]. rewrite ack_end_first; [done| |cbn; congruence].
    unfold pic_i86_mode. cbn. by rewrite H4. }
  assert (updatable w1) as Hu1 by (apply updatable_put; [by apply updatable_put|by intros _]).
  destruct (ack_node1 w1 c s) as (q1 & q2 & E2 & F1 & F2 & F3 & F4 & F5 & F6); try done.
  { change (interrupt (pic w1)) with (interrupt p1). by rewrite Hi1, Hi. }
  { unfold slave_of. change (slaves (pic w1)) with (slaves p1). by rewrite Hsl1. }
  { split; unfold pic_i86_mode; change (icw4 (pic w1)) with (icw4 p1); by rewrite H4. }
  { split; unfold pic_i86_mode; change (icw4 (pic2 w1)) with (icw4 p2); by rewrite H42. }
  { change (interrupt (pic2 w1)) with (interrupt p2). by rewrite Hi21, Hi2. }
  set (w2 := put Slave q2 (put Master q1 w1)) in *.
  destruct (ack_end_second w2) as (w' & Hend & R1 & R2 & R3 & R4 & _).
  { apply updatable_put; [by apply updatable_put|]. intros _. change (icw3 q2 = icw3 p2). stat_eq F5. }
  { unfold pic_i86_mode. change (pic w2) with q1. assert (icw4 q1 = icw4 (pic w1)) as -> by stat_eq F1.
    change (icw4 (pic w1)) with (icw4 p1). by rewrite H4. }
  { change (ack_bytes (pic w2)) with (ack_bytes q1). by rewrite F4. }
  exists w'. split; [done|]. split.
  { unfold ack_cycle. change (ack_bytes (pic w1)) with 1. rewrite E2. cbn [mbind option_bind].
    rewrite Hend. cbn [mbind option_bind]. do 2 f_equal. unfold vector.
    change (icw2 (get Slave w1)) with (icw2 p2). by rewrite H22. }
  assert (stat (pic2 w') = stat (pic2 w2) /\ isr (pic2 w') = isr (pic2 w2)) as [T1 T2].
  { split; [exact (f_equal stat R4)|exact (f_equal isr R4)]. }
  rewrite R1, R2, R3, T1, T2. change (pic w2) with q1. change (pic2 w2) with q2.
  rewrite F1, F2, F5, F6. done.
Qed.

(** C8: An interrupt pending at the master on an input without a slave is
    delivered: [picinterrupt] returns its vector, the input is in service,
    and an edge-triggered request is cleared. *)
Theorem picinterrupt_master w r :
  updatable w -> plain_8086 (pic w) -> ack_bytes (pic w) = 0 ->
  ctrue (int_pending (pic w)) = true -> interrupt (pic w) = r -> 0 <= r < 8 ->
  pic_slave_on (pic w) r = Some false ->
  exists w', picinterrupt w = Some (vector Master r w, w') /\
    stat (pic w') = stat (pic w) /\ isr (pic w') = u8 (isr (pic w) .| 2 ^ r) /\
    ack_bytes (pic w') = 0 /\ core (pic2 w') = core (pic2 w) /\
    (pic_level_triggered (pic w) r w = false ->
     (update_pending_ptr w = Some Pending_at -> r <> icw3 (pic2 w)) -> Z.testbit (irr (pic w')) r = false).
Proof.
  intros Hu Hm Hab Hp Hi Hr Hsl. unfold picinterrupt. rewrite Hp, Hi, Hsl. cbn [mbind option_bind].
  set (w0 := if interrupt (pic w) =? 0 then _ else w).
  assert (exists e, w0 = w <| env := e |>) as (e & E0).
  { unfold w0. destruct (interrupt (pic w) =? 0); [by eexists|exists (env w); by destruct w]. }
  assert (updatable w0) as Hu0 by (destruct Hu as (u & ? & ?); exists u; by rewrite E0).
  destruct (ack_master w0 r) as (w1 & w' & -> & Hw' & R); [done|by rewrite E0..|done|].
  cbn [mbind option_bind]. rewrite E0 in Hw', R. exists w'. done.
Qed.

(** C9: An interrupt pending at the slave, through the cascade input [c] of
    the master, is delivered: [picinterrupt] returns the slave's vector and
    both controllers have their input in service. *)
Theorem picinterrupt_slave w c s :
  updatable w -> plain_8086 (pic w) -> plain_8086 (pic2 w) -> ack_bytes (pic w) = 0 ->
  ctrue (int_pending (pic w)) = true -> interrupt (pic w) = c -> 0 <= c < 8 ->
  pic_slave_on (pic w) c = Some true -> slave_of (pic w) c = Some Slave ->
  ctrue (int_pending (pic2 w)) = true -> interrupt (pic2 w) = s -> 0 <= s < 8 ->
  exists w', picinterrupt w = Some (u8 (s + (icw2 (pic2 w) .& 0xf8)), w') /\
    stat (pic w') = stat (pic w) /\ isr (pic w') = u8 (isr (pic w) .| 2 ^ c) /\ ack_bytes (pic w') = 0 /\
    stat (pic2 w') = stat (pic2 w) /\ isr (pic2 w') = u8 (isr (pic2 w) .| 2 ^ s).
Proof.
  intros Hu Hm Hm2 Hab Hp Hi Hc Hon Hsl Hp2 Hi2 Hs. unfold picinterrupt.
  rewrite Hp, Hi, Hon. cbn [mbind option_bind]. rewrite Hsl. cbn [mbind option_bind get]. rewrite Hp2.
  cbn [mbind option_bind].
  change (interrupt (pic (mark_slave w))) with (interrupt (pic w) .| 0x40). rewrite Hi.
  destruct (marked_intr c Hc) as (_ & _ & _ & _ & _ & ->).
  assert (updatable (mark_slave w)) as Hu0 by (destruct Hu as (u & ? & ?); by exists u).
  destruct (ack_slave (mark_slave w) c s) as (v & w1 & w' & -> & Hw' & R); try done.
  { change (interrupt (pic (mark_slave w))) with (interrupt (pic w) .| 0x40). by rewrite Hi. }
  cbn [mbind option_bind]. by exists w'.
Qed.

(** ** Sharing a level-triggered interrupt

    Devices share input [i], 0 to 7 of the master or 8 to 15 of the second
    controller; each keeps its own [irq_state] and calls [picint_common] to
    assert or release it. *)

Definition ctl (i : Z) : which := if i <? 8 then Master else Slave.

(** An input for devices: of the master, any but the cascade; of the second
    controller, any while the master has a slave. *)
Record level_input i w : Prop := {
  li_range : 0 <= i < 16;
  li_updatable : updatable w;
  li_cascade : i < 8 -> update_pending_ptr w = Some Pending_at -> i <> icw3 (pic2 w);
  li_no_slave : i < 8 -> Z.testbit (icw3 (pic w)) i = false;
  li_slave : 8 <= i -> exists k, 0 <= k < 8 /\ Z.testbit (icw3 (pic w)) k = true;
  li_level : pic_level_triggered (get (ctl i) w) (i .& 7) w = true;
  li_lines : length (lines (get (ctl i) w)) = 8%nat;
}.

(** The fields of a controller [level_input] reads. *)
Definition wiring (p : pic_t) := (icw1 p, icw3 p, elcr p, length (lines p)).

Lemma level_input_frame i w w' :
  level_input i w -> update_pending_ptr w' = update_pending_ptr w -> elcr_enabled w' = elcr_enabled w ->
  (forall d, wiring (get d w') = wiring (get d w)) -> level_input i w'.
Proof.
  intros [Hr (u & Hu & Hs) Hc Hn Hsl Hl Hlen] E1 E2 Ew.
  pose proof (Ew Master) as [= M1 M2 M3 M4]. pose proof (Ew Slave) as [= S1 S2 S3 S4].
  pose proof (Ew (ctl i)) as [= L1 L2 L3 L4]. split; try done.
  - exists u. by rewrite E1, S2.
  - by rewrite E1, S2.
  - by rewrite M2.
  - by rewrite M2.
  - unfold pic_level_triggered in *. by rewrite E2, L1, L3.
  - by rewrite L4.
Qed.

Lemma strip_slaves_bit fuel k n w i :
  0 <= i -> 0 <= k -> k + Z.of_nat fuel <= 8 -> (i < 8 -> Z.testbit (icw3 (pic w)) i = false) ->
  exists n', strip_slaves fuel k (2 ^ i) n w = (2 ^ i, n') /\ n <= n' /\
    ((exists j, k <= j < k + Z.of_nat fuel /\ Z.testbit (icw3 (pic w)) j = true) -> n < n').
Proof.
  intros Hi. revert k n. induction fuel as [|fuel IH]; intros k n Hk Hf Hs; cbn [strip_slaves].
  { exists n. split_and!; [done|lia|]. intros (j & ? & _). lia. }
  rewrite u8_bit, !ctrue_bit by lia. destruct (Z.testbit (icw3 (pic w)) k) eqn:Ek.
  - rewrite Z.pow2_bits_false by (intros ->; rewrite Hs in Ek by lia; congruence).
    destruct (IH (k + 1) (n + 1)) as (n' & -> & Hle & _); [lia..|done|].
    exists n'. split_and!; [done|lia|]. intros _. lia.
  - destruct (IH (k + 1) n) as (n' & -> & Hle & Hlt); [lia..|done|].
    exists n'. split_and!; [done|lia|]. intros (j & Hj & Ej). apply Hlt. exists j. split; [|done].
    assert (j <> k) by congruence. lia.
Qed.

(** The line counter after one device changes its state. *)
Definition count_line (b : Z) (set changed : bool) (p : pic_t) : pic_t :=
  if changed then p <| lines ::= <[Z.to_nat b := u32 (if set then line p b + 1 else line p b - 1)]> |> else p.

Lemma level_line_skip k i set st acc : 0 <= i -> 0 <= k -> k <> i ->
  level_line (E := E) k (2 ^ i) set st acc = acc.
Proof.
  intros Hi Hk Hne. unfold level_line. destruct acc as [lns w].
  rewrite shiftl_1, ctrue_bit by done. by rewrite Z.pow2_bits_false by congruence.
Qed.

Lemma level_lines_bit max i set st w :
  0 <= i < max -> pic_level_triggered (get (ctl i) w) (i .& 7) w = true ->
  let changed := negb (Bool.eqb (ctrue st) (ctrue set)) in
  let p := count_line (i .& 7) (ctrue set) changed (get (ctl i) w) in
  level_lines max (2 ^ i) set st (0, w) =
    (if changed && (line p (i .& 7) =? cbool (ctrue set)) then 2 ^ i else 0, put (ctl i) p w).
Proof.
  intros Hi Hl changed p. unfold level_lines.
  assert (seq 0 (Z.to_nat max) = seq 0 (Z.to_nat i) ++ Z.to_nat i :: seq (S (Z.to_nat i)) (Z.to_nat max - S (Z.to_nat i)))
    as ->.
  { replace (Z.to_nat max) with (Z.to_nat i + S (Z.to_nat max - S (Z.to_nat i)))%nat at 1 by lia.
    by rewrite seq_app. }
  rewrite fold_left_app. cbn [fold_left].
  assert (forall l (acc : Z * pics E), (forall k, k ∈ l -> Z.of_nat k <> i) ->
    fold_left (fun acc k => level_line (Z.of_nat k) (2 ^ i) set st acc) l acc = acc) as Hskip.
  { induction l as [|k l IH]; intros acc Hk; cbn; [done|].
    rewrite level_line_skip; [|lia|lia|apply Hk; by left]. apply IH. intros ? ?. apply Hk. by right. }
  rewrite !Hskip by (intros k Hk%elem_of_seq; lia). rewrite Z2Nat.id by lia.
  unfold level_line. rewrite shiftl_1, ctrue_bit, Z.pow2_bits_true by lia. fold (ctl i) changed.
  assert ((if changed then upd (ctl i) (fun p => p <| lines ::=
      <[Z.to_nat (i .& 7) := u32 (if ctrue set then line p (i .& 7) + 1 else line p (i .& 7) - 1)]> |>) w else w) =
    put (ctl i) p w) as ->.
  { unfold p, count_line. destruct changed; [done|by destruct (ctl i), w]. }
  rewrite get_put_eq.
  assert (pic_level_triggered p (i .& 7) (put (ctl i) p w) = true) as ->.
  { rewrite <- Hl. unfold p, count_line, pic_level_triggered. by destruct changed, (ctl i). }
  cbn [negb orb]. by destruct (changed && _).
Qed.

Lemma raise_lower_frame num w (up : bool) : num .& 0xff00 = 0 ->
  let w' := if up then raise_irqs num w else lower_irqs num w in
  pic2 w' = pic2 w /\ update_pending_ptr w' = update_pending_ptr w /\ elcr_enabled w' = elcr_enabled w /\
  pic w' = if ctrue (num .& 0xff)
           then (pic w) <| irr := if up then irr (pic w) .| (num .& 0xff) else irr (pic w) .&~ (num .& 0xff) |>
           else pic w.
Proof.
  intros H. unfold raise_irqs, lower_irqs. rewrite H. change (ctrue 0) with false. cbn iota. cbn zeta.
  destruct up.
  - destruct (ctrue (smi_irq_mask w .& num)), (ctrue (num .& 0xff)); cbn [kbd_latch];
      try (destruct (_ && _)); done.
  - destruct (ctrue (num .& 0xff)); try (destruct (_ && _)); done.
Qed.

Lemma line_masks i : 0 <= i < 16 ->
  ctrue (2 ^ i) = true /\ (2 ^ i =? 0) = false /\ ctrue (2 ^ i .& 0xff00) = negb (i <? 8) /\ ctrue (2 ^ i .& 0xff) = (i <? 8) /\
  (i < 8 -> 2 ^ i .& 0xff = 2 ^ (i .& 7)) /\ (8 <= i -> 2 ^ i >>> 8 = 2 ^ (i .& 7)).
Proof.
  intros Hi. assert (In i (map Z.of_nat (seq 0 16))) as Hin.
  { apply in_map_iff. exists (Z.to_nat i). split; [lia|]. apply in_seq. lia. }
  cbn [seq map In] in Hin. repeat (destruct Hin as [<-|Hin]; [by (split_and!; [..|intros Hc|intros Hc]; first [reflexivity|lia])|]). done.
Qed.

Lemma low3_range i : 0 <= i .& 7 < 8.
Proof. change 7 with (Z.ones 3). rewrite land_mask by done. by apply Z.mod_pos_bound. Qed.

Lemma low3_small i : 0 <= i < 8 -> i .& 7 = i.
Proof. intros Hi. change 7 with (Z.ones 3). rewrite land_mask by done. apply Z.mod_small. lia. Qed.

(** Raising or lowering one line, seen from the controllers. *)
Lemma raise_lower_bit i w (up : bool) : 0 <= i < 16 ->
  let w' := if up then raise_irqs (2 ^ i) w else lower_irqs (2 ^ i) w in
  update_pending_ptr w' = update_pending_ptr w /\ elcr_enabled w' = elcr_enabled w /\
  (forall d, exists r, get d w' = (get d w) <| irr := r |>) /\ Z.testbit (irr (get (ctl i) w')) (i .& 7) = up.
Proof.
  intros Hi. destruct (line_masks i Hi) as (_ & _ & M1 & M2 & M3 & M4). pose proof (low3_range i) as Hb.
  assert (forall p : pic_t, p = p <| irr := irr p |>) as Hself by (by intros []).
  unfold raise_irqs, lower_irqs, ctl. rewrite M1, M2. destruct (Z.ltb_spec i 8) as [Hlt|Hge]; cbn [negb].
  - rewrite M3 by done.
    destruct up; [destruct (ctrue (smi_irq_mask w .& 2 ^ i))|]; destruct (_ && _); cbn zeta;
      (split_and!; [done|done| |]);
      try (intros []; [by eexists|exists (irr (pic2 w)); cbn; apply Hself]);
      cbn; rewrite ?lor_bit, ?ldiff_bit, Z.eqb_refl by lia; by rewrite ?orb_true_r, ?andb_false_r.
  - rewrite M4 by done.
    destruct up; [destruct (ctrue (smi_irq_mask w .& 2 ^ i))|]; destruct (_ && _); cbn zeta;
      (split_and!; [done|done| |]);
      try (intros []; [exists (irr (pic w)); cbn; apply Hself|by eexists]);
      cbn; rewrite ?wrap_testbit, ?lor_bit, ?ldiff_bit, Z.eqb_refl by lia; rewrite ?orb_true_r, ?andb_false_r; try done;
      by rewrite (proj2 (Z.ltb_lt _ _)) by lia.
Qed.

Lemma line_insert p b v : 0 <= b < 8 -> length (lines p) = 8%nat ->
  line (p <| lines ::= <[Z.to_nat b := v]> |>) b = v.
Proof.
  intros Hi Hl. unfold line. change (lines (p <| lines ::= _ |>)) with (<[Z.to_nat b := v]> (lines p)).
  apply nth_lookup_Some. apply list_lookup_insert_eq. lia.
Qed.

(** The state of input [i]: [n] devices assert it. *)
Record shared i n w : Prop := {
  sh_input : level_input i w;
  sh_line : line (get (ctl i) w) (i .& 7) = n;
  sh_irr : Z.testbit (irr (get (ctl i) w)) (i .& 7) = (0 <? n);
}.

(** The counter after one call, and whether IRR follows. *)
Lemma count_line_step i n w (st set : bool) :
  shared i n w -> 0 <= n -> (st = true -> 0 < n) -> n + 1 < 2 ^ 32 ->
  let changed := negb (Bool.eqb st set) in
  let p := count_line (i .& 7) set changed (get (ctl i) w) in
  let n' := n + cbool set - cbool st in
  line p (i .& 7) = n' /\ length (lines p) = 8%nat /\ 0 <= n' /\
  (changed && (line p (i .& 7) =? cbool set) = false -> (0 <? n') = (0 <? n)) /\
  (changed && (line p (i .& 7) =? cbool set) = true -> (0 <? n') = set).
Proof.
  intros [Hin Hline Hirr] Hn Hst Hmax. pose proof (li_lines _ _ Hin) as Hlen. pose proof (low3_range i) as Hr.
  intros changed p n'.
  assert (line p (i .& 7) = n' /\ length (lines p) = 8%nat /\ 0 <= n') as (Hlp & Hlenp & Hn').
  { unfold p, count_line, changed, n'. destruct st, set; cbn [cbool negb Bool.eqb];
      rewrite ?line_insert by done; (split; [|split; [by cbn; rewrite ?length_insert|]]); rewrite ?Hline;
      try specialize (Hst eq_refl); rewrite ?wrap_id by (unfold in_width; lia); lia. }
  split_and!; try done; rewrite Hlp; unfold changed, n' in *; destruct st, set; cbn [cbool negb Bool.eqb andb] in *;
    try done; intros Hf; try (apply Z.eqb_neq in Hf); try (apply Z.eqb_eq in Hf);
    repeat match goal with |- context [0 <? ?x] => destruct (Z.ltb_spec 0 x) end; try done; lia.
Qed.

Lemma picint_level_step i n w (st set : bool) :
  shared i n w -> 0 <= n -> (st = true -> 0 < n) -> n + 1 < 2 ^ 32 ->
  exists w', picint_common (2 ^ i) 1 (cbool set) (cbool st) w = Some (cbool set, w') /\
    shared i (n + cbool set - cbool st) w'.
Proof.
  intros Hsh Hn Hst Hmax. destruct (count_line_step i n w st set Hsh Hn Hst Hmax) as (Hlp & Hlenp & Hn' & Hquiet & Hloud).
  destruct Hsh as [Hin Hline Hirr]. pose proof Hin as [Hr Hu Hc Hs Hsl Hl Hlen].
  destruct (line_masks i Hr) as (B1 & B2 & _ & B4 & B5 & _).
  unfold picint_common. pose proof Hu as (u & Hu1 & Hu'). rewrite Hu1.
  destruct (strip_slaves_bit 8 0 0 w i) as (ns & -> & Hns & Hns'); [lia..|done|]. rewrite B2.
  change (ctrue 1) with true. cbn iota.
  assert (8 <= i -> (ns =? 0) = false) as Hns8.
  { intros H8. apply Z.eqb_neq. destruct (Hsl H8) as (k & Hk & Ek). specialize (Hns' (ex_intro _ k (conj Hk Ek))). lia. }
  rewrite level_lines_bit; [|destruct (decide (8 <= i)) as [H8|]; [rewrite Hns8 by done; lia|destruct (ns =? 0); lia]|done].
  assert (forall b, ctrue (cbool b) = b) as Hcb by by intros [].
  rewrite !Hcb. set (p := count_line _ _ _ _) in *. set (fire := _ && _) in *.
  assert ((if Bool.eqb st set then cbool st else cbool set) = cbool set) as ->
    by (destruct st, set; done).
  assert ((if ns =? 0 then (if fire then 2 ^ i else 0) .& 255 else if fire then 2 ^ i else 0) =
          if fire then 2 ^ i else 0) as ->.
  { destruct fire; [|by destruct (ns =? 0)]. destruct (Z.ltb_spec i 8) as [Hlt|Hge]; [|by rewrite Hns8].
    rewrite B5, low3_small by lia. by destruct (ns =? 0). }
  set (w1 := if ctrue ((if fire then 2 ^ i else 0) .& 256) then _ else _).
  assert (exists e, w1 = (put (ctl i) p w) <| env := e |>) as (e & E1).
  { assert (forall x : pics E, x = x <| env := env x |>) as Hself by (by intros []).
    destruct (ctrue ((if fire then _ else _) .& 256)); [|by eexists; apply Hself].
    by exists (set_acpi_rtc_status (cbool set) (env (put (ctl i) p w))). }
  assert (irr p = irr (get (ctl i) w) /\ (icw1 p, icw3 p, elcr p) = (icw1 (get (ctl i) w), icw3 (get (ctl i) w), elcr (get (ctl i) w)))
    as [Eirr Ep] by (unfold p, count_line; by destruct (negb _)).
  assert (forall d, get d w1 = if bool_decide (d = ctl i) then p else get d w) as Eget.
  { intros d. rewrite E1. by destruct d, (ctl i). }
  assert (level_input i w1) as Hinp.
  { apply (level_input_frame i w); try (by rewrite E1; destruct (ctl i)); try done.
    intros d. rewrite Eget. case_bool_decide as Hd; [|done]. subst d. unfold wiring.
    injection Ep as -> -> ->. by rewrite Hlenp, Hlen. }
  destruct fire eqn:Ef; [rewrite B2|change (0 =? 0) with true]; cbn iota.
  2: { eexists. split; [reflexivity|]. split; [done|by rewrite Eget, bool_decide_true by done|].
       rewrite Eget, bool_decide_true, Eirr, Hirr by done. symmetry. by apply Hquiet. }
  destruct (raise_lower_bit i w1 set Hr) as (F1 & F2 & F3 & F4). set (w2 := if set then _ else _) in *.
  assert (forall d, wiring (get d w2) = wiring (get d w1) /\ lines (get d w2) = lines (get d w1)) as Hw2.
  { intros d. by destruct (F3 d) as (r & ->). }
  assert (level_input i w2) as Hin2 by (apply (level_input_frame i w1); [done..|]; intros d; apply Hw2).
  destruct (update_pending_ok w2 (li_updatable _ _ Hin2)) as (w' & -> & Hrf). cbn [mbind option_bind].
  exists w'. split; [done|].
  assert (forall d, wiring (get d w') = wiring (get d w2) /\ lines (get d w') = lines (get d w2)) as Hw'.
  { intros d. split; apply (core_field _ _ _ d Hrf); done. }
  split.
  - apply (level_input_frame i w2); [done|by apply refreshed_ptr| |intros d; apply Hw'].
    by destruct (rf_rest _ _ Hrf) as (? & ? & ? & ->).
  - unfold line. rewrite (proj2 (Hw' _)), (proj2 (Hw2 _)), Eget, bool_decide_true by done. exact Hlp.
  - rewrite (Hloud eq_refl), <- F4. unfold ctl. pose proof (low3_range i) as Hb.
    destruct (Z.ltb_spec i 8) as [Hlt|Hge]; [|cbn [get]; by rewrite (rf_irr2 _ _ Hrf)].
    apply (rf_irr _ _ Hrf); [done|]. intros Hp. rewrite low3_small by lia. by apply (li_cascade _ _ Hin2).
Qed.

(** One call of a device: its number, and whether it asserts. *)
Definition share_step i (acc : list bool * pics E) (e : nat * bool) : option (list bool * pics E) :=
  st ← acc.1 !! e.1;
  '(st', w) ← picint_common (2 ^ i) 1 (cbool e.2) (cbool st) acc.2;
  Some (<[e.1 := ctrue st']> acc.1, w).

Fixpoint share_run i (es : list (nat * bool)) (acc : list bool * pics E) : option (list bool * pics E) :=
  match es with
  | [] => Some acc
  | e :: es => acc ← share_step i acc e; share_run i es acc
  end.

Definition asserting (sts : list bool) : Z := Z.of_nat (length (List.filter (fun b : bool => b) sts)).

Lemma asserting_insert sts k st set :
  sts !! k = Some st -> asserting (<[k := set]> sts) = asserting sts + cbool set - cbool st.
Proof.
  unfold asserting. revert k. induction sts as [|s sts IH]; intros [|k] Hk; try done.
  - injection Hk as ->. destruct st, set; cbn; lia.
  - specialize (IH k Hk). change (<[S k := set]> (s :: sts)) with (s :: <[k := set]> sts).
    revert IH. generalize (<[k := set]> sts) as l. intros l IH.
    destruct s; cbn [List.filter length]; lia.
Qed.

Lemma asserting_bounds sts k st :
  sts !! k = Some st ->
  0 <= asserting sts <= Z.of_nat (length sts) /\ (st = true -> 0 < asserting sts).
Proof.
  intros Hk. assert (forall l, (length (List.filter (fun b : bool => b) l) <= length l)%nat) as Hl.
  { induction l as [|[] l IH]; cbn; lia. }
  split; [unfold asserting; specialize (Hl sts); lia|]. intros ->.
  apply list_elem_of_lookup_2, list_elem_of_In in Hk.
  unfold asserting. assert (In true (List.filter (fun b : bool => b) sts)) as Hin by by apply filter_In.
  destruct (List.filter (fun b : bool => b) sts); [done|cbn; lia].
Qed.

(** C12: Devices that share a level-triggered input - of the first controller
    other than the cascade, or of the second - may assert and release it in
    any order: every call succeeds, and the request stays set exactly while
    some device asserts the line. *)
Theorem level_irq_shared i es sts w :
  shared i (asserting sts) w -> Z.of_nat (length sts) < 2 ^ 32 - 1 ->
  Forall (fun e => (e.1 < length sts)%nat) es ->
  exists sts' w', share_run i es (sts, w) = Some (sts', w') /\
    length sts' = length sts /\ sts' = fold_left (fun l e => <[e.1 := e.2]> l) es sts /\
    Z.testbit (irr (get (ctl i) w')) (i .& 7) = existsb (fun b => b) sts'.
Proof.
  revert sts w. induction es as [|[k set] es IH]; intros sts w Hsh Hlen Hes.
  - exists sts, w. split_and!; try done. rewrite (sh_irr _ _ _ Hsh). unfold asserting.
    clear. induction sts as [|[] sts IH]; cbn; [done| |done]. by apply Z.ltb_lt; lia.
  - apply Forall_cons in Hes as [Hk Hes]. cbn [fst] in Hk.
    destruct (lookup_lt_is_Some_2 sts k Hk) as [st Hst].
    destruct (asserting_bounds sts k st Hst) as [Hb Hb1].
    destruct (picint_level_step i _ w st set Hsh) as (w1 & Hw1 & Hsh1); [lia|done|lia|].
    cbn [share_run]. unfold share_step at 1. cbn [fst snd]. rewrite Hst. cbn [mbind option_bind].
    rewrite Hw1. cbn [mbind option_bind].
    assert (ctrue (cbool set) = set) as -> by by destruct set.
    rewrite <- (asserting_insert sts k st set Hst) in Hsh1.
    destruct (IH (<[k := set]> sts) w1 Hsh1) as (sts' & w' & -> & Hl' & -> & Hirr).
    + by rewrite length_insert.
    + by rewrite length_insert.
    + exists (fold_left (fun l e => <[e.1 := e.2]> l) es (<[k := set]> sts)), w'.
      split_and!; try done. by rewrite Hl', length_insert.
Qed.

(** ** Undefined behaviour a guest can reach *)

(** On an AT machine, ICW3 of the second controller is used as a shift
    count: after a value of 32 or more the next timer tick is undefined. *)
Theorem icw3_shift_undefined w val :
  update_pending_ptr w = Some Pending_at -> ctrue (interrupt (pic w) .& 0x20) = false ->
  state (pic2 w) = STATE_ICW3 -> 32 <= val -> Z.testbit (icw3 (pic w)) 0 = false ->
  exists w1, pic_write 0xa1 val Slave w = Some w1 /\ picint 1 w1 = None.
Proof.
  intros Hp Hf Hs Hv H0. unfold pic_write. change (ctrue (0xa1 .& 1)) with true. cbn iota.
  assert (state (get Slave (upd Slave (fun p : pic_t => p <| data_bus := val |>) w)) = 2) as -> by done.
  eexists. split; [reflexivity|]. set (w1 := upd Slave _ _).
  unfold picint, picint_common. change (update_pending_ptr w1) with (update_pending_ptr w). rewrite Hp.
  destruct (strip_slaves_bit 8 0 0 w1 0) as (ns & Hss & _); [lia..|done|].
  change (2 ^ 0) with 1 in Hss. rewrite Hss. change (1 =? 0) with false. cbn iota.
  change (ctrue 0) with false. cbn iota.
  assert ((if ns =? 0 then 1 .& 255 else 1) = 1) as -> by by destruct (ns =? 0).
  change (ctrue (1 .& 256)) with false. change (ctrue 1) with true. change (1 =? 0) with false. cbn iota.
  destruct (raise_lower_frame 1 w1 true eq_refl) as (F1 & F2 & F3 & F4).
  unfold update_pending. rewrite F2. change (update_pending_ptr w1) with (update_pending_ptr w). rewrite Hp.
  unfold pic_update_pending_at. rewrite F4. change (ctrue (1 .& 255)) with true. cbn iota.
  assert (ctrue (interrupt ((pic w1) <| irr := irr (pic w1) .| (1 .& 255) |>) .& 32) = false) as -> by done.
  cbn [negb]. destruct (find_best_eq Slave (raise_irqs 1 w1)) as [e ->].
  change (icw3 (pic2 (set_pending Slave _ (_ <| env := e |>)))) with (icw3 (pic2 (raise_irqs 1 w1))).
  rewrite F1. change (icw3 (pic2 w1)) with val. unfold shl1. rewrite (proj2 (Z.ltb_ge val 32)) by lia.
  by rewrite andb_false_r.
Qed.
End resolve.

(** ** A concrete AT machine

    Both controllers programmed by the usual BIOS sequence: vectors 8 and
    0x70, the slave on input 2, everything unmasked. *)
Section sample.

#[local] Instance sample_env : PicEnv Z := {
  cpu_fast_off_flags _ := 0;
  cpu_fast_off_advance e := e + 1;
  smi_raise e := e + 1;
  set_acpi_rtc_status v e := v;
  timer_on_auto _ e := e;
  timer_add e := e;
  env_io_handler _ _ _ _ e := e;
  pit2_gate e := e + 1;
}.

Definition cold : pics Z :=
  mkPics pic_zero pic_zero 0 0 0 0 0 0 0 0 0 0 (replicate 8 (-1)) None 1 1 8000000 0.

Definition booted : pics Z :=
  default cold (w ← pic_writes Master [(0, 0x11); (1, 8); (1, 4); (1, 1)] (pic_reset true false cold);
                pic_writes Slave [(0, 0x11); (1, 0x70); (1, 2); (1, 1)] w).

(** IRQ 12 and IRQ 3 raised; level-triggered operation for the sharing example. *)
Definition irq12 : pics Z := default booted (picint 0x1000 booted).
Definition irq3 : pics Z := default booted (picint 8 booted).
Definition level5 : pics Z := pic_elcr_write 0x4d0 0x20 Master (pic_elcr_set_enabled 1 booted).

Lemma updatable_at (w : pics Z) :
  update_pending_ptr w = Some Pending_at -> (0 <=? icw3 (pic2 w)) && (icw3 (pic2 w) <? 32) = true ->
  updatable w.
Proof. intros Hp Hs. exists Pending_at. split; [done|]. intros _. lia. Qed.

Lemma picinterrupt_master_witness :
  exists w', picinterrupt irq3 = Some (11, w') /\ isr (pic w') = 8 /\ Z.testbit (irr (pic w')) 3 = false.
Proof.
  destruct (picinterrupt_master irq3 3) as (w' & Hw & _ & Hi & _ & _ & Hirr).
  - by apply updatable_at; vm_compute.
  - by split; vm_compute.
  - by vm_compute.
  - by vm_compute.
  - by vm_compute.
  - lia.
  - by vm_compute.
  - exists w'. split; [exact Hw|]. split; [by rewrite Hi|]. apply Hirr; [by vm_compute|]. by vm_compute.
Defined.

Lemma picinterrupt_slave_witness :
  exists w', picinterrupt irq12 = Some (0x74, w') /\ isr (pic w') = 4 /\ isr (pic2 w') = 16.
Proof.
  destruct (picinterrupt_slave irq12 2 4) as (w' & Hw & _ & H1 & _ & _ & H2).
  - by apply updatable_at; vm_compute.
  - by split; vm_compute.
  - by split; vm_compute.
  - by vm_compute.
  - by vm_compute.
  - by vm_compute.
  - lia.
  - by vm_compute.
  - by vm_compute.
  - by vm_compute.
  - by vm_compute.
  - lia.
  - exists w'. split; [exact Hw|]. split; [by rewrite H1|by rewrite H2].
Defined.

Lemma pic_init_sequence_witness :
  exists w', pic_writes Slave [(0, 0x11); (1, 0x28); (1, 2); (1, 1)] booted = Some w' /\
    state (pic2 w') = STATE_NONE /\ icw2 (pic2 w') = 0x28.
Proof.
  destruct (pic_init_sequence Slave booted 0x11 0x28 2 1) as (w' & Hw & H1 & _ & H2 & _).
  - by apply updatable_at; vm_compute.
  - by vm_compute.
  - by vm_compute.
  - exists w'. split; [exact Hw|]. split; [exact H1|exact H2].
Defined.

(** IRQ 3 in service, interrupted by IRQ 1: an EOI with rotation ends IRQ 1. *)
Definition nested : pics Z :=
  default booted ('(_, w) ← picinterrupt irq3; w ← picint 2 w; '(_, w) ← picinterrupt w; Some w).

Lemma pic_eoi_highest_witness :
  isr (pic nested) = 0x0a /\
  exists w', pic_write 0 0xa0 Master nested = Some w' /\ Z.testbit (isr (pic w')) 1 = false /\
    Z.testbit (isr (pic w')) 3 = true /\ priority (pic w') = 2 /\ pic_write 0 0x20 Master booted = None.
Proof.
  split; [by vm_compute|].
  destruct (pic_eoi_highest Master nested true ltac:(by apply updatable_at; vm_compute)) as [Hone _].
  destruct (pic_eoi_highest Master booted false ltac:(by apply updatable_at; vm_compute)) as [_ Hnone].
  destruct Hone as (j & w' & Hw & (Hr & He & Hj) & Hi & Hp); [by exists 3; split; [lia|vm_compute]|].
  assert (j = 1) as ->.
  { specialize (Hj 1 ltac:(lia) ltac:(by vm_compute)). apply Z.leb_le in Hj.
    assert (j = 0 \/ j = 1 \/ j = 2 \/ j = 3 \/ j = 4 \/ j = 5 \/ j = 6 \/ j = 7) as Hc by lia. clear -Hc He Hj.
    destruct Hc as [-> | [-> | [-> | [-> | [-> | [-> | [-> | ->]]]]]]]; vm_compute in He, Hj;
      first [reflexivity | discriminate]. }
  exists w'. split; [exact Hw|]. split; [by rewrite Hi|]. split; [by rewrite Hi|]. split; [exact Hp|].
  apply Hnone. intros k Hk. unfold eligible, in_service. change (isr (get Master booted)) with 0. by rewrite Z.bits_0.
Defined.

(** IRQ 11, of the second controller. *)
Definition level11 : pics Z := pic_elcr_write 0x4d1 0x08 Slave (pic_elcr_set_enabled 1 booted).

Lemma level_irq_shared_witness :
  (exists sts' w', share_run 5 [(0%nat, true); (1%nat, true); (0%nat, false)] ([false; false], level5) =
      Some (sts', w') /\ Z.testbit (irr (pic w')) 5 = true) /\
  exists sts' w', share_run 11 [(0%nat, true); (1%nat, true); (0%nat, false)] ([false; false], level11) =
      Some (sts', w') /\ Z.testbit (irr (pic2 w')) 3 = true.
Proof.
  split.
  - destruct (level_irq_shared 5 [(0%nat, true); (1%nat, true); (0%nat, false)] [false; false] level5)
      as (sts' & w' & H1 & _ & H2 & H3).
    + split; [split|..]; first [lia | by apply updatable_at; vm_compute | by vm_compute].
    + by vm_compute.
    + repeat constructor.
    + exists sts', w'. split; [exact H1|]. change (pic w') with (get (ctl 5) w'). rewrite H2 in H3. exact H3.
  - destruct (level_irq_shared 11 [(0%nat, true); (1%nat, true); (0%nat, false)] [false; false] level11)
      as (sts' & w' & H1 & _ & H2 & H3).
    + split; [split|..]; first [lia | by apply updatable_at; vm_compute | by intros _; exists 2; vm_compute | by vm_compute].
    + by vm_compute.
    + repeat constructor.
    + exists sts', w'. split; [exact H1|]. change (pic2 w') with (get (ctl 11) w'). rewrite H2 in H3. exact H3.
Defined.

Definition half_programmed : pics Z :=
  default booted (pic_writes Slave [(0, 0x11); (1, 0x70)] booted).

Lemma icw3_shift_undefined_witness :
  exists w1, pic_write 0xa1 0x20 Slave half_programmed = Some w1 /\ picint 1 w1 = None.
Proof. apply (icw3_shift_undefined half_programmed 0x20); by vm_compute. Defined.
End sample.
