(* ===== verification/I8080.v ===== *)
(** * I8080: the 8080 core of src/src/cpu/i8080.c

    The 8080 that the NEC V20/V30 emulations run in 8080 mode.  The state is
    the C structure; the caller's functions behind its pointers (memory, code
    fetch, ports) and the two functions of the x86 side it calls
    ([interrupt_808x], [retem_i8080]) are the interface [I8080Env], over the
    state [E] of the rest of the machine.  They receive the pointer the code
    passes ([uptr]).  An operation is a program of the state monad [M];
    [None] is a call through a NULL function pointer. *)
From S2P Require Import Prelude.

(** A [void *] handed to the caller's functions. *)
Inductive uptr := UNull | UCpu | UUser (n : Z).

(** [typedef struct i8080].  Function pointers are names of functions, [None]
    is NULL; one-bit [bool] fields are [bool]. *)
Record i8080 := mkI8080 {
  read_byte : option Z;
  write_byte : option Z;
  read_byte_seg : option Z;
  port_in : option Z;
  port_out : option Z;
  userdata : uptr;
  cyc : Z;
  pc : Z; sp : Z;
  ra : Z; rb : Z; rc : Z; rd : Z; re : Z; rh : Z; rl : Z;
  sf : bool; zf : bool; hf : bool; pf : bool; cf : bool; iff_ : bool;
  halted : bool;
  interrupt_pending : bool;
  interrupt_vector : Z;
  interrupt_delay : Z;
}.

(** [&c->a] and the other register pointers. *)
Inductive reg := RA | RB | RC | RD | RE | RH | RL.

#[export] Instance reg_eq_dec : EqDecision reg.
Proof. solve_decision. Defined.

Definition get_reg (r : reg) (c : i8080) : Z :=
  match r with
  | RA => ra c | RB => rb c | RC => rc c | RD => rd c | RE => re c | RH => rh c | RL => rl c
  end.

Definition set_reg (r : reg) (v : Z) (c : i8080) : i8080 :=
  match r with
  | RA => c <| ra := v |> | RB => c <| rb := v |> | RC => c <| rc := v |> | RD => c <| rd := v |>
  | RE => c <| re := v |> | RH => c <| rh := v |> | RL => c <| rl := v |>
  end.

(** The rest of the machine.  The functions behind the pointers do not touch
    the CPU structure; the two functions of the x86 side may. *)
Class I8080Env (E : Type) := {
  call_read : Z -> uptr -> Z -> E -> Z * E;        (* uint8_t f (void *, uint16_t) *)
  call_write : Z -> uptr -> Z -> Z -> E -> E;      (* void f (void *, uint16_t, uint8_t) *)
  call_in : Z -> uptr -> Z -> E -> Z * E;          (* uint8_t f (void *, uint8_t) *)
  call_out : Z -> uptr -> Z -> Z -> E -> E;        (* void f (void *, uint8_t, uint8_t) *)
  interrupt_808x : Z -> i8080 -> E -> i8080 * E;   (* uint16_t *)
  retem_i8080 : i8080 -> E -> i8080 * E;
}.

(** [OPCODES_CYCLES] *)
Definition OPCODES_CYCLES : list Z := [
  4; 10; 7; 5; 5; 5; 7; 4; 4; 10; 7; 5; 5; 5; 7; 4;
  4; 10; 7; 5; 5; 5; 7; 4; 4; 10; 7; 5; 5; 5; 7; 4;
  4; 10; 16; 5; 5; 5; 7; 4; 4; 10; 16; 5; 5; 5; 7; 4;
  4; 10; 13; 5; 10; 10; 10; 4; 4; 10; 13; 5; 5; 5; 7; 4;
  5; 5; 5; 5; 5; 5; 7; 5; 5; 5; 5; 5; 5; 5; 7; 5;
  5; 5; 5; 5; 5; 5; 7; 5; 5; 5; 5; 5; 5; 5; 7; 5;
  5; 5; 5; 5; 5; 5; 7; 5; 5; 5; 5; 5; 5; 5; 7; 5;
  7; 7; 7; 7; 7; 7; 7; 7; 5; 5; 5; 5; 5; 5; 7; 5;
  4; 4; 4; 4; 4; 4; 7; 4; 4; 4; 4; 4; 4; 4; 7; 4;
  4; 4; 4; 4; 4; 4; 7; 4; 4; 4; 4; 4; 4; 4; 7; 4;
  4; 4; 4; 4; 4; 4; 7; 4; 4; 4; 4; 4; 4; 4; 7; 4;
  4; 4; 4; 4; 4; 4; 7; 4; 4; 4; 4; 4; 4; 4; 7; 4;
  5; 10; 10; 10; 11; 11; 7; 11; 5; 10; 10; 10; 11; 17; 7; 11;
  5; 10; 10; 10; 11; 11; 7; 11; 5; 10; 10; 10; 11; 17; 7; 11;
  5; 10; 10; 18; 11; 11; 7; 11; 5; 5; 10; 4; 11; 17; 7; 11;
  5; 10; 10; 4; 11; 11; 7; 11; 5; 5; 10; 4; 11; 17; 7; 11].

(** ** Arithmetic of the registers *)

(** parity: true when the number of one bits is even. *)
Definition parity_loop (val : Z) : nat -> Z -> Z -> Z :=
  fix loop n i nb_one_bits :=
    match n with
    | O => nb_one_bits
    | S n => loop n (i + 1) (u8 (nb_one_bits + ((val >>> i) .& 1)))
    end.
Definition parity (val : Z) : bool := parity_loop (u8 val) 8 0 0 .& 1 =? 0.

(** The carry between bits [bit_no - 1] and [bit_no] of [a + b + cy]. *)
Definition carry (bit_no a b : Z) (cy : bool) : bool :=
  let result := swrap 16 (a + b + cbool cy) in
  let carry := swrap 16 (result .^ a .^ b) in
  ctrue (carry .& (1 <<< bit_no)).

(** The macro SET_ZSP. *)
Definition SET_ZSP (c : i8080) (val : Z) : i8080 :=
  c <| zf := val =? 0 |> <| sf := ctrue (val >>> 7) |> <| pf := parity val |>.

Definition i8080_set_bc (c : i8080) (val : Z) : i8080 :=
  let c := c <| rb := u8 (val >>> 8) |> in c <| rc := u8 (val .& 0xFF) |>.
Definition i8080_set_de (c : i8080) (val : Z) : i8080 :=
  let c := c <| rd := u8 (val >>> 8) |> in c <| re := u8 (val .& 0xFF) |>.
Definition i8080_set_hl (c : i8080) (val : Z) : i8080 :=
  let c := c <| rh := u8 (val >>> 8) |> in c <| rl := u8 (val .& 0xFF) |>.
Definition i8080_get_bc (c : i8080) : Z := u16 ((rb c <<< 8) .| rc c).
Definition i8080_get_de (c : i8080) : Z := u16 ((rd c <<< 8) .| re c).
Definition i8080_get_hl (c : i8080) : Z := u16 ((rh c <<< 8) .| rl c).

Definition i8080_add (c : i8080) (r : reg) (val : Z) (cy : bool) : i8080 :=
  let v := get_reg r c in
  let result := u8 (v + val + cbool cy) in
  let c := c <| cf := carry 8 v val cy |> <| hf := carry 4 v val cy |> in
  set_reg r result (SET_ZSP c result).

Definition i8080_sub (c : i8080) (r : reg) (val : Z) (cy : bool) : i8080 :=
  let c := i8080_add c r (u8 (Z.lnot val)) (negb cy) in
  c <| cf := negb (cf c) |>.

Definition i8080_dad (c : i8080) (val : Z) : i8080 :=
  let c := c <| cf := ctrue (((i8080_get_hl c + val) >>> 16) .& 1) |> in
  i8080_set_hl c (u16 (i8080_get_hl c + val)).

Definition i8080_inr (c : i8080) (val : Z) : Z * i8080 :=
  let result := u8 (val + 1) in
  (result, SET_ZSP (c <| hf := result .& 0xF =? 0 |>) result).

Definition i8080_dcr (c : i8080) (val : Z) : Z * i8080 :=
  let result := u8 (val - 1) in
  (result, SET_ZSP (c <| hf := negb (result .& 0xF =? 0xF) |>) result).

Definition i8080_ana (c : i8080) (val : Z) : i8080 :=
  let result := u8 (ra c .& val) in
  let c := c <| cf := false |> <| hf := ctrue ((ra c .| val) .& 0x08) |> in
  (SET_ZSP c result) <| ra := result |>.

Definition i8080_xra (c : i8080) (val : Z) : i8080 :=
  let c := c <| ra := u8 (ra c .^ val) |> in
  let c := c <| cf := false |> <| hf := false |> in
  SET_ZSP c (ra c).

Definition i8080_ora (c : i8080) (val : Z) : i8080 :=
  let c := c <| ra := u8 (ra c .| val) |> in
  let c := c <| cf := false |> <| hf := false |> in
  SET_ZSP c (ra c).

Definition i8080_cmp (c : i8080) (val : Z) : i8080 :=
  let result := swrap 16 (ra c - val) in
  let c := c <| cf := ctrue (result >>> 8) |>
             <| hf := ctrue (Z.lnot (ra c .^ result .^ val) .& 0x10) |> in
  SET_ZSP c (result .& 0xFF).

Definition i8080_jmp (c : i8080) (addr : Z) : i8080 := c <| pc := addr |>.

Definition i8080_rlc (c : i8080) : i8080 :=
  let c := c <| cf := ctrue (ra c >>> 7) |> in
  c <| ra := u8 ((ra c <<< 1) .| cbool (cf c)) |>.

Definition i8080_rrc (c : i8080) : i8080 :=
  let c := c <| cf := ctrue (ra c .& 1) |> in
  c <| ra := u8 ((ra c >>> 1) .| (cbool (cf c) <<< 7)) |>.

Definition i8080_ral (c : i8080) : i8080 :=
  let cy := cf c in
  let c := c <| cf := ctrue (ra c >>> 7) |> in
  c <| ra := u8 ((ra c <<< 1) .| cbool cy) |>.

Definition i8080_rar (c : i8080) : i8080 :=
  let cy := cf c in
  let c := c <| cf := ctrue (ra c .& 1) |> in
  c <| ra := u8 ((ra c >>> 1) .| (cbool cy <<< 7)) |>.

Definition i8080_daa (c : i8080) : i8080 :=
  let cy := cf c in
  let correction := 0 in
  let lsb := ra c .& 0x0F in
  let msb := ra c >>> 4 in
  let correction := if hf c || (9 <? lsb) then u8 (correction + 0x06) else correction in
  let '(correction, cy) :=
    if cf c || (9 <? msb) || ((9 <=? msb) && (9 <? lsb))
    then (u8 (correction + 0x60), true) else (correction, cy) in
  let c := i8080_add c RA correction false in
  c <| cf := cy |>.

Definition i8080_xchg (c : i8080) : i8080 :=
  let de := i8080_get_de c in
  let c := i8080_set_de c (i8080_get_hl c) in
  i8080_set_hl c de.

(** [i8080_init] does not write [read_byte_seg]. *)
Definition i8080_init (c : i8080) : i8080 :=
  mkI8080 None None (read_byte_seg c) None None UNull 0 0 0 0 0 0 0 0 0 0
    false false false false false false false false 0 0.

Definition i8080_interrupt (c : i8080) (opcode : Z) : i8080 :=
  c <| interrupt_pending := true |> <| interrupt_vector := opcode |>.

(** ** Programs *)

Section i8080.
Context {E : Type} `{!I8080Env E}.

Definition M (A : Type) : Type := i8080 -> E -> option (A * i8080 * E).

#[export] Instance M_ret : MRet M := fun A x c e => Some (x, c, e).
#[export] Instance M_bind : MBind M := fun A B k m c e =>
  match m c e with Some (x, c, e) => k x c e | None => None end.

(** Reading and updating the structure. *)
Definition gets {A} (f : i8080 -> A) : M A := fun c e => Some (f c, c, e).
Definition modify (f : i8080 -> i8080) : M unit := fun c e => Some (tt, f c, e).

(** A call through a function pointer of the structure. *)
Definition through {A B} (p : option A) (k : A -> M B) : M B :=
  fun c e => match p with Some f => k f c e | None => None end.

Definition read_with (f : Z) (u : uptr) (addr : Z) : M Z :=
  fun c e => let '(v, e) := call_read f u (u16 addr) e in Some (u8 v, c, e).

Definition i8080_rb (addr : Z) : M Z :=
  f ← gets read_byte; u ← gets userdata; through f (fun f => read_with f u addr).

Definition i8080_wb (addr val : Z) : M unit :=
  f ← gets write_byte; u ← gets userdata;
  through f (fun f c e => Some (tt, c, call_write f u (u16 addr) (u8 val) e)).

Definition i8080_rw (addr : Z) : M Z :=
  hi ← i8080_rb (addr + 1); lo ← i8080_rb addr; mret (u16 ((hi <<< 8) .| lo)).

Definition i8080_ww (addr val : Z) : M unit :=
  i8080_wb addr (val .& 0xFF);; i8080_wb (addr + 1) (val >>> 8).

(** [c->pc++] *)
Definition pc_incr : M Z :=
  addr ← gets pc; modify (fun c => c <| pc := u16 (addr + 1) |>);; mret addr.

Definition i8080_next_byte : M Z :=
  seg ← gets read_byte_seg;
  match seg with
  | Some f => u ← gets userdata; addr ← pc_incr; read_with f u addr
  | None => addr ← pc_incr; i8080_rb addr
  end.

(** The two bytes of the next word; the code-fetch function is called here
    with [c] itself. *)
Definition fetch_word (seg : option Z) (addr : Z) : M Z :=
  match seg with
  | Some f => lo ← read_with f UCpu addr; hi ← read_with f UCpu (addr + 1);
              mret (u16 (lo .| (hi <<< 8)))
  | None => i8080_rw addr
  end.

Definition i8080_next_word : M Z :=
  seg ← gets read_byte_seg; addr ← gets pc; result ← fetch_word seg addr;
  modify (fun c => c <| pc := u16 (pc c + 2) |>);; mret result.

Definition i8080_push_stack (val : Z) : M unit :=
  modify (fun c => c <| sp := u16 (sp c - 2) |>);;
  addr ← gets sp; i8080_ww addr val.

Definition i8080_pop_stack : M Z :=
  addr ← gets sp; val ← i8080_rw addr;
  modify (fun c => c <| sp := u16 (sp c + 2) |>);; mret val.

Definition i8080_cond_jmp (condition : bool) : M unit :=
  addr ← i8080_next_word;
  if condition then modify (fun c => c <| pc := addr |>) else mret tt.

Definition i8080_call (addr : Z) : M unit :=
  ret ← gets pc; i8080_push_stack ret;; modify (fun c => i8080_jmp c addr).

(** [c->cyc += n] on an [unsigned long] of 64 bits. *)
Definition add_cyc (n : Z) : M unit := modify (fun c => c <| cyc := u64 (cyc c + n) |>).

Definition i8080_cond_call (condition : bool) : M unit :=
  addr ← i8080_next_word;
  if condition then i8080_call addr;; add_cyc 6 else mret tt.

Definition i8080_ret : M unit :=
  addr ← i8080_pop_stack; modify (fun c => c <| pc := addr |>).

Definition i8080_cond_ret (condition : bool) : M unit :=
  if condition then i8080_ret;; add_cyc 6 else mret tt.

(** The flag byte of PUSH PSW. *)
Definition psw_byte (c : i8080) : Z :=
  let psw := 0 in
  let psw := u8 (psw .| (cbool (sf c) <<< 7)) in
  let psw := u8 (psw .| (cbool (zf c) <<< 6)) in
  let psw := u8 (psw .| (cbool (hf c) <<< 4)) in
  let psw := u8 (psw .| (cbool (pf c) <<< 2)) in
  let psw := u8 (psw .| (1 <<< 1)) in
  u8 (psw .| (cbool (cf c) <<< 0)).

Definition i8080_push_psw : M unit :=
  psw ← gets psw_byte; a ← gets ra; i8080_push_stack (u16 ((a <<< 8) .| psw)).

Definition set_psw (af : Z) (c : i8080) : i8080 :=
  let c := c <| ra := u8 (af >>> 8) |> in
  let psw := u8 (af .& 0xFF) in
  c <| sf := ctrue ((psw >>> 7) .& 1) |> <| zf := ctrue ((psw >>> 6) .& 1) |>
    <| hf := ctrue ((psw >>> 4) .& 1) |> <| pf := ctrue ((psw >>> 2) .& 1) |>
    <| cf := ctrue ((psw >>> 0) .& 1) |>.

Definition i8080_pop_psw : M unit :=
  af ← i8080_pop_stack; modify (set_psw af).

Definition i8080_xthl : M unit :=
  addr ← gets sp; val ← i8080_rw addr;
  addr ← gets sp; hl ← gets i8080_get_hl; i8080_ww addr hl;;
  modify (fun c => i8080_set_hl c val).

(** ** The shapes of the cases of [i8080_execute] *)

Definition set_sp (c : i8080) (val : Z) : i8080 := c <| sp := val |>.

(** [c->r = c->r'], [c->r = <expression>], [c->rp = <expression>] *)
Definition mov (r r' : reg) : M unit := modify (fun c => set_reg r (get_reg r' c) c).
Definition assign (r : reg) (m : M Z) : M unit := v ← m; modify (set_reg r v).
Definition assign16 (f : i8080 -> Z -> i8080) (m : M Z) : M unit := v ← m; modify (fun c => f c v).

(** A byte of memory at a register pair. *)
Definition rb_at (f : i8080 -> Z) : M Z := addr ← gets f; i8080_rb addr.
Definition wb_at (f val : i8080 -> Z) : M unit :=
  addr ← gets f; v ← gets val; i8080_wb addr v.

(** An accumulator operation on a register, on memory, on the next byte. *)
Definition with_reg (r : reg) (op : i8080 -> Z -> i8080) : M unit :=
  modify (fun c => op c (get_reg r c)).
Definition with_mem (op : i8080 -> Z -> i8080) : M unit :=
  v ← rb_at i8080_get_hl; modify (fun c => op c v).
Definition with_imm (op : i8080 -> Z -> i8080) : M unit :=
  v ← i8080_next_byte; modify (fun c => op c v).

(** INR and DCR of a register and of memory. *)
Definition step_reg (f : i8080 -> Z -> Z * i8080) (r : reg) (c : i8080) : i8080 :=
  let '(v, c) := f c (get_reg r c) in set_reg r v c.
Definition step_mem (f : i8080 -> Z -> Z * i8080) : M unit :=
  v ← rb_at i8080_get_hl; r ← gets (fun c => f c v);
  modify (fun _ => r.2);; wb_at i8080_get_hl (fun _ => r.1).

Definition port_read (port : Z) : M Z :=
  f ← gets port_in; u ← gets userdata;
  through f (fun f c e => let '(v, e) := call_in f u port e in Some (u8 v, c, e)).

Definition port_write (port val : Z) : M unit :=
  f ← gets port_out; u ← gets userdata;
  through f (fun f c e => Some (tt, c, call_out f u port val e)).

(** MOV, loads, stores, XCHG and XTHL *)
Definition execute_moves (opcode : Z) : option (M unit) :=
  match opcode with
  | 0x7F => Some (mov RA RA)
  | 0x78 => Some (mov RA RB)
  | 0x79 => Some (mov RA RC)
  | 0x7A => Some (mov RA RD)
  | 0x7B => Some (mov RA RE)
  | 0x7C => Some (mov RA RH)
  | 0x7D => Some (mov RA RL)
  | 0x7E => Some (assign RA (rb_at i8080_get_hl))
  | 0x0A => Some (assign RA (rb_at i8080_get_bc))
  | 0x1A => Some (assign RA (rb_at i8080_get_de))
  | 0x3A => Some (assign RA (addr ← i8080_next_word; i8080_rb addr))
  | 0x47 => Some (mov RB RA)
  | 0x40 => Some (mov RB RB)
  | 0x41 => Some (mov RB RC)
  | 0x42 => Some (mov RB RD)
  | 0x43 => Some (mov RB RE)
  | 0x44 => Some (mov RB RH)
  | 0x45 => Some (mov RB RL)
  | 0x46 => Some (assign RB (rb_at i8080_get_hl))
  | 0x4F => Some (mov RC RA)
  | 0x48 => Some (mov RC RB)
  | 0x49 => Some (mov RC RC)
  | 0x4A => Some (mov RC RD)
  | 0x4B => Some (mov RC RE)
  | 0x4C => Some (mov RC RH)
  | 0x4D => Some (mov RC RL)
  | 0x4E => Some (assign RC (rb_at i8080_get_hl))
  | 0x57 => Some (mov RD RA)
  | 0x50 => Some (mov RD RB)
  | 0x51 => Some (mov RD RC)
  | 0x52 => Some (mov RD RD)
  | 0x53 => Some (mov RD RE)
  | 0x54 => Some (mov RD RH)
  | 0x55 => Some (mov RD RL)
  | 0x56 => Some (assign RD (rb_at i8080_get_hl))
  | 0x5F => Some (mov RE RA)
  | 0x58 => Some (mov RE RB)
  | 0x59 => Some (mov RE RC)
  | 0x5A => Some (mov RE RD)
  | 0x5B => Some (mov RE RE)
  | 0x5C => Some (mov RE RH)
  | 0x5D => Some (mov RE RL)
  | 0x5E => Some (assign RE (rb_at i8080_get_hl))
  | 0x67 => Some (mov RH RA)
  | 0x60 => Some (mov RH RB)
  | 0x61 => Some (mov RH RC)
  | 0x62 => Some (mov RH RD)
  | 0x63 => Some (mov RH RE)
  | 0x64 => Some (mov RH RH)
  | 0x65 => Some (mov RH RL)
  | 0x66 => Some (assign RH (rb_at i8080_get_hl))
  | 0x6F => Some (mov RL RA)
  | 0x68 => Some (mov RL RB)
  | 0x69 => Some (mov RL RC)
  | 0x6A => Some (mov RL RD)
  | 0x6B => Some (mov RL RE)
  | 0x6C => Some (mov RL RH)
  | 0x6D => Some (mov RL RL)
  | 0x6E => Some (assign RL (rb_at i8080_get_hl))
  | 0x77 => Some (wb_at i8080_get_hl (get_reg RA))
  | 0x70 => Some (wb_at i8080_get_hl (get_reg RB))
  | 0x71 => Some (wb_at i8080_get_hl (get_reg RC))
  | 0x72 => Some (wb_at i8080_get_hl (get_reg RD))
  | 0x73 => Some (wb_at i8080_get_hl (get_reg RE))
  | 0x74 => Some (wb_at i8080_get_hl (get_reg RH))
  | 0x75 => Some (wb_at i8080_get_hl (get_reg RL))
  | 0x3E => Some (assign RA i8080_next_byte)
  | 0x06 => Some (assign RB i8080_next_byte)
  | 0x0E => Some (assign RC i8080_next_byte)
  | 0x16 => Some (assign RD i8080_next_byte)
  | 0x1E => Some (assign RE i8080_next_byte)
  | 0x26 => Some (assign RH i8080_next_byte)
  | 0x2E => Some (assign RL i8080_next_byte)
  | 0x36 => Some (v ← i8080_next_byte; wb_at i8080_get_hl (fun _ => v))
  | 0x02 => Some (wb_at i8080_get_bc (get_reg RA))
  | 0x12 => Some (wb_at i8080_get_de (get_reg RA))
  | 0x32 => Some (addr ← i8080_next_word; a ← gets ra; i8080_wb addr a)
  | 0x01 => Some (assign16 i8080_set_bc i8080_next_word)
  | 0x11 => Some (assign16 i8080_set_de i8080_next_word)
  | 0x21 => Some (assign16 i8080_set_hl i8080_next_word)
  | 0x31 => Some (assign16 set_sp i8080_next_word)
  | 0x2A => Some (assign16 i8080_set_hl (addr ← i8080_next_word; i8080_rw addr))
  | 0x22 => Some (addr ← i8080_next_word; hl ← gets i8080_get_hl; i8080_ww addr hl)
  | 0xF9 => Some (assign16 set_sp (gets i8080_get_hl))
  | 0xEB => Some (modify i8080_xchg)
  | 0xE3 => Some (i8080_xthl)
  | _ => None
  end.

(** ADD, ADC, SUB, SBB and DAD *)
Definition execute_add (opcode : Z) : option (M unit) :=
  match opcode with
  | 0x87 => Some (with_reg RA (fun c v => i8080_add c RA v false))
  | 0x80 => Some (with_reg RB (fun c v => i8080_add c RA v false))
  | 0x81 => Some (with_reg RC (fun c v => i8080_add c RA v false))
  | 0x82 => Some (with_reg RD (fun c v => i8080_add c RA v false))
  | 0x83 => Some (with_reg RE (fun c v => i8080_add c RA v false))
  | 0x84 => Some (with_reg RH (fun c v => i8080_add c RA v false))
  | 0x85 => Some (with_reg RL (fun c v => i8080_add c RA v false))
  | 0x86 => Some (with_mem (fun c v => i8080_add c RA v false))
  | 0xC6 => Some (with_imm (fun c v => i8080_add c RA v false))
  | 0x8F => Some (with_reg RA (fun c v => i8080_add c RA v (cf c)))
  | 0x88 => Some (with_reg RB (fun c v => i8080_add c RA v (cf c)))
  | 0x89 => Some (with_reg RC (fun c v => i8080_add c RA v (cf c)))
  | 0x8A => Some (with_reg RD (fun c v => i8080_add c RA v (cf c)))
  | 0x8B => Some (with_reg RE (fun c v => i8080_add c RA v (cf c)))
  | 0x8C => Some (with_reg RH (fun c v => i8080_add c RA v (cf c)))
  | 0x8D => Some (with_reg RL (fun c v => i8080_add c RA v (cf c)))
  | 0x8E => Some (with_mem (fun c v => i8080_add c RA v (cf c)))
  | 0xCE => Some (with_imm (fun c v => i8080_add c RA v (cf c)))
  | 0x97 => Some (with_reg RA (fun c v => i8080_sub c RA v false))
  | 0x90 => Some (with_reg RB (fun c v => i8080_sub c RA v false))
  | 0x91 => Some (with_reg RC (fun c v => i8080_sub c RA v false))
  | 0x92 => Some (with_reg RD (fun c v => i8080_sub c RA v false))
  | 0x93 => Some (with_reg RE (fun c v => i8080_sub c RA v false))
  | 0x94 => Some (with_reg RH (fun c v => i8080_sub c RA v false))
  | 0x95 => Some (with_reg RL (fun c v => i8080_sub c RA v false))
  | 0x96 => Some (with_mem (fun c v => i8080_sub c RA v false))
  | 0xD6 => Some (with_imm (fun c v => i8080_sub c RA v false))
  | 0x9F => Some (with_reg RA (fun c v => i8080_sub c RA v (cf c)))
  | 0x98 => Some (with_reg RB (fun c v => i8080_sub c RA v (cf c)))
  | 0x99 => Some (with_reg RC (fun c v => i8080_sub c RA v (cf c)))
  | 0x9A => Some (with_reg RD (fun c v => i8080_sub c RA v (cf c)))
  | 0x9B => Some (with_reg RE (fun c v => i8080_sub c RA v (cf c)))
  | 0x9C => Some (with_reg RH (fun c v => i8080_sub c RA v (cf c)))
  | 0x9D => Some (with_reg RL (fun c v => i8080_sub c RA v (cf c)))
  | 0x9E => Some (with_mem (fun c v => i8080_sub c RA v (cf c)))
  | 0xDE => Some (with_imm (fun c v => i8080_sub c RA v (cf c)))
  | 0x09 => Some (modify (fun c => i8080_dad c (i8080_get_bc c)))
  | 0x19 => Some (modify (fun c => i8080_dad c (i8080_get_de c)))
  | 0x29 => Some (modify (fun c => i8080_dad c (i8080_get_hl c)))
  | 0x39 => Some (modify (fun c => i8080_dad c (sp c)))
  | _ => None
  end.

(** interrupts, INR, DCR, INX, DCX, accumulator operations *)
Definition execute_misc (opcode : Z) : option (M unit) :=
  match opcode with
  | 0xF3 => Some (modify (fun c => c <| iff_ := false |>))
  | 0xFB => Some (modify (fun c => c <| iff_ := true |> <| interrupt_delay := 1 |>))
  | 0x00 => Some (mret tt)
  | 0x76 => Some (modify (fun c => c <| halted := true |>))
  | 0x3C => Some (modify (step_reg i8080_inr RA))
  | 0x04 => Some (modify (step_reg i8080_inr RB))
  | 0x0C => Some (modify (step_reg i8080_inr RC))
  | 0x14 => Some (modify (step_reg i8080_inr RD))
  | 0x1C => Some (modify (step_reg i8080_inr RE))
  | 0x24 => Some (modify (step_reg i8080_inr RH))
  | 0x2C => Some (modify (step_reg i8080_inr RL))
  | 0x34 => Some (step_mem i8080_inr)
  | 0x3D => Some (modify (step_reg i8080_dcr RA))
  | 0x05 => Some (modify (step_reg i8080_dcr RB))
  | 0x0D => Some (modify (step_reg i8080_dcr RC))
  | 0x15 => Some (modify (step_reg i8080_dcr RD))
  | 0x1D => Some (modify (step_reg i8080_dcr RE))
  | 0x25 => Some (modify (step_reg i8080_dcr RH))
  | 0x2D => Some (modify (step_reg i8080_dcr RL))
  | 0x35 => Some (step_mem i8080_dcr)
  | 0x03 => Some (modify (fun c => i8080_set_bc c (u16 (i8080_get_bc c + 1))))
  | 0x13 => Some (modify (fun c => i8080_set_de c (u16 (i8080_get_de c + 1))))
  | 0x23 => Some (modify (fun c => i8080_set_hl c (u16 (i8080_get_hl c + 1))))
  | 0x33 => Some (modify (fun c => set_sp c (u16 (sp c + 1))))
  | 0x0B => Some (modify (fun c => i8080_set_bc c (u16 (i8080_get_bc c - 1))))
  | 0x1B => Some (modify (fun c => i8080_set_de c (u16 (i8080_get_de c - 1))))
  | 0x2B => Some (modify (fun c => i8080_set_hl c (u16 (i8080_get_hl c - 1))))
  | 0x3B => Some (modify (fun c => set_sp c (u16 (sp c - 1))))
  | 0x27 => Some (modify i8080_daa)
  | 0x2F => Some (modify (fun c => c <| ra := u8 (Z.lnot (ra c)) |>))
  | 0x37 => Some (modify (fun c => c <| cf := true |>))
  | 0x3F => Some (modify (fun c => c <| cf := negb (cf c) |>))
  | 0x07 => Some (modify i8080_rlc)
  | 0x0F => Some (modify i8080_rrc)
  | 0x17 => Some (modify i8080_ral)
  | 0x1F => Some (modify i8080_rar)
  | _ => None
  end.

(** ANA, XRA, ORA, CMP *)
Definition execute_logic (opcode : Z) : option (M unit) :=
  match opcode with
  | 0xA7 => Some (with_reg RA i8080_ana)
  | 0xA0 => Some (with_reg RB i8080_ana)
  | 0xA1 => Some (with_reg RC i8080_ana)
  | 0xA2 => Some (with_reg RD i8080_ana)
  | 0xA3 => Some (with_reg RE i8080_ana)
  | 0xA4 => Some (with_reg RH i8080_ana)
  | 0xA5 => Some (with_reg RL i8080_ana)
  | 0xA6 => Some (with_mem i8080_ana)
  | 0xE6 => Some (with_imm i8080_ana)
  | 0xAF => Some (with_reg RA i8080_xra)
  | 0xA8 => Some (with_reg RB i8080_xra)
  | 0xA9 => Some (with_reg RC i8080_xra)
  | 0xAA => Some (with_reg RD i8080_xra)
  | 0xAB => Some (with_reg RE i8080_xra)
  | 0xAC => Some (with_reg RH i8080_xra)
  | 0xAD => Some (with_reg RL i8080_xra)
  | 0xAE => Some (with_mem i8080_xra)
  | 0xEE => Some (with_imm i8080_xra)
  | 0xB7 => Some (with_reg RA i8080_ora)
  | 0xB0 => Some (with_reg RB i8080_ora)
  | 0xB1 => Some (with_reg RC i8080_ora)
  | 0xB2 => Some (with_reg RD i8080_ora)
  | 0xB3 => Some (with_reg RE i8080_ora)
  | 0xB4 => Some (with_reg RH i8080_ora)
  | 0xB5 => Some (with_reg RL i8080_ora)
  | 0xB6 => Some (with_mem i8080_ora)
  | 0xF6 => Some (with_imm i8080_ora)
  | 0xBF => Some (with_reg RA i8080_cmp)
  | 0xB8 => Some (with_reg RB i8080_cmp)
  | 0xB9 => Some (with_reg RC i8080_cmp)
  | 0xBA => Some (with_reg RD i8080_cmp)
  | 0xBB => Some (with_reg RE i8080_cmp)
  | 0xBC => Some (with_reg RH i8080_cmp)
  | 0xBD => Some (with_reg RL i8080_cmp)
  | 0xBE => Some (with_mem i8080_cmp)
  | 0xFE => Some (with_imm i8080_cmp)
  | _ => None
  end.

(** jumps, calls, returns, restarts *)
Definition execute_jumps (opcode : Z) : option (M unit) :=
  match opcode with
  | 0xC3 => Some (assign16 i8080_jmp i8080_next_word)
  | 0xC2 => Some (p ← gets zf; i8080_cond_jmp (negb p))
  | 0xCA => Some (p ← gets zf; i8080_cond_jmp p)
  | 0xD2 => Some (p ← gets cf; i8080_cond_jmp (negb p))
  | 0xDA => Some (p ← gets cf; i8080_cond_jmp p)
  | 0xE2 => Some (p ← gets pf; i8080_cond_jmp (negb p))
  | 0xEA => Some (p ← gets pf; i8080_cond_jmp p)
  | 0xF2 => Some (p ← gets sf; i8080_cond_jmp (negb p))
  | 0xFA => Some (p ← gets sf; i8080_cond_jmp p)
  | 0xE9 => Some (assign16 i8080_jmp (gets i8080_get_hl))
  | 0xCD => Some (addr ← i8080_next_word; i8080_call addr)
  | 0xC4 => Some (p ← gets zf; i8080_cond_call (negb p))
  | 0xCC => Some (p ← gets zf; i8080_cond_call p)
  | 0xD4 => Some (p ← gets cf; i8080_cond_call (negb p))
  | 0xDC => Some (p ← gets cf; i8080_cond_call p)
  | 0xE4 => Some (p ← gets pf; i8080_cond_call (negb p))
  | 0xEC => Some (p ← gets pf; i8080_cond_call p)
  | 0xF4 => Some (p ← gets sf; i8080_cond_call (negb p))
  | 0xFC => Some (p ← gets sf; i8080_cond_call p)
  | 0xC9 => Some (i8080_ret)
  | 0xC0 => Some (p ← gets zf; i8080_cond_ret (negb p))
  | 0xC8 => Some (p ← gets zf; i8080_cond_ret p)
  | 0xD0 => Some (p ← gets cf; i8080_cond_ret (negb p))
  | 0xD8 => Some (p ← gets cf; i8080_cond_ret p)
  | 0xE0 => Some (p ← gets pf; i8080_cond_ret (negb p))
  | 0xE8 => Some (p ← gets pf; i8080_cond_ret p)
  | 0xF0 => Some (p ← gets sf; i8080_cond_ret (negb p))
  | 0xF8 => Some (p ← gets sf; i8080_cond_ret p)
  | 0xC7 => Some (i8080_call 0x00)
  | 0xCF => Some (i8080_call 0x08)
  | 0xD7 => Some (i8080_call 0x10)
  | 0xDF => Some (i8080_call 0x18)
  | 0xE7 => Some (i8080_call 0x20)
  | 0xEF => Some (i8080_call 0x28)
  | 0xF7 => Some (i8080_call 0x30)
  | 0xFF => Some (i8080_call 0x38)
  | _ => None
  end.

(** stack and ports *)
Definition execute_stack (opcode : Z) : option (M unit) :=
  match opcode with
  | 0xC5 => Some (bc ← gets i8080_get_bc; i8080_push_stack bc)
  | 0xD5 => Some (de ← gets i8080_get_de; i8080_push_stack de)
  | 0xE5 => Some (hl ← gets i8080_get_hl; i8080_push_stack hl)
  | 0xF5 => Some (i8080_push_psw)
  | 0xC1 => Some (assign16 i8080_set_bc i8080_pop_stack)
  | 0xD1 => Some (assign16 i8080_set_de i8080_pop_stack)
  | 0xE1 => Some (assign16 i8080_set_hl i8080_pop_stack)
  | 0xF1 => Some (i8080_pop_psw)
  | 0xDB => Some (assign RA (port ← i8080_next_byte; port_read port))
  | 0xD3 => Some (port ← i8080_next_byte; a ← gets ra; port_write port a)
  | _ => None
  end.

(** A call of the x86 side. *)
Definition to_x86 (f : i8080 -> E -> i8080 * E) : M unit :=
  fun c e => let '(c, e) := f c e in Some (tt, c, e).

(** The extension of the V20: 0xED n n. *)
Definition execute_ed : M unit :=
  data ← i8080_next_byte;
  if data =? 0xED then
    n ← i8080_next_byte;
    to_x86 (interrupt_808x (u16 n))
  else if data =? 0xFD then
    to_x86 retem_i8080
  else
    hi ← i8080_next_byte; i8080_call (u16 ((hi <<< 8) .| data)).

(** The undocumented opcodes; 0xDD falls through to 0xFD. *)
Definition execute_undocumented (opcode : Z) : option (M unit) :=
  match opcode with
  | 0x08 | 0x10 | 0x18 | 0x20 | 0x28 | 0x30 | 0x38 => Some (mret tt)
  | 0xD9 => Some i8080_ret
  | 0xED => Some execute_ed
  | 0xDD | 0xFD => Some (addr ← i8080_next_word; i8080_call addr)
  | 0xCB => Some (assign16 i8080_jmp i8080_next_word)
  | _ => None
  end.

(** [switch (opcode)]: the groups above are disjoint. *)
Definition execute_switch (opcode : Z) : M unit :=
  let groups := [execute_moves; execute_add; execute_misc; execute_logic; execute_jumps;
                 execute_stack; execute_undocumented] in
  match head (omap (fun g : Z -> option (M unit) => g opcode) groups) with
  | Some m => m
  | None => mret tt
  end.

Definition i8080_execute (opcode : Z) : M unit :=
  add_cyc (nth (Z.to_nat opcode) OPCODES_CYCLES 0);;
  modify (fun c => if 0 <? interrupt_delay c
                   then c <| interrupt_delay := u8 (interrupt_delay c - 1) |> else c);;
  execute_switch opcode.

Definition i8080_step : M unit :=
  c ← gets id;
  if interrupt_pending c && iff_ c && (interrupt_delay c =? 0) then
    modify (fun c => c <| interrupt_pending := false |> <| iff_ := false |> <| halted := false |>);;
    v ← gets interrupt_vector; i8080_execute v
  else if negb (halted c) then
    opcode ← i8080_next_byte; i8080_execute opcode
  else mret tt.

(** ** The instruction set by bit fields

    The reference: an opcode is xxyyyzzz; [yyy] and [zzz] name registers
    ([None] is memory at HL), register pairs, conditions and accumulator
    operations. *)

Definition operand (n : Z) : option reg :=
  nth (Z.to_nat n) [Some RB; Some RC; Some RD; Some RE; Some RH; Some RL; None; Some RA] None.

Definition read_operand (o : option reg) : M Z :=
  match o with Some r => gets (get_reg r) | None => rb_at i8080_get_hl end.
Definition write_operand (o : option reg) (v : Z) : M unit :=
  match o with
  | Some r => modify (set_reg r v)
  | None => hl ← gets i8080_get_hl; i8080_wb hl v
  end.

(** BC, DE, HL and SP. *)
Definition get_pair (p : Z) (c : i8080) : Z :=
  nth (Z.to_nat p) [i8080_get_bc c; i8080_get_de c; i8080_get_hl c; sp c] 0.
Definition set_pair (p : Z) (c : i8080) (v : Z) : i8080 :=
  nth (Z.to_nat p) [i8080_set_bc c v; i8080_set_de c v; i8080_set_hl c v; set_sp c v] c.

(** NZ, Z, NC, C, PO, PE, P, M *)
Definition condition (y : Z) (c : i8080) : bool :=
  let f := nth (Z.to_nat (y >>> 1)) [zf c; cf c; pf c; sf c] false in
  if Z.odd y then f else negb f.

Definition alu (y : Z) (c : i8080) (v : Z) : i8080 :=
  nth (Z.to_nat y)
    [i8080_add c RA v false; i8080_add c RA v (cf c); i8080_sub c RA v false;
     i8080_sub c RA v (cf c); i8080_ana c v; i8080_xra c v; i8080_ora c v; i8080_cmp c v] c.

Definition step_operand (f : i8080 -> Z -> Z * i8080) (o : option reg) : M unit :=
  v ← read_operand o; r ← gets (fun c => f c v); modify (fun _ => r.2);; write_operand o r.1.

Definition isa_accumulator (y : Z) (c : i8080) : i8080 :=
  nth (Z.to_nat y)
    [i8080_rlc c; i8080_rrc c; i8080_ral c; i8080_rar c; i8080_daa c;
     c <| ra := u8 (Z.lnot (ra c)) |>; c <| cf := true |>; c <| cf := negb (cf c) |>] c.

Definition isa_direct (y : Z) : M unit :=
  nth (Z.to_nat y)
    [wb_at i8080_get_bc ra; assign RA (rb_at i8080_get_bc);
     wb_at i8080_get_de ra; assign RA (rb_at i8080_get_de);
     (addr ← i8080_next_word; hl ← gets i8080_get_hl; i8080_ww addr hl);
     assign16 i8080_set_hl (addr ← i8080_next_word; i8080_rw addr);
     (addr ← i8080_next_word; a ← gets ra; i8080_wb addr a);
     assign RA (addr ← i8080_next_word; i8080_rb addr)] (mret tt).

Definition isa_call : M unit := addr ← i8080_next_word; i8080_call addr.
Definition isa_jump : M unit := addr ← i8080_next_word; modify (fun c => i8080_jmp c addr).

Definition isa_special (y : Z) : M unit :=
  nth (Z.to_nat y)
    [isa_jump; isa_jump;
     (port ← i8080_next_byte; a ← gets ra; port_write port a);
     assign RA (port ← i8080_next_byte; port_read port);
     i8080_xthl; modify i8080_xchg; modify (fun c => c <| iff_ := false |>);
     modify (fun c => c <| iff_ := true |> <| interrupt_delay := 1 |>)] (mret tt).

Definition isa_00 (y z : Z) : M unit :=
  let p := y >>> 1 in
  nth (Z.to_nat z)
    [mret tt;
     (if Z.odd y then modify (fun c => i8080_dad c (get_pair p c))
      else v ← i8080_next_word; modify (fun c => set_pair p c v));
     isa_direct y;
     modify (fun c => set_pair p c (u16 (if Z.odd y then get_pair p c - 1 else get_pair p c + 1)));
     step_operand i8080_inr (operand y); step_operand i8080_dcr (operand y);
     (v ← i8080_next_byte; write_operand (operand y) v);
     modify (isa_accumulator y)] (mret tt).

(** RET (twice), PCHL and SPHL. *)
Definition isa_pointer (p : Z) : M unit :=
  nth (Z.to_nat p)
    [i8080_ret; i8080_ret; modify (fun c => i8080_jmp c (i8080_get_hl c));
     modify (fun c => set_sp c (i8080_get_hl c))] (mret tt).

Definition isa_11 (y z : Z) : M unit :=
  let p := y >>> 1 in
  nth (Z.to_nat z)
    [(cc ← gets (condition y); i8080_cond_ret cc);
     (if Z.odd y then
        isa_pointer p
      else if p =? 3 then i8080_pop_psw
      else v ← i8080_pop_stack; modify (fun c => set_pair p c v));
     (cc ← gets (condition y); i8080_cond_jmp cc);
     isa_special y;
     (cc ← gets (condition y); i8080_cond_call cc);
     (if Z.odd y then (if p =? 2 then execute_ed else isa_call)
      else if p =? 3 then i8080_push_psw
      else v ← gets (get_pair p); i8080_push_stack v);
     (v ← i8080_next_byte; modify (fun c => alu y c v));
     i8080_call (8 * y)] (mret tt).

Definition isa (opcode : Z) : M unit :=
  let x := opcode >>> 6 in
  let y := (opcode >>> 3) .& 7 in
  let z := opcode .& 7 in
  if x =? 0 then isa_00 y z
  else if x =? 1 then
    (if (y =? 6) && (z =? 6) then modify (fun c => c <| halted := true |>)
     else v ← read_operand (operand z); write_operand (operand y) v)
  else if x =? 2 then v ← read_operand (operand z); modify (fun c => alu y c v)
  else isa_11 y z.

Lemma execute_switch_isa opcode c e :
  is_u8 opcode -> execute_switch opcode c e = isa opcode c e.
Proof. byte_cases opcode. Qed.

(** What [i8080_execute] does before the switch. *)
Definition count_cycles (opcode : Z) : M unit :=
  add_cyc (nth (Z.to_nat opcode) OPCODES_CYCLES 0);;
  modify (fun c => if 0 <? interrupt_delay c
                   then c <| interrupt_delay := u8 (interrupt_delay c - 1) |> else c).

(** C13: the 256-way switch of [i8080_execute] is the 8080 instruction set:
    after the cycles are counted and the interrupt delay has run down, every
    opcode, the undocumented ones included, does what its bit fields say
    (operation, operands, register pair, condition), with 0xED the only
    addition. *)
Theorem execute_decodes opcode c e :
  is_u8 opcode ->
  i8080_execute opcode c e = (count_cycles opcode;; isa opcode) c e.
Proof.
  intros Ho. unfold i8080_execute, count_cycles, add_cyc, mbind, M_bind, modify.
  by apply execute_switch_isa.
Qed.

End i8080.

(** ** Arithmetic and flags *)

(** All five arithmetic flags at once. *)
Definition with_flags (s z h p y : bool) (c : i8080) : i8080 :=
  c <| sf := s |> <| zf := z |> <| hf := h |> <| pf := p |> <| cf := y |>.

(** The flags of a result byte, the half carry and carry given. *)
Definition result_flags (v : Z) (h y : bool) (c : i8080) : i8080 :=
  with_flags (128 <=? v) (v =? 0) h (negb (foldr xorb false (Z.testbit v <$> seqZ 0 8))) y c.

(** A record of known fields is compared field by field. *)
Ltac i8080_eq c := destruct c; cbv; f_equal.

Lemma parity_spec v :
  is_u8 v -> parity v = negb (foldr xorb false (Z.testbit v <$> seqZ 0 8)).
Proof. intros Hv. apply eqb_prop. revert v Hv. by apply u8_forallb; vm_compute. Qed.

Lemma sign_spec v : is_u8 v -> ctrue (v >>> 7) = (128 <=? v).
Proof. intros Hv. apply eqb_prop. revert v Hv. by apply u8_forallb; vm_compute. Qed.

Lemma SET_ZSP_spec c v : is_u8 v -> SET_ZSP c v = result_flags v (hf c) (cf c) c.
Proof.
  intros Hv. unfold SET_ZSP. rewrite parity_spec, sign_spec by done. destruct c. reflexivity.
Qed.

(** A bit of a sum is the exclusive or of the operands' bits and the carry
    into it. *)
Lemma testbit_add_carry k a b n :
  0 <= k -> 0 <= n < 2 ->
  Z.testbit (a + b + n) k =
  xorb (xorb (Z.testbit a k) (Z.testbit b k)) (2 ^ k <=? a `mod` 2 ^ k + b `mod` 2 ^ k + n).
Proof.
  intros Hk Hn. assert (0 < 2 ^ k) as Hp by lia.
  rewrite !Z.testbit_odd, !Z.shiftr_div_pow2 by done.
  rewrite (Z.div_mod a (2 ^ k)), (Z.div_mod b (2 ^ k)) at 1 by lia.
  set (x := a `div` 2 ^ k). set (y := b `div` 2 ^ k).
  set (l := a `mod` 2 ^ k + b `mod` 2 ^ k + n).
  replace (2 ^ k * x + a `mod` 2 ^ k + (2 ^ k * y + b `mod` 2 ^ k) + n)
    with ((x + y) * 2 ^ k + l) by (unfold l; lia).
  rewrite Z.div_add_l, !Z.odd_add by lia. f_equal.
  pose proof (Z.mod_pos_bound a (2 ^ k) Hp). pose proof (Z.mod_pos_bound b (2 ^ k) Hp).
  destruct (Z.leb_spec (2 ^ k) l).
  - replace (l `div` 2 ^ k) with 1; [done|]. apply Z.div_unique with (l - 2 ^ k); unfold l in *; lia.
  - rewrite Z.div_small; [done|]. unfold l in *. lia.
Qed.

Lemma carry_spec k a b cy :
  0 <= k <= 8 -> is_u8 a -> is_u8 b ->
  carry k a b cy = (2 ^ k <=? a `mod` 2 ^ k + b `mod` 2 ^ k + cbool cy).
Proof.
  intros Hk Ha Hb. unfold carry.
  assert (in_width 9 (a + b + cbool cy)) as Hs by (unfold in_width in *; destruct cy; cbn; lia).
  rewrite (swrap_id 16 (a + b + cbool cy)) by (unfold in_width in *; lia).
  assert (in_width 9 ((a + b + cbool cy) .^ a .^ b)) as Hx.
  { apply in_width_lxor; [lia| |by apply (in_width_mono 8)].
    apply in_width_lxor; [lia|done|by apply (in_width_mono 8)]. }
  rewrite swrap_id by (unfold in_width in *; lia).
  rewrite shiftl_1, ctrue_bit, !Z.lxor_spec, testbit_add_carry by (destruct cy; cbn; lia).
  by destruct (Z.testbit a k), (Z.testbit b k), (2 ^ k <=? _).
Qed.

Lemma i8080_add_eq c r val cy :
  is_u8 (get_reg r c) -> is_u8 val ->
  let sum := get_reg r c + val + cbool cy in
  i8080_add c r val cy =
  set_reg r (u8 sum)
    (result_flags (u8 sum) (16 <=? get_reg r c `mod` 16 + val `mod` 16 + cbool cy)
       (256 <=? sum) c).
Proof.
  intros Ha Hv sum. unfold i8080_add.
  rewrite !carry_spec by (try done; lia).
  rewrite SET_ZSP_spec by (apply wrap_range; lia).
  change (2 ^ 8) with 256. change (2 ^ 4) with 16.
  rewrite (Z.mod_small (get_reg r c) 256) by exact Ha. rewrite (Z.mod_small val 256) by exact Hv.
  fold sum. by destruct r, c.
Qed.

Lemma u8_lnot x : is_u8 x -> u8 (Z.lnot x) = 255 - x.
Proof.
  unfold in_width. intros Hx. unfold wrap, Z.lnot.
  symmetry. apply Z.mod_unique with (-1); lia.
Qed.

Lemma i8080_sub_eq c r val cy :
  is_u8 (get_reg r c) -> is_u8 val ->
  let diff := get_reg r c - val - cbool cy in
  i8080_sub c r val cy =
  set_reg r (u8 diff)
    (result_flags (u8 diff)
       (negb (get_reg r c `mod` 16 <? val `mod` 16 + cbool cy)) (diff <? 0) c).
Proof.
  intros Ha Hv diff. unfold i8080_sub. rewrite u8_lnot by done.
  assert (is_u8 (255 - val)) as Hn by (unfold in_width in *; lia).
  rewrite i8080_add_eq by done. set (a := get_reg r c) in *.
  assert (u8 (a + (255 - val) + cbool (negb cy)) = u8 diff) as ->.
  { unfold wrap, diff. replace (a + (255 - val) + cbool (negb cy)) with (a - val - cbool cy + 1 * 256)
      by (destruct cy; cbn; lia). apply Z.mod_add. lia. }
  assert ((16 <=? a `mod` 16 + (255 - val) `mod` 16 + cbool (negb cy))
          = negb (a `mod` 16 <? val `mod` 16 + cbool cy)) as ->.
  { replace ((255 - val) `mod` 16) with (15 - val `mod` 16).
    - destruct cy; cbn; destruct (Z.leb_spec 16 (a `mod` 16 + (15 - val `mod` 16) + 0)),
        (Z.leb_spec 16 (a `mod` 16 + (15 - val `mod` 16) + 1)),
        (Z.ltb_spec (a `mod` 16) (val `mod` 16 + 0)),
        (Z.ltb_spec (a `mod` 16) (val `mod` 16 + 1)); cbn; lia.
    - pose proof (Z.div_mod val 16). pose proof (Z.mod_pos_bound val 16).
      apply Z.mod_unique with (15 - val `div` 16); lia. }
  assert ((256 <=? a + (255 - val) + cbool (negb cy)) = negb (diff <? 0)) as ->.
  { unfold diff. destruct cy; cbn.
    - destruct (Z.leb_spec 256 (a + (255 - val) + 0)), (Z.ltb_spec (a - val - 1) 0); cbn; lia.
    - destruct (Z.leb_spec 256 (a + (255 - val) + 1)), (Z.ltb_spec (a - val - 0) 0); cbn; lia. }
  destruct r, c; cbn; by rewrite negb_involutive.
Qed.

(** Register writes and reads. *)
Lemma get_set_reg r r' v c : get_reg r (set_reg r' v c) = if decide (r = r') then v else get_reg r c.
Proof. by destruct r, r', c. Qed.

Lemma get_reg_flags r v h y c : get_reg r (result_flags v h y c) = get_reg r c.
Proof. by destruct r. Qed.

Lemma cf_set_reg r v v' h y c : cf (set_reg r v (result_flags v' h y c)) = y.
Proof. by destruct r. Qed.

Lemma hf_set_reg r v v' h y c : hf (set_reg r v (result_flags v' h y c)) = h.
Proof. by destruct r. Qed.

(** C14: the accumulator arithmetic is exact: ADD/ADC leave in the register
    and the carry the nine-bit sum, SUB/SBB the difference with the carry as
    borrow; the half carry is the carry (the absence of a borrow) between the
    digits, sign, zero and parity describe the result, and nothing else
    changes. *)
Theorem add_sub_exact c r val cy :
  is_u8 (get_reg r c) -> is_u8 val ->
  let a := get_reg r c in
  let c1 := i8080_add c r val cy in
  let c2 := i8080_sub c r val cy in
  is_u8 (get_reg r c1) /\ is_u8 (get_reg r c2) /\
  get_reg r c1 + 256 * cbool (cf c1) = a + val + cbool cy /\
  get_reg r c2 - 256 * cbool (cf c2) = a - val - cbool cy /\
  hf c1 = (16 <=? a `mod` 16 + val `mod` 16 + cbool cy) /\
  hf c2 = negb (a `mod` 16 <? val `mod` 16 + cbool cy) /\
  c1 = set_reg r (get_reg r c1) (result_flags (get_reg r c1) (hf c1) (cf c1) c) /\
  c2 = set_reg r (get_reg r c2) (result_flags (get_reg r c2) (hf c2) (cf c2) c).
Proof.
  intros Ha Hv a c1 c2. subst c1 c2. rewrite i8080_add_eq, i8080_sub_eq by done.
  rewrite !get_set_reg, !cf_set_reg, !hf_set_reg, !decide_True by done. fold a.
  split; [apply wrap_range; lia|]. split; [apply wrap_range; lia|].
  unfold in_width in *. fold a in Ha. split_and!; try done; unfold wrap.
  - destruct (Z.leb_spec 256 (a + val + cbool cy)); cbn [cbool].
    + rewrite <- (Z.mod_unique (a + val + cbool cy) (2 ^ 8) 1 (a + val + cbool cy - 256));
        destruct cy; cbn [cbool] in *; lia.
    + rewrite Z.mod_small; destruct cy; cbn [cbool] in *; lia.
  - destruct (Z.ltb_spec (a - val - cbool cy) 0); cbn [cbool].
    + rewrite <- (Z.mod_unique (a - val - cbool cy) (2 ^ 8) (-1) (a - val - cbool cy + 256));
        destruct cy; cbn [cbool] in *; lia.
    + rewrite Z.mod_small; destruct cy; cbn [cbool] in *; lia.
Qed.

Definition c0 : i8080 :=
  mkI8080 (Some 1) (Some 1) (Some 2) (Some 3) (Some 3) (UUser 0) 0 0x100 0x200
    0x15 0x27 0 0 0 0 0 false false false false false false false false 0 0.

Lemma add_sub_exact_witness :
  get_reg RA (i8080_sub c0 RA 0x27 false) = 0xEE /\
  get_reg RA (i8080_sub c0 RA 0x27 false) - 256 * cbool (cf (i8080_sub c0 RA 0x27 false)) = 0x15 - 0x27 - 0.
Proof.
  split; [reflexivity|].
  refine (proj1 (proj2 (proj2 (proj2 (add_sub_exact c0 RA 0x27 false _ _)))));
    unfold in_width; cbn; lia.
Defined.

(** The bits of a difference, by the borrow. *)
Lemma testbit_sub_borrow k a b :
  0 <= k ->
  Z.testbit (a - b) k =
  xorb (xorb (Z.testbit a k) (Z.testbit b k)) (a `mod` 2 ^ k <? b `mod` 2 ^ k).
Proof.
  intros Hk. replace (a - b) with (a + Z.lnot b + 1) by (unfold Z.lnot; lia).
  rewrite testbit_add_carry, Z.lnot_spec by lia.
  assert (Z.lnot b `mod` 2 ^ k = 2 ^ k - 1 - b `mod` 2 ^ k) as ->.
  { pose proof (Z.div_mod b (2 ^ k)). pose proof (Z.mod_pos_bound b (2 ^ k)).
    symmetry. apply Z.mod_unique with (- b `div` 2 ^ k - 1); unfold Z.lnot; lia. }
  set (x := a `mod` 2 ^ k). set (y := b `mod` 2 ^ k).
  destruct (Z.testbit a k), (Z.testbit b k), (Z.leb_spec (2 ^ k) (x + (2 ^ k - 1 - y) + 1)),
    (Z.ltb_spec x y); cbn; lia.
Qed.

(** CMP is SUB that keeps the accumulator. *)
Theorem i8080_cmp_sub c val :
  is_u8 (ra c) -> is_u8 val ->
  i8080_cmp c val = (i8080_sub c RA val false) <| ra := ra c |>.
Proof.
  intros Ha Hv. rewrite i8080_sub_eq by done. unfold i8080_cmp. cbn [get_reg cbool].
  rewrite swrap_id by (unfold in_width in *; lia). rewrite !Z.sub_0_r, Z.add_0_r.
  set (d := ra c - val). change 0xFF with (Z.ones 8). rewrite land_mask by lia.
  assert (ctrue (d >>> 8) = (d <? 0)) as ->.
  { unfold ctrue. rewrite Z.shiftr_div_pow2 by lia. unfold in_width in *. destruct (Z.ltb_spec d 0).
    - rewrite <- (Z.div_unique d (2 ^ 8) (-1) (d + 256)) by lia. done.
    - by rewrite Z.div_small by lia. }
  assert (ctrue (Z.lnot (ra c .^ d .^ val) .& 0x10) = negb (ra c `mod` 16 <? val `mod` 16)) as ->.
  { change 0x10 with (2 ^ 4). rewrite ctrue_bit, Z.lnot_spec, !Z.lxor_spec by lia. unfold d.
    rewrite testbit_sub_borrow by lia. change (2 ^ 4) with 16.
    by destruct (Z.testbit (ra c) 4), (Z.testbit val 4), (_ <? _). }
  fold (wrap 8 d). rewrite SET_ZSP_spec by (apply wrap_range; lia). by destruct c.
Qed.

Lemma i8080_cmp_sub_witness :
  i8080_cmp c0 0x27 = (i8080_sub c0 RA 0x27 false) <| ra := 0x15 |> /\ cf (i8080_cmp c0 0x27) = true.
Proof.
  split; [|reflexivity]. refine (i8080_cmp_sub c0 0x27 _ _); unfold in_width; cbn; lia.
Defined.

(** The two-digit packed decimal of a number below 100. *)
Definition bcd (n : Z) : Z := 16 * (n `div` 10) + n `mod` 10.

(** DAA by its two tests. *)
Lemma i8080_daa_eq c :
  is_u8 (ra c) ->
  let low := hf c || (9 <? ra c `mod` 16) in
  let high := cf c || (9 <? ra c `div` 16) || ((9 <=? ra c `div` 16) && (9 <? ra c `mod` 16)) in
  ra (i8080_daa c) = u8 (ra c + (if low then 6 else 0) + (if high then 96 else 0)) /\
  cf (i8080_daa c) = high.
Proof.
  intros Ha low high. unfold i8080_daa.
  change 0x0F with (Z.ones 4). rewrite land_mask, Z.shiftr_div_pow2 by lia.
  change (2 ^ 4) with 16. fold low high.
  assert (forall k y, is_u8 k ->
    ra ((i8080_add c RA k false) <| cf := y |>) = u8 (ra c + k)) as Hadd.
  { intros k y Hk. rewrite i8080_add_eq by done. by rewrite Z.add_0_r. }
  split.
  - clearbody low high. change (u8 (0 + 6)) with 6.
    destruct low, high; cbv iota zeta beta;
      [change (u8 (6 + 96)) with 102| |change (u8 (0 + 96)) with 96|];
      (rewrite Hadd by (split; vm_compute; congruence)); apply (f_equal (wrap 8)); lia.
  - assert (high = false -> cf c = false) as Hc by (unfold high; by destruct (cf c)).
    clearbody low high. by destruct high; cbn; [|rewrite Hc].
Qed.

Lemma bcd_u8 n : 0 <= n < 100 -> is_u8 (bcd n).
Proof. intros. unfold in_width, bcd. Z.div_mod_to_equations. lia. Qed.

(** DAA on the digit sums [h] and [t], the carry into the low digit in [t]. *)
Definition daa_digits (h t : Z) : bool :=
  let v := u8 (16 * h + t) in
  let low := (16 <=? t) || (9 <? v `mod` 16) in
  let high := (256 <=? 16 * h + t) || (9 <? v `div` 16) || ((9 <=? v `div` 16) && (9 <? v `mod` 16)) in
  (u8 (v + (if low then 6 else 0) + (if high then 96 else 0)) =? bcd ((10 * h + t) `mod` 100))
  && Bool.eqb high (100 <=? 10 * h + t).

Lemma daa_digits_ok h t : 0 <= h < 19 -> 0 <= t < 20 -> daa_digits h t = true.
Proof.
  intros Hh Ht.
  assert (forallb (fun h => forallb (daa_digits h) (seqZ 0 20)) (seqZ 0 19) = true) as H
    by by vm_compute.
  rewrite forallb_forall in H. specialize (H h). rewrite forallb_forall in H.
  apply H; apply list_elem_of_In, elem_of_seqZ; lia.
Qed.

(** C15: ADD or ADC of two packed decimals followed by DAA leaves the packed
    decimal sum modulo 100, with the carry exactly when it reaches 100. *)
Theorem i8080_daa_decimal c x y cy :
  0 <= x < 100 -> 0 <= y < 100 -> ra c = bcd x ->
  let c' := i8080_daa (i8080_add c RA (bcd y) cy) in
  ra c' = bcd ((x + y + cbool cy) `mod` 100) /\ cf c' = (100 <=? x + y + cbool cy).
Proof.
  intros Hx Hy Ha c'. pose proof (bcd_u8 x Hx) as Hbx. pose proof (bcd_u8 y Hy) as Hby.
  assert (is_u8 (ra (i8080_add c RA (bcd y) cy))) as Hr.
  { rewrite i8080_add_eq by (cbn; by rewrite ?Ha). apply wrap_range. lia. }
  destruct (i8080_daa_eq _ Hr) as [Hra Hcf]. subst c'. rewrite Hra, Hcf. clear Hra Hcf Hr.
  rewrite i8080_add_eq by (cbn; by rewrite ?Ha).
  change ra with (get_reg RA) in *. rewrite get_set_reg, cf_set_reg, hf_set_reg, decide_True by done.
  rewrite Ha. set (h := x `div` 10 + y `div` 10). set (t := x `mod` 10 + y `mod` 10 + cbool cy).
  assert (bcd x + bcd y + cbool cy = 16 * h + t) as -> by (unfold bcd, h, t; lia).
  assert (bcd x `mod` 16 + bcd y `mod` 16 + cbool cy = t) as ->
    by (unfold bcd, t; Z.div_mod_to_equations; lia).
  assert (x + y + cbool cy = 10 * h + t) as -> by (unfold h, t; Z.div_mod_to_equations; lia).
  assert (daa_digits h t = true) as Hd.
  { apply daa_digits_ok; unfold h, t; destruct cy; cbn [cbool]; Z.div_mod_to_equations; lia. }
  apply andb_prop in Hd as [Hv%Z.eqb_eq Hh%eqb_prop]. by rewrite Hv, Hh.
Qed.

Lemma i8080_daa_decimal_witness :
  ra (i8080_daa (i8080_add c0 RA (bcd 88) true)) = bcd 4 /\ bcd 15 = ra c0.
Proof.
  split; [|reflexivity].
  refine (proj1 (i8080_daa_decimal c0 15 88 true _ _ _)); [lia|lia|reflexivity].
Defined.

(** The bytes of the rotations. *)
Definition rotl (a : Z) (cy : bool) : Z := u8 ((a <<< 1) .| cbool cy).
Definition rotr (a : Z) (cy : bool) : Z := u8 ((a >>> 1) .| (cbool cy <<< 7)).

Definition rotates_ok (a : Z) : bool :=
  forallb (fun cy =>
    (rotr (rotl a cy) (ctrue (a >>> 7)) =? a) && Bool.eqb (ctrue (rotl a cy .& 1)) cy &&
    (rotl (rotr a cy) (ctrue (a .& 1)) =? a) && Bool.eqb (ctrue (rotr a cy >>> 7)) cy)
    [true; false]
  && Bool.eqb (ctrue (a >>> 7)) (Z.testbit a 7) && Bool.eqb (ctrue (a .& 1)) (Z.testbit a 0).

Lemma rotate_bytes a :
  is_u8 a ->
  (forall cy, rotr (rotl a cy) (ctrue (a >>> 7)) = a /\ ctrue (rotl a cy .& 1) = cy /\
              rotl (rotr a cy) (ctrue (a .& 1)) = a /\ ctrue (rotr a cy >>> 7) = cy) /\
  ctrue (a >>> 7) = Z.testbit a 7 /\ ctrue (a .& 1) = Z.testbit a 0.
Proof.
  intros Ha. assert (rotates_ok a = true) as H by (revert a Ha; by apply u8_forallb; vm_compute).
  unfold rotates_ok in H. rewrite !andb_true_iff, !eqb_true_iff, forallb_forall in H.
  destruct H as [[H H7] H0]. split; [|done]. intros cy. specialize (H cy).
  rewrite !andb_true_iff, !eqb_true_iff, !Z.eqb_eq in H.
  destruct H as [[[? ?] ?] ?]; [by destruct cy; cbn; auto|done].
Qed.

(** RAL and RAR are inverse rotations of the nine bits formed by the
    accumulator and the carry, RLC and RRC of the accumulator's eight. *)
Theorem rotates_inverse c :
  is_u8 (ra c) ->
  i8080_rar (i8080_ral c) = c /\ i8080_ral (i8080_rar c) = c /\
  ra (i8080_rrc (i8080_rlc c)) = ra c /\ ra (i8080_rlc (i8080_rrc c)) = ra c /\
  cf (i8080_rlc c) = Z.testbit (ra c) 7 /\ cf (i8080_rrc c) = Z.testbit (ra c) 0.
Proof.
  intros Ha. destruct (rotate_bytes _ Ha) as (H & H7 & H0).
  destruct (H (cf c)) as (L1 & L2 & R1 & R2).
  destruct (H (ctrue (ra c >>> 7))) as (L3 & L4 & _). destruct (H (ctrue (ra c .& 1))) as (_ & _ & R3 & R4).
  split_and!.
  - transitivity (c <| cf := ctrue (rotl (ra c) (cf c) .& 1) |>
                    <| ra := rotr (rotl (ra c) (cf c)) (ctrue (ra c >>> 7)) |>); [done|].
    rewrite L1, L2. by destruct c.
  - transitivity (c <| cf := ctrue (rotr (ra c) (cf c) >>> 7) |>
                    <| ra := rotl (rotr (ra c) (cf c)) (ctrue (ra c .& 1)) |>); [done|].
    rewrite R1, R2. by destruct c.
  - transitivity (rotr (rotl (ra c) (ctrue (ra c >>> 7))) (ctrue (rotl (ra c) (ctrue (ra c >>> 7)) .& 1)));
      [done|by rewrite L4].
  - transitivity (rotl (rotr (ra c) (ctrue (ra c .& 1))) (ctrue (rotr (ra c) (ctrue (ra c .& 1)) >>> 7)));
      [done|by rewrite R4].
  - done.
  - done.
Qed.

Lemma rotates_inverse_witness :
  ra (i8080_rrc (i8080_rlc c0)) = 0x15 /\ ra (i8080_rlc c0) = 0x2A.
Proof.
  split; [|reflexivity].
  refine (proj1 (proj2 (proj2 (rotates_inverse c0 _)))); unfold in_width; cbn; lia.
Defined.

(** ** Widths, and no NULL call *)

Record i8080_wf (c : i8080) : Prop := {
  wf_read : is_Some (read_byte c);
  wf_write : is_Some (write_byte c);
  wf_in : is_Some (port_in c);
  wf_out : is_Some (port_out c);
  wf_a : is_u8 (ra c); wf_b : is_u8 (rb c); wf_c : is_u8 (rc c); wf_d : is_u8 (rd c);
  wf_e : is_u8 (re c); wf_h : is_u8 (rh c); wf_l : is_u8 (rl c);
  wf_pc : is_u16 (pc c); wf_sp : is_u16 (sp c);
  wf_cyc : is_u64 (cyc c);
  wf_vector : is_u8 (interrupt_vector c);
  wf_delay : 0 <= interrupt_delay c <= 1;
}.

(** A well-formed structure is one field by field. *)
Ltac wf_fields :=
  let H := fresh "H" in
  intros H; destruct H; constructor; cbn -[wrap] in *; auto with cint; try (by eauto);
  try (apply wrap_range; lia).

Create HintDb i8080.

Lemma wf_set_reg r v c : is_u8 v -> i8080_wf c -> i8080_wf (set_reg r v c).
Proof. intros Hv. destruct r; wf_fields. Qed.

Lemma wf_flags v h y c : i8080_wf c -> i8080_wf (result_flags v h y c).
Proof. wf_fields. Qed.

Lemma wf_pair_bc c v : i8080_wf c -> i8080_wf (i8080_set_bc c v).
Proof. wf_fields. Qed.
Lemma wf_pair_de c v : i8080_wf c -> i8080_wf (i8080_set_de c v).
Proof. wf_fields. Qed.
Lemma wf_pair_hl c v : i8080_wf c -> i8080_wf (i8080_set_hl c v).
Proof. wf_fields. Qed.

Lemma wf_set_sp c v : is_u16 v -> i8080_wf c -> i8080_wf (set_sp c v).
Proof. intros Hv. wf_fields. Qed.
Lemma wf_jmp c v : is_u16 v -> i8080_wf c -> i8080_wf (i8080_jmp c v).
Proof. intros Hv. wf_fields. Qed.

Lemma wf_set_pc c v : is_u16 v -> i8080_wf c -> i8080_wf (c <| pc := v |>).
Proof. apply wf_jmp. Qed.
Lemma wf_set_sp' c v : is_u16 v -> i8080_wf c -> i8080_wf (c <| sp := v |>).
Proof. apply wf_set_sp. Qed.
Lemma wf_set_cyc c v : is_u64 v -> i8080_wf c -> i8080_wf (c <| cyc := v |>).
Proof. intros Hv. wf_fields. Qed.
Lemma wf_set_psw af c : i8080_wf c -> i8080_wf (set_psw af c).
Proof. wf_fields. Qed.
Lemma wf_set_iff c y : i8080_wf c -> i8080_wf (c <| iff_ := y |>).
Proof. wf_fields. Qed.
Lemma wf_ei c : i8080_wf c -> i8080_wf (c <| iff_ := true |> <| interrupt_delay := 1 |>).
Proof. wf_fields. Qed.
Lemma wf_halt c y : i8080_wf c -> i8080_wf (c <| halted := y |>).
Proof. wf_fields. Qed.
Lemma wf_pending c y : i8080_wf c -> i8080_wf (c <| interrupt_pending := y |>).
Proof. wf_fields. Qed.

Lemma wf_set_cf c y : i8080_wf c -> i8080_wf (c <| cf := y |>).
Proof. wf_fields. Qed.

Lemma wf_dad c v : i8080_wf c -> i8080_wf (i8080_dad c v).
Proof. intros. unfold i8080_dad. apply wf_pair_hl. by apply wf_set_cf. Qed.

Lemma wf_get_reg r c : i8080_wf c -> is_u8 (get_reg r c).
Proof. intros []. by destruct r. Qed.

Lemma wf_add r c v cy : is_u8 v -> i8080_wf c -> i8080_wf (i8080_add c r v cy).
Proof.
  intros Hv Hc. rewrite i8080_add_eq by (try done; by apply wf_get_reg).
  apply wf_set_reg; [apply wrap_range; lia|]. by apply wf_flags.
Qed.

Lemma wf_sub r c v cy : is_u8 v -> i8080_wf c -> i8080_wf (i8080_sub c r v cy).
Proof.
  intros Hv Hc. rewrite i8080_sub_eq by (try done; by apply wf_get_reg).
  apply wf_set_reg; [apply wrap_range; lia|]. by apply wf_flags.
Qed.

Lemma wf_inr c v : i8080_wf c -> is_u8 (i8080_inr c v).1 /\ i8080_wf (i8080_inr c v).2.
Proof. intros Hc. split; [apply wrap_range; lia|]. revert Hc. wf_fields. Qed.
Lemma wf_dcr c v : i8080_wf c -> is_u8 (i8080_dcr c v).1 /\ i8080_wf (i8080_dcr c v).2.
Proof. intros Hc. split; [apply wrap_range; lia|]. revert Hc. wf_fields. Qed.

Lemma wf_daa c : i8080_wf c -> i8080_wf (i8080_daa c).
Proof.
  intros Hc. unfold i8080_daa.
  set (k := if hf c || _ then _ else _). assert (is_u8 k) as Hk by (unfold k; case_match; width).
  destruct (cf c || _ || _); cbv iota beta; apply wf_set_cf, wf_add; auto with cint.
Qed.

Lemma wf_ana c v : i8080_wf c -> i8080_wf (i8080_ana c v).
Proof. wf_fields. Qed.
Lemma wf_xra c v : i8080_wf c -> i8080_wf (i8080_xra c v).
Proof. wf_fields. Qed.
Lemma wf_ora c v : i8080_wf c -> i8080_wf (i8080_ora c v).
Proof. wf_fields. Qed.
Lemma wf_cmp c v : i8080_wf c -> i8080_wf (i8080_cmp c v).
Proof. wf_fields. Qed.
Lemma wf_rlc c : i8080_wf c -> i8080_wf (i8080_rlc c).
Proof. wf_fields. Qed.
Lemma wf_rrc c : i8080_wf c -> i8080_wf (i8080_rrc c).
Proof. wf_fields. Qed.
Lemma wf_ral c : i8080_wf c -> i8080_wf (i8080_ral c).
Proof. wf_fields. Qed.
Lemma wf_rar c : i8080_wf c -> i8080_wf (i8080_rar c).
Proof. wf_fields. Qed.
Lemma wf_cma c : i8080_wf c -> i8080_wf (c <| ra := u8 (Z.lnot (ra c)) |>).
Proof. wf_fields. Qed.
Lemma wf_xchg c : i8080_wf c -> i8080_wf (i8080_xchg c).
Proof. wf_fields. Qed.

#[local] Hint Resolve wf_dad wf_set_pc wf_set_sp' wf_set_cyc wf_set_psw wf_set_iff wf_ei wf_halt wf_pending wf_set_reg wf_flags wf_pair_bc wf_pair_de wf_pair_hl wf_set_sp wf_jmp wf_add
  wf_sub wf_inr wf_dcr wf_set_cf wf_daa wf_ana wf_xra wf_ora wf_cmp wf_rlc wf_rrc wf_ral wf_rar
  wf_cma wf_xchg wf_get_reg : i8080.
#[local] Hint Extern 1 (is_u8 (wrap 8 _)) => (apply wrap_range; lia) : i8080.
#[local] Hint Extern 1 (is_u64 (wrap 64 _)) => (apply wrap_range; lia) : i8080.
#[local] Hint Extern 1 (is_u16 (wrap 16 _)) => (apply wrap_range; lia) : i8080.

Lemma get_bc_u16 c : is_u16 (i8080_get_bc c).
Proof. apply wrap_range. lia. Qed.
Lemma get_de_u16 c : is_u16 (i8080_get_de c).
Proof. apply wrap_range. lia. Qed.
Lemma get_hl_u16 c : is_u16 (i8080_get_hl c).
Proof. apply wrap_range. lia. Qed.
#[local] Hint Resolve get_bc_u16 get_de_u16 get_hl_u16 wf_sp wf_pc wf_a : i8080.

(** Every entry of a table, and its default, has a property. *)
Ltac nth_cases :=
  repeat (apply Forall_cons_2; [auto with i8080|]); [..|by apply Forall_nil_2].

Lemma wf_accumulator y c : i8080_wf c -> i8080_wf (isa_accumulator y c).
Proof. intros Hc. unfold isa_accumulator. apply Forall_nth_default; [|done]. nth_cases. Qed.

Lemma wf_alu y c v : is_u8 v -> i8080_wf c -> i8080_wf (alu y c v).
Proof. intros Hv Hc. unfold alu. apply Forall_nth_default; [|done]. nth_cases. Qed.

Lemma wf_set_pair p c v : is_u16 v -> i8080_wf c -> i8080_wf (set_pair p c v).
Proof. intros Hv Hc. unfold set_pair. apply Forall_nth_default; [|done]. nth_cases. Qed.

Lemma wf_get_pair p c : i8080_wf c -> is_u16 (get_pair p c).
Proof.
  intros Hc. unfold get_pair. apply Forall_nth_default; [|done].
  nth_cases.
Qed.

(** ** Programs that never fail *)

Section safety.
Context {E : Type} `{!I8080Env E}.

(** The x86 side keeps the structure well formed. *)
Context (interrupt_wf : forall n c e, i8080_wf c -> i8080_wf (interrupt_808x n c e).1).
Context (retem_wf : forall c e, i8080_wf c -> i8080_wf (retem_i8080 c e).1).

(** From a well-formed structure the program returns, with a result in [Q] and
    a well-formed structure. *)
Definition safe {A} (Q : A -> Prop) (m : M (E := E) A) : Prop :=
  forall c e, i8080_wf c -> exists r c' e', m c e = Some (r, c', e') /\ i8080_wf c' /\ Q r.

Lemma safe_ret {A} (Q : A -> Prop) x : Q x -> safe Q (mret x).
Proof. intros HQ c e Hc. by exists x, c, e. Qed.

Lemma safe_bind {A B} (P : A -> Prop) (Q : B -> Prop) (m : M A) (k : A -> M B) :
  safe P m -> (forall x, P x -> safe Q (k x)) -> safe Q (m ≫= k).
Proof.
  intros Hm Hk c e Hc. destruct (Hm c e Hc) as (x & c1 & e1 & Em & Hc1 & Hx).
  destruct (Hk x Hx c1 e1 Hc1) as (r & c2 & e2 & Ek & Hc2 & Hr). exists r, c2, e2.
  split; [|done]. unfold mbind, M_bind. by rewrite Em.
Qed.

Lemma safe_gets {A} (Q : A -> Prop) (f : i8080 -> A) : (forall c, i8080_wf c -> Q (f c)) -> safe Q (gets f).
Proof. intros HQ c e Hc. exists (f c), c, e. auto. Qed.

Lemma safe_modify f : (forall c, i8080_wf c -> i8080_wf (f c)) -> safe (fun _ => True) (modify f).
Proof. intros Hf c e Hc. exists tt, (f c), e. auto. Qed.

Lemma safe_read f u addr : safe is_u8 (read_with f u addr).
Proof.
  intros c e Hc. unfold read_with. destruct (call_read _ _ _ e) as [v e'].
  exists (u8 v), c, e'. auto with i8080.
Qed.

Lemma safe_rb addr : safe is_u8 (i8080_rb addr).
Proof.
  apply (safe_bind is_Some); [apply safe_gets; apply wf_read|]. intros _ [f ->].
  apply (safe_bind (fun _ => True)); [by apply safe_gets|]. intros u _. apply safe_read.
Qed.

Lemma safe_wb addr v : safe (fun _ => True) (i8080_wb addr v).
Proof.
  apply (safe_bind is_Some); [apply safe_gets; apply wf_write|]. intros _ [f ->].
  apply (safe_bind (fun _ => True)); [by apply safe_gets|]. intros u _ c e Hc.
  by eexists _, _, _.
Qed.

Lemma safe_port_read port : safe is_u8 (port_read port).
Proof.
  apply (safe_bind is_Some); [apply safe_gets; apply wf_in|]. intros _ [f ->].
  apply (safe_bind (fun _ => True)); [by apply safe_gets|]. intros u _ c e Hc. cbn.
  destruct (call_in _ _ _ _) as [v e']. exists (u8 v), c, e'. auto with i8080.
Qed.

Lemma safe_port_write port v : safe (fun _ => True) (port_write port v).
Proof.
  apply (safe_bind is_Some); [apply safe_gets; apply wf_out|]. intros _ [f ->].
  apply (safe_bind (fun _ => True)); [by apply safe_gets|]. intros u _ c e Hc.
  by eexists _, _, _.
Qed.

Lemma safe_x86 f : (forall c e, i8080_wf c -> i8080_wf (f c e).1) -> safe (fun _ => True) (to_x86 f).
Proof.
  intros Hf c e Hc. specialize (Hf c e Hc). unfold to_x86. destruct (f c e) as [c' e'].
  by eexists _, _, _.
Qed.

Lemma safe_bind_gets {A B} (Q : B -> Prop) (f : i8080 -> A) (k : A -> M B) :
  (forall c, i8080_wf c -> safe Q (k (f c))) -> safe Q (gets f ≫= k).
Proof. intros Hk c e Hc. by apply (Hk c Hc c e). Qed.

Lemma safe_bind_modify {B} (Q : B -> Prop) f (k : unit -> M B) :
  (forall c, i8080_wf c -> i8080_wf (f c)) -> safe Q (k tt) -> safe Q (modify f ≫= k).
Proof. intros Hf Hk. apply (safe_bind (fun _ => True)); [by apply safe_modify|by intros []]. Qed.

#[local] Hint Resolve safe_ret safe_gets safe_modify safe_read safe_rb safe_wb
  safe_port_read safe_port_write : i8080.
#[local] Hint Extern 1 (is_Some _) => eassumption : i8080.

(** Steps through a program: the next operation, with the widths of its result. *)
Ltac safe_go :=
  repeat first
    [ progress cbv beta
    | match goal with
      | |- safe _ (mbind _ (gets _)) => apply safe_bind_gets; intros ??
      | |- safe _ (mbind _ (modify _)) => apply safe_bind_modify; [solve [auto with i8080]|]
      | |- safe _ (mbind _ _) => eapply safe_bind; [solve [eauto with i8080]|intros ??]
      | |- safe _ (match _ with _ => _ end) => case_match
      end
    | solve [eauto with i8080] ].

Lemma safe_rw addr : safe is_u16 (i8080_rw addr).
Proof. unfold i8080_rw. safe_go. Qed.

Lemma safe_ww addr v : safe (fun _ => True) (i8080_ww addr v).
Proof. unfold i8080_ww. safe_go. Qed.

Lemma safe_pc_incr : safe is_u16 pc_incr.
Proof. unfold pc_incr. safe_go. Qed.

#[local] Hint Resolve safe_rw safe_ww safe_pc_incr : i8080.

Lemma safe_next_byte : safe is_u8 i8080_next_byte.
Proof. unfold i8080_next_byte. safe_go. Qed.

Lemma safe_fetch_word seg addr : safe is_u16 (fetch_word seg addr).
Proof. unfold fetch_word. safe_go. Qed.

#[local] Hint Resolve safe_fetch_word : i8080.

Lemma safe_next_word : safe is_u16 i8080_next_word.
Proof. unfold i8080_next_word. safe_go. Qed.

Lemma safe_push v : safe (fun _ => True) (i8080_push_stack v).
Proof. unfold i8080_push_stack. safe_go. Qed.

Lemma safe_pop : safe is_u16 i8080_pop_stack.
Proof. unfold i8080_pop_stack. safe_go. Qed.

#[local] Hint Resolve safe_next_byte safe_next_word safe_push safe_pop : i8080.

Lemma safe_call addr : is_u16 addr -> safe (fun _ => True) (i8080_call addr).
Proof. intros ?. unfold i8080_call. safe_go. Qed.

Lemma safe_ret_stack : safe (fun _ => True) i8080_ret.
Proof. unfold i8080_ret. safe_go. Qed.

Lemma safe_add_cyc n : safe (fun _ => True) (add_cyc n).
Proof. unfold add_cyc. safe_go. Qed.

#[local] Hint Resolve safe_call safe_ret_stack safe_add_cyc : i8080.

Lemma safe_cond_jmp b : safe (fun _ => True) (i8080_cond_jmp b).
Proof. unfold i8080_cond_jmp. safe_go. Qed.

Lemma safe_cond_call b : safe (fun _ => True) (i8080_cond_call b).
Proof. unfold i8080_cond_call. safe_go. Qed.

Lemma safe_cond_ret b : safe (fun _ => True) (i8080_cond_ret b).
Proof. unfold i8080_cond_ret. safe_go. Qed.

Lemma safe_push_psw : safe (fun _ => True) i8080_push_psw.
Proof. unfold i8080_push_psw. safe_go. Qed.

Lemma safe_pop_psw : safe (fun _ => True) i8080_pop_psw.
Proof. unfold i8080_pop_psw. safe_go. Qed.

Lemma safe_xthl : safe (fun _ => True) i8080_xthl.
Proof. unfold i8080_xthl. safe_go. Qed.

Lemma safe_ed : safe (fun _ => True) execute_ed.
Proof.
  unfold execute_ed. safe_go; apply safe_x86; auto.
Qed.

Lemma safe_assign r m : safe is_u8 m -> safe (fun _ => True) (assign r m).
Proof. intros Hm. unfold assign. safe_go. Qed.

Lemma safe_assign16 f m :
  (forall c v, is_u16 v -> i8080_wf c -> i8080_wf (f c v)) -> safe is_u16 m ->
  safe (fun _ => True) (assign16 f m).
Proof. intros Hf Hm. unfold assign16. safe_go. Qed.

Lemma safe_rb_at f : safe is_u8 (rb_at f).
Proof. unfold rb_at. safe_go. Qed.

Lemma safe_wb_at f v : safe (fun _ => True) (wb_at f v).
Proof. unfold wb_at. safe_go. Qed.

#[local] Hint Resolve safe_rb_at safe_wb_at safe_cond_jmp safe_cond_call safe_cond_ret safe_push_psw
  safe_pop_psw safe_xthl safe_ed safe_assign wf_alu wf_accumulator wf_set_pair wf_get_pair : i8080.

Lemma safe_read_operand o : safe is_u8 (read_operand o).
Proof. destruct o; cbn; auto with i8080. Qed.

Lemma safe_write_operand o v : is_u8 v -> safe (fun _ => True) (write_operand o v).
Proof. intros Hv. destruct o; cbn; safe_go. Qed.

Lemma safe_step_operand f o :
  (forall c v, i8080_wf c -> is_u8 (f c v).1 /\ i8080_wf (f c v).2) ->
  safe (fun _ => True) (step_operand f o).
Proof.
  intros Hf. unfold step_operand. eapply safe_bind; [apply safe_read_operand|]. intros v Hv.
  apply safe_bind_gets. intros c Hc. destruct (Hf c v Hc).
  apply safe_bind_modify; [auto|]. by apply safe_write_operand.
Qed.

#[local] Hint Resolve safe_read_operand safe_write_operand safe_step_operand : i8080.

(** A table of instructions, each safe. *)
Ltac safe_table :=
  apply Forall_nth_default; [|auto with i8080];
  repeat (apply Forall_cons_2;
    [match goal with
     | |- safe _ (assign16 _ _) => apply safe_assign16; [auto with i8080|safe_go]
     | |- safe _ (assign _ _) => apply safe_assign; safe_go
     | |- _ => safe_go
     end|]);
  [..|by apply Forall_nil_2].

Lemma safe_direct y : safe (fun _ => True) (isa_direct y).
Proof. unfold isa_direct. safe_table. Qed.

Lemma safe_special y : safe (fun _ => True) (isa_special y).
Proof. unfold isa_special, isa_jump. safe_table. Qed.

Lemma safe_pointer p : safe (fun _ => True) (isa_pointer p).
Proof. unfold isa_pointer. safe_table. Qed.

#[local] Hint Resolve safe_direct safe_special safe_pointer : i8080.

Lemma safe_00 y z : safe (fun _ => True) (isa_00 y z).
Proof. unfold isa_00. safe_table. Qed.

Lemma safe_11 y z : 0 <= y < 8 -> safe (fun _ => True) (isa_11 y z).
Proof.
  intros Hy. assert (is_u16 (8 * y)) by (unfold in_width; lia). unfold isa_11, isa_call. safe_table.
Qed.

Lemma safe_isa opcode : safe (fun _ => True) (isa opcode).
Proof.
  assert (0 <= (opcode >>> 3) .& 7 < 8) as Hy.
  { change 7 with (Z.ones 3). rewrite land_mask by lia. apply Z.mod_pos_bound. lia. }
  unfold isa. repeat case_match.
  - apply safe_00.
  - apply safe_modify. auto with i8080.
  - safe_go.
  - safe_go.
  - by apply safe_11.
Qed.

Lemma wf_delay_step c :
  i8080_wf c ->
  i8080_wf (if 0 <? interrupt_delay c
            then c <| interrupt_delay := u8 (interrupt_delay c - 1) |> else c).
Proof.
  intros Hc. destruct (Z.ltb_spec 0 (interrupt_delay c)); [|done].
  assert (interrupt_delay c = 1) as -> by (pose proof (wf_delay c Hc); lia).
  revert Hc. wf_fields.
Qed.

Lemma safe_execute opcode : is_u8 opcode -> safe (fun _ => True) (i8080_execute opcode).
Proof.
  intros Ho. unfold i8080_execute, add_cyc. apply safe_bind_modify; [auto with i8080|].
  apply safe_bind_modify; [apply wf_delay_step|]. intros c e Hc.
  rewrite execute_switch_isa by done. by apply safe_isa.
Qed.

Lemma wf_service c :
  i8080_wf c ->
  i8080_wf (c <| interrupt_pending := false |> <| iff_ := false |> <| halted := false |>).
Proof. intros. auto with i8080. Qed.

#[local] Hint Resolve safe_execute wf_service wf_vector : i8080.

(** C16: a well-formed 8080 never calls through NULL and stays well formed:
    whatever the memory holds, [i8080_step] returns, with registers of 8 and
    16 bits, when the x86 side keeps the structure well formed. *)
Theorem i8080_step_safe c e :
  i8080_wf c -> exists c' e', i8080_step c e = Some (tt, c', e') /\ i8080_wf c'.
Proof.
  intros Hc. assert (safe (fun _ => True) i8080_step) as Hs by (unfold i8080_step; safe_go).
  destruct (Hs c e Hc) as ([] & c' & e' & E1 & Hw & _). eauto.
Qed.

End safety.

(** ** The stack in memory *)

(** What the caller's memory functions promise: they read and write one flat
    memory of bytes, and reading changes nothing. *)
Class FlatMemory (E : Type) `{!I8080Env E} := {
  mem : E -> Z -> Z;
  read_mem : forall f u a e, u8 (call_read f u a e).1 = mem e a;
  read_keeps : forall f u a e x, mem (call_read f u a e).2 x = mem e x;
  write_mem : forall f u a v e x, mem (call_write f u a v e) x = if decide (x = a) then u8 v else mem e x;
}.

Section stack.
Context {E : Type} `{FlatMemory E}.

Lemma rb_flat addr c e :
  i8080_wf c -> exists e', i8080_rb addr c e = Some (mem e (u16 addr), c, e') /\ forall x, mem e' x = mem e x.
Proof.
  intros Hc. destruct (wf_read c Hc) as [f Hf]. exists (call_read f (userdata c) (u16 addr) e).2.
  split; [|apply read_keeps]. rewrite <- (read_mem f (userdata c)).
  unfold i8080_rb, mbind, M_bind, gets, through, read_with. rewrite Hf.
  by destruct (call_read _ _ _ e).
Qed.

Lemma wb_flat addr v c e :
  i8080_wf c -> exists e', i8080_wb addr v c e = Some (tt, c, e') /\
    forall x, mem e' x = if decide (x = u16 addr) then u8 v else mem e x.
Proof.
  intros Hc. destruct (wf_write c Hc) as [f Hf]. exists (call_write f (userdata c) (u16 addr) (u8 v) e).
  split; [|intros x; rewrite write_mem; by rewrite wrap_wrap].
  unfold i8080_wb, mbind, M_bind, gets, through. by rewrite Hf.
Qed.

(** A 16-bit word is its two bytes. *)
Lemma u16_bytes v : is_u16 v -> u16 ((u8 (v >>> 8) <<< 8) .| u8 (v .& 0xFF)) = v.
Proof.
  intros Hv. change 0xFF with (Z.ones 8). rewrite land_mask by lia.
  rewrite (wrap_id 8 (v `mod` 2 ^ 8)) by (apply Z.mod_pos_bound; lia).
  rewrite (wrap_id 8 (v >>> 8)).
  - rewrite Z.lor_comm, lor_shiftl_add, Z.shiftr_div_pow2 by (try apply Z.mod_pos_bound; lia).
    rewrite Z.add_comm, Z.mul_comm, <- Z.div_mod by lia. by apply wrap_id.
  - rewrite Z.shiftr_div_pow2 by lia. unfold in_width in *. split; [apply Z.div_pos; lia|].
    apply Z.div_lt_upper_bound; lia.
Qed.

Lemma rw_flat addr c e :
  i8080_wf c -> exists e',
    i8080_rw addr c e = Some (u16 ((mem e (u16 (addr + 1)) <<< 8) .| mem e (u16 addr)), c, e') /\
    forall x, mem e' x = mem e x.
Proof.
  intros Hc. destruct (rb_flat (addr + 1) c e Hc) as (e1 & E1 & M1).
  destruct (rb_flat addr c e1 Hc) as (e2 & E2 & M2). exists e2.
  unfold i8080_rw, mbind, M_bind. rewrite E1, E2, M1. split; [done|]. intros x. by rewrite M2.
Qed.

Lemma ww_flat addr v c e :
  i8080_wf c -> exists e',
    i8080_ww addr v c e = Some (tt, c, e') /\
    forall x, mem e' x = if decide (x = u16 (addr + 1)) then u8 (v >>> 8)
                         else if decide (x = u16 addr) then u8 (v .& 0xFF) else mem e x.
Proof.
  intros Hc. destruct (wb_flat addr (v .& 0xFF) c e Hc) as (e1 & E1 & M1).
  destruct (wb_flat (addr + 1) (v >>> 8) c e1 Hc) as (e2 & E2 & M2). exists e2.
  unfold i8080_ww, mbind, M_bind. rewrite E1, E2. split; [done|]. intros x. by rewrite M2, M1.
Qed.

(** The word at [sp], wherever the stack wraps. *)
Definition stack_top (c : i8080) (e : E) : Z * Z := (mem e (u16 (sp c)), mem e (u16 (sp c + 1))).

Lemma push_flat v c e :
  i8080_wf c -> exists e',
    i8080_push_stack v c e = Some (tt, c <| sp := u16 (sp c - 2) |>, e') /\
    stack_top (c <| sp := u16 (sp c - 2) |>) e' = (u8 (v .& 0xFF), u8 (v >>> 8)) /\
    forall x, x <> u16 (sp c - 2) -> x <> u16 (sp c - 1) -> mem e' x = mem e x.
Proof.
  intros Hc. set (s := u16 (sp c - 2)). set (c1 := c <| sp := s |>).
  assert (is_u16 s) as Hs by (apply wrap_range; lia).
  assert (u16 (s + 1) = u16 (sp c - 1)) as Hs1.
  { unfold s. rewrite wrap_add_wrap_l. f_equal. lia. }
  assert (s <> u16 (s + 1)) as Hne.
  { clear -Hs. clearbody s. unfold wrap, in_width in *. Z.div_mod_to_equations. lia. }
  destruct (ww_flat s v c1 e (wf_set_sp' c s Hs Hc)) as (e1 & E1 & M1).
  exists e1. split; [exact E1|]. unfold stack_top. change (sp c1) with s.
  rewrite (wrap_id 16 s), !M1, (wrap_id 16 s) by done.
  split.
  - by rewrite (decide_False (P := s = _)), !decide_True by done.
  - intros x Hx1 Hx2. rewrite M1, Hs1, (wrap_id 16 s), !decide_False by done. done.
Qed.

Lemma pop_flat v c e :
  i8080_wf c -> is_u16 v -> stack_top c e = (u8 (v .& 0xFF), u8 (v >>> 8)) -> exists e',
    i8080_pop_stack c e = Some (v, c <| sp := u16 (sp c + 2) |>, e') /\
    forall x, mem e' x = mem e x.
Proof.
  intros Hc Hv [= Ht1 Ht2]. destruct (rw_flat (sp c) c e Hc) as (e1 & E1 & M1). exists e1.
  split; [|done]. unfold i8080_pop_stack, mbind, M_bind, gets, modify, mret, M_ret.
  rewrite E1, Ht1, Ht2. by rewrite u16_bytes.
Qed.

Lemma sp_roundtrip s : is_u16 s -> u16 (u16 (s - 2) + 2) = s.
Proof. intros Hs. rewrite wrap_add_wrap_l. replace (s - 2 + 2) with s by lia. by apply wrap_id. Qed.

(** RET undoes CALL: a call pushes the address of the next instruction
    below the stack pointer, changes no other memory, and whatever runs in
    between, a return from the same stack pointer and stack word comes back
    to it with the stack as before; stack addresses wrap at 64 KB. *)
Theorem call_ret addr c e :
  i8080_wf c -> is_u16 addr -> exists c1 e1,
    i8080_call addr c e = Some (tt, c1, e1) /\ pc c1 = addr /\
    (forall x, x <> u16 (sp c - 2) -> x <> u16 (sp c - 1) -> mem e1 x = mem e x) /\
    forall c2 e2, i8080_wf c2 -> sp c2 = sp c1 -> stack_top c2 e2 = stack_top c1 e1 ->
      exists e3, i8080_ret c2 e2 = Some (tt, c2 <| sp := sp c |> <| pc := pc c |>, e3) /\
        forall x, mem e3 x = mem e2 x.
Proof.
  intros Hc Ha. destruct (push_flat (pc c) c e Hc) as (e1 & E1 & T1 & M1).
  set (c1 := c <| sp := u16 (sp c - 2) |>) in *.
  exists (c1 <| pc := addr |>), e1. split_and!; try done.
  { unfold i8080_call, mbind, M_bind, gets. by rewrite E1. }
  intros c2 e2 Hc2 Hsp Htop. change (sp (c1 <| pc := addr |>)) with (u16 (sp c - 2)) in Hsp.
  destruct (pop_flat (pc c) c2 e2 Hc2 (wf_pc c Hc)) as (e3 & E3 & M3); [by rewrite Htop|].
  exists e3. split; [|done]. unfold i8080_ret, mbind, M_bind, modify. rewrite E3, Hsp.
  by rewrite sp_roundtrip by apply wf_sp, Hc.
Qed.

(** The flag byte and the accumulator in one word. *)
Lemma word_bytes a b : is_u8 a -> is_u8 b ->
  is_u16 (u16 ((a <<< 8) .| b)) /\
  u8 (u16 ((a <<< 8) .| b) >>> 8) = a /\ u8 (u16 ((a <<< 8) .| b) .& 0xFF) = b.
Proof.
  intros Ha Hb. split; [apply wrap_range; lia|].
  rewrite Z.lor_comm, lor_shiftl_add by (done || lia).
  rewrite (wrap_id 16) by (unfold in_width in *; lia).
  change 0xFF with (Z.ones 8). rewrite land_mask, Z.shiftr_div_pow2 by lia.
  unfold in_width, wrap in *. split; Z.div_mod_to_equations; lia.
Qed.

Lemma psw_byte_u8 c : is_u8 (psw_byte c).
Proof. apply wrap_range. lia. Qed.

Lemma set_psw_byte w c c2 :
  u8 (w >>> 8) = ra c -> u8 (w .& 0xFF) = psw_byte c ->
  set_psw w c2 =
    c2 <| ra := ra c |> <| sf := sf c |> <| zf := zf c |> <| hf := hf c |> <| pf := pf c |> <| cf := cf c |>.
Proof.
  intros H1 H2. unfold set_psw. rewrite H1, H2. unfold psw_byte.
  by destruct (sf c), (zf c), (hf c), (pf c), (cf c).
Qed.

(** POP PSW undoes PUSH PSW: accumulator and all five flags come back,
    whatever has happened to them in between. *)
Theorem push_pop_psw c e :
  i8080_wf c -> exists e1,
    i8080_push_psw c e = Some (tt, c <| sp := u16 (sp c - 2) |>, e1) /\
    forall c2 e2, i8080_wf c2 -> sp c2 = u16 (sp c - 2) ->
      stack_top c2 e2 = stack_top (c <| sp := u16 (sp c - 2) |>) e1 ->
      exists e3, i8080_pop_psw c2 e2 =
        Some (tt, c2 <| sp := sp c |> <| ra := ra c |> <| sf := sf c |> <| zf := zf c |>
                     <| hf := hf c |> <| pf := pf c |> <| cf := cf c |>, e3).
Proof.
  intros Hc. destruct (word_bytes (ra c) (psw_byte c) (wf_a c Hc) (psw_byte_u8 c)) as (Hw & H1 & H2).
  set (w := u16 ((ra c <<< 8) .| psw_byte c)) in *.
  destruct (push_flat w c e Hc) as (e1 & E1 & T1 & _). exists e1.
  split; [exact E1|]. intros c2 e2 Hc2 Hsp Htop.
  destruct (pop_flat w c2 e2 Hc2 Hw) as (e3 & E3 & _); [by rewrite Htop|]. exists e3.
  unfold i8080_pop_psw, mbind, M_bind, modify. rewrite E3, Hsp, sp_roundtrip by apply wf_sp, Hc.
  by rewrite (set_psw_byte w c) by done.
Qed.

End stack.

(** ** Cycles and interrupts *)

(** The fields that decide when interrupts are taken, and the cycle count. *)
Definition control (c : i8080) : Z * (bool * bool * Z * Z) :=
  (cyc c, (iff_ c, interrupt_pending c, interrupt_vector c, interrupt_delay c)).

Section control.
Context {E : Type} `{!I8080Env E}.

(** A program that acts on the control fields as [g], when it returns. *)
Definition acts {A} (g : Z * (bool * bool * Z * Z) -> Z * (bool * bool * Z * Z)) (m : M (E := E) A) : Prop :=
  forall c e r c' e', m c e = Some (r, c', e') -> control c' = g (control c).

Abbreviation keeps := (acts (fun x => x)).

Lemma acts_bind {A B} g h (m : M A) (k : A -> M B) :
  acts g m -> (forall x, acts h (k x)) -> acts (fun x => h (g x)) (m ≫= k).
Proof.
  intros Hm Hk c e r c' e' Eq. unfold mbind, M_bind in Eq.
  destruct (m c e) as [[[x c1] e1]|] eqn:E1; [|done].
  rewrite (Hk x _ _ _ _ _ Eq). by rewrite (Hm _ _ _ _ _ E1).
Qed.

Lemma keeps_bind {A B} (m : M A) (k : A -> M B) :
  keeps m -> (forall x, keeps (k x)) -> keeps (m ≫= k).
Proof. apply (acts_bind (fun x => x) (fun x => x)). Qed.

Lemma keeps_ret {A} (x : A) : keeps (mret x : M A).
Proof. by intros c e r c' e' [= <- <- <-]. Qed.

Lemma keeps_gets {A} (f : i8080 -> A) : keeps (gets f).
Proof. by intros c e r c' e' [= <- <- <-]. Qed.

Lemma acts_modify g f : (forall c, control (f c) = g (control c)) -> acts g (modify f).
Proof. by intros Hf c e r c' e' [= <- <- <-]. Qed.

Lemma keeps_read f u a : keeps (read_with f u a).
Proof.
  intros c e r c' e' Eq. unfold read_with in Eq. destruct (call_read _ _ _ e). by simplify_eq.
Qed.

Lemma keeps_through {A B} (p : option A) (k : A -> M B) : (forall f, keeps (k f)) -> keeps (through p k).
Proof. intros Hk c e r c' e' Eq. destruct p; [by apply Hk in Eq|done]. Qed.

Lemma keeps_port_read p : keeps (port_read p).
Proof.
  apply keeps_bind; [apply keeps_gets|]. intros f. apply keeps_bind; [apply keeps_gets|]. intros u.
  apply keeps_through. intros h c e r c' e' Eq. destruct (call_in _ _ _ e). by simplify_eq.
Qed.

Lemma keeps_port_write p v : keeps (port_write p v).
Proof.
  apply keeps_bind; [apply keeps_gets|]. intros f. apply keeps_bind; [apply keeps_gets|]. intros u.
  apply keeps_through. intros h c e r c' e' Eq. by simplify_eq.
Qed.

Lemma keeps_wb a v : keeps (i8080_wb a v).
Proof.
  apply keeps_bind; [apply keeps_gets|]. intros f. apply keeps_bind; [apply keeps_gets|]. intros u.
  apply keeps_through. intros h c e r c' e' Eq. by simplify_eq.
Qed.

Lemma keeps_rb a : keeps (i8080_rb a).
Proof.
  apply keeps_bind; [apply keeps_gets|]. intros f. apply keeps_bind; [apply keeps_gets|]. intros u.
  apply keeps_through. intros. apply keeps_read.
Qed.

(** Register updates keep the control fields. *)
Lemma control_set_reg r v c : control (set_reg r v c) = control c.
Proof. by destruct r. Qed.

Lemma control_daa c : control (i8080_daa c) = control c.
Proof. unfold i8080_daa. by destruct (cf c || _ || _). Qed.

Lemma control_alu y c v : control (alu y c v) = control c.
Proof.
  unfold alu. apply Forall_nth_default; [|done].
  repeat (apply Forall_cons_2; [done|]). by apply Forall_nil_2.
Qed.

Lemma control_accumulator y c : control (isa_accumulator y c) = control c.
Proof.
  unfold isa_accumulator. apply Forall_nth_default; [|done].
  repeat (apply Forall_cons_2; [try done; by apply control_daa|]). by apply Forall_nil_2.
Qed.

Lemma control_set_pair p c v : control (set_pair p c v) = control c.
Proof.
  unfold set_pair. apply Forall_nth_default; [|done].
  repeat (apply Forall_cons_2; [done|]). by apply Forall_nil_2.
Qed.

Create HintDb keeps.
#[local] Hint Resolve keeps_ret keeps_gets keeps_read keeps_rb keeps_wb keeps_port_read
  keeps_port_write keeps_through : keeps.
#[local] Hint Extern 2 (acts _ (modify _)) => (apply acts_modify; intros ?; first
  [reflexivity | apply control_set_reg | apply control_daa | apply control_alu
  | apply control_accumulator | apply control_set_pair]) : keeps.

(** Steps through a program that keeps the control fields. *)
Ltac keeps_go :=
  repeat match goal with
  | |- acts _ (mbind _ _) => apply keeps_bind; [|intros ?]
  | |- acts _ (match ?x with _ => _ end) => destruct x
  | |- acts _ _ => solve [auto with keeps]
  end.

Lemma keeps_rw a : keeps (i8080_rw a).
Proof. unfold i8080_rw. keeps_go. Qed.
Lemma keeps_ww a v : keeps (i8080_ww a v).
Proof. unfold i8080_ww. keeps_go. Qed.
Lemma keeps_pc_incr : keeps pc_incr.
Proof. unfold pc_incr. keeps_go. Qed.
#[local] Hint Resolve keeps_rw keeps_ww keeps_pc_incr : keeps.

Lemma keeps_next_byte : keeps i8080_next_byte.
Proof. unfold i8080_next_byte. keeps_go. Qed.
Lemma keeps_fetch_word seg a : keeps (fetch_word seg a).
Proof. unfold fetch_word. keeps_go. Qed.
#[local] Hint Resolve keeps_next_byte keeps_fetch_word : keeps.

Lemma keeps_next_word : keeps i8080_next_word.
Proof. unfold i8080_next_word. keeps_go. Qed.
Lemma keeps_push v : keeps (i8080_push_stack v).
Proof. unfold i8080_push_stack. keeps_go. Qed.
Lemma keeps_pop : keeps i8080_pop_stack.
Proof. unfold i8080_pop_stack. keeps_go. Qed.
#[local] Hint Resolve keeps_next_word keeps_push keeps_pop : keeps.

Lemma keeps_call a : keeps (i8080_call a).
Proof. unfold i8080_call. keeps_go. Qed.
Lemma keeps_ret_stack : keeps i8080_ret.
Proof. unfold i8080_ret. keeps_go. Qed.
Lemma keeps_cond_jmp b : keeps (i8080_cond_jmp b).
Proof. unfold i8080_cond_jmp. keeps_go. Qed.
Lemma keeps_push_psw : keeps i8080_push_psw.
Proof. unfold i8080_push_psw. keeps_go. Qed.
Lemma keeps_pop_psw : keeps i8080_pop_psw.
Proof. unfold i8080_pop_psw. keeps_go. Qed.
Lemma keeps_xthl : keeps i8080_xthl.
Proof. unfold i8080_xthl. keeps_go. Qed.
Lemma keeps_rb_at f : keeps (rb_at f).
Proof. unfold rb_at. keeps_go. Qed.
Lemma keeps_wb_at f v : keeps (wb_at f v).
Proof. unfold wb_at. keeps_go. Qed.
Lemma keeps_assign r m : keeps m -> keeps (assign r m).
Proof. intros. unfold assign. keeps_go. Qed.
#[local] Hint Resolve keeps_call keeps_ret_stack keeps_cond_jmp keeps_push_psw keeps_pop_psw
  keeps_xthl keeps_rb_at keeps_wb_at keeps_assign : keeps.

Lemma keeps_read_operand o : keeps (read_operand o).
Proof. destruct o; cbn; auto with keeps. Qed.
Lemma keeps_write_operand o v : keeps (write_operand o v).
Proof. destruct o; cbn; keeps_go. Qed.
#[local] Hint Resolve keeps_read_operand keeps_write_operand : keeps.

(** INR and DCR: the result computed from the structure it is stored in. *)
Lemma keeps_step_operand f o :
  (forall c v, control (f c v).2 = control c) -> keeps (step_operand f o).
Proof.
  intros Hf. unfold step_operand. apply keeps_bind; [apply keeps_read_operand|]. intros v c e r c' e' Eq.
  cbn in Eq. apply keeps_write_operand in Eq. by rewrite Eq.
Qed.

(** Tables of instructions that keep the control fields. *)
Ltac keeps_table :=
  apply Forall_nth_default; [|auto with keeps];
  repeat (apply Forall_cons_2; [unfold assign16, assign; keeps_go|]); [..|by apply Forall_nil_2].

Lemma keeps_direct y : keeps (isa_direct y).
Proof. unfold isa_direct. keeps_table. Qed.
Lemma keeps_pointer p : keeps (isa_pointer p).
Proof. unfold isa_pointer. keeps_table. Qed.
#[local] Hint Resolve keeps_direct keeps_pointer : keeps.

Lemma keeps_00 y z : keeps (isa_00 y z).
Proof.
  unfold isa_00. apply Forall_nth_default; [|auto with keeps].
  repeat (apply Forall_cons_2; [first [by apply keeps_step_operand|keeps_go]|]).
  by apply Forall_nil_2.
Qed.

(** Six more cycles when a conditional call or return is taken. *)
Definition tick (b : bool) (x : Z * (bool * bool * Z * Z)) : Z * (bool * bool * Z * Z) :=
  if b then (u64 (x.1 + 6), x.2) else x.

Lemma acts_cond_call b : acts (tick b) (i8080_cond_call b).
Proof.
  unfold i8080_cond_call. apply (acts_bind (fun x => x) (tick b)); [apply keeps_next_word|].
  intros a. destruct b; [|apply keeps_ret].
  apply (acts_bind (fun x => x) (tick true)); [apply keeps_call|]. intros _. by apply acts_modify.
Qed.

Lemma acts_cond_ret b : acts (tick b) (i8080_cond_ret b).
Proof.
  unfold i8080_cond_ret. destruct b; [|apply keeps_ret].
  apply (acts_bind (fun x => x) (tick true)); [apply keeps_ret_stack|]. intros _. by apply acts_modify.
Qed.

(** Whether the opcode is a conditional call or return whose condition holds. *)
Definition taken (opcode : Z) (c : i8080) : bool :=
  (opcode >>> 6 =? 3) && ((opcode .& 7 =? 0) || (opcode .& 7 =? 4)) &&
  condition ((opcode >>> 3) .& 7) c.

(** Opcodes that do more to the control fields: EI, DI and the V20 extension. *)
Definition plain (opcode : Z) : bool :=
  negb ((opcode =? 0xF3) || (opcode =? 0xFB) || (opcode =? 0xED)).

Lemma acts_use {A} g (m : M A) c e r c' e' :
  acts g m -> m c e = Some (r, c', e') -> control c' = g (control c).
Proof. intros Hm. apply Hm. Qed.

(** The eight values of a three-bit field. *)
Lemma three_bits (P : Z -> Prop) :
  P 0 -> P 1 -> P 2 -> P 3 -> P 4 -> P 5 -> P 6 -> P 7 -> forall y, 0 <= y < 8 -> P y.
Proof.
  intros H0 H1 H2 H3 H4 H5 H6 H7 y Hy.
  assert (y = 0 \/ y = 1 \/ y = 2 \/ y = 3 \/ y = 4 \/ y = 5 \/ y = 6 \/ y = 7) as Hc by lia.
  by destruct Hc as [->|[->|[->|[->|[->|[->|[->| ->]]]]]]].
Qed.

Lemma keeps_special y : 0 <= y < 8 -> plain (192 + 8 * y + 3) = true -> keeps (isa_special y).
Proof.
  intros Hy. pattern y. revert y Hy. apply three_bits; intros Hp; try discriminate Hp;
    unfold isa_special, isa_jump; cbv [Z.to_nat Pos.to_nat Pos.iter_op Init.Nat.add nth]; unfold assign; keeps_go.
Qed.

Lemma keeps_push_call y :
  0 <= y < 8 -> plain (192 + 8 * y + 5) = true ->
  keeps (if Z.odd y then (if y >>> 1 =? 2 then execute_ed else isa_call)
         else if y >>> 1 =? 3 then i8080_push_psw
         else v ← gets (get_pair (y >>> 1)); i8080_push_stack v).
Proof.
  intros Hy. pattern y. revert y Hy. apply three_bits; intros Hp; try discriminate Hp;
    cbn [Z.odd]; simpl (_ =? _); unfold isa_call; keeps_go.
Qed.

Lemma acts_11 y z c e c' e' :
  0 <= y < 8 -> 0 <= z < 8 -> plain (192 + 8 * y + z) = true ->
  isa_11 y z c e = Some (tt, c', e') ->
  control c' = tick (((z =? 0) || (z =? 4)) && condition y c) (control c).
Proof.
  intros Hy Hz. pattern z. revert z Hz. apply three_bits; intros Hp; unfold isa_11;
    cbv [Z.to_nat Pos.to_nat Pos.iter_op Init.Nat.add nth]; cbn [Z.eqb Pos.eqb orb andb].
  - exact (acts_use (tick _) (i8080_cond_ret (condition y c)) c e tt c' e' (acts_cond_ret _)).
  - apply (acts_use (fun x => x)). keeps_go.
  - apply (acts_use (fun x => x)). keeps_go.
  - apply (acts_use (fun x => x)). by apply keeps_special.
  - exact (acts_use (tick _) (i8080_cond_call (condition y c)) c e tt c' e' (acts_cond_call _)).
  - apply (acts_use (fun x => x)). by apply keeps_push_call.
  - apply (acts_use (fun x => x)). keeps_go.
  - apply (acts_use (fun x => x)). keeps_go.
Qed.

Lemma field_bounds opcode : 0 <= (opcode >>> 3) .& 7 < 8 /\ 0 <= opcode .& 7 < 8.
Proof. change 7 with (Z.ones 3). rewrite !land_mask by lia. split; apply Z.mod_pos_bound; lia. Qed.

Lemma opcode_fields opcode :
  is_u8 opcode -> opcode >>> 6 = 3 ->
  192 + 8 * ((opcode >>> 3) .& 7) + opcode .& 7 = opcode.
Proof.
  change 7 with (Z.ones 3). rewrite !land_mask, !Z.shiftr_div_pow2 by lia. unfold in_width.
  change (2 ^ 3) with 8. change (2 ^ 6) with 64. change (2 ^ 8) with 256.
  intros ??. Z.div_mod_to_equations. lia.
Qed.

Lemma acts_isa opcode c e c' e' :
  is_u8 opcode -> plain opcode = true -> isa opcode c e = Some (tt, c', e') ->
  control c' = tick (taken opcode c) (control c).
Proof.
  intros Ho Hp. unfold isa, taken. destruct (field_bounds opcode) as [Hy Hz].
  destruct (opcode >>> 6 =? 3) eqn:E3; cbn [andb].
  - apply Z.eqb_eq in E3. rewrite E3. cbn [Z.eqb Pos.eqb].
    apply acts_11; [done..|]. by rewrite opcode_fields.
  - cbn [tick]. assert (0 <= opcode >>> 6 < 4) as Hx.
    { rewrite Z.shiftr_div_pow2 by lia. unfold in_width in Ho. change (2 ^ 8) with 256 in Ho.
      change (2 ^ 6) with 64. Z.div_mod_to_equations. lia. }
    apply Z.eqb_neq in E3. repeat case_match; try lia; apply (acts_use (fun x => x)); try keeps_go.
    apply keeps_00.
Qed.

(** What the prologue of [i8080_execute] does to the control fields. *)
Definition prologue (opcode : Z) (x : Z * (bool * bool * Z * Z)) : Z * (bool * bool * Z * Z) :=
  let '(n, (i, p, v, d)) := x in
  (u64 (n + nth (Z.to_nat opcode) OPCODES_CYCLES 0), (i, p, v, if 0 <? d then u8 (d - 1) else d)).

Lemma execute_control opcode c e c' e' :
  is_u8 opcode -> plain opcode = true -> i8080_execute opcode c e = Some (tt, c', e') ->
  control c' = tick (taken opcode c) (prologue opcode (control c)).
Proof.
  intros Ho Hp Eq. unfold i8080_execute, add_cyc, mbind, M_bind, modify in Eq.
  rewrite execute_switch_isa in Eq by done. apply acts_isa in Eq; [|done..]. rewrite Eq.
  set (c1 := c <| cyc := _ |>). change (interrupt_delay c1) with (interrupt_delay c).
  unfold prologue, control. by destruct (0 <? interrupt_delay c).
Qed.

(** the cycle count: an instruction adds the entry of the opcode table,
    and six more exactly when it is a conditional call or return that is
    taken, modulo 2^64. *)
Theorem execute_cycles opcode c e c' e' :
  is_u8 opcode -> plain opcode = true -> i8080_execute opcode c e = Some (tt, c', e') ->
  cyc c' = u64 (cyc c + nth (Z.to_nat opcode) OPCODES_CYCLES 0 + if taken opcode c then 6 else 0).
Proof.
  intros Ho Hp Eq. apply execute_control in Eq; [|done..].
  change (cyc c') with (control c').1. rewrite Eq. unfold tick. destruct (taken opcode c); cbn.
  - apply wrap_add_wrap_l.
  - by rewrite Z.add_0_r.
Qed.

(** Fetching a byte moves the program counter only. *)
Lemma next_byte_pc c e v c' e' :
  i8080_next_byte c e = Some (v, c', e') -> c' = c <| pc := u16 (pc c + 1) |>.
Proof.
  unfold i8080_next_byte, i8080_rb, pc_incr, mbind, M_bind, gets, modify, mret, M_ret, through, read_with.
  intros Eq. destruct (read_byte_seg c); [destruct (call_read _ _ _ e)|].
  - by simplify_eq.
  - destruct (read_byte _); [|done]. destruct (call_read _ _ _ e). by simplify_eq.
Qed.

(** [i8080_step] by the control fields. *)
Lemma step_serviced c e :
  interrupt_pending c = true -> iff_ c = true -> interrupt_delay c = 0 ->
  i8080_step c e = i8080_execute (interrupt_vector c)
    (c <| interrupt_pending := false |> <| iff_ := false |> <| halted := false |>) e.
Proof.
  intros Hp Hi Hd. unfold i8080_step, mbind, M_bind, gets, modify. cbn [id].
  by rewrite Hp, Hi, Hd.
Qed.

Lemma step_fetched c e opcode c1 e1 :
  iff_ c = false \/ interrupt_delay c <> 0 -> halted c = false ->
  i8080_next_byte c e = Some (opcode, c1, e1) -> i8080_step c e = i8080_execute opcode c1 e1.
Proof.
  intros Hn Hh Hf. unfold i8080_step, mbind, M_bind, gets. cbn [id].
  assert (interrupt_pending c && iff_ c && (interrupt_delay c =? 0) = false) as ->.
  { destruct Hn as [->|Hd%Z.eqb_neq]; [by rewrite andb_false_r|]. by rewrite Hd, andb_false_r. }
  rewrite Hh. cbn [negb]. by rewrite Hf.
Qed.

(** C17: Interrupts are held off for one instruction after EI: with an
    interrupt pending, the step that executes EI enables interrupts, and the
    next step executes the following instruction.  After any but EI, DI and
    the prefix of the V20 extension, the step after it clears the request,
    disables interrupts, leaves HLT and executes the interrupt's opcode;
    another EI holds the interrupt off once more, and after DI it stays
    pending while interrupts are disabled. *)
Theorem ei_delays_one c e c1 e1 opcode c3 e3 :
  interrupt_pending c = true -> iff_ c = false -> halted c = false ->
  i8080_next_byte c e = Some (0xFB, c1, e1) -> exists c2,
  i8080_step c e = Some (tt, c2, e1) /\ iff_ c2 = true /\
  (i8080_next_byte c2 e1 = Some (opcode, c3, e3) -> is_u8 opcode ->
   i8080_step c2 e1 = i8080_execute opcode c3 e3 /\
   forall c4 e4, i8080_execute opcode c3 e3 = Some (tt, c4, e4) ->
     (plain opcode = true -> i8080_step c4 e4 = i8080_execute (interrupt_vector c)
       (c4 <| interrupt_pending := false |> <| iff_ := false |> <| halted := false |>) e4) /\
     (opcode = 0xFB -> interrupt_pending c4 = true /\ iff_ c4 = true /\ interrupt_delay c4 = 1) /\
     (opcode = 0xF3 -> interrupt_pending c4 = true /\ iff_ c4 = false)).
Proof.
  intros Hp Hi Hh Hf. rewrite (step_fetched c e _ _ _ (or_introl Hi) Hh Hf).
  apply next_byte_pc in Hf as Hc1.
  destruct (i8080_execute 0xFB c1 e1) as [[[[] c2] e2]|] eqn:E2; [|done].
  assert (e2 = e1 /\ halted c2 = false /\ iff_ c2 = true /\ interrupt_pending c2 = true /\
          interrupt_vector c2 = interrupt_vector c /\ interrupt_delay c2 = 1)
    as (-> & Hh2 & Hi2 & Hp2 & Hv2 & Hd2).
  { injection E2 as <- <-. subst c1. 
    destruct (0 <? interrupt_delay (c <| pc := u16 (pc c + 1) |>)); by split_and!. }
  exists c2. split_and!; [done|done|]. intros Hf2 Ho. split.
  { apply step_fetched; [right; by rewrite Hd2|done|done]. }
  intros c4 e4 E4. apply next_byte_pc in Hf2 as ->. split_and!.
  2-3: intros ->; injection E4 as <- <-; fields; by case_match.
  - intros Hpl. apply execute_control in E4; [|done..].
     unfold control, prologue, tick in E4. cbn in E4.
    rewrite Hp2, Hi2, Hv2, Hd2 in E4. rewrite <- Hv2.
    assert (interrupt_pending c4 = true /\ iff_ c4 = true /\ interrupt_delay c4 = 0 /\
            interrupt_vector c4 = interrupt_vector c) as (H1 & H2 & H3 & H4)
      by (destruct (taken _ _); by simplify_eq).
    rewrite Hv2, <- H4. by apply step_serviced.
Qed.

End control.

(** ** A concrete machine: 64 KB of memory, ports that float high *)

#[export] Instance flat_env : I8080Env (Z -> Z) := {|
  call_read _ _ a e := (u8 (e a), e);
  call_write _ _ a v e := fun x => if decide (x = a) then v else e x;
  call_in _ _ _ e := (0xFF, e);
  call_out _ _ _ _ e := e;
  interrupt_808x _ c e := (c, e);
  retem_i8080 c e := (c, e);
|}.

#[export] Instance flat_memory : FlatMemory (Z -> Z).
Proof.
  refine {| mem := fun e a => u8 (e a) |}.
  - intros. apply (wrap_wrap 8). lia.
  - done.
  - intros f u a v e x. cbn. by case_decide.
Defined.

Lemma c0_wf : i8080_wf c0.
Proof. constructor; cbn; unfold in_width; try (by eexists); lia. Qed.

(** EI; CALL 0x0300 at 0x100. *)
Definition m0 (a : Z) : Z := nth (Z.to_nat (a - 0x100)) [0xFB; 0xCD; 0x00; 0x03] 0.

Lemma execute_decodes_witness :
  is_u8 0x80 /\ i8080_execute 0x80 c0 m0 = (count_cycles 0x80;; isa 0x80) c0 m0.
Proof. split; [|apply (execute_decodes 0x80 c0 m0)]; unfold in_width; lia. Defined.

Lemma i8080_step_safe_witness :
  exists c' e', i8080_step c0 m0 = Some (tt, c', e') /\ i8080_wf c'.
Proof. apply (i8080_step_safe (E := Z -> Z)); [by intros|by intros|apply c0_wf]. Defined.

Definition c_call : i8080 := c0 <| sp := 0x1FE |> <| pc := 0x300 |>.

Lemma c_call_wf : i8080_wf c_call.
Proof. constructor; cbn; unfold in_width; try (by eexists); lia. Qed.

Lemma call_ret_witness :
  exists c1 e1, i8080_call 0x300 c0 m0 = Some (tt, c1, e1) /\ pc c1 = 0x300 /\
    (forall x, x <> 0x1FE -> x <> 0x1FF -> mem e1 x = mem m0 x) /\
    exists e3, i8080_ret c1 e1 = Some (tt, c1 <| sp := 0x200 |> <| pc := 0x100 |>, e3).
Proof.
  destruct (call_ret 0x300 c0 m0 c0_wf) as (c1 & e1 & E1 & Hpc & Hm & Hret); [unfold in_width; lia|].
  exists c1, e1. split; [exact E1|]. split; [exact Hpc|]. split; [exact Hm|].
  injection E1 as <- <-. destruct (Hret c_call _ c_call_wf eq_refl eq_refl) as (e3 & E3 & _).
  exists e3. exact E3.
Defined.

Lemma push_pop_psw_witness :
  exists e1, i8080_push_psw c0 m0 = Some (tt, c0 <| sp := 0x1FE |>, e1) /\ mem e1 0x1FF = ra c0.
Proof.
  destruct (push_pop_psw c0 m0 c0_wf) as (e1 & E1 & _). exists e1. split; [exact E1|].
  injection E1 as <-. reflexivity.
Defined.

(** CZ with the zero flag set is taken: 11 + 6 cycles. *)
Lemma execute_cycles_witness :
  exists c' e', i8080_execute 0xCC (c0 <| zf := true |>) m0 = Some (tt, c', e') /\ cyc c' = 17.
Proof.
  destruct (i8080_execute 0xCC (c0 <| zf := true |>) m0) as [[[[] c'] e']|] eqn:E1; [|discriminate E1].
  exists c', e'. split; [reflexivity|].
  refine (execute_cycles 0xCC (c0 <| zf := true |>) m0 c' e' _ eq_refl E1). unfold in_width. lia.
Defined.

(** An interrupt (RST 7) pending at EI; NOP follows. *)
Definition c_ei : i8080 := i8080_interrupt c0 0xFF.
Definition c_ei1 : i8080 := c_ei <| pc := 0x101 |>.
Definition m_ei (a : Z) : Z := if a =? 0x100 then 0xFB else 0.

Definition c_ei2 : i8080 := c_ei1 <| iff_ := true |> <| interrupt_delay := 1 |> <| cyc := 4 |>.
Definition c_nop : i8080 := c_ei2 <| pc := 0x102 |>.
Definition c_nop1 : i8080 := c_nop <| interrupt_delay := 0 |> <| cyc := 8 |>.

Lemma ei_delays_one_witness :
  exists c6 e6, i8080_step c_ei m_ei = Some (tt, c_ei2, m_ei) /\ i8080_step c_ei2 m_ei = Some (tt, c_nop1, m_ei) /\
    interrupt_pending c_nop1 = true /\ i8080_step c_nop1 m_ei = Some (tt, c6, e6) /\
    pc c6 = 0x38 /\ interrupt_pending c6 = false /\ iff_ c6 = false.
Proof.
  assert (i8080_next_byte c_ei m_ei = Some (0xFB, c_ei1, m_ei)) as Hf by (vm_compute; reflexivity).
  assert (i8080_next_byte c_ei2 m_ei = Some (0, c_nop, m_ei)) as Hf2 by (vm_compute; reflexivity).
  assert (i8080_execute 0 c_nop m_ei = Some (tt, c_nop1, m_ei)) as Hx by (vm_compute; reflexivity).
  assert (i8080_step c_ei m_ei = Some (tt, c_ei2, m_ei)) as Hs by (vm_compute; reflexivity).
  destruct (ei_delays_one c_ei m_ei c_ei1 m_ei 0 c_nop m_ei eq_refl eq_refl eq_refl Hf) as (c2 & E2 & _ & H2).
  assert (c2 = c_ei2) as -> by (rewrite Hs in E2; congruence).
  destruct (H2 Hf2 ltac:(unfold in_width; lia)) as [E4 H4]. destruct (H4 _ _ Hx) as [E6 _].
  specialize (E6 eq_refl). rewrite Hx in E4.
  destruct (i8080_execute (interrupt_vector c_ei) _ m_ei) as [[[[] c6] e6]|] eqn:E in E6; [|vm_compute in E; discriminate E].
  exists c6, e6. split; [exact Hs|]. split; [exact E4|]. split; [reflexivity|]. split; [exact E6|].
  apply (f_equal (fmap (fun x : unit * i8080 * (Z -> Z) => let c := x.1.2 in (pc c, interrupt_pending c, iff_ c)))) in E.
  vm_compute in E. injection E as Ea Eb Ec. split; [exact (eq_sym Ea)|]. split; [exact (eq_sym Eb)|exact (eq_sym Ec)].
Defined.
