(* ===== verification/Nvr.v ===== *)
(** * Nvr: the clock and the saved memory of src/src/nvr.c

    The calendar clock that every real-time clock device shares ([intclk]),
    its one-second timer, which runs on the timer queue of [Timer], and the
    registers a device saves in a file.  The hooks of the device, the file
    names and the host's clock are the interface [NvrEnv]; the files are
    part of the state.  [None] is undefined behaviour: a NULL dereference,
    an index outside an array, a signed overflow. *)
From stdpp Require Import strings.
From S2P Require Import Prelude Dll Timer.

Definition NVR_MAXSIZE : Z := 512.
Definition TIME_SYNC_ENABLED : Z := 1.
Definition TIME_SYNC_UTC : Z := 2.

Definition days_in_month : list Z := [31; 28; 31; 30; 31; 30; 31; 31; 30; 31; 30; 31].

(** [struct tm]: [int] fields. *)
Record tm := mkTm {
  tm_sec : Z; tm_min : Z; tm_hour : Z; tm_mday : Z; tm_mon : Z; tm_year : Z; tm_wday : Z;
}.

(** [x + y] on [int]. *)
Definition int_add (x y : Z) : option Z :=
  if (- 2 ^ 31 <=? x + y) && (x + y <? 2 ^ 31) then Some (x + y) else None.

(** C's [%] truncates. *)
Definition nvr_is_leap (year : Z) : Z :=
  if Z.rem year 400 =? 0 then 1
  else if Z.rem year 100 =? 0 then 0
  else if Z.rem year 4 =? 0 then 1
  else 0.

Definition nvr_get_days (month year : Z) : option Z :=
  if month =? 2 then Some (if ctrue (nvr_is_leap year) then 29 else 28)
  else arr_get days_in_month (month - 1).

(** The carries of [rtc_tick], from the inside out. *)
Definition tick_month (t : tm) : option tm :=
  mon ← int_add (tm_mon t) 1;
  if mon =? 13 then
    year ← int_add (tm_year t) 1; Some (t <| tm_mon := 1 |> <| tm_year := year |>)
  else Some (t <| tm_mon := mon |>).

Definition tick_day (t : tm) : option tm :=
  mday ← int_add (tm_mday t) 1;
  days ← nvr_get_days (tm_mon t) (tm_year t);
  if mday =? days + 1 then tick_month (t <| tm_mday := 1 |>) else Some (t <| tm_mday := mday |>).

Definition tick_hour (t : tm) : option tm :=
  hour ← int_add (tm_hour t) 1;
  if hour =? 24 then tick_day (t <| tm_hour := 0 |>) else Some (t <| tm_hour := hour |>).

Definition tick_min (t : tm) : option tm :=
  min ← int_add (tm_min t) 1;
  if min =? 60 then tick_hour (t <| tm_min := 0 |>) else Some (t <| tm_min := min |>).

Definition rtc_tick (t : tm) : option tm :=
  sec ← int_add (tm_sec t) 1;
  if sec =? 60 then tick_min (t <| tm_sec := 0 |>) else Some (t <| tm_sec := sec |>).

(** [nvr_time_get]: the weekday comes from a sum of day, month and year. *)
Definition wday_of (t : tm) : Z :=
  let dom := u8 (tm_mday t) in
  let mon := u8 (tm_mon t) in
  let yr := u16 (Z.rem (tm_year t) 100) in
  let cent := u16 (Z.rem (Z.quot (tm_year t - yr) 100) 4) in
  let sum := u8 (dom + mon + yr + cent) in
  u8 (Z.rem (sum + 6) 7).

Definition nvr_time_get (intclk : tm) : option tm :=
  mon ← int_add (tm_mon intclk) (-1);
  year ← int_add (tm_year intclk) (-1900);
  Some (mkTm (tm_sec intclk) (tm_min intclk) (tm_hour intclk) (tm_mday intclk) mon year
          (wday_of intclk)).

Definition nvr_time_set (t : tm) : option tm :=
  mon ← int_add (tm_mon t) 1;
  year ← int_add (tm_year t) 1900;
  Some (mkTm (tm_sec t) (tm_min t) (tm_hour t) (tm_mday t) mon year (tm_wday t)).

(** ** The calendar the clock is meant to follow *)

Definition leap (y : Z) : bool :=
  (y `mod` 4 =? 0) && (negb (y `mod` 100 =? 0) || (y `mod` 400 =? 0)).

(** Days before the first of January of a year, of the Gregorian calendar. *)
Definition year_start (y : Z) : Z :=
  365 * (y - 1) + (y - 1) `div` 4 - (y - 1) `div` 100 + (y - 1) `div` 400.

(** Days of the year before the first of a month. *)
Definition month_start (m : Z) (l : bool) : Z :=
  nth (Z.to_nat (m - 1)) [0; 31; 59; 90; 120; 151; 181; 212; 243; 273; 304; 334; 365] 0
  + cbool (l && (2 <? m)).

Definition day_number (t : tm) : Z :=
  year_start (tm_year t) + month_start (tm_mon t) (leap (tm_year t)) + tm_mday t - 1.

Definition seconds (t : tm) : Z :=
  ((day_number t * 24 + tm_hour t) * 60 + tm_min t) * 60 + tm_sec t.

Record valid (t : tm) : Prop := {
  valid_sec : 0 <= tm_sec t < 60;
  valid_min : 0 <= tm_min t < 60;
  valid_hour : 0 <= tm_hour t < 24;
  valid_mon : 1 <= tm_mon t <= 12;
  valid_mday : 1 <= tm_mday t <= month_start (tm_mon t + 1) (leap (tm_year t))
                                 - month_start (tm_mon t) (leap (tm_year t));
  valid_year : - 2 ^ 31 <= tm_year t < 2 ^ 31;
}.

(** ** The device *)

(** [nvr_t]; hooks are names of functions, the one-second timer is named by
    its address in the timer queue. *)
Record nvr_t := mkNvr {
  fn : string;
  size : Z;
  is_new : Z;
  onesec_cnt : Z;
  onesec_time : ptr;
  reset : option Z;
  start : option Z;
  tick : option Z;
  ven_save : option Z;
  regs : list Z;
}.

(** The globals of nvr.c, the devices by address, the timer queue and the
    files on disk. *)
Record nvrs {D : Type} := mkNvrs {
  intclk : tm;
  saved_nvr : option ptr;
  nvr_dosave : Z;
  devs : gmap ptr nvr_t;
  queue : Timer.world D;
  files : gmap string (list Z);
}.
Arguments nvrs : clear implicits.
Arguments mkNvrs {D}.

(** What the rest of the program and the host offer. *)
Class NvrEnv (D : Type) := {
  hook : Z -> ptr -> nvrs D -> option (nvrs D);   (* a device's reset, start or tick *)
  ven_hook : Z -> nvrs D -> option (nvrs D);
  IS_AT : bool;
  time_sync : Z;
  host_time : bool -> tm;                         (* the time of day, UTC or local *)
  machine_get_nvr_name : string;
  nvr_path : string -> string;
  writable : string -> bool;                      (* the file can be opened for writing *)
}.

Section nvr.
Context {D : Type} `{!NvrEnv D}.
Implicit Types w : nvrs D.

Definition upd_dev (x : ptr) (f : nvr_t -> nvr_t) w : option (nvrs D) :=
  n ← devs w !! x; Some (w <| devs := <[x := f n]> (devs w) |>).

(** [if (dev->hook != NULL) dev->hook(dev)] *)
Definition run_hook (h : option Z) (x : ptr) w : option (nvrs D) :=
  match h with Some f => hook f x w | None => Some w end.

(** What happens at the hundredth expiry. *)
Definition onesec_due (x : ptr) w : option (nvrs D) :=
  w ← (if IS_AT then Some w
       else t ← rtc_tick (intclk w); Some (w <| intclk := t |>));
  n ← devs w !! x;
  w ← run_hook (tick n) x w;
  upd_dev x (fun n => n <| onesec_cnt := 0 |>) w.

Definition onesec_timer (x : ptr) w : option (nvrs D) :=
  w ← upd_dev x (fun n => n <| onesec_cnt := u8 (onesec_cnt n + 1) |>) w;
  n ← devs w !! x;
  w ← (if 100 <=? onesec_cnt n then onesec_due x w else Some w);
  n ← devs w !! x;
  q ← timer_advance_u64 (Some (onesec_time n)) (u64 (10000 * TIMER_USEC (queue w))) (queue w);
  Some (w <| queue := q |>).

Definition nvr_time_sync w : option (nvrs D) :=
  t ← nvr_time_set (host_time (ctrue (time_sync .& TIME_SYNC_UTC)));
  Some (w <| intclk := t |>).

(** Reading the file over the registers the reset hook left: a file that is
    too short leaves them, and the device is new. *)
Definition load_file (x : ptr) w : option (nvrs D) :=
  n ← devs w !! x;
  if size n =? 0 then upd_dev x (fun n => n <| is_new := 1 |>) w
  else match files w !! nvr_path (fn n) with
       | None => upd_dev x (fun n => n <| is_new := 1 |>) w
       | Some bytes =>
           if (length bytes <? Z.to_nat (size n))%nat
           then (if Z.of_nat (length bytes) <=? NVR_MAXSIZE
                 then upd_dev x (fun n => n <| is_new := 1 |>) w else None)
           else r ← memcpy (regs n) 0 (take (Z.to_nat (size n)) bytes);
                upd_dev x (fun n => n <| is_new := 0 |> <| regs := r |>) w
       end.

Definition nvr_load w : option (Z * nvrs D) :=
  match saved_nvr w with
  | None => Some (0, w)
  | Some x =>
      w ← upd_dev x (fun n => n <| regs := replicate (Z.to_nat NVR_MAXSIZE) 0 |>) w;
      n ← devs w !! x;
      w ← run_hook (reset n) x w;
      w ← load_file x w;
      n ← devs w !! x;
      w ← run_hook (start n) x w;
      Some (1, w)
  end.

(** [fopen (path, "wb")], [fwrite]. *)
Definition save_file (x : ptr) w : option (nvrs D) :=
  n ← devs w !! x;
  if size n =? 0 then Some w
  else if writable (nvr_path (fn n)) then
    bytes ← slice (regs n) 0 (size n);
    Some (w <| files := <[nvr_path (fn n) := bytes]> (files w) |>)
  else Some w.

Definition nvr_save w : option (Z * nvrs D) :=
  match saved_nvr w with
  | None => Some (0, w)
  | Some x =>
      w ← save_file x w;
      n ← devs w !! x;
      w ← match ven_save n with Some f => ven_hook f w | None => Some w end;
      Some (1, w <| nvr_dosave := 0 |>)
  end.

Definition nvr_set_ven_save (f : option Z) w : option (nvrs D) :=
  x ← saved_nvr w; upd_dev x (fun n => n <| ven_save := f |>) w.

Definition nvr_close w : nvrs D := w <| saved_nvr := None |>.

(** The timer's callback [onesec_timer] on this device is [cb], its private
    data the device's address. *)
Definition nvr_init (x : ptr) (cb : Z) w : option (nvrs D) :=
  w ← upd_dev x (fun n => n <| fn := machine_get_nvr_name +:+ ".nvr" |>) w;
  let w := w <| intclk := mkTm 0 0 0 0 0 0 0 |> in
  w ← (if ctrue (time_sync .& TIME_SYNC_ENABLED) then nvr_time_sync w
       else Some (w <| intclk := (intclk w) <| tm_mon := 1 |> <| tm_year := 1980 |> |>));
  n ← devs w !! x;
  q ← timer_add (onesec_time n) (Some cb) x true (queue w);
  let w := w <| queue := q |> <| nvr_dosave := 0 |> <| saved_nvr := Some x |> in
  '(_, w) ← nvr_load w;
  Some w.

End nvr.

(** ** The clock follows the calendar *)

Lemma nvr_is_leap_spec y : ctrue (nvr_is_leap y) = leap y.
Proof.
  assert (forall k, 0 < k -> (Z.rem y k =? 0) = (y `mod` k =? 0)) as Hr.
  { intros k Hk. apply eq_true_iff_eq. rewrite !Z.eqb_eq, Z.rem_divide, Z.mod_divide by lia. done. }
  unfold nvr_is_leap, leap. rewrite !Hr by lia.
  destruct (Z.eqb_spec (y `mod` 400) 0) as [H4|H4], (Z.eqb_spec (y `mod` 100) 0) as [H1|H1],
    (Z.eqb_spec (y `mod` 4) 0) as [H|H]; try done; exfalso; Z.div_mod_to_equations; lia.
Qed.

Lemma year_start_succ y : year_start (y + 1) = year_start y + 365 + cbool (leap y).
Proof.
  unfold year_start, leap. replace (y + 1 - 1) with y by lia.
  destruct (Z.eqb_spec (y `mod` 400) 0) as [H4|H4], (Z.eqb_spec (y `mod` 100) 0) as [H1|H1],
    (Z.eqb_spec (y `mod` 4) 0) as [H|H]; cbn; Z.div_mod_to_equations; lia.
Qed.

Lemma year_start_mono y1 y2 : y1 < y2 -> year_start y1 + 365 + cbool (leap y1) <= year_start y2.
Proof.
  intros Hy. rewrite <- year_start_succ. replace y2 with (y1 + 1 + Z.of_nat (Z.to_nat (y2 - y1 - 1))) by lia.
  induction (Z.to_nat (y2 - y1 - 1)) as [|n IH]; [rewrite Z.add_0_r; lia|].
  replace (y1 + 1 + Z.of_nat (S n)) with (y1 + 1 + Z.of_nat n + 1) by lia.
  rewrite (year_start_succ (y1 + 1 + Z.of_nat n)). destruct (leap (y1 + 1 + _)); cbn; lia.
Qed.

(** The twelve months. *)
Lemma month_cases (P : Z -> Prop) :
  P 1 -> P 2 -> P 3 -> P 4 -> P 5 -> P 6 -> P 7 -> P 8 -> P 9 -> P 10 -> P 11 -> P 12 ->
  forall m, 1 <= m <= 12 -> P m.
Proof.
  intros. assert (m = 1 \/ m = 2 \/ m = 3 \/ m = 4 \/ m = 5 \/ m = 6 \/ m = 7 \/ m = 8 \/ m = 9 \/
    m = 10 \/ m = 11 \/ m = 12) as Hm by lia.
  by destruct Hm as [->|[->|[->|[->|[->|[->|[->|[->|[->|[->|[->| ->]]]]]]]]]]].
Qed.

Lemma nvr_get_days_spec m y :
  1 <= m <= 12 -> nvr_get_days m y = Some (month_start (m + 1) (leap y) - month_start m (leap y)).
Proof.
  intros Hm. unfold nvr_get_days. rewrite nvr_is_leap_spec. pattern m. revert m Hm.
  apply month_cases; by destruct (leap y).
Qed.

Lemma month_length m l : 1 <= m <= 12 -> month_start m l + 28 <= month_start (m + 1) l.
Proof. intros Hm. pattern m. revert m Hm. apply month_cases; destruct l; by vm_compute. Qed.

Lemma month_start_mono m1 m2 l : 1 <= m1 -> m1 < m2 <= 13 -> month_start (m1 + 1) l <= month_start m2 l.
Proof.
  intros H1 H2.
  replace m2 with (m1 + 1 + Z.of_nat (Z.to_nat (m2 - m1 - 1))) by lia.
  assert (m1 + 1 + Z.of_nat (Z.to_nat (m2 - m1 - 1)) <= 13) as Hb by lia.
  induction (Z.to_nat (m2 - m1 - 1)) as [|n IH]; [rewrite Z.add_0_r; lia|].
  replace (m1 + 1 + Z.of_nat (S n)) with (m1 + 1 + Z.of_nat n + 1) by lia.
  etransitivity; [apply IH; lia|].
  pose proof (month_length (m1 + 1 + Z.of_nat n) l). lia.
Qed.

Lemma month_start_bounds m l : 1 <= m <= 13 -> 0 <= month_start m l <= 365 + cbool l.
Proof.
  intros Hm. destruct (decide (m = 13)) as [->|]; [by destruct l|].
  assert (1 <= m <= 12) as Hm' by lia. clear Hm n. pattern m. revert m Hm'.
  apply month_cases; destruct l; by vm_compute.
Qed.

Lemma month_start_1 l : month_start 1 l = 0.
Proof. by destruct l. Qed.

Lemma month_start_13 l : month_start 13 l = 365 + cbool l.
Proof. by destruct l. Qed.

Lemma january l : 1 <= 1 <= month_start (1 + 1) l - month_start 1 l.
Proof. by destruct l. Qed.

(** The date and time of day, without the weekday. *)
Definition same_time (t t' : tm) : Prop :=
  tm_sec t = tm_sec t' /\ tm_min t = tm_min t' /\ tm_hour t = tm_hour t' /\
  tm_mday t = tm_mday t' /\ tm_mon t = tm_mon t' /\ tm_year t = tm_year t'.

Lemma year_of_day t :
  valid t -> year_start (tm_year t) <= day_number t < year_start (tm_year t) + 365 + cbool (leap (tm_year t)).
Proof.
  intros []. unfold day_number.
  pose proof (month_start_bounds (tm_mon t) (leap (tm_year t)) ltac:(lia)).
  pose proof (month_start_bounds (tm_mon t + 1) (leap (tm_year t)) ltac:(lia)). lia.
Qed.

(** A number of seconds names one date and time. *)
Lemma seconds_inj t t' : valid t -> valid t' -> seconds t = seconds t' -> same_time t t'.
Proof.
  intros Ht Ht' Hs. pose proof (year_of_day t Ht) as Hd. pose proof (year_of_day t' Ht') as Hd'.
  destruct Ht, Ht'. unfold seconds in Hs.
  assert (day_number t = day_number t' /\ tm_hour t = tm_hour t' /\ tm_min t = tm_min t' /\
          tm_sec t = tm_sec t') as (Hday & Hh & Hmi & Hse) by lia.
  assert (tm_year t = tm_year t') as Hy.
  { destruct (Z.lt_trichotomy (tm_year t) (tm_year t')) as [Hlt|[Heq|Hlt]]; [|done|];
      apply year_start_mono in Hlt; lia. }
  unfold day_number in Hday. rewrite <- Hy in *.
  assert (tm_mon t = tm_mon t') as Hm.
  { destruct (Z.lt_trichotomy (tm_mon t) (tm_mon t')) as [Hlt|[Heq|Hlt]]; [|done|];
      [pose proof (month_start_mono (tm_mon t) (tm_mon t') (leap (tm_year t)))
      |pose proof (month_start_mono (tm_mon t') (tm_mon t) (leap (tm_year t)))]; lia. }
  rewrite <- Hm in *. unfold same_time. lia.
Qed.

Lemma int_add_ok x y : - 2 ^ 31 <= x + y < 2 ^ 31 -> int_add x y = Some (x + y).
Proof.
  intros H. unfold int_add. rewrite (proj2 (Z.leb_le _ _)), (proj2 (Z.ltb_lt _ _)) by lia. done.
Qed.

(** The carry into the next month: from the day after the last one. *)
Lemma tick_month_ok t :
  valid t -> tm_year t < 2 ^ 31 - 1 -> tm_mday t = 1 -> exists t', tick_month t = Some t' /\ valid t' /\
    day_number t' = year_start (tm_year t) + month_start (tm_mon t + 1) (leap (tm_year t)) /\
    tm_hour t' = tm_hour t /\ tm_min t' = tm_min t /\ tm_sec t' = tm_sec t.
Proof.
  intros [] Hyr Hd. unfold tick_month. rewrite (int_add_ok (tm_mon t)) by lia. cbn [mbind option_bind].
  destruct (Z.eqb_spec (tm_mon t + 1) 13) as [Hm|Hm].
  - rewrite int_add_ok by lia. cbn [mbind option_bind]. eexists. split; [reflexivity|].
    split.
    { split; fields; try lia. rewrite Hd. apply january. }
    unfold day_number. fields. rewrite year_start_succ, Hd. split; [|done].
    replace (tm_mon t + 1) with 13 by lia. rewrite month_start_1, month_start_13. lia.
  - eexists. split; [reflexivity|].
    assert (month_start (tm_mon t + 1) (leap (tm_year t)) + 1
            <= month_start (tm_mon t + 1 + 1) (leap (tm_year t))) as Hl.
    { pose proof (month_length (tm_mon t + 1) (leap (tm_year t))). lia. }
    split; [split; fields; lia|]. unfold day_number. fields. rewrite Hd. lia.
Qed.

Lemma tick_day_ok t :
  valid t -> tm_year t < 2 ^ 31 - 1 -> exists t', tick_day t = Some t' /\ valid t' /\ day_number t' = day_number t + 1 /\
    tm_hour t' = tm_hour t /\ tm_min t' = tm_min t /\ tm_sec t' = tm_sec t.
Proof.
  intros Hv Hyr. pose proof Hv as []. unfold tick_day.
  pose proof (month_start_bounds (tm_mon t + 1) (leap (tm_year t)) ltac:(lia)).
  pose proof (month_start_bounds (tm_mon t) (leap (tm_year t)) ltac:(lia)).
  assert (cbool (leap (tm_year t)) <= 1) by (by destruct (leap _)).
  rewrite int_add_ok, nvr_get_days_spec by lia. cbn [mbind option_bind].
  destruct (Z.eqb_spec (tm_mday t + 1) (month_start (tm_mon t + 1) (leap (tm_year t))
                                        - month_start (tm_mon t) (leap (tm_year t)) + 1)) as [Hm|Hm].
  - destruct (tick_month_ok (t <| tm_mday := 1 |>)) as (t' & Et & Hv' & Hd & Hrest);
      [split; fields; lia|done|done|].
    exists t'. split; [exact Et|]. split; [done|]. split; [|exact Hrest].
    rewrite Hd. unfold day_number. fields. lia.
  - eexists. split; [reflexivity|]. split; [split; fields; lia|]. unfold day_number. fields. lia.
Qed.

Lemma rtc_tick_ok t :
  valid t -> tm_year t < 2 ^ 31 - 1 ->
  exists t', rtc_tick t = Some t' /\ valid t' /\ seconds t' = seconds t + 1.
Proof.
  intros Hv Hyr.
  pose proof Hv as []. unfold rtc_tick, tick_min, tick_hour. rewrite (int_add_ok (tm_sec t)) by lia. cbn [mbind option_bind].
  destruct (Z.eqb_spec (tm_sec t + 1) 60).
  2: { eexists. split; [reflexivity|]. split; [split; fields; lia|]. unfold seconds, day_number. fields. lia. }
  fields. rewrite (int_add_ok (tm_min t)) by lia. cbn [mbind option_bind].
  destruct (Z.eqb_spec (tm_min t + 1) 60).
  2: { eexists. split; [reflexivity|]. split; [split; fields; lia|]. unfold seconds, day_number. fields. lia. }
  fields. rewrite (int_add_ok (tm_hour t)) by lia. cbn [mbind option_bind].
  destruct (Z.eqb_spec (tm_hour t + 1) 24).
  2: { eexists. split; [reflexivity|]. split; [split; fields; lia|]. unfold seconds, day_number. fields. lia. }
  destruct (tick_day_ok (t <| tm_sec := 0 |> <| tm_min := 0 |> <| tm_hour := 0 |>))
    as (t' & Et & Hv' & Hd & Hh & Hm & Hse); [split; fields; lia|done|].
  exists t'. split; [exact Et|]. split; [done|]. unfold seconds. rewrite Hd, Hh, Hm, Hse.
  unfold day_number. fields. lia.
Qed.

(** A second later is at most a year later. *)
Lemma second_year t t' :
  valid t -> valid t' -> seconds t' = seconds t + 1 -> tm_year t' <= tm_year t + 1.
Proof.
  intros Hv Hv' Hs. pose proof (year_of_day t Hv). pose proof (year_of_day t' Hv').
  destruct Hv, Hv'. unfold seconds in Hs.
  destruct (Z.le_gt_cases (tm_year t') (tm_year t + 1)) as [|Hlt]; [done|].
  apply Z.lt_gt, Z.gt_lt, year_start_mono in Hlt. rewrite year_start_succ in Hlt.
  destruct (leap (tm_year t)), (leap (tm_year t + 1)), (leap (tm_year t')); cbn in *; lia.
Qed.

(** C18: the clock follows the Gregorian calendar: from a valid date and time
    [rtc_tick] leads to the one valid date and time a second later, through
    leap years, month ends and the turn of the year. *)
Theorem rtc_tick_calendar t :
  valid t -> tm_year t < 2 ^ 31 - 1 ->
  exists t', rtc_tick t = Some t' /\ valid t' /\ seconds t' = seconds t + 1 /\
    forall t2, valid t2 -> seconds t2 = seconds t + 1 -> same_time t2 t'.
Proof.
  intros Hv Hyr. destruct (rtc_tick_ok t Hv Hyr) as (t' & Et & Hv' & Hs).
  exists t'. split_and!; [done..|]. intros t2 Hv2 Hs2. apply seconds_inj; [done..|]. lia.
Qed.

(** 28 February 2000, 23:59:59 is followed by the 29th. *)
Lemma rtc_tick_calendar_witness :
  let t := mkTm 59 59 23 28 2 2000 0 in
  rtc_tick t = Some (mkTm 0 0 0 29 2 2000 0) /\ seconds (mkTm 0 0 0 29 2 2000 0) = seconds t + 1.
Proof.
  split; [reflexivity|].
  destruct (rtc_tick_calendar (mkTm 59 59 23 28 2 2000 0)) as (t' & Et & _ & Hs & _);
    [split; by vm_compute|by vm_compute|]. injection Et as <-. exact Hs.
Defined.

(** ** A hundred expiries of the timer are a second *)

#[local] Opaque timer_advance_u64 rtc_tick.

Section onesec.
Context {D : Type} `{!NvrEnv D}.

(** [n] expiries in a row; the timer queue between them. *)
Fixpoint expiries (n : nat) (x : ptr) (w : nvrs D) : option (nvrs D) :=
  match n with O => Some w | S n => w ← onesec_timer x w; expiries n x w end.

Definition rearm (tmr : ptr) (q : Timer.world D) : option (Timer.world D) :=
  timer_advance_u64 (Some tmr) (u64 (10000 * TIMER_USEC q)) q.

Fixpoint rearms (n : nat) (tmr : ptr) (q : Timer.world D) : option (Timer.world D) :=
  match n with O => Some q | S n => q ← rearm tmr q; rearms n tmr q end.

(** One expiry, by the count. *)
Lemma onesec_timer_eq x w d q :
  devs w !! x = Some d -> tick d = None -> 0 <= onesec_cnt d < 100 ->
  rearm (onesec_time d) (queue w) = Some q ->
  onesec_timer x w =
    (t ← (if (onesec_cnt d =? 99) && negb IS_AT then rtc_tick (intclk w) else Some (intclk w));
     Some (mkNvrs t (saved_nvr w) (nvr_dosave w)
             (<[x := d <| onesec_cnt := (onesec_cnt d + 1) `mod` 100 |>]> (devs w)) q (files w))).
Proof.
  intros Hd Htk Hc Hq. destruct w as [clk sv ds dv q0 fs]. cbn in Hd, Hq. unfold rearm in Hq.
  unfold onesec_timer, upd_dev. cbn. rewrite Hd. fields. rewrite lookup_insert_eq. fields.
  rewrite (wrap_id 8) by (unfold in_width; lia).
  destruct (Z.eqb_spec (onesec_cnt d) 99) as [E9|E9].
  - rewrite E9. change (100 <=? 99 + 1) with true. fields.
    unfold onesec_due, run_hook, upd_dev. destruct IS_AT; cbn [andb negb]; fields.
    2: destruct (rtc_tick clk) as [t|]; [|done]; fields.
    all: rewrite lookup_insert_eq; fields; rewrite Htk; fields; rewrite lookup_insert_eq; fields.
    all: rewrite insert_insert_eq, lookup_insert_eq; fields; by rewrite Hq.
  - fields. rewrite (proj2 (Z.leb_gt _ _)) by lia. fields. rewrite lookup_insert_eq. fields.
    rewrite Hq. fields. by rewrite Z.mod_small by lia.
Qed.

(** C19: A hundred expiries are a second: for a device without a [tick]
    function, whose timer can be re-armed [n] times, [n] expiries of the
    one-second timer succeed and change the count, the queue and the clock
    only; a valid clock whose year stays within an [int] moves forward by
    the number of times the count passes a hundred, except on AT machines,
    where the device does that and the timer leaves the clock alone. *)
Theorem onesec_hundred n x w d q :
  devs w !! x = Some d -> tick d = None -> 0 <= onesec_cnt d < 100 ->
  valid (intclk w) -> tm_year (intclk w) + Z.of_nat n < 2 ^ 31 ->
  rearms n (onesec_time d) (queue w) = Some q ->
  exists w', expiries n x w = Some w' /\ queue w' = q /\ valid (intclk w') /\
    seconds (intclk w') = seconds (intclk w) + (if IS_AT then 0 else (onesec_cnt d + Z.of_nat n) `div` 100) /\
    saved_nvr w' = saved_nvr w /\ nvr_dosave w' = nvr_dosave w /\ files w' = files w /\
    devs w' = <[x := d <| onesec_cnt := (onesec_cnt d + Z.of_nat n) `mod` 100 |>]> (devs w).
Proof.
  revert w d. induction n as [|n IH]; intros w d Hd Htk Hc Hv Hyr Hq.
  - exists w. injection Hq as <-. rewrite !Z.add_0_r, Z.div_small, Z.mod_small by done.
    split_and!; try done; [destruct IS_AT; lia|]. symmetry. apply insert_id. by destruct d.
  - cbn [rearms] in Hq. apply bind_Some in Hq as (q1 & Hq1 & Hq).
    cbn [expiries]. rewrite (onesec_timer_eq x w d q1) by done.
    assert (exists t, (if (onesec_cnt d =? 99) && negb IS_AT then rtc_tick (intclk w) else Some (intclk w)) = Some t /\
      valid t /\ tm_year t <= tm_year (intclk w) + 1 /\
      seconds t = seconds (intclk w) + if IS_AT then 0 else (onesec_cnt d + 1) `div` 100) as (t & -> & Hvt & Hyt & Hst).
    { destruct IS_AT; [rewrite andb_false_r; exists (intclk w); split_and!; [done|done|lia|lia]|].
      rewrite andb_true_r. destruct (Z.eqb_spec (onesec_cnt d) 99) as [->|].
      - destruct (rtc_tick_ok (intclk w) Hv) as (t & Et & Hvt & Hs); [lia|].
        exists t. split_and!; [done|done|by apply second_year|]. rewrite Hs. done.
      - exists (intclk w). split_and!; [done|done|lia|]. rewrite Z.div_small; lia. }
    cbn [mbind option_bind].
    set (d' := d <| onesec_cnt := (onesec_cnt d + 1) `mod` 100 |>).
    destruct (IH (mkNvrs t (saved_nvr w) (nvr_dosave w) (<[x := d']> (devs w)) q1 (files w)) d')
      as (w' & Hrun & Hqw & Hvw & Hsw & Hdw).
    + apply lookup_insert_eq.
    + exact Htk.
    + apply Z.mod_pos_bound. lia.
    + exact Hvt.
    + cbn. lia.
    + exact Hq.
    + exists w'. destruct Hdw as (? & ? & ? & Hdw). split_and!; [exact Hrun|done|done| |done|done|done|].
      * rewrite Hsw. cbn. rewrite Hst. destruct IS_AT; [lia|]. clear. Z.div_mod_to_equations. lia.
      * rewrite Hdw. cbn. rewrite insert_insert_eq. unfold d'. fields. do 2 f_equal. clear.
        Z.div_mod_to_equations. lia.
Qed.
End onesec.

(** ** Saving and loading *)

Section save.
Context {D : Type} `{!NvrEnv D}.

(** A reset hook that only fills in registers. *)
Definition fills (h : option Z) (x : ptr) (r : list Z) : Prop :=
  match h with
  | None => r = replicate (Z.to_nat NVR_MAXSIZE) 0
  | Some f => forall (w : nvrs D) d, devs w !! x = Some d ->
      hook f x w = Some (w <| devs := <[x := d <| regs := r |>]> (devs w) |>)
  end.

(** Loading, up to the start hook: by the file. *)
Lemma nvr_load_eq x w d r :
  saved_nvr w = Some x -> devs w !! x = Some d -> fills (reset d) x r ->
  nvr_load w =
    (w ← load_file x (w <| devs := <[x := d <| regs := r |>]> (devs w) |>);
     n ← devs w !! x; w ← run_hook (start n) x w; Some (1, w)).
Proof.
  intros Hs Hd Hf. destruct w as [clk sv ds dv q0 fs]. cbn in Hs, Hd. subst sv.
  unfold nvr_load, upd_dev. cbn -[load_file]. rewrite Hd. cbn -[load_file]. unfold set.
  rewrite lookup_insert_eq. cbn -[load_file]. unfold fills in Hf.
  match goal with |- context [run_hook (reset d) x ?W] =>
    change (run_hook (reset d) x W) with (match reset d with Some f => hook f x W | None => Some W end) end.
  destruct (reset d) as [f|].
  - erewrite Hf; [|cbn; apply lookup_insert_eq]. cbn -[load_file]. unfold set.
    by rewrite insert_insert_eq.
  - subst r. done.
Qed.

Lemma load_file_eq x w d bytes :
  devs w !! x = Some d -> 0 < size d <= NVR_MAXSIZE -> length (regs d) = Z.to_nat NVR_MAXSIZE ->
  files w !! nvr_path (fn d) = Some bytes -> length bytes = Z.to_nat (size d) ->
  load_file x w = Some (w <| devs :=
    <[x := d <| is_new := 0 |> <| regs := bytes ++ drop (Z.to_nat (size d)) (regs d) |>]> (devs w) |>).
Proof.
  intros Hd Hsz Hr Hf Hb. unfold load_file. rewrite Hd. cbn [mbind option_bind].
  rewrite (proj2 (Z.eqb_neq _ _)), Hf, Hb, Nat.ltb_irrefl by lia.
  rewrite take_ge by lia. unfold memcpy. rewrite decide_True by lia. cbn [mbind option_bind].
  unfold upd_dev. rewrite Hd. cbn [mbind option_bind]. by rewrite Hb.
Qed.

(** C20: what was saved is loaded: after [nvr_save] to a writable file, loading
    restores the device's registers up to its size, keeps beyond them what
    the reset hook put there, and marks the device as not new, before its
    start hook runs. *)
Theorem nvr_save_load x w d r :
  saved_nvr w = Some x -> devs w !! x = Some d -> ven_save d = None ->
  0 < size d <= NVR_MAXSIZE -> length (regs d) = Z.to_nat NVR_MAXSIZE ->
  length r = Z.to_nat NVR_MAXSIZE -> fills (reset d) x r -> writable (nvr_path (fn d)) = true ->
  exists w1 w2, nvr_save w = Some (1, w1) /\ nvr_dosave w1 = 0 /\
    nvr_load w1 = (w ← run_hook (start d) x w2; Some (1, w)) /\
    devs w2 = <[x := d <| is_new := 0 |>
                       <| regs := take (Z.to_nat (size d)) (regs d) ++ drop (Z.to_nat (size d)) r |>]> (devs w).
Proof.
  intros Hs Hd Hven Hsz Hlen Hr Hf Hw.
  set (bytes := take (Z.to_nat (size d)) (regs d)).
  assert (length bytes = Z.to_nat (size d)) as Hb by (unfold bytes; rewrite length_take; lia).
  set (w1 := (w <| files := <[nvr_path (fn d) := bytes]> (files w) |>) <| nvr_dosave := 0 |>).
  assert (nvr_save w = Some (1, w1)) as Hsave.
  { unfold nvr_save, save_file. rewrite Hs, Hd. cbn [mbind option_bind].
    rewrite (proj2 (Z.eqb_neq _ _)), Hw by lia. unfold slice. rewrite decide_True by lia.
    cbn. rewrite Hd. cbn. by rewrite Hven. }
  set (dr := d <| regs := r |>). set (wr := w1 <| devs := <[x := dr]> (devs w1) |>).
  set (d2 := dr <| is_new := 0 |> <| regs := bytes ++ drop (Z.to_nat (size d)) r |>).
  assert (load_file x wr = Some (wr <| devs := <[x := d2]> (devs wr) |>)) as Hload.
  { apply (load_file_eq x wr dr bytes); [apply lookup_insert_eq|done|done|apply lookup_insert_eq|done]. }
  exists w1, (wr <| devs := <[x := d2]> (devs wr) |>). split; [exact Hsave|]. split; [done|].
  rewrite (nvr_load_eq x w1 d r Hs Hd Hf). fold dr. fold wr. rewrite Hload.
  split.
  - cbn [mbind option_bind]. change (devs (wr <| devs := <[x := d2]> (devs wr) |>)) with (<[x := d2]> (devs wr)).
    by rewrite lookup_insert_eq.
  - change (<[x := d2]> (<[x := dr]> (devs w)) = <[x := d2]> (devs w)). apply insert_insert_eq.
Qed.
End save.

(** ** A machine without hooks, and the weekday *)

#[local] Instance plain_env : NvrEnv unit := {|
  hook _ _ w := Some w;
  ven_hook _ w := Some w;
  IS_AT := false;
  time_sync := 0;
  host_time _ := mkTm 0 0 0 1 0 100 0;
  machine_get_nvr_name := "xt";
  nvr_path s := s;
  writable _ := true;
|}.

Definition dev0 : nvr_t :=
  mkNvr "xt.nvr" 64 1 98 7 None None None None (replicate 512 1).

Definition timer0 : pc_timer := mkTimer 0 0 0 0 dbl_zero (Some 1) 7 None None.

Definition nvrs0 : nvrs unit :=
  mkNvrs (mkTm 59 59 23 31 12 1999 0) (Some 7) 1 {[ 7 := dev0 ]}
    (Timer.mkWorld {[ 7 := timer0 ]} None 0 true 0 4000 tt) ∅.

Lemma clock0_valid : valid (intclk nvrs0).
Proof. split; by vm_compute. Qed.

Lemma y2k_valid : valid (mkTm 0 0 0 1 1 2000 0).
Proof. split; by vm_compute. Qed.

Lemma queue0_rearms : exists q, rearms 2 7 (queue nvrs0) = Some q.
Proof. eexists. vm_compute. reflexivity. Qed.

(** From the last second of 1999 the two expiries left of a hundred lead to
    the year 2000. *)
Lemma onesec_hundred_witness :
  exists w', expiries 2 7 nvrs0 = Some w' /\
    seconds (intclk w') = seconds (intclk nvrs0) + 1 /\ same_time (intclk w') (mkTm 0 0 0 1 1 2000 0).
Proof.
  destruct queue0_rearms as [q Hq].
  assert (devs nvrs0 !! 7 = Some dev0) as Hd by reflexivity.
  assert (0 <= onesec_cnt dev0 < 100) as Hc by (cbn; lia).
  destruct (onesec_hundred (NvrEnv0 := plain_env) 2 7 nvrs0 dev0 q Hd eq_refl Hc
    clock0_valid eq_refl Hq) as (w' & Hw & _ & Hv & Hs & _).
  exists w'. split; [exact Hw|]. split; [exact Hs|].
  apply (seconds_inj _ _ Hv y2k_valid). rewrite Hs. vm_compute. reflexivity.
Defined.

Lemma nvr_save_load_witness :
  exists w1 w2, nvr_save nvrs0 = Some (1, w1) /\ nvr_load w1 = Some (1, w2) /\
    (regs <$> devs w2 !! 7) = Some (replicate 64 1 ++ replicate 448 0).
Proof.
  destruct (nvr_save_load 7 nvrs0 dev0 (replicate 512 0)) as (w1 & w2 & Hs & _ & Hl & Hd);
    [done|by vm_compute|done|by vm_compute|done|done|done|done|].
  exists w1, w2. split; [exact Hs|]. split; [exact Hl|]. rewrite Hd. by vm_compute.
Defined.

(** The weekday the clock reports is not the calendar's: the first of January
    2000, a Saturday (6), reads as a Monday (1), and the day after
    31 January as the day before it. *)
Theorem nvr_wday_wrong :
  wday_of (mkTm 0 0 0 1 1 2000 0) = 1 /\ (day_number (mkTm 0 0 0 1 1 2000 0) + 1) `mod` 7 = 6 /\
  day_number (mkTm 0 0 0 1 2 2000 0) = day_number (mkTm 0 0 0 31 1 2000 0) + 1 /\
  wday_of (mkTm 0 0 0 1 2 2000 0) <> (wday_of (mkTm 0 0 0 31 1 2000 0) + 1) `mod` 7.
Proof. by vm_compute. Qed.
