(* ===== verification/PitExact.v ===== *)
(** * PitExact: the 8253/8254 counters of src/src/pit_exact.c

    One counter is a [pitx_channel_t], clocked by [tick_channel]; a device
    has three.  Functions on [pitx_channel_t *] return the new channel.  The
    counting element holds 0x10000 for a reload of zero; in BCD mode it is
    four decimal digits. *)
From S2P Require Import Prelude.

Inductive pitx_type_t := PITX_8253 | PITX_8254.

Inductive pitx_state_t :=
  | PITX_WAIT_COUNT | PITX_WAIT_TRIGGER | PITX_WAIT_GATE | PITX_LOAD_NEXT
  | PITX_COUNTING | PITX_RELOAD_NEXT | PITX_STROBE_RECOVER | PITX_DONE.

#[export] Instance pitx_type_eq_dec : EqDecision pitx_type_t.
Proof. solve_decision. Defined.
#[export] Instance pitx_state_eq_dec : EqDecision pitx_state_t.
Proof. solve_decision. Defined.

Record pitx_channel_t := mkChannel {
  type : pitx_type_t;
  control : Z;
  mode_raw : Z;
  mode : Z;
  rw_mode : Z;
  bcd : bool;
  write_phase : Z;
  read_phase : Z;
  count_latched : bool;
  status_latched : bool;
  output_latch : Z;
  status_latch : Z;
  count_register : Z;
  counting_element : Z;
  null_count : bool;
  gate : bool;
  output : bool;
  armed : bool;
  initial_load : bool;
  incomplete_reload : bool;
  ce_undefined : bool;
  toggle_on_reload : bool;
  state : pitx_state_t;
  clocks : Z;
}.

Definition canonical_mode (raw : Z) : Z :=
  let raw := raw .& 7 in if 5 <? raw then raw .& 3 else raw.

(** Both branches of the C function are the same. *)
Definition reload_value (c : pitx_channel_t) : Z :=
  if bcd c then (if ctrue (count_register c) then count_register c else 0x10000)
  else (if ctrue (count_register c) then count_register c else 0x10000).

Definition visible_count (value : Z) : Z := if value =? 0x10000 then 0 else u16 value.

Definition update_live_latch (c : pitx_channel_t) : pitx_channel_t :=
  if count_latched c then c else c <| output_latch := visible_count (counting_element c) |>.

Definition bcd_decrement (value : Z) : Z :=
  if (value =? 0) || (value =? 0x10000) then 0x9999
  else if ctrue (value .& 0x000f) then u32 (value - 1) .& 0xffff
  else if ctrue (value .& 0x00f0) then u32 (value - 0x0007) .& 0xffff
  else if ctrue (value .& 0x0f00) then u32 (value - 0x0067) .& 0xffff
  else u32 (value - 0x0667) .& 0xffff.

Definition decremented (b : bool) (ce : Z) : Z :=
  if b then bcd_decrement ce
  else if ce =? 0 then 0xffff
  else if ce =? 0x10000 then 0xffff
  else u32 (ce - 1) .& 0xffff.

Definition decrement (c : pitx_channel_t) : pitx_channel_t :=
  update_live_latch (c <| counting_element := decremented (bcd c) (counting_element c) |>).

Fixpoint decrement_n (c : pitx_channel_t) (n : nat) : pitx_channel_t :=
  match n with O => c | S n => decrement_n (decrement c) n end.

Definition set_output (c : pitx_channel_t) (out : bool) : pitx_channel_t := c <| output := out |>.

Definition set_state (c : pitx_channel_t) (s : pitx_state_t) : pitx_channel_t := c <| state := s |>.

(** The switch on the mode in [load_counting_element]; the modes are 0 to 5. *)
Definition load_mode (c : pitx_channel_t) : option pitx_channel_t :=
  match mode c with
  | 0 | 1 => Some (set_state (set_output c false) PITX_COUNTING)
  | 2 => Some (set_state (set_output c true) (if gate c then PITX_COUNTING else PITX_WAIT_GATE))
  | 3 =>
      let c := if toggle_on_reload c then (set_output c (negb (output c))) <| toggle_on_reload := false |>
               else if bool_decide (state c <> PITX_RELOAD_NEXT) then set_output c true else c in
      Some (set_state c (if gate c then PITX_COUNTING else PITX_WAIT_GATE))
  | 4 | 5 => Some (set_state (set_output c true) PITX_COUNTING)
  | _ => None
  end.

Definition load_counting_element (c : pitx_channel_t) : option pitx_channel_t :=
  let load := reload_value c in
  let load := if bool_decide (type c = PITX_8254) && (mode c =? 3) && ctrue (count_register c .& 1)
              then load .& 0xfffe else load in
  let c := c <| counting_element := load |> <| null_count := false |> <| ce_undefined := false |> in
  let c := if (rw_mode c =? 3) && (write_phase c =? 1) then c <| incomplete_reload := true |> else c in
  load_mode (update_live_latch c).

(** [memset] to zero: the enumerations start with 8253 and WAIT_COUNT. *)
Definition reset_channel (t : pitx_type_t) : pitx_channel_t :=
  mkChannel t 0 0 0 1 false 0 0 false false 0 0 0 0 true false false false true false false false
    PITX_WAIT_COUNT 0.

Definition latch_count (c : pitx_channel_t) : pitx_channel_t :=
  if count_latched c then c
  else c <| output_latch := visible_count (counting_element c) |> <| count_latched := true |>
         <| read_phase := 0 |>.

Definition latch_status (c : pitx_channel_t) : pitx_channel_t :=
  if status_latched c then c
  else c <| status_latch := u8 ((if output c then 0x80 else 0) .| (if null_count c then 0x40 else 0)
                                .| (control c .& 0x3f)) |>
         <| status_latched := true |>.

Definition program_mode (c : pitx_channel_t) (ctl : Z) : pitx_channel_t :=
  let raw := (ctl >>> 1) .& 7 in
  let m := canonical_mode raw in
  mkChannel (type c) ctl raw m ((ctl >>> 4) .& 3) (ctrue (ctl .& 1)) 0 0 false false
    (output_latch c) (status_latch c) (count_register c) (counting_element c) true (gate c)
    (negb (m =? 0)) false true false true false PITX_WAIT_COUNT (clocks c).

Definition finalize_write (c : pitx_channel_t) : pitx_channel_t :=
  let c := if count_register c =? 1 then
             (if mode c =? 2 then c <| count_register := 2 |>
              else if mode c =? 3 then c <| count_register := 0 |> else c)
           else c in
  let c := c <| null_count := true |> <| armed := true |> in
  if initial_load c then
    set_state (c <| initial_load := false |>)
      (if (mode c =? 1) || (mode c =? 5) then PITX_WAIT_TRIGGER else PITX_LOAD_NEXT)
  else
    let c := if incomplete_reload c || (mode c =? 0) || (mode c =? 4)
             then set_state c PITX_LOAD_NEXT else c in
    c <| incomplete_reload := false |>.

(** [pitx_data_write] on a channel. *)
Definition data_write (c : pitx_channel_t) (value : Z) : pitx_channel_t :=
  match rw_mode c with
  | 1 => finalize_write (c <| count_register := value |>)
  | 2 => finalize_write (c <| count_register := u16 (value <<< 8) |>)
  | 3 =>
      if write_phase c =? 0 then
        let c := c <| count_register := u16 ((count_register c .& 0xff00) .| value) |>
                   <| write_phase := 1 |> in
        if mode c =? 0 then set_output (set_state c PITX_WAIT_COUNT) false else c
      else
        finalize_write
          (c <| count_register := u16 ((count_register c .& 0x00ff) .| u16 (value <<< 8)) |>
             <| write_phase := 0 |>)
  | _ => c
  end.

(** [pitx_data_read] on a channel: the byte, and the channel after the read. *)
Definition data_read (c : pitx_channel_t) : Z * pitx_channel_t :=
  if status_latched c then (status_latch c, c <| status_latched := false |>)
  else
    let value := if count_latched c then output_latch c else visible_count (counting_element c) in
    if negb (count_latched c) && (rw_mode c =? 3) && (write_phase c =? 1)
    then (u8 (Z.lnot (count_register c .& 0xff)), c)
    else
      match rw_mode c with
      | 1 => (u8 value, c <| count_latched := false |>)
      | 2 => (u8 (value >>> 8), c <| count_latched := false |>)
      | 3 => if read_phase c =? 0 then (u8 value, c <| read_phase := 1 |>)
             else (u8 (value >>> 8), c <| read_phase := 0 |> <| count_latched := false |>)
      | _ => (0, c)
      end.

(** [pitx_set_gate] on a channel. *)
Definition set_gate (c : pitx_channel_t) (g : bool) : pitx_channel_t :=
  let old := gate c in
  let c := c <| gate := g |> in
  let waiting := bool_decide (state c = PITX_WAIT_COUNT) in
  if negb old && g then
    match mode c with
    | 1 | 5 => if waiting then c else set_state (c <| armed := true |>) PITX_LOAD_NEXT
    | 2 | 3 => if waiting then c else set_state c PITX_LOAD_NEXT
    | _ => c
    end
  else if old && negb g then
    match mode c with
    | 2 | 3 =>
        let c := set_output c true in
        if waiting then c else set_state c PITX_WAIT_GATE
    | _ => c
    end
  else c.

(** Reloading at the end of a half period. *)
Definition reload (c : pitx_channel_t) (load : Z) : pitx_channel_t :=
  update_live_latch (c <| counting_element := load |>).

Definition count_mode3 (c : pitx_channel_t) : pitx_channel_t :=
  let odd := ctrue (count_register c .& 1) in
  if odd && bool_decide (type c = PITX_8254) then
    let c := decrement_n c 2 in
    if visible_count (counting_element c) =? 0 then
      if output c then set_state (c <| toggle_on_reload := true |>) PITX_RELOAD_NEXT
      else reload (set_output c true) (reload_value c .& 0xfffe)
    else c
  else
    let c := if odd && ctrue (counting_element c .& 1)
             then decrement_n c (if output c then 1 else 3) else decrement_n c 2 in
    if visible_count (counting_element c) =? 0
    then reload (set_output c (negb (output c))) (reload_value c) else c.

(** The second switch of [pitx_tick_channel]: a channel that is counting. *)
Definition count_tick (c : pitx_channel_t) : pitx_channel_t :=
  match mode c with
  | 0 =>
      if gate c then
        let c := decrement c in
        if visible_count (counting_element c) =? 0 then set_output c true else c
      else c
  | 1 =>
      let c := decrement c in
      if visible_count (counting_element c) =? 0
      then (if armed c then set_output c true else c) <| armed := false |> else c
  | 2 =>
      if gate c then
        let c := decrement c in
        if visible_count (counting_element c) =? 1
        then set_state (set_output c false) PITX_RELOAD_NEXT else c
      else c
  | 3 => if gate c then count_mode3 c else c
  | 4 =>
      if gate c then
        let c := decrement c in
        if visible_count (counting_element c) =? 0
        then set_state (set_output c false) PITX_STROBE_RECOVER else c
      else c
  | 5 =>
      let c := decrement c in
      if visible_count (counting_element c) =? 0
      then set_state ((set_output c false) <| armed := false |>) PITX_STROBE_RECOVER else c
  | _ => c
  end.

(** [pitx_tick_channel] on a channel; [None] is the failed assertion. *)
Definition tick_channel (c : pitx_channel_t) : option pitx_channel_t :=
  let c := c <| clocks := u64 (clocks c + 1) |> in
  match state c with
  | PITX_LOAD_NEXT | PITX_RELOAD_NEXT => load_counting_element c
  | PITX_STROBE_RECOVER => Some (set_state (set_output c true) PITX_COUNTING)
  | PITX_WAIT_TRIGGER =>
      Some (if ce_undefined c && armed c
            then update_live_latch (c <| counting_element := 3 |>) else c)
  | PITX_WAIT_COUNT | PITX_WAIT_GATE | PITX_DONE => Some c
  | PITX_COUNTING => Some (count_tick c)
  end.

(** ** The device *)

Record pitx_device_t := mkDevice {
  dev_type : pitx_type_t;
  channel : list pitx_channel_t;
  last_control : Z;
}.

Definition pitx_reset (t : pitx_type_t) : pitx_device_t := mkDevice t (replicate 3 (reset_channel t)) 0.
Definition pitx_init (t : pitx_type_t) : pitx_device_t := pitx_reset t.

(** An operation on [pit->channel[i]]. *)
Definition on_channel (i : Z) (f : pitx_channel_t -> pitx_channel_t) (pit : pitx_device_t) : pitx_device_t :=
  pit <| channel := alter f (Z.to_nat i) (channel pit) |>.

(** One counter of the read-back command. *)
Definition read_back (value : Z) (i : Z) (pit : pitx_device_t) : pitx_device_t :=
  if value .& u8 (2 <<< i) =? 0 then pit
  else
    let pit := if value .& 0x20 =? 0 then on_channel i latch_count pit else pit in
    if value .& 0x10 =? 0 then on_channel i latch_status pit else pit.

Definition pitx_control_write (pit : pitx_device_t) (value : Z) : pitx_device_t :=
  let select := value >>> 6 in
  let pit := pit <| last_control := value |> in
  if select =? 3 then
    if bool_decide (dev_type pit <> PITX_8254) then pit
    else read_back value 2 (read_back value 1 (read_back value 0 pit))
  else if value .& 0x30 =? 0 then on_channel select latch_count pit
  else on_channel select (fun c => program_mode c value) pit.

Definition pitx_data_write (pit : pitx_device_t) (ch value : Z) : pitx_device_t :=
  if 3 <=? ch then pit else on_channel ch (fun c => data_write c value) pit.

Definition pitx_data_read (pit : pitx_device_t) (ch : Z) : option (Z * pitx_device_t) :=
  if 3 <=? ch then Some (0xff, pit)
  else
    c ← channel pit !! Z.to_nat ch;
    let '(v, c) := data_read c in Some (v, on_channel ch (fun _ => c) pit).

Definition pitx_set_gate (pit : pitx_device_t) (ch : Z) (g : bool) : pitx_device_t :=
  if 3 <=? ch then pit else on_channel ch (fun c => set_gate c g) pit.

Definition pitx_tick_channel (pit : pitx_device_t) (ch : Z) : option pitx_device_t :=
  if 3 <=? ch then Some pit
  else
    c ← channel pit !! Z.to_nat ch;
    c ← tick_channel c;
    Some (on_channel ch (fun _ => c) pit).

Definition pitx_tick (pit : pitx_device_t) : option pitx_device_t :=
  pit ← pitx_tick_channel pit 0; pit ← pitx_tick_channel pit 1; pitx_tick_channel pit 2.

Definition pitx_get_count (pit : pitx_device_t) (ch : Z) : option Z :=
  if 3 <=? ch then Some 0
  else c ← channel pit !! Z.to_nat ch; Some (visible_count (counting_element c)).

Definition pitx_get_output (pit : pitx_device_t) (ch : Z) : option bool :=
  if 3 <=? ch then Some false else output <$> channel pit !! Z.to_nat ch.

(** ** Counts

    A count [v] from 0 to the modulus stands in the counting element as [enc]:
    itself in binary, four digits in BCD, 0x10000 for the modulus. *)

Definition modulus (b : bool) : Z := if b then 10000 else 65536.

Definition enc (b : bool) (v : Z) : Z :=
  if v =? modulus b then 0x10000
  else if b then 4096 * (v `div` 1000) + 256 * ((v `div` 100) `mod` 10)
                 + 16 * ((v `div` 10) `mod` 10) + v `mod` 10
  else v.

(** What the counting needs to know of BCD, for one value. *)
Definition bcd_ok (v : Z) : bool :=
  let e := enc true v in
  let e1 := enc true (if v =? 0 then 9999 else v - 1) in
  let s := visible_count e in
  (bcd_decrement e =? e1) && Bool.eqb (ctrue (e .& 1)) (Z.odd v) &&
  (negb (Z.odd v) || (e .& 0xfffe =? e1)) &&
  Bool.eqb (s =? 0) ((v =? 0) || (v =? 10000)) && Bool.eqb (s =? 1) (v =? 1) && ((s =? 0) || (s =? e)).

Lemma bcd_all : forallb bcd_ok (seqZ 0 10001) = true.
Proof. by vm_compute. Qed.

Lemma bcd_spec v :
  0 <= v <= 10000 ->
  bcd_decrement (enc true v) = enc true (if v =? 0 then 9999 else v - 1) /\
  ctrue (enc true v .& 1) = Z.odd v /\
  (Z.odd v = true -> enc true v .& 0xfffe = enc true (v - 1)) /\
  (visible_count (enc true v) =? 0) = (v =? 0) || (v =? 10000) /\
  (visible_count (enc true v) =? 1) = (v =? 1) /\
  (visible_count (enc true v) <> 0 -> visible_count (enc true v) = enc true v).
Proof.
  intros Hv. assert (bcd_ok v = true) as H.
  { pose proof bcd_all as H. rewrite forallb_forall in H. apply H.
    apply list_elem_of_In, elem_of_seqZ. lia. }
  unfold bcd_ok in H. rewrite !andb_true_iff, !eqb_true_iff, !orb_true_iff, !Z.eqb_eq, negb_true_iff in H.
  destruct H as [[[[[H1 H2] H3] H4] H5] H6]. split_and!; try done.
  - intros Ho. rewrite Ho in H3. destruct H3 as [?| ->]; [done|]. by destruct (Z.eqb_spec v 0) as [->|].
  - intros Hn. by destruct H6.
Qed.

Lemma enc_binary v : 0 <= v <= 65536 -> enc false v = v.
Proof. unfold enc, modulus. intros. by destruct (Z.eqb_spec v 65536) as [->|]. Qed.

Lemma land_1_odd v : ctrue (v .& 1) = Z.odd v.
Proof. change 1 with (2 ^ 0). rewrite ctrue_bit by lia. apply Z.bit0_odd. Qed.

Lemma visible_binary v : 0 <= v <= 65536 -> visible_count v = if v =? 65536 then 0 else v.
Proof.
  intros Hv. unfold visible_count. destruct (Z.eqb_spec v 65536); [done|].
  apply wrap_id. unfold in_width. lia.
Qed.

(** One clock takes one off the count, from zero to the top. *)
Lemma decremented_enc b v :
  0 <= v <= modulus b ->
  decremented b (enc b v) = enc b (if v =? 0 then modulus b - 1 else v - 1).
Proof.
  intros Hv. unfold decremented. destruct b; cbn [modulus] in *.
  - apply (bcd_spec v Hv).
  - rewrite !enc_binary by (destruct (Z.eqb_spec v 0); lia).
    destruct (Z.eqb_spec v 0); [done|]. destruct (Z.eqb_spec v 65536) as [->|]; [done|].
    change 0xffff with (Z.ones 16). rewrite land_mask by lia. unfold wrap.
    rewrite (Z.mod_small _ (2 ^ 32)) by lia. apply Z.mod_small. lia.
Qed.

Lemma enc_odd b v : 0 <= v < modulus b -> ctrue (enc b v .& 1) = Z.odd v.
Proof.
  intros Hv. destruct b; cbn [modulus] in *.
  - apply (bcd_spec v ltac:(lia)).
  - rewrite enc_binary by lia. apply land_1_odd.
Qed.

Lemma enc_even b v : 0 <= v < modulus b -> Z.odd v = true -> enc b v .& 0xfffe = enc b (v - 1).
Proof.
  intros Hv Ho. destruct b; cbn [modulus] in *.
  - by apply (bcd_spec v ltac:(lia)).
  - rewrite !enc_binary by (destruct (decide (v = 0)) as [->|]; [done|lia]).
    apply Z.bits_inj'. intros i Hi. rewrite Z.land_spec.
    apply Z.odd_spec in Ho as [k Hk]. subst v. replace (2 * k + 1 - 1) with (2 * k) by lia.
    destruct (decide (i = 0)) as [->|].
    + rewrite Z.testbit_even_0. apply andb_false_r.
    + replace i with (Z.succ (Z.pred i)) by lia.
      rewrite Z.testbit_odd_succ, Z.testbit_even_succ by lia.
      destruct (decide (Z.succ (Z.pred i) < 16)).
      * change 0xfffe with (2 * Z.ones 15). rewrite Z.testbit_even_succ, Z.ones_spec_low by lia.
        apply andb_true_r.
      * replace (Z.testbit k (Z.pred i)) with false; [done|]. symmetry.
        assert (in_width 15 k) as [_ Hw]%in_width_testbit by (unfold in_width; lia || done).
        -- apply Hw. lia.
        -- lia.
Qed.

(** The register holds the visible count; reloading gives the count back. *)
Lemma register_enc b N :
  1 <= N <= modulus b ->
  (if ctrue (visible_count (enc b N)) then visible_count (enc b N) else 0x10000) = enc b N.
Proof.
  intros HN. unfold ctrue. destruct b; cbn [modulus] in HN.
  - destruct (Z.eqb_spec N 10000) as [->|]; [done|].
    destruct (bcd_spec N ltac:(lia)) as (_ & _ & _ & Hz & _ & Hv).
    rewrite (proj2 (Z.eqb_neq N 0)), (proj2 (Z.eqb_neq N 10000)) in Hz by lia. rewrite Hz.
    apply Hv. by apply Z.eqb_neq.
  - rewrite enc_binary, visible_binary by lia. destruct (Z.eqb_spec N 65536) as [->|]; [done|].
    by destruct (Z.eqb_spec N 0); [lia|].
Qed.

Lemma reload_enc b N c :
  1 <= N <= modulus b -> bcd c = b -> count_register c = visible_count (enc b N) ->
  reload_value c = enc b N.
Proof.
  intros HN Hb Hr. unfold reload_value. rewrite Hr, Hb, register_enc by done. by destruct b.
Qed.

Lemma visible_zero b v :
  0 <= v <= modulus b -> (visible_count (enc b v) =? 0) = (v =? 0) || (v =? modulus b).
Proof.
  intros Hv. destruct b; cbn [modulus] in *.
  - apply (bcd_spec v ltac:(lia)).
  - rewrite enc_binary, visible_binary by lia. destruct (Z.eqb_spec v 65536) as [->|]; [done|].
    by rewrite orb_false_r.
Qed.

Lemma visible_one b v : 0 <= v <= modulus b -> (visible_count (enc b v) =? 1) = (v =? 1).
Proof.
  intros Hv. destruct b; cbn [modulus] in *.
  - apply (bcd_spec v ltac:(lia)).
  - rewrite enc_binary, visible_binary by lia. by destruct (Z.eqb_spec v 65536) as [->|].
Qed.

Lemma register_odd b N :
  1 <= N <= modulus b -> ctrue (visible_count (enc b N) .& 1) = Z.odd N.
Proof.
  intros HN. destruct (decide (N = modulus b)) as [->|]; [by destruct b|].
  rewrite <- (enc_odd b N) by lia. destruct b; cbn [modulus] in *.
  - destruct (bcd_spec N ltac:(lia)) as (_ & _ & _ & Hz & _ & Hv).
    rewrite (proj2 (Z.eqb_neq N 0)), (proj2 (Z.eqb_neq N 10000)) in Hz by lia.
    rewrite Hv; [done|]. by apply Z.eqb_neq.
  - rewrite enc_binary, visible_binary by lia. by rewrite (proj2 (Z.eqb_neq N 65536)).
Qed.

(** ** Waveforms *)

(** What stays fixed while a counter runs: the chip, the programmed mode, a
    high gate and the programmed count [N]. *)
Definition config (t : pitx_type_t) (m : Z) (b : bool) (N : Z) (c : pitx_channel_t) : Prop :=
  type c = t /\ mode c = m /\ bcd c = b /\ gate c = true /\ count_register c = visible_count (enc b N).

(** What runs: the count, the output, the state and the pending toggle. *)
Definition now (b : bool) (v : Z) (o : bool) (s : pitx_state_t) (g : bool) (c : pitx_channel_t) : Prop :=
  counting_element c = enc b v /\ output c = o /\ state c = s /\ toggle_on_reload c = g.

(** The same instant, described by equal counts, outputs and states. *)
Ltac same_now :=
  match goal with |- now _ ?v ?o ?s ?g _ -> now _ ?v' ?o' ?s' ?g' _ =>
    replace v' with v by decide_z; replace o' with o by decide_z;
    replace g' with g by decide_z; replace s' with s by decide_z; done end.

Section running.
Context (t : pitx_type_t) (m : Z) (b : bool) (N : Z).
Context (HN : 1 <= N <= modulus b).

Lemma latch_now v o s g c :
  config t m b N c -> now b v o s g c ->
  config t m b N (update_live_latch c) /\ now b v o s g (update_live_latch c).
Proof. intros Hc Hn. unfold update_live_latch. destruct (count_latched c); split; assumption. Qed.

Lemma decrement_wraps v o s g c :
  config t m b N c -> now b v o s g c -> 0 <= v <= modulus b ->
  config t m b N (decrement c) /\ now b (if v =? 0 then modulus b - 1 else v - 1) o s g (decrement c).
Proof.
  intros Hc Hn Hv. apply latch_now; [exact Hc|]. destruct Hn as (Hce & Hn). split; [|exact Hn].
  change (decremented (bcd c) (counting_element c) = enc b (if v =? 0 then modulus b - 1 else v - 1)).
  destruct Hc as (_ & _ & -> & _). by rewrite Hce, decremented_enc.
Qed.

Lemma decrement_now v o s g c :
  config t m b N c -> now b v o s g c -> 1 <= v <= modulus b ->
  config t m b N (decrement c) /\ now b (v - 1) o s g (decrement c).
Proof.
  intros Hc Hn Hv. destruct (decrement_wraps v o s g c Hc Hn) as [Hc' Hn']; [lia|].
  rewrite (proj2 (Z.eqb_neq v 0)) in Hn' by lia. done.
Qed.

Lemma decrement_n_now n v o s g c :
  config t m b N c -> now b v o s g c -> Z.of_nat n <= v <= modulus b ->
  config t m b N (decrement_n c n) /\ now b (v - Z.of_nat n) o s g (decrement_n c n).
Proof.
  revert v c. induction n as [|n IH]; intros v c Hc Hn Hv; cbn [decrement_n].
  - by rewrite Z.sub_0_r.
  - destruct (decrement_now v o s g c Hc Hn) as [Hc' Hn']; [lia|].
    destruct (IH _ _ Hc' Hn') as [Hc2 Hn2]; [lia|]. split; [exact Hc2|].
    by replace (v - Z.of_nat (S n)) with (v - 1 - Z.of_nat n) by lia.
Qed.

Lemma reload_now v v' o s g c ld :
  config t m b N c -> now b v o s g c -> ld = enc b v' ->
  config t m b N (reload c ld) /\ now b v' o s g (reload c ld).
Proof.
  intros Hc (_ & Hn) ->. apply latch_now; [exact Hc|]. split; [done|exact Hn].
Qed.

Lemma zero_now v o s g c :
  now b v o s g c -> 0 <= v < modulus b -> (visible_count (counting_element c) =? 0) = (v =? 0).
Proof.
  intros (-> & _) Hv. rewrite visible_zero by lia.
  rewrite (proj2 (Z.eqb_neq v (modulus b))) by lia. apply orb_false_r.
Qed.

Lemma even_load :
  Z.odd N = true -> enc b N .& 0xfffe = enc b (N - 1).
Proof. intros Ho. apply enc_even; [|done]. destruct (decide (N = modulus b)) as [E|]; [|lia]. rewrite E in Ho. by destruct b. Qed.

(** Loading the counting element with a high gate, in the modes a write starts. *)
Lemma load_now c :
  m ∈ [0; 2; 3; 4] -> config t m b N c ->
  exists c', load_counting_element c = Some c' /\ config t m b N c' /\
    now b (if bool_decide (t = PITX_8254) && (m =? 3) && Z.odd N then N - 1 else N)
      (if m =? 3 then (if toggle_on_reload c then negb (output c)
                       else if bool_decide (state c <> PITX_RELOAD_NEXT) then true else output c)
       else negb (m =? 0))
      PITX_COUNTING (if m =? 3 then false else toggle_on_reload c) c'.
Proof.
  intros Hm Hc. pose proof Hc as (Ht & Hmd & Hb & Hg & Hr).
  unfold load_counting_element.
  rewrite (reload_enc b N c), Ht, Hmd, Hr, register_odd by (done || lia).
  set (N' := if bool_decide (t = PITX_8254) && (m =? 3) && Z.odd N then N - 1 else N).
  assert ((if bool_decide (t = PITX_8254) && (m =? 3) && Z.odd N then enc b N .& 65534 else enc b N)
          = enc b N') as ->.
  { unfold N'. destruct (bool_decide (t = PITX_8254) && (m =? 3)), (Z.odd N) eqn:Eo; cbn [andb]; try done.
    by apply even_load. }
  set (c1 := c <| counting_element := enc b N' |> <| null_count := false |> <| ce_undefined := false |>).
  set (c2 := if (rw_mode c1 =? 3) && (write_phase c1 =? 1) then c1 <| incomplete_reload := true |> else c1).
  assert (config t m b N c2 /\ now b N' (output c) (state c) (toggle_on_reload c) c2) as [Hc2 Hn2] by (unfold c2; case_match; done).
  destruct (latch_now _ _ _ _ _ Hc2 Hn2) as [Hc3 Hn3]. set (c3 := update_live_latch c2) in *.
  pose proof Hc3 as (Ht3 & Hm3 & Hb3 & Hg3 & Hr3). destruct Hn3 as (He3 & Ho3 & Hs3 & Htg3).
  unfold load_mode. rewrite Hm3. rewrite !elem_of_cons in Hm. destruct Hm as [->|[->|[->|[->|[]%elem_of_nil]]]].
  - eexists. split; [reflexivity|done].
  - rewrite Hg3. eexists. split; [reflexivity|done].
  - rewrite Htg3. destruct (toggle_on_reload c).
    + rewrite <- Ho3. eexists. split; [reflexivity|]. fields. rewrite Hg3. done.
    + rewrite Hs3. case_match; eexists; (split; [reflexivity|]); fields; rewrite Hg3; done.
  - eexists. split; [reflexivity|done].
Qed.

End running.

(** The square wave of mode 3, [p] clocks after a reload: the count and the
    output, and the clock at which the 8254 defers the end of an odd high
    half. *)
Definition count3 (t : pitx_type_t) (N p : Z) : Z :=
  let h := N `div` 2 in
  if Z.odd N then
    match t with
    | PITX_8254 => if p <=? h then N - 1 - 2 * p else N - 1 - 2 * (p - h - 1)
    | PITX_8253 => if p =? 0 then N else if p <=? h then N + 1 - 2 * p
                   else if p =? h + 1 then N else N - 1 - 2 * (p - h - 1)
    end
  else if p <? h then N - 2 * p else N - 2 * (p - h).

Definition high3 (N p : Z) : bool := p <? (N + 1) `div` 2.

Definition deferred3 (t : pitx_type_t) (N p : Z) : bool :=
  Z.odd N && bool_decide (t = PITX_8254) && (p =? N `div` 2).

Definition wave3 (t : pitx_type_t) (b : bool) (N p : Z) (c : pitx_channel_t) : Prop :=
  config t 3 b N c /\
  now b (count3 t N p) (high3 N p) (if deferred3 t N p then PITX_RELOAD_NEXT else PITX_COUNTING)
    (deferred3 t N p) c.

Section mode3.
Context (t : pitx_type_t) (b : bool) (N : Z).
Context (HN : 2 <= N <= modulus b).

(** The next position, without the remainder. *)
Lemma next_pos p : 0 <= p < N -> (p + 1) `mod` N = if p =? N - 1 then 0 else p + 1.
Proof.
  intros Hp. destruct (Z.eqb_spec p (N - 1)) as [->|].
  - replace (N - 1 + 1) with N by lia. apply Z.mod_same. lia.
  - apply Z.mod_small. lia.
Qed.

(** The end of a half period: toggle and reload. *)
Lemma toggle_now v o s g c :
  config t 3 b N c -> now b v o s g c ->
  config t 3 b N (reload (set_output c (negb (output c))) (reload_value (set_output c (negb (output c))))) /\
  now b N (negb o) s g
    (reload (set_output c (negb (output c))) (reload_value (set_output c (negb (output c))))).
Proof.
  intros Hc Hn. pose proof Hc as (_ & _ & Hb & _ & Hr). destruct Hn as (He & <- & Hs & Hg).
  apply (reload_now t 3 b N v N); [exact Hc|done|]. apply reload_enc; [lia|done|done].
Qed.

(** Two counts at a clock, towards zero. *)
Lemma by_two v o c :
  config t 3 b N c -> now b v o PITX_COUNTING false c -> 2 <= v <= modulus b ->
  let c2 := decrement_n c 2 in
  let c' := if visible_count (counting_element c2) =? 0
            then reload (set_output c2 (negb (output c2))) (reload_value (set_output c2 (negb (output c2)))) else c2 in
  config t 3 b N c' /\
  now b (if v =? 2 then N else v - 2) (if v =? 2 then negb o else o) PITX_COUNTING false c'.
Proof.
  intros Hc Hn Hv c2. destruct (decrement_n_now t 3 b N 2 v o PITX_COUNTING false c Hc Hn) as [Hc2 Hn2]; [lia|].
  fold c2 in Hc2, Hn2. rewrite (zero_now b _ _ _ _ _ Hn2) by lia.
  replace (v - Z.of_nat 2 =? 0) with (v =? 2) by (destruct (Z.eqb_spec v 2), (Z.eqb_spec (v - Z.of_nat 2) 0); lia).
  destruct (v =? 2); [by apply (toggle_now (v - Z.of_nat 2))|done].
Qed.

Lemma wave3_even p c :
  Z.odd N = false -> 0 <= p < N -> wave3 t b N p c -> wave3 t b N ((p + 1) `mod` N) (count_mode3 c).
Proof.
  intros Ho Hp [Hc Hn]. rewrite next_pos by done. unfold wave3, deferred3, high3, count3 in *.
  rewrite Ho in *. cbn [andb] in *. pose proof Hc as (_ & _ & Hb & _ & Hr).
  unfold count_mode3. rewrite Hr, register_odd, Ho by lia. cbn [andb].
  assert (exists h, N = 2 * h) as [h Eh].
  { rewrite <- Z.negb_even, negb_false_iff in Ho. apply Z.even_spec in Ho as [h ?]. by exists h. }
  assert (N `div` 2 = h /\ (N + 1) `div` 2 = h) as [E1 E2] by (split; Z.div_mod_to_equations; lia).
  rewrite E1, ?E2 in *.
  destruct (by_two _ _ c Hc Hn) as [Hc' Hn']; [destruct (Z.ltb_spec p h); lia|].
  split; [exact Hc'|]. revert Hn'. clear -HN Eh Hp. subst N. same_now.
Qed.

End mode3.

Section odd.
Context (b : bool) (N h : Z).
Context (HN : 2 <= N <= modulus b) (Eh : N = 2 * h + 1).

Lemma odd_count : Z.odd N = true.
Proof. rewrite Eh, Z.add_comm, Z.odd_add_mul_2. done. Qed.

Lemma half_N : N `div` 2 = h /\ (N + 1) `div` 2 = h + 1.
Proof. split; Z.div_mod_to_equations; lia. Qed.

(** The 8253 counts one after loading a high half and three after loading a
    low half. *)
Lemma first_count_8253 o c :
  config PITX_8253 3 b N c -> now b N o PITX_COUNTING false c ->
  let c2 := decrement_n c (if output c then 1 else 3) in
  let c' := if visible_count (counting_element c2) =? 0
            then reload (set_output c2 (negb (output c2))) (reload_value (set_output c2 (negb (output c2)))) else c2 in
  config PITX_8253 3 b N c' /\
  now b (if o then N - 1 else if N =? 3 then N else N - 3) (if negb o && (N =? 3) then true else o)
    PITX_COUNTING false c'.
Proof.
  intros Hc Hn c2. pose proof Hn as (_ & Ho & _). assert (h <> 0) by lia.
  destruct (decrement_n_now PITX_8253 3 b N (if o then 1 else 3) N o PITX_COUNTING false c Hc Hn)
    as [Hc2 Hn2]; [destruct o; lia|].
  unfold c2. rewrite Ho. rewrite (zero_now b _ _ _ _ _ Hn2) by (destruct o; lia).
  destruct o; cbn [negb andb].
  - rewrite (proj2 (Z.eqb_neq _ _)) by lia. done.
  - destruct (Z.eqb_spec N 3) as [->|].
    + by apply (toggle_now PITX_8253 b 3 HN _ _ _ _ _ Hc2 Hn2).
    + rewrite (proj2 (Z.eqb_neq _ _)) by lia. done.
Qed.

Lemma wave3_odd_8253 p c :
  0 <= p < N -> wave3 PITX_8253 b N p c ->
  wave3 PITX_8253 b N ((p + 1) `mod` N) (count_mode3 c).
Proof.
  intros Hp [Hc Hn]. rewrite (next_pos b) by done. destruct half_N as [E1 E2].
  unfold wave3, deferred3, high3, count3 in *. rewrite odd_count, E1, E2 in *. cbn [andb] in *.
  rewrite bool_decide_eq_false_2 in * by done. cbn [andb] in *.
  pose proof Hc as (Ht & _ & Hb & _ & Hr).
  unfold count_mode3. rewrite Hr, register_odd, odd_count, Ht by lia.
  rewrite bool_decide_eq_false_2 by done. cbn [andb].
  set (v := if p =? 0 then N else if p <=? h then N + 1 - 2 * p
            else if p =? h + 1 then N else N - 1 - 2 * (p - h - 1)) in *.
  assert (2 <= v <= N /\ Z.odd v = (p =? 0) || (p =? h + 1)) as [Hv Hodd].
  { rewrite odd_mod. unfold v. clear -HN Eh Hp. Z.div_mod_to_equations. decide_z. }
  assert (ctrue (counting_element c .& 1) = Z.odd v) as ->.
  { destruct Hn as (-> & _). apply enc_odd. destruct b; cbn in *; lia. }
  rewrite Hodd. destruct ((p =? 0) || (p =? h + 1)) eqn:Ep.
  - assert (v = N) as Ev by (clear -Ep; unfold v; apply orb_true_iff in Ep; decide_z).
    rewrite Ev in Hn. destruct (first_count_8253 _ c Hc Hn) as [Hc' Hn']. split; [exact Hc'|].
    revert Hn'. clear -HN Eh Hp Ep. apply orb_true_iff in Ep. rewrite !Z.eqb_eq in Ep. same_now.
  - destruct (by_two PITX_8253 b N HN v _ c Hc Hn) as [Hc' Hn']; [lia|]. split; [exact Hc'|].
    revert Hn'. clear -HN Eh Hp Ep. apply orb_false_iff in Ep. rewrite !Z.eqb_neq in Ep. unfold v. same_now.
Qed.

(** The 8254 counts by two from the even part; the end of a high half waits
    for the reload at the next clock. *)
Lemma wave3_odd_8254 p c :
  0 <= p < N -> wave3 PITX_8254 b N p c ->
  exists c', (if p =? h then load_counting_element c else Some (count_mode3 c)) = Some c' /\
    wave3 PITX_8254 b N ((p + 1) `mod` N) c'.
Proof.
  intros Hp [Hc Hn]. rewrite (next_pos b) by done. destruct half_N as [E1 E2].
  unfold wave3, deferred3, high3, count3 in *. rewrite odd_count, E1, E2 in *. cbn [andb] in *.
  rewrite bool_decide_eq_true_2 in * by done. cbn [andb] in *.
  pose proof Hc as (Ht & Hm & Hb & Hg & Hr).
  destruct (Z.eqb_spec p h) as [->|Hph].
  - destruct (load_now PITX_8254 3 b N ltac:(lia) c ltac:(set_solver) Hc)
      as (c' & El & Hc' & Hn').
    exists c'. split; [exact El|]. split; [exact Hc'|]. revert Hn'. cbn [Z.eqb Pos.eqb andb].
    destruct Hn as (_ & -> & _ & ->).
    rewrite odd_count, bool_decide_eq_true_2 by done. cbn [andb].
    clear -HN Eh. same_now.
  - eexists. split; [done|].
    unfold count_mode3. rewrite Hr, register_odd, odd_count, Ht by lia.
    rewrite bool_decide_eq_true_2 by done. cbn [andb].
    set (v := if p <=? h then N - 1 - 2 * p else N - 1 - 2 * (p - h - 1)) in *.
    assert (2 <= v <= N) as Hv by (clear -HN Eh Hp Hph; unfold v; decide_z).
    destruct (decrement_n_now PITX_8254 3 b N 2 v _ _ _ c Hc Hn) as [Hc2 Hn2]; [lia|].
    rewrite (zero_now b _ _ _ _ _ Hn2) by lia. pose proof Hn2 as (_ & Ho2 & _). rewrite Ho2.
    assert (v = 2 /\ p = h - 1 \/ v = 2 /\ p = N - 1 /\ h < p \/ v <> 2 /\ p <> h - 1 /\ p <> N - 1) as Hcase
      by (clear -HN Eh Hp Hph; unfold v; decide_z).
    destruct Hcase as [[E ->]|[(E & -> & Hlt)|(E & Hp1 & Hp2)]].
    + rewrite E in *. change (2 - Z.of_nat 2) with 0 in *. change (0 =? 0) with true. cbn iota.
      rewrite (proj2 (Z.ltb_lt (h - 1) (h + 1))) in * by lia. split; [exact Hc2|].
      destruct Hn2 as (He & Ho & _). split_and!; [etrans; [exact He|]|etrans; [exact Ho|]|..];
        clear -HN Eh; fields; decide_z. f_equal. lia.
    + rewrite E in *. change (2 - Z.of_nat 2) with 0 in *. change (0 =? 0) with true. cbn iota.
      rewrite (proj2 (Z.ltb_ge (N - 1) (h + 1))) in * by lia. cbn iota.
      destruct (reload_now PITX_8254 3 b N 0 (N - 1) true PITX_COUNTING false
        (set_output (decrement_n c 2) true) (reload_value (set_output (decrement_n c 2) true) .& 0xfffe))
        as [Hc3 Hn3]; [exact Hc2|by destruct Hn2 as (? & _ & ?)| |].
      { rewrite (reload_enc b N) by (done || lia || apply Hc2). apply even_load; [lia|apply odd_count]. }
      split; [exact Hc3|]. revert Hn3. rewrite Z.eqb_refl. clear -HN Eh.
      same_now.
    + rewrite (proj2 (Z.eqb_neq (v - Z.of_nat 2) 0)) by lia. split; [exact Hc2|]. revert Hn2.
      rewrite (proj2 (Z.eqb_neq _ _) Hp2). clear -HN Eh Hp Hph Hp1 Hp2. unfold v.
      same_now.
Qed.

End odd.

Lemma wave3_tick t b N p c :
  2 <= N <= modulus b -> 0 <= p < N -> wave3 t b N p c ->
  exists c', tick_channel c = Some c' /\ wave3 t b N ((p + 1) `mod` N) c'.
Proof.
  intros HN Hp [Hc Hn]. set (c1 := c <| clocks := u64 (clocks c + 1) |>).
  assert (wave3 t b N p c1) as Hw by (split; assumption).
  pose proof Hn as (_ & _ & Hs & _). pose proof Hc as (_ & Hm & _ & Hg & _).
  assert (tick_channel c = if deferred3 t N p then load_counting_element c1 else Some (count_mode3 c1)) as ->.
  { unfold tick_channel. fold c1. change (state c1) with (state c). rewrite Hs.
    destruct (deferred3 t N p); [done|]. unfold count_tick. change (mode c1) with (mode c).
    change (gate c1) with (gate c). by rewrite Hm, Hg. }
  clearbody c1. clear c Hc Hn Hs Hm Hg. unfold deferred3. destruct (Z.odd N) eqn:Ho; cbn [andb].
  - assert (exists h, N = 2 * h + 1) as [h Eh] by (apply Z.odd_spec in Ho as [h ?]; by exists h).
    destruct t.
    + eexists. split; [done|]. by apply (wave3_odd_8253 b N h).
    + destruct (wave3_odd_8254 b N h HN Eh p c1 Hp Hw) as (c' & Et & Hw').
      exists c'. split; [|exact Hw']. rewrite <- Et. by rewrite (proj1 (half_N N h Eh)).
  - eexists. split; [done|]. by apply wave3_even.
Qed.

(** ** Running a programmed counter *)

Fixpoint ticks (n : nat) (c : pitx_channel_t) : option pitx_channel_t :=
  match n with O => Some c | S n => c ← tick_channel c; ticks n c end.

(** A description [W p] of the counter [p] clocks after the load that every
    clock carries to the next holds at every clock. *)
Lemma ticks_wave (W : Z -> pitx_channel_t -> Prop) p c :
  (forall p c, 0 <= p -> W p c -> exists c', tick_channel c = Some c' /\ W (p + 1) c') ->
  0 <= p -> W p c -> forall n : nat, exists c', ticks n c = Some c' /\ W (p + Z.of_nat n) c'.
Proof.
  intros Hstep Hp Hw n. revert p c Hp Hw. induction n as [|n IH]; intros p c Hp Hw; cbn [ticks].
  - rewrite Z.add_0_r. by exists c.
  - destruct (Hstep p c Hp Hw) as (c' & -> & Hw'). cbn [mbind option_bind].
    destruct (IH (p + 1) c' ltac:(lia) Hw') as (c2 & E & Hw2). exists c2. split; [exact E|].
    by replace (p + Z.of_nat (S n)) with (p + 1 + Z.of_nat n) by lia.
Qed.

(** Programming a counter through its control word and two data bytes. *)
Definition programmed (c : pitx_channel_t) (ctl lsb msb : Z) : pitx_channel_t :=
  data_write (data_write (program_mode c ctl) lsb) msb.

(** A control word of a mode clocked from its load, with 16-bit writes. *)
Definition control_for (m : Z) (b : bool) (ctl : Z) : bool :=
  ((ctl >>> 4) .& 3 =? 3) && (canonical_mode ((ctl >>> 1) .& 7) =? m) && Bool.eqb (ctrue (ctl .& 1)) b.

(** The count [N] as the two bytes of the register. *)
Definition count_bytes (b : bool) (N lsb msb : Z) : Prop :=
  in_width 8 lsb /\ in_width 8 msb /\ visible_count (enc b N) = lsb + 256 * msb.

Lemma two_bytes cr lsb msb :
  in_width 8 lsb -> in_width 8 msb ->
  u16 ((u16 ((cr .& 0xff00) .| lsb) .& 0x00ff) .| u16 (msb <<< 8)) = lsb + 256 * msb.
Proof.
  intros Hl Hm. assert (in_width 16 lsb) by (apply (in_width_mono 8); [lia|done]).
  rewrite (wrap_id 16 (_ .| lsb)), low_byte by (done || width).
  rewrite (wrap_id 16 (msb <<< 8)); [rewrite lor_shiftl_add by (lia || done); rewrite wrap_id|];
    rewrite ?Z.shiftl_mul_pow2 by lia; unfold in_width in *; lia.
Qed.

(** The count a written one stands for: one is illegal in modes 2 and 3. *)
Definition effective (m : Z) (b : bool) (N : Z) : Z :=
  if (N =? 1) && (m =? 2) then 2 else if (N =? 1) && (m =? 3) then modulus b else N.

Lemma effective_range m b N : 1 <= N <= modulus b -> 1 <= effective m b N <= modulus b.
Proof. intros HN. unfold effective. destruct b, (N =? 1), (m =? 2), (m =? 3); cbn in *; lia. Qed.

Lemma effective_id m b N : m <> 2 -> m <> 3 -> effective m b N = N.
Proof.
  intros H2 H3. unfold effective. by rewrite (proj2 (Z.eqb_neq m 2)), (proj2 (Z.eqb_neq m 3)), !andb_false_r.
Qed.

Lemma effective_two m b N : m = 2 \/ m = 3 -> 1 <= N <= modulus b -> 2 <= effective m b N <= modulus b.
Proof. intros Hm HN. unfold effective. destruct b, (Z.eqb_spec N 1), Hm as [->| ->]; cbn in *; lia. Qed.

Lemma finalize_initial t m b N c :
  config t m b N c -> m ∈ [0; 2; 3; 4] -> 1 <= N <= modulus b ->
  initial_load c = true -> toggle_on_reload c = false ->
  config t m b (effective m b N) (finalize_write c) /\ state (finalize_write c) = PITX_LOAD_NEXT /\
  toggle_on_reload (finalize_write c) = false.
Proof.
  intros Hc Hm HN Hi Ht. unfold finalize_write, effective. pose proof Hc as (_ & Emd & _ & _ & Hr).
  assert ((count_register c =? 1) = (N =? 1)) as -> by (rewrite Hr; by apply visible_one; lia).
  set (c1 := (if N =? 1 then _ else c)).
  assert (config t m b (if (N =? 1) && (m =? 2) then 2 else if (N =? 1) && (m =? 3) then modulus b else N) c1 /\
    initial_load c1 = true /\ toggle_on_reload c1 = false) as (Hc1 & Hi1 & Ht1).
  { unfold c1. rewrite Emd. destruct Hc as (? & ? & ? & ? & ?). destruct (N =? 1); [|done]. cbn [andb].
    destruct (m =? 2); [by destruct b|]. destruct (m =? 3); [by destruct b|done]. }
  change (initial_load (c1 <| null_count := true |> <| armed := true |>)) with (initial_load c1). rewrite Hi1.
  match goal with |- context [(?a =? 1) || (?a' =? 5)] => change a with (mode c1); change a' with (mode c1) end.
  pose proof Hc1 as (_ & -> & _). rewrite !elem_of_cons in Hm.
  by destruct Hm as [->|[->|[->|[->|[]%elem_of_nil]]]].
Qed.

(** The written counter loads at its next clock. *)
Lemma programmed_config c ctl m b N lsb msb :
  control_for m b ctl = true -> count_bytes b N lsb msb -> 1 <= N <= modulus b ->
  m ∈ [0; 2; 3; 4] -> gate c = true ->
  config (type c) m b (effective m b N) (programmed c ctl lsb msb) /\
  state (programmed c ctl lsb msb) = PITX_LOAD_NEXT /\
  toggle_on_reload (programmed c ctl lsb msb) = false.
Proof.
  unfold control_for. rewrite !andb_true_iff, !Z.eqb_eq, eqb_true_iff.
  intros [[Hrw Hmode] Hbcd] (Hl & Hm & Hr) HN Hin Hg. unfold programmed.
  set (c0 := program_mode c ctl).
  assert (rw_mode c0 = 3 /\ mode c0 = m /\ bcd c0 = b /\ write_phase c0 = 0) as (Erw & Em & Eb & Ew) by done.
  set (r := u16 ((count_register c0 .& 0xff00) .| lsb)).
  assert (exists c1, data_write c0 lsb = c1 /\ rw_mode c1 = 3 /\ mode c1 = m /\ bcd c1 = b /\ write_phase c1 = 1 /\
    count_register c1 = r /\ gate c1 = true /\ initial_load c1 = true /\ toggle_on_reload c1 = false /\
    type c1 = type c) as (c1 & -> & Erw1 & Em1 & Eb1 & Ew1 & Er1 & Eg1 & Ei1 & Et1 & Ety1).
  { eexists. split; [done|]. unfold data_write. rewrite Erw, Ew. cbn [Z.eqb]. case_match; done. }
  unfold data_write. rewrite Erw1, Ew1. cbn [Z.eqb]. rewrite Er1. unfold r. rewrite two_bytes by done.
  rewrite <- Hr. set (c2 := c1 <| count_register := _ |> <| write_phase := 0 |>).
  by apply finalize_initial.
Qed.

(** The clock after the last byte is written loads the counter. *)
Lemma programmed_loads c ctl m b N lsb msb :
  control_for m b ctl = true -> count_bytes b N lsb msb -> 1 <= N <= modulus b ->
  m ∈ [0; 2; 3; 4] -> gate c = true -> let N' := effective m b N in
  exists c', tick_channel (programmed c ctl lsb msb) = Some c' /\ config (type c) m b N' c' /\
    now b (if bool_decide (type c = PITX_8254) && (m =? 3) && Z.odd N' then N' - 1 else N')
      (negb (m =? 0)) PITX_COUNTING false c'.
Proof.
  intros Hctl Hb HN Hm Hg N'.
  destruct (programmed_config c ctl m b N lsb msb Hctl Hb HN Hm Hg) as (Hc & Hs & Ht).
  set (c0 := programmed c ctl lsb msb) in *. set (c1 := c0 <| clocks := u64 (clocks c0 + 1) |>).
  assert (tick_channel c0 = load_counting_element c1) as -> by (unfold tick_channel; fold c1;
    change (state c1) with (state c0); by rewrite Hs).
  destruct (load_now (type c) m b N' (effective_range m b N HN) c1 Hm Hc) as (c' & -> & Hc' & Hn). exists c'. split; [done|].
  split; [done|]. change (toggle_on_reload c1) with (toggle_on_reload c0) in Hn.
  change (state c1) with (state c0) in Hn. rewrite Ht, Hs in Hn.
  by destruct (m =? 3) eqn:E; [apply Z.eqb_eq in E as ->|].
Qed.

(** A clock of a counter that is counting. *)
Lemma counting_tick c :
  state c = PITX_COUNTING -> tick_channel c = Some (count_tick (c <| clocks := u64 (clocks c + 1) |>)).
Proof. intros Hs. unfold tick_channel. change (state (c <| clocks := _ |>)) with (state c). by rewrite Hs. Qed.

(** Mode 2, [p] clocks after a reload. *)
Definition wave2 (t : pitx_type_t) (b : bool) (N p : Z) (c : pitx_channel_t) : Prop :=
  config t 2 b N c /\
  now b (N - p) (p <? N - 1) (if p =? N - 1 then PITX_RELOAD_NEXT else PITX_COUNTING) false c.

(** Modes 0 and 4, [p] clocks after the load.  The counter goes on through
    zero; in mode 4 the clock that ends the strobe does not count. *)
Definition wave0 (t : pitx_type_t) (b : bool) (N p : Z) (c : pitx_channel_t) : Prop :=
  config t 0 b N c /\
  now b (if p =? 0 then N else (N - p) `mod` modulus b) (N <=? p) PITX_COUNTING false c.

Definition strobe4 (b : bool) (N p : Z) : bool := (N <=? p) && ((p - N) `mod` (modulus b + 1) =? 0).

Definition count4 (b : bool) (N p : Z) : Z :=
  let q := (p - N) `mod` (modulus b + 1) in
  if p <? N then N - p else if q <=? 1 then 0 else modulus b + 1 - q.

Definition wave4 (t : pitx_type_t) (b : bool) (N p : Z) (c : pitx_channel_t) : Prop :=
  config t 4 b N c /\
  now b (count4 b N p) (negb (strobe4 b N p)) (if strobe4 b N p then PITX_STROBE_RECOVER else PITX_COUNTING) false c.

Lemma wave2_tick t b N p c :
  2 <= N <= modulus b -> 0 <= p < N -> wave2 t b N p c ->
  exists c', tick_channel c = Some c' /\ wave2 t b N ((p + 1) `mod` N) c'.
Proof.
  intros HN Hp [Hc Hn]. rewrite (next_pos b) by done. set (c1 := c <| clocks := u64 (clocks c + 1) |>).
  assert (config t 2 b N c1) as Hc1 by exact Hc.
  assert (now b (N - p) (p <? N - 1) (if p =? N - 1 then PITX_RELOAD_NEXT else PITX_COUNTING) false c1)
    as Hn1 by exact Hn.
  pose proof Hn as (_ & _ & Hs & _). pose proof Hc as (_ & Hm & _ & Hg & _).
  destruct (Z.eqb_spec p (N - 1)) as [->|Hne].
  - assert (tick_channel c = load_counting_element c1) as -> by (unfold tick_channel; fold c1;
      change (state c1) with (state c); by rewrite Hs).
    destruct (load_now t 2 b N ltac:(lia) c1 ltac:(set_solver) Hc1) as (c' & -> & Hc' & Hn').
    exists c'. split; [done|]. split; [done|]. destruct Hn1 as (_ & _ & _ & Ht). revert Hn'. rewrite Ht.
    rewrite andb_false_r. change (2 =? 3) with false. change (2 =? 0) with false. cbn [negb andb].
    clear -HN. same_now.
  - rewrite counting_tick by done. fold c1. eexists. split; [done|]. unfold count_tick.
    change (mode c1) with (mode c). change (gate c1) with (gate c). rewrite Hm, Hg.
    destruct (decrement_now t 2 b N _ _ _ _ c1 Hc1 Hn1) as [Hc2 Hn2]; [lia|].
    pose proof Hn2 as (He & _). rewrite He, visible_one by lia.
    destruct (Z.eqb_spec (N - p - 1) 1) as [E|E]; (split; [exact Hc2|]).
    + destruct Hn2 as (_ & _ & _ & Ht). split_and!; [etrans; [exact He|f_equal; lia]|..|exact Ht];
        clear -HN E; fields; decide_z.
    + revert Hn2. clear -HN Hp Hne E. same_now.
Qed.

(** The running count, as a remainder and not as one. *)
Lemma mod_down M n : 0 < M -> n `mod` M - 1 = -1 /\ (n - 1) `mod` M = M - 1 \/
  0 < n `mod` M /\ (n - 1) `mod` M = n `mod` M - 1.
Proof.
  intros HM. pose proof (Z.mod_pos_bound n M HM). destruct (decide (n `mod` M = 0)) as [E|E].
  - left. split; [lia|]. symmetry. apply Z.mod_unique with (n `div` M - 1); [lia|].
    pose proof (Z.div_mod n M). lia.
  - right. split; [lia|]. symmetry. apply Z.mod_unique with (n `div` M); [lia|].
    pose proof (Z.div_mod n M). lia.
Qed.

Lemma modulus_pos b : 2 < modulus b.
Proof. by destruct b. Qed.

Lemma wave0_tick t b N p c :
  1 <= N <= modulus b -> 0 <= p -> wave0 t b N p c ->
  exists c', tick_channel c = Some c' /\ wave0 t b N (p + 1) c'.
Proof.
  intros HN Hp [Hc Hn]. pose proof Hn as (_ & _ & Hs & _). pose proof Hc as (_ & Hm & _ & Hg & _).
  rewrite counting_tick by done. set (c1 := c <| clocks := u64 (clocks c + 1) |>).
  assert (config t 0 b N c1) as Hc1 by exact Hc. pose proof (modulus_pos b) as HM.
  set (v := if p =? 0 then N else (N - p) `mod` modulus b) in *.
  assert (now b v (N <=? p) PITX_COUNTING false c1) as Hn1 by exact Hn.
  assert (0 <= v <= modulus b) as Hv.
  { unfold v. pose proof (Z.mod_pos_bound (N - p) (modulus b)). decide_z. }
  assert ((if v =? 0 then modulus b - 1 else v - 1) = (N - (p + 1)) `mod` modulus b) as Ev.
  { unfold v. replace (N - (p + 1)) with (N - p - 1) by lia. destruct (Z.eqb_spec p 0) as [->|].
    - rewrite (Z.mod_small (N - 0 - 1)) by lia. decide_z.
    - destruct (mod_down (modulus b) (N - p)); decide_z. }
  eexists. split; [done|]. unfold count_tick.
  change (mode c1) with (mode c). change (gate c1) with (gate c). rewrite Hm, Hg.
  destruct (decrement_wraps t 0 b N _ _ _ _ c1 Hc1 Hn1 Hv) as [Hc2 Hn2]. rewrite Ev in Hn2.
  pose proof (Z.mod_pos_bound (N - (p + 1)) (modulus b) ltac:(lia)) as Hb.
  rewrite (zero_now b _ _ _ _ _ Hn2) by done. unfold wave0.
  rewrite (proj2 (Z.eqb_neq (p + 1) 0)) by lia.
  assert ((N <=? p + 1) = (N <=? p) || ((N - (p + 1)) `mod` modulus b =? 0)) as ->.
  { clear -Hp HN. destruct (Z.leb_spec N p); [decide_z|]. cbn [orb].
    rewrite Z.mod_small by lia. decide_z. }
  destruct (Z.eqb_spec ((N - (p + 1)) `mod` modulus b) 0) as [E|E].
  - rewrite orb_true_r. split; [exact Hc2|]. destruct Hn2 as (? & _ & ?). done.
  - rewrite orb_false_r. done.
Qed.

Lemma mod_up M n : 0 < M -> (n + 1) `mod` M = if n `mod` M =? M - 1 then 0 else n `mod` M + 1.
Proof.
  intros HM. pose proof (Z.mod_pos_bound n M HM). pose proof (Z.div_mod n M). symmetry.
  destruct (Z.eqb_spec (n `mod` M) (M - 1)) as [E|E].
  - apply Z.mod_unique with (n `div` M + 1); lia.
  - apply Z.mod_unique with (n `div` M); lia.
Qed.

Lemma count4_next b N p :
  1 <= N <= modulus b -> 0 <= p -> 0 <= count4 b N p <= modulus b /\
  (strobe4 b N p = true -> count4 b N p = 0 /\ count4 b N (p + 1) = 0 /\ strobe4 b N (p + 1) = false) /\
  (strobe4 b N p = false ->
   count4 b N (p + 1) = (if count4 b N p =? 0 then modulus b - 1 else count4 b N p - 1) /\
   strobe4 b N (p + 1) = (count4 b N (p + 1) =? 0)).
Proof.
  intros HN Hp. pose proof (modulus_pos b) as HM. unfold count4, strobe4.
  replace (p + 1 - N) with (p - N + 1) by lia. rewrite mod_up by lia.
  pose proof (Z.mod_pos_bound (p - N) (modulus b + 1) ltac:(lia)) as Hq.
  destruct (Z.ltb_spec p N) as [Hlt|Hge].
  - rewrite (proj2 (Z.leb_gt N p)) by lia. cbn [andb]. split; [lia|]. split; [done|]. intros _.
    destruct (decide (p + 1 = N)) as [E|E].
    + assert ((p - N) `mod` (modulus b + 1) = modulus b) as ->
        by (symmetry; apply Z.mod_unique with (-1); lia).
      rewrite Z.add_simpl_r, Z.eqb_refl, E, Z.ltb_irrefl, Z.leb_refl. cbn. decide_z.
    + rewrite (proj2 (Z.ltb_lt (p + 1) N)), (proj2 (Z.leb_gt N (p + 1))) by lia. cbn [andb]. clear Hq.
      split; decide_z.
  - rewrite (proj2 (Z.leb_le N p)), (proj2 (Z.leb_le N (p + 1))), (proj2 (Z.ltb_ge (p + 1) N)) by lia.
    cbn [andb]. revert Hq. generalize ((p - N) `mod` (modulus b + 1)). clear -HM. intros q Hq.
    destruct (Z.eqb_spec q 0), (Z.eqb_spec q 1), (Z.eqb_spec q (modulus b + 1 - 1)); split_and!; intros; decide_z.
Qed.

Lemma wave4_tick t b N p c :
  1 <= N <= modulus b -> 0 <= p -> wave4 t b N p c ->
  exists c', tick_channel c = Some c' /\ wave4 t b N (p + 1) c'.
Proof.
  intros HN Hp [Hc Hn]. pose proof (modulus_pos b) as HM.
  destruct (count4_next b N p HN Hp) as (Hv & Hst & Hco). unfold wave4 in *.
  set (c1 := c <| clocks := u64 (clocks c + 1) |>).
  assert (config t 4 b N c1) as Hc1 by exact Hc.
  destruct (strobe4 b N p) eqn:Es.
  - destruct (Hst eq_refl) as (E0 & E1 & E2). rewrite E1, E2. rewrite E0 in Hn. destruct Hn as (He & _ & Hs & Hg).
    exists (set_state (set_output c1 true) PITX_COUNTING). split; [|done].
    unfold tick_channel. fold c1. change (state c1) with (state c). by rewrite Hs.
  - destruct (Hco eq_refl) as (E1 & E2). pose proof Hn as (_ & _ & Hs & _).
    pose proof Hc as (_ & Hm & _ & Hg & _). rewrite counting_tick by done. fold c1.
    eexists. split; [done|]. unfold count_tick.
    change (mode c1) with (mode c). change (gate c1) with (gate c). rewrite Hm, Hg.
    destruct (decrement_wraps t 4 b N _ _ _ _ c1 Hc1 Hn Hv) as [Hc2 Hn2]. rewrite <- E1 in Hn2.
    rewrite (zero_now b _ _ _ _ _ Hn2), E2 by (rewrite E1; decide_z).
    destruct (count4 b N (p + 1) =? 0); [|done]. split; [exact Hc2|].
    destruct Hn2 as (? & _ & _ & ?). done.
Qed.

(** A description that every clock carries on holds for ever. *)
Lemma programmed_wave (W : Z -> pitx_channel_t -> Prop) c c0 :
  (forall p c, 0 <= p -> W p c -> exists c', tick_channel c = Some c' /\ W (p + 1) c') ->
  tick_channel c = Some c0 -> W 0 c0 ->
  forall n : nat, exists c', ticks (S n) c = Some c' /\ W (Z.of_nat n) c'.
Proof.
  intros Hs Ht Hw n. cbn [ticks]. rewrite Ht. cbn [mbind option_bind].
  by destruct (ticks_wave W 0 c0 Hs ltac:(lia) Hw n) as (c' & ? & ?); exists c'.
Qed.

(** The same for a wave of period [N]. *)
Lemma periodic_wave (W : Z -> pitx_channel_t -> Prop) N c c0 :
  0 < N ->
  (forall p c, 0 <= p < N -> W p c -> exists c', tick_channel c = Some c' /\ W ((p + 1) `mod` N) c') ->
  tick_channel c = Some c0 -> W 0 c0 ->
  forall n : nat, exists c', ticks (S n) c = Some c' /\ W (Z.of_nat n `mod` N) c'.
Proof.
  intros HN Hs Ht Hw. apply (programmed_wave (fun p => W (p `mod` N)) c c0); [|done|by rewrite Z.mod_0_l by lia].
  intros p c1 Hp Hw1. rewrite <- Zplus_mod_idemp_l. apply Hs; [|done]. apply Z.mod_pos_bound. lia.
Qed.

(** The four modes, [n] clocks after the load. *)
Section run.
Context (c : pitx_channel_t) (ctl : Z) (b : bool) (N lsb msb : Z).
Context (Hb : count_bytes b N lsb msb) (HN : 1 <= N <= modulus b) (Hg : gate c = true).

Lemma mode3_run (n : nat) :
  control_for 3 b ctl = true -> let N' := effective 3 b N in
  exists c', ticks (S n) (programmed c ctl lsb msb) = Some c' /\ wave3 (type c) b N' (Z.of_nat n `mod` N') c'.
Proof.
  intros Hctl N'. pose proof (effective_two 3 b N ltac:(lia) HN) as HN'. fold N' in HN'.
  destruct (programmed_loads c ctl 3 b N lsb msb Hctl Hb HN ltac:(set_solver) Hg) as (c0 & Ht & Hc & Hn).
  fold N' in Hc, Hn.
  apply (periodic_wave (wave3 (type c) b N') N' (programmed c ctl lsb msb) c0 ltac:(lia)); [|done|].
  - intros p c1. by apply wave3_tick.
  - split; [done|]. revert Hn. unfold count3, high3, deferred3. generalize (type c). clear -HN'. intros t.
    change (3 =? 3) with true. change (3 =? 0) with false. rewrite andb_true_r.
    assert (0 < N' `div` 2 < N' /\ 0 < (N' + 1) `div` 2) as [Hh Hh'] by (split; Z.div_mod_to_equations; lia).
    generalize dependent (N' `div` 2). generalize dependent ((N' + 1) `div` 2). intros k Hk h Hh.
    destruct t; [rewrite !bool_decide_eq_false_2 by done|rewrite !bool_decide_eq_true_2 by done];
      destruct (Z.odd N'); cbn [andb]; same_now.
Qed.

Lemma mode2_run (n : nat) :
  control_for 2 b ctl = true -> let N' := effective 2 b N in
  exists c', ticks (S n) (programmed c ctl lsb msb) = Some c' /\ wave2 (type c) b N' (Z.of_nat n `mod` N') c'.
Proof.
  intros Hctl N'. pose proof (effective_two 2 b N ltac:(lia) HN) as HN'. fold N' in HN'.
  destruct (programmed_loads c ctl 2 b N lsb msb Hctl Hb HN ltac:(set_solver) Hg) as (c0 & Ht & Hc & Hn).
  fold N' in Hc, Hn.
  apply (periodic_wave (wave2 (type c) b N') N' (programmed c ctl lsb msb) c0 ltac:(lia)); [|done|].
  - intros p c1. by apply wave2_tick.
  - split; [done|]. revert Hn. rewrite andb_false_r. cbn [andb]. change (2 =? 0) with false. clear -HN'. same_now.
Qed.

Lemma mode0_run (n : nat) :
  control_for 0 b ctl = true ->
  exists c', ticks (S n) (programmed c ctl lsb msb) = Some c' /\ wave0 (type c) b N (Z.of_nat n) c'.
Proof.
  intros Hctl.
  destruct (programmed_loads c ctl 0 b N lsb msb Hctl Hb HN ltac:(set_solver) Hg) as (c0 & Ht & Hc & Hn).
  rewrite effective_id in Hc, Hn by done.
  apply (programmed_wave (wave0 (type c) b N) (programmed c ctl lsb msb) c0); [|done|].
  - intros p c1. by apply wave0_tick.
  - split; [done|]. revert Hn. rewrite andb_false_r. cbn [andb]. change (0 =? 0) with true. clear -HN. same_now.
Qed.

Lemma mode4_run (n : nat) :
  control_for 4 b ctl = true ->
  exists c', ticks (S n) (programmed c ctl lsb msb) = Some c' /\ wave4 (type c) b N (Z.of_nat n) c'.
Proof.
  intros Hctl.
  destruct (programmed_loads c ctl 4 b N lsb msb Hctl Hb HN ltac:(set_solver) Hg) as (c0 & Ht & Hc & Hn).
  rewrite effective_id in Hc, Hn by done.
  apply (programmed_wave (wave4 (type c) b N) (programmed c ctl lsb msb) c0); [|done|].
  - intros p c1. by apply wave4_tick.
  - split; [done|]. revert Hn. rewrite andb_false_r. cbn [andb]. change (4 =? 0) with false.
    unfold count4, strobe4. rewrite (proj2 (Z.ltb_lt 0 N)), (proj2 (Z.leb_gt N 0)) by lia. cbn [andb negb].
    by rewrite Z.sub_0_r.
Qed.

End run.

(** C24: Mode 3 is a square wave: after a counter with a high gate has been
    programmed with a count [N] (one stands for the modulus), its output [n]
    clocks after the load is high for the first (N+1)/2 clocks of every [N]
    and low for the rest, on the 8253 and on the 8254, in binary and in BCD,
    for even and odd counts, although the chips count odd ones differently. *)
Theorem mode3_square c ctl b N lsb msb (n : nat) :
  control_for 3 b ctl = true -> count_bytes b N lsb msb -> 1 <= N <= modulus b -> gate c = true ->
  let N' := effective 3 b N in
  exists c', ticks (S n) (programmed c ctl lsb msb) = Some c' /\
    output c' = (Z.of_nat n `mod` N' <? (N' + 1) `div` 2).
Proof.
  intros Hctl Hb HN Hg N'. destruct (mode3_run c ctl b N lsb msb Hb HN Hg n Hctl) as (c' & Et & _ & _ & Ho & _).
  by exists c'.
Qed.

(** Mode 2 divides by [N] (one stands for two): [n] clocks after the load
    the count is [N] less the remainder of [n], and the output is low on
    exactly the last clock of every [N]. *)
Theorem mode2_rate c ctl b N lsb msb (n : nat) :
  control_for 2 b ctl = true -> count_bytes b N lsb msb -> 1 <= N <= modulus b -> gate c = true ->
  let N' := effective 2 b N in
  exists c', ticks (S n) (programmed c ctl lsb msb) = Some c' /\
    counting_element c' = enc b (N' - Z.of_nat n `mod` N') /\
    output c' = negb (Z.of_nat n `mod` N' =? N' - 1).
Proof.
  intros Hctl Hb HN Hg N'. pose proof (effective_two 2 b N ltac:(lia) HN) as HN'. fold N' in HN'.
  destruct (mode2_run c ctl b N lsb msb Hb HN Hg n Hctl) as (c' & Et & _ & He & Ho & _).
  exists c'. split; [done|]. split; [done|]. rewrite Ho. fold N'.
  pose proof (Z.mod_pos_bound (Z.of_nat n) N' ltac:(lia)) as H. clear -H. decide_z.
Qed.

(** In mode 0 the output is low until the count reaches zero, [N] clocks
    after the load, and high for ever after; the count goes on through zero. *)
Theorem mode0_terminal c ctl b N lsb msb (n : nat) :
  control_for 0 b ctl = true -> count_bytes b N lsb msb -> 1 <= N <= modulus b -> gate c = true ->
  exists c', ticks (S n) (programmed c ctl lsb msb) = Some c' /\
    visible_count (counting_element c') = visible_count (enc b ((N - Z.of_nat n) `mod` modulus b)) /\
    output c' = (N <=? Z.of_nat n).
Proof.
  intros Hctl Hb HN Hg. destruct (mode0_run c ctl b N lsb msb Hb HN Hg n Hctl) as (c' & Et & _ & He & Ho & _).
  exists c'. split; [done|]. split; [|done]. rewrite He.
  destruct (Z.eqb_spec (Z.of_nat n) 0) as [->|]; [|done]. rewrite Z.sub_0_r.
  destruct (decide (N = modulus b)) as [->|]; [|by rewrite Z.mod_small by lia].
  rewrite Z.mod_same by lia. by destruct b.
Qed.

(** In mode 4 the output is high but for one clock when the count reaches
    zero, [N] clocks after the load, and one clock of every modulus plus one
    after that: the strobe is not the only one, and the clock that ends it is
    not counted. *)
Theorem mode4_strobe c ctl b N lsb msb (n : nat) :
  control_for 4 b ctl = true -> count_bytes b N lsb msb -> 1 <= N <= modulus b -> gate c = true ->
  exists c', ticks (S n) (programmed c ctl lsb msb) = Some c' /\
    output c' = negb ((N <=? Z.of_nat n) && ((Z.of_nat n - N) `mod` (modulus b + 1) =? 0)).
Proof.
  intros Hctl Hb HN Hg. destruct (mode4_run c ctl b N lsb msb Hb HN Hg n Hctl) as (c' & Et & _ & _ & Ho & _).
  by exists c'.
Qed.

(** ** The latched count *)

(** What happens to a counter between a latch command and the reads. *)
Inductive counter_event :=
  | Clock
  | Gate (g : bool)
  | LatchAgain
  | WriteCount (value : Z).

Definition counter_event_step (c : pitx_channel_t) (e : counter_event) : option pitx_channel_t :=
  match e with
  | Clock => tick_channel c
  | Gate g => Some (set_gate c g)
  | LatchAgain => Some (latch_count c)
  | WriteCount value => Some (data_write c value)
  end.

Fixpoint counter_events (c : pitx_channel_t) (es : list counter_event) : option pitx_channel_t :=
  match es with [] => Some c | e :: es => c ← counter_event_step c e; counter_events c es end.

(** What a read of a latched count depends on. *)
Definition latched (v m : Z) (c : pitx_channel_t) : Prop :=
  count_latched c = true /\ output_latch c = v /\ read_phase c = 0 /\ rw_mode c = 3 /\
  status_latched c = false /\ mode c = m.

Lemma latched_live v m c : latched v m c -> latched v m (update_live_latch c).
Proof. intros H. unfold update_live_latch. by rewrite (proj1 H). Qed.

Lemma latched_decrement v m c n : latched v m c -> latched v m (decrement_n c n).
Proof. revert c. induction n as [|n IH]; intros c H; [done|]. apply IH, latched_live, H. Qed.

Lemma latched_reload v m c ld : latched v m c -> latched v m (reload c ld).
Proof. intros H. apply latched_live, H. Qed.

Create HintDb pit.
#[local] Hint Resolve latched_live latched_decrement latched_reload : pit.

Lemma latched_load v m c :
  0 <= m <= 5 -> latched v m c -> exists c', load_counting_element c = Some c' /\ latched v m c'.
Proof.
  intros Hm H. unfold load_counting_element.
  set (c1 := if _ && _ then _ <| incomplete_reload := true |> else _).
  assert (latched v m (update_live_latch c1)) as H1 by (apply latched_live; unfold c1; by case_match).
  generalize dependent (update_live_latch c1). clear c1 H. intros c1 H. unfold load_mode.
  pose proof H as (_ & _ & _ & _ & _ & ->).
  assert (m = 0 \/ m = 1 \/ m = 2 \/ m = 3 \/ m = 4 \/ m = 5) as Hc by lia.
  destruct Hc as [->|[->|[->|[->|[->| ->]]]]]; eexists; (split; [reflexivity|]); try done.
  repeat case_match; done.
Qed.

Lemma latched_count3 v m c : latched v m c -> latched v m (count_mode3 c).
Proof.
  intros H. unfold count_mode3. repeat case_match; auto with pit;
    try (apply latched_reload; by apply (latched_decrement v m c _ H)); by apply (latched_decrement v m c _ H).
Qed.

Lemma latched_count_tick v m c : latched v m c -> latched v m (count_tick c).
Proof.
  intros H. assert (latched v m (decrement c)) as Hd by exact (latched_decrement v m c 1 H).
  unfold count_tick. repeat case_match; solve [done | by apply latched_count3].
Qed.

Lemma latched_event v m c e :
  0 <= m <= 5 -> latched v m c -> exists c', counter_event_step c e = Some c' /\ latched v m c'.
Proof.
  intros Hm H. destruct e as [|g| |w]; cbn [counter_event_step].
  - unfold tick_channel. set (c1 := c <| clocks := _ |>). assert (latched v m c1) as H1 by exact H.
    clearbody c1.
    destruct (state c1); try (by apply latched_load); eexists; (split; [done|]); try done.
    + case_match; [by apply latched_live|done].
    + by apply latched_count_tick.
  - eexists. split; [done|]. unfold set_gate. repeat case_match; done.
  - exists c. split; [|done]. unfold latch_count. by rewrite (proj1 H).
  - eexists. split; [done|]. unfold data_write, finalize_write. repeat case_match; done.
Qed.

Lemma latched_events v m c es :
  0 <= m <= 5 -> latched v m c -> exists c', counter_events c es = Some c' /\ latched v m c'.
Proof.
  intros Hm. revert c. induction es as [|e es IH]; intros c H; cbn [counter_events]; [by exists c|].
  destruct (latched_event v m c e Hm H) as (c' & -> & H'). by apply IH.
Qed.

Lemma visible_width v : in_width 16 (visible_count v).
Proof. unfold visible_count. case_match; width. Qed.

(** C25: A latched count is stable: whatever clocks, gate changes, further
    latch commands and count writes come between, the next two reads return
    the low and the high byte of the count at the latch command, then the
    latch is released; the reads do not disturb the counter. *)
Theorem latched_count_read c es :
  rw_mode c = 3 -> count_latched c = false -> status_latched c = false -> 0 <= mode c <= 5 ->
  exists c', counter_events (latch_count c) es = Some c' /\
    let '(lsb, c1) := data_read c' in let '(msb, c2) := data_read c1 in
    lsb + 256 * msb = visible_count (counting_element c) /\
    count_latched c2 = false /\ counting_element c2 = counting_element c'.
Proof.
  intros Hrw Hl Hs Hm. set (v := visible_count (counting_element c)).
  assert (latched v (mode c) (latch_count c)) as H by (unfold latch_count; by rewrite Hl).
  destruct (latched_events v _ _ es Hm H) as (c' & -> & (Hl' & Ho & Hp & Hrw' & Hs' & _)).
  exists c'. split; [done|]. unfold data_read at 1. rewrite Hs', Hl', Hrw', Hp, Ho. cbn [negb andb Z.eqb].
  unfold data_read. change (status_latched (c' <| read_phase := 1 |>)) with (status_latched c').
  change (count_latched (c' <| read_phase := 1 |>)) with (count_latched c').
  change (rw_mode (c' <| read_phase := 1 |>)) with (rw_mode c').
  change (output_latch (c' <| read_phase := 1 |>)) with (output_latch c').
  rewrite Hs', Hl', Hrw', Ho. cbn [negb andb Z.eqb]. split_and!; [|done|done].
  pose proof (visible_width (counting_element c)) as Hv. fold v in Hv.
  assert (in_width 8 (v >>> 8)) as Hh.
  { rewrite Z.shiftr_div_pow2 by lia. unfold in_width in *. Z.div_mod_to_equations. lia. }
  rewrite (wrap_id 8 (v >>> 8)) by done. unfold wrap. rewrite Z.shiftr_div_pow2 by lia.
  pose proof (Z.div_mod v (2 ^ 8)). lia.
Qed.

(** ** The device *)

(** Fields in the range of their C types, a programmed mode of the six. *)
Definition channel_ok (c : pitx_channel_t) : Prop :=
  0 <= mode c <= 5 /\ in_width 2 (rw_mode c) /\ in_width 8 (control c) /\ in_width 3 (mode_raw c) /\
  in_width 1 (write_phase c) /\ in_width 1 (read_phase c) /\ in_width 16 (output_latch c) /\
  in_width 8 (status_latch c) /\ in_width 16 (count_register c) /\ 0 <= counting_element c <= 0x10000 /\
  in_width 64 (clocks c).

Definition device_ok (pit : pitx_device_t) : Prop :=
  length (channel pit) = 3%nat /\ Forall channel_ok (channel pit).

(** The accesses of the bus and the clock. *)
Inductive pit_op :=
  | OpControl (value : Z)
  | OpWrite (ch value : Z)
  | OpRead (ch : Z)
  | OpGate (ch : Z) (g : bool)
  | OpTick.

Definition pit_op_ok (o : pit_op) : Prop :=
  match o with
  | OpControl v => is_u8 v
  | OpWrite ch v => 0 <= ch /\ is_u8 v
  | OpRead ch | OpGate ch _ => 0 <= ch
  | OpTick => True
  end.

(** The device after an access, with the byte a read returns. *)
Definition pit_run_op (pit : pitx_device_t) (o : pit_op) : option (option Z * pitx_device_t) :=
  match o with
  | OpControl v => Some (None, pitx_control_write pit v)
  | OpWrite ch v => Some (None, pitx_data_write pit ch v)
  | OpRead ch => '(v, pit) ← pitx_data_read pit ch; Some (Some v, pit)
  | OpGate ch g => Some (None, pitx_set_gate pit ch g)
  | OpTick => pit ← pitx_tick pit; Some (None, pit)
  end.

Fixpoint pit_run (pit : pitx_device_t) (os : list pit_op) : option (list Z * pitx_device_t) :=
  match os with
  | [] => Some ([], pit)
  | o :: os =>
      '(v, pit) ← pit_run_op pit o;
      '(vs, pit) ← pit_run pit os;
      Some (match v with Some v => v :: vs | None => vs end, pit)
  end.

Lemma reset_ok t : device_ok (pitx_reset t).
Proof.
  split; [done|]. repeat constructor; cbn; unfold in_width; lia.
Qed.

(** Checks the fields of an updated channel one by one. *)
Ltac ok_fields :=
  repeat match goal with H : channel_ok _ |- _ => destruct H as (?&?&?&?&?&?&?&?&?&?&?) end;
  repeat (split; [first [assumption | fields; width]|]); first [assumption | fields; width].

Lemma live_ok c : channel_ok c -> channel_ok (update_live_latch c).
Proof.
  intros H. unfold update_live_latch. case_match; [done|].
  pose proof (visible_width (counting_element c)). ok_fields.
Qed.

Lemma with_count_ok c v : channel_ok c -> 0 <= v <= 0x10000 -> channel_ok (c <| counting_element := v |>).
Proof. intros H Hv. ok_fields. Qed.

Lemma decremented_range b v : 0 <= v <= 0x10000 -> 0 <= decremented b v <= 0x10000.
Proof.
  intros Hv. assert (forall x, 0 <= x .& 0xffff <= 0x10000) as Hm.
  { intros x. change 0xffff with (Z.ones 16). rewrite land_mask by lia.
    pose proof (Z.mod_pos_bound x (2 ^ 16)). lia. }
  unfold decremented, bcd_decrement. repeat case_match; first [apply Hm|lia].
Qed.

Lemma decrement_n_ok c n : channel_ok c -> channel_ok (decrement_n c n).
Proof.
  revert c. induction n as [|n IH]; intros c H; [done|]. apply IH, live_ok, with_count_ok; [done|].
  apply decremented_range, H.
Qed.

Lemma reload_value_range c : channel_ok c -> 0 <= reload_value c <= 0x10000.
Proof.
  intros (_&_&_&_&_&_&_&_&Hr&_). unfold reload_value. unfold in_width in Hr. repeat case_match; lia.
Qed.

Lemma even_range v : 0 <= v .& 0xfffe <= 0x10000.
Proof. pose proof (in_width_land_r 16 v 0xfffe ltac:(lia)) as H. unfold in_width in H. lia. Qed.

#[local] Hint Resolve live_ok with_count_ok decrement_n_ok reload_value_range even_range : pit.

Lemma load_ok c : channel_ok c -> exists c', load_counting_element c = Some c' /\ channel_ok c'.
Proof.
  intros H. unfold load_counting_element. set (ld := if _ : bool then _ .& _ else _).
  assert (0 <= ld <= 0x10000) as Hld by (unfold ld; case_match; auto with pit).
  set (c1 := if _ && _ then _ <| incomplete_reload := true |> else _).
  assert (channel_ok (update_live_latch c1)) as H1.
  { apply live_ok. unfold c1. pose proof (with_count_ok c ld H Hld). by case_match. }
  generalize dependent (update_live_latch c1). clear c1 H. intros c1 H. unfold load_mode.
  assert (mode c1 = 0 \/ mode c1 = 1 \/ mode c1 = 2 \/ mode c1 = 3 \/ mode c1 = 4 \/ mode c1 = 5) as Hc
    by (destruct H; lia).
  destruct Hc as [->|[->|[->|[->|[->| ->]]]]]; eexists; (split; [reflexivity|]); try done.
  repeat case_match; done.
Qed.

Lemma count_mode3_ok c : channel_ok c -> channel_ok (count_mode3 c).
Proof.
  intros H. pose proof (decrement_n_ok c 2 H). pose proof (decrement_n_ok c 1 H). pose proof (decrement_n_ok c 3 H).
  assert (forall c' o ld, channel_ok c' -> 0 <= ld <= 0x10000 -> channel_ok (reload (set_output c' o) ld)) as Hr.
  { intros c' o ld Hc' Hld. by apply live_ok, with_count_ok. }
  assert (forall c' o, channel_ok c' -> 0 <= reload_value (set_output c' o) <= 0x10000) as Hv.
  { intros c' o Hc'. by apply reload_value_range. }
  unfold count_mode3. repeat case_match; try assumption; apply Hr; auto with pit.
Qed.

Lemma tick_ok c : channel_ok c -> exists c', tick_channel c = Some c' /\ channel_ok c'.
Proof.
  intros H. unfold tick_channel. set (c1 := c <| clocks := _ |>).
  assert (channel_ok c1) as H1 by (unfold c1; ok_fields). clearbody c1. clear c H.
  pose proof (decrement_n_ok c1 1 H1) as Hd. change (decrement_n c1 1) with (decrement c1) in Hd.
  destruct (state c1); try (by apply load_ok); eexists; (split; [done|]); try done.
  - case_match; [apply live_ok, with_count_ok; [done|lia]|done].
  - unfold count_tick. repeat case_match; try assumption; by apply count_mode3_ok.
Qed.

Lemma finalize_ok c : channel_ok c -> channel_ok (finalize_write c).
Proof.
  intros H. unfold finalize_write. set (c1 := if count_register c =? 1 then _ else c).
  assert (channel_ok c1) as H1 by (unfold c1; repeat case_match; first [assumption | ok_fields]).
  clearbody c1. clear c H. set (c2 := c1 <| null_count := true |> <| armed := true |>).
  assert (channel_ok c2) as H2 by exact H1. clearbody c2. clear c1 H1.
  case_match; [exact H2|]. set (c3 := if _ || _ then _ else c2).
  assert (channel_ok c3) as H3 by (unfold c3; case_match; exact H2). exact H3.
Qed.

Lemma register_ok c r p :
  channel_ok c -> in_width 16 r -> in_width 1 p ->
  channel_ok (c <| count_register := r |> <| write_phase := p |>).
Proof. intros H Hr Hp. ok_fields. Qed.

Lemma data_write_ok c v : is_u8 v -> channel_ok c -> channel_ok (data_write c v).
Proof.
  intros Hv H. assert (in_width 16 v) as Hv16 by (apply (in_width_mono 8); [lia|done]).
  pose proof H as (_ & _ & _ & _ & Hp & _). unfold data_write.
  assert (forall r, in_width 16 r -> channel_ok (c <| count_register := r |>)) as Hr.
  { intros r Hr. exact (register_ok c r _ H Hr Hp). }
  assert (forall r p, in_width 16 r -> in_width 1 p ->
    channel_ok (c <| count_register := r |> <| write_phase := p |>)) as Hrp.
  { intros r p. by apply register_ok. }
  repeat match goal with |- channel_ok (match ?x with _ => _ end) => destruct x end;
    first [assumption
          |apply finalize_ok; first [apply Hr|apply Hrp]; width
          |refine (Hrp _ 1 _ _); width].
Qed.

Lemma set_gate_ok c g : channel_ok c -> channel_ok (set_gate c g).
Proof. intros H. unfold set_gate. repeat case_match; done. Qed.

Lemma latch_count_ok c : channel_ok c -> channel_ok (latch_count c).
Proof.
  intros H. unfold latch_count. case_match; [done|]. pose proof (visible_width (counting_element c)). ok_fields.
Qed.

Lemma latch_status_ok c : channel_ok c -> channel_ok (latch_status c).
Proof. intros H. unfold latch_status. case_match; [done|]. ok_fields. Qed.

Lemma canonical_range raw : in_width 3 raw -> 0 <= canonical_mode raw <= 5.
Proof.
  intros H. unfold in_width in H.
  assert (raw = 0 \/ raw = 1 \/ raw = 2 \/ raw = 3 \/ raw = 4 \/ raw = 5 \/ raw = 6 \/ raw = 7) as Hr by lia.
  by destruct Hr as [->|[->|[->|[->|[->|[->|[->| ->]]]]]]].
Qed.

Lemma program_mode_ok c ctl : is_u8 ctl -> channel_ok c -> channel_ok (program_mode c ctl).
Proof.
  intros Hv H. assert (in_width 3 ((ctl >>> 1) .& 7)) by width. assert (in_width 2 ((ctl >>> 4) .& 3)) by width.
  pose proof (canonical_range ((ctl >>> 1) .& 7) ltac:(done)). unfold program_mode. ok_fields.
Qed.

Lemma data_read_ok c v c' : channel_ok c -> data_read c = (v, c') -> is_u8 v /\ channel_ok c'.
Proof.
  intros H. pose proof H as (_&_&_&_&_&_&_&Hs&_). unfold data_read.
  set (value := if count_latched c then output_latch c else _). clearbody value.
  destruct (status_latched c); [intros [= <- <-]; done|].
  case_match; [intros [= <- <-]; split; [width|done]|].
  repeat match goal with |- context [match ?x with _ => _ end] => destruct x end; intros [= <- <-];
    (split; [width|first [assumption|ok_fields]]).
Qed.

(** An operation on one counter of the device. *)
Lemma on_channel_ok i f pit :
  (forall c, channel_ok c -> channel_ok (f c)) -> device_ok pit -> device_ok (on_channel i f pit).
Proof.
  intros Hf [Hl Hc]. split; fields; [by rewrite length_alter|].
  rewrite Forall_lookup in *. intros j c. destruct (decide (Z.to_nat i = j)) as [->|].
  - rewrite list_lookup_alter_eq. intros (c' & E & ->)%fmap_Some. by eapply Hf, Hc.
  - rewrite list_lookup_alter_ne by done. apply Hc.
Qed.

Lemma channel_lookup pit ch :
  device_ok pit -> 0 <= ch < 3 -> exists c, channel pit !! Z.to_nat ch = Some c /\ channel_ok c.
Proof.
  intros [Hl Hc] Hch. destruct (lookup_lt_is_Some_2 (channel pit) (Z.to_nat ch)) as [c E]; [lia|].
  exists c. split; [done|]. by apply (Forall_lookup_1 _ _ _ _ Hc E).
Qed.

Lemma pitx_tick_channel_ok pit ch :
  0 <= ch -> device_ok pit -> exists pit', pitx_tick_channel pit ch = Some pit' /\ device_ok pit'.
Proof.
  intros Hch Hok. unfold pitx_tick_channel. destruct (Z.leb_spec 3 ch); [by exists pit|].
  destruct (channel_lookup pit ch Hok ltac:(lia)) as (c & -> & Hc). cbn [mbind option_bind].
  destruct (tick_ok c Hc) as (c' & -> & Hc'). cbn [mbind option_bind].
  eexists. split; [done|]. by apply on_channel_ok.
Qed.

Lemma control_ok pit v : is_u8 v -> device_ok pit -> device_ok (pitx_control_write pit v).
Proof.
  intros Hv Hok. unfold pitx_control_write. set (p := pit <| last_control := v |>).
  assert (device_ok p) as Hp by exact Hok. clearbody p. clear pit Hok.
  assert (forall i p, device_ok p -> device_ok (read_back v i p)) as Hr.
  { clear. intros i p Hp. unfold read_back. repeat case_match; try done;
      repeat (apply on_channel_ok; [first [apply latch_count_ok|apply latch_status_ok]|]); done. }
  repeat case_match; try done; try (by do 3 apply Hr); apply on_channel_ok; try done.
  - apply latch_count_ok.
  - intros c. by apply program_mode_ok.
Qed.

Lemma pit_op_safe pit o :
  pit_op_ok o -> device_ok pit ->
  exists r pit', pit_run_op pit o = Some (r, pit') /\ device_ok pit' /\ (forall v, r = Some v -> is_u8 v).
Proof.
  intros Ho Hok. destruct o as [v|ch v|ch|ch g|]; cbn [pit_run_op pit_op_ok] in *.
  - do 2 eexists. split; [done|]. split; [by apply control_ok|done].
  - do 2 eexists. split; [done|]. split; [|done]. unfold pitx_data_write. case_match; [done|].
    apply on_channel_ok; [|done]. intros c. by apply data_write_ok, Ho.
  - unfold pitx_data_read. destruct (Z.leb_spec 3 ch).
    { do 2 eexists. split; [done|]. split; [done|]. intros v [= <-]. width. }
    destruct (channel_lookup pit ch Hok ltac:(lia)) as (c & -> & Hc). cbn [mbind option_bind].
    destruct (data_read c) as [v c'] eqn:E. destruct (data_read_ok c v c' Hc E) as [Hv Hc'].
    do 2 eexists. split; [done|]. split; [by apply on_channel_ok|]. by intros ? [= <-].
  - do 2 eexists. split; [done|]. split; [|done]. unfold pitx_set_gate. case_match; [done|].
    apply on_channel_ok; [|done]. intros c. by apply set_gate_ok.
  - unfold pitx_tick.
    destruct (pitx_tick_channel_ok pit 0 ltac:(lia) Hok) as (p0 & -> & H0). cbn [mbind option_bind].
    destruct (pitx_tick_channel_ok p0 1 ltac:(lia) H0) as (p1 & -> & H1). cbn [mbind option_bind].
    destruct (pitx_tick_channel_ok p1 2 ltac:(lia) H1) as (p2 & -> & H2). cbn [mbind option_bind].
    do 2 eexists. done.
Qed.

(** C26: From power on, no sequence of bus accesses, gate changes and clocks
    reaches the failed assertion or an access outside the three counters;
    every field stays within its C type, the counting element at most
    0x10000, the mode one of the six, and every read returns a byte. *)
Theorem pit_never_fails t os :
  Forall pit_op_ok os ->
  exists bytes pit, pit_run (pitx_init t) os = Some (bytes, pit) /\ device_ok pit /\ Forall is_u8 bytes.
Proof.
  intros Hos. change (pitx_init t) with (pitx_reset t). pose proof (reset_ok t) as Hok. revert Hok.
  generalize (pitx_reset t). induction Hos as [|o os Ho Hos IH]; intros pit Hok; cbn [pit_run].
  - by exists [], pit.
  - destruct (pit_op_safe pit o Ho Hok) as (r & p1 & -> & H1 & Hr). cbn [mbind option_bind].
    destruct (IH p1 H1) as (vs & p2 & -> & H2 & Hvs). cbn [mbind option_bind].
    do 2 eexists. split; [done|]. split; [done|]. destruct r as [v|]; [|done].
    constructor; [by apply Hr|done].
Qed.

(** ** Witnesses *)

Definition running_gate (t : pitx_type_t) : pitx_channel_t := set_gate (reset_channel t) true.

Lemma mode3_square_witness :
  exists c', ticks 9 (programmed (running_gate PITX_8254) 0x36 5 0) = Some c' /\ output c' = false.
Proof.
  apply (mode3_square (running_gate PITX_8254) 0x36 false 5 5 0 8);
    [reflexivity|split_and!; [done..|reflexivity]|cbn; lia|reflexivity].
Defined.

Lemma mode2_rate_witness :
  exists c', ticks 1235 (programmed (running_gate PITX_8253) 0xb5 0x34 0x12) = Some c' /\
    counting_element c' = 0x1234 /\ output c' = true.
Proof.
  apply (mode2_rate (running_gate PITX_8253) 0xb5 true 1234 0x34 0x12 1234);
    [reflexivity|split_and!; [done..|reflexivity]|cbn; lia|reflexivity].
Defined.

Lemma mode0_terminal_witness :
  exists c', ticks 4 (programmed (running_gate PITX_8254) 0x30 3 0) = Some c' /\
    visible_count (counting_element c') = 0 /\ output c' = true.
Proof.
  apply (mode0_terminal (running_gate PITX_8254) 0x30 false 3 3 0 3);
    [reflexivity|split_and!; [done..|reflexivity]|cbn; lia|reflexivity].
Defined.

(** The strobe comes once more when the counter has gone round. *)
Lemma mode4_strobe_witness :
  exists c', ticks (S (Z.to_nat 10004)) (programmed (running_gate PITX_8254) 0x39 3 0) = Some c' /\ output c' = false.
Proof.
  apply (mode4_strobe (running_gate PITX_8254) 0x39 true 3 3 0 (Z.to_nat 10004));
    [reflexivity|split_and!; [done..|reflexivity]|cbn; lia|reflexivity].
Defined.

Definition stopped_counter : pitx_channel_t :=
  (programmed (running_gate PITX_8253) 0x34 0x34 0x12) <| counting_element := 0x1234 |>.

Lemma latched_count_read_witness :
  exists c', counter_events (latch_count stopped_counter) [Clock; Gate false; LatchAgain; WriteCount 7; Clock] = Some c' /\
    let '(lsb, c1) := data_read c' in let '(msb, c2) := data_read c1 in
    lsb + 256 * msb = visible_count (counting_element stopped_counter) /\
    count_latched c2 = false /\ counting_element c2 = counting_element c'.
Proof.
  apply (latched_count_read stopped_counter [Clock; Gate false; LatchAgain; WriteCount 7; Clock]);
    try reflexivity. split; vm_compute; discriminate.
Defined.

Lemma pit_never_fails_witness :
  exists bytes pit, pit_run (pitx_init PITX_8254)
    [OpControl 0x36; OpWrite 0 5; OpWrite 0 0; OpTick; OpGate 0 false; OpTick; OpControl 0xc2; OpRead 0; OpRead 3]
    = Some (bytes, pit) /\ device_ok pit /\ Forall is_u8 bytes.
Proof.
  apply (pit_never_fails PITX_8254). repeat constructor; cbn; lia.
Defined.
