(* ===== verification/Pit.v ===== *)
(** * Pit: the programmable timer of src/src/pit.c

    The counters of the branch that is compiled by default (without NEW_PIT):
    [ctr_t], three to a device, clocked by both edges of a square wave that a
    timer of [Timer] makes.  The machine's output and load callbacks are
    named by the pointers in [out_func] and [load_func]; an operation returns
    the calls it makes, in order, which are assumed not to call back into the
    same counter.  [PitExact] is the counter core of the other branch. *)
From S2P Require Import Prelude Dll Timer.
From S2P Require Io PitExact.

Definition NUM_COUNTERS : nat := 3.

Definition PIT_8254 : Z := 1.
Definition PIT_PS2 : Z := 16.
Definition PIT_EXT_IO : Z := 32.
Definition PIT_CUSTOM_CLOCK : Z := 64.
Definition PIT_SECONDARY : Z := 128.

(** [enable] and the members of the union under other names are left out. *)
Record ctr_t := mkCtr {
  m : Z;
  ctrl : Z;
  read_status : Z;
  latch : bool;
  s1_det : Z;
  l_det : Z;
  bcd : bool;
  incomplete : bool;
  rl : Z;
  rm : Z;
  wm : Z;
  gate : bool;
  out : bool;
  newcount : bool;
  clock : bool;
  using_timer : bool;
  latched : Z;
  state : Z;
  null_count : bool;
  do_read_status : bool;
  count : Z;
  l : Z;
  lback : Z;
  lback2 : Z;
  load_func : option Z;
  out_func : option Z;
}.

(** A call of a callback of the machine. *)
Inductive pit_call :=
  | OutFunc (f : Z) (new_out old_out : bool)
  | LoadFunc (f : Z) (new_m new_count : Z).

(** An operation on a counter: the counter after it and the calls made. *)
Definition ctr_op : Type := ctr_t -> ctr_t * list pit_call.

Definition quiet (ctr : ctr_t) : ctr_t * list pit_call := (ctr, []).

(** Two operations in sequence. *)
Definition and_then (r : ctr_t * list pit_call) (f : ctr_op) : ctr_t * list pit_call :=
  let '(ctr, es) := r in let '(ctr, es') := f ctr in (ctr, es ++ es').

Definition ctr_set_out (o : bool) : ctr_op := fun ctr =>
  (ctr <| out := o |>, match out_func ctr with Some f => [OutFunc f o (out ctr)] | None => [] end).

(** ** Counting *)

(** The digit [i] of the union's bit-fields, which are four bits wide. *)
Definition digit (v i : Z) : Z := (v >>> (4 * i)) .& 15.
Definition set_digit (v i d : Z) : Z := (v .&~ (15 <<< (4 * i))) .| (d <<< (4 * i)).

(** [units--; if (units == -1) { units = -7; tens--; ...]: the fields are
    signed, so that -7 is the digit 9. *)
Fixpoint digit_decrease (n : nat) (v i : Z) : Z :=
  match n with
  | O => v
  | S n => if digit v i =? 0 then digit_decrease n (set_digit v i 9) (i + 1)
           else set_digit v i (digit v i - 1)
  end.

Definition ctr_decrease_count (ctr : ctr_t) : ctr_t :=
  ctr <| count := if bcd ctr then digit_decrease 5 (count ctr) 0 else (count ctr - 1) .& 0xffff |>.

Definition ctr_load_count (ctr : ctr_t) : ctr_t :=
  let v := if ctrue (l ctr) then l ctr else 0x10000 in
  ctr <| count := v |> <| null_count := false |> <| newcount := ctrue (v .& 1) |>
      <| incomplete := ctrue (wm ctr .& 0x80) |>.

(** Modes 0, 1, 4 and 5: to zero, where the output becomes [o]. *)
Definition count_to_zero (o : bool) : ctr_op := fun ctr =>
  if 1 <=? count ctr then
    let ctr := ctr_decrease_count ctr in
    if count ctr <? 1 then ctr_set_out o (ctr <| state := 3 |>) else quiet ctr
  else quiet ctr.

(** Mode 3: [n] less the first time, then two less; at zero the output
    becomes [o], the counter reloads and goes on in state [st]. *)
Definition count_square (first : nat) (o : bool) (st : Z) : ctr_op := fun ctr =>
  if negb (gate ctr) then quiet ctr
  else if 0 <=? count ctr then
    let n := if newcount ctr then first else 2%nat in
    let ctr := if bcd ctr then Nat.iter n ctr_decrease_count ctr
               else ctr <| count := count ctr - Z.of_nat n |> in
    if count ctr =? 0 then
      let '(ctr, es) := ctr_set_out o ctr in ((ctr_load_count ctr) <| state := st |>, es)
    else quiet (if newcount ctr then ctr <| newcount := false |> else ctr)
  else quiet ctr.

Definition tick_mode0 : ctr_op := fun ctr =>
  match u8 (state ctr) with
  | 2 => if gate ctr then count_to_zero true ctr else quiet ctr
  | 3 => quiet (ctr_decrease_count ctr)
  | _ => quiet ctr
  end.

Definition tick_mode1 : ctr_op := fun ctr =>
  match u8 (state ctr) with
  | 2 => count_to_zero true ctr
  | 3 | 6 => quiet (ctr_decrease_count ctr)
  | _ => quiet ctr
  end.

Definition tick_mode2 : ctr_op := fun ctr =>
  match u8 (state ctr) with
  | 3 => ctr_set_out true ((ctr_load_count ctr) <| state := 2 |>)
  | 2 =>
      if negb (gate ctr) then quiet ctr
      else if 2 <=? count ctr then
        let ctr := ctr_decrease_count ctr in
        if count ctr <? 2 then ctr_set_out false (ctr <| state := 3 |>) else quiet ctr
      else quiet ctr
  | _ => quiet ctr
  end.

Definition tick_mode3 : ctr_op := fun ctr =>
  match u8 (state ctr) with
  | 2 => count_square 1 false 3 ctr
  | 3 => count_square 3 true 2 ctr
  | _ => quiet ctr
  end.

Definition tick_mode45 : ctr_op := fun ctr =>
  if gate ctr || negb (m ctr =? 4) then
    match u8 (state ctr) with
    | 0 | 6 => quiet (ctr_decrease_count ctr)
    | 2 => count_to_zero false ctr
    | 3 => ctr_set_out true (ctr <| state := 0 |>)
    | _ => quiet ctr
    end
  else quiet ctr.

Definition ctr_tick : ctr_op := fun ctr =>
  if u8 (state ctr) .& 0x03 =? 0x01 then
    let ctr := ctr_load_count ctr in
    let ctr := ctr <| state := state ctr + 1 |> in
    if (m ctr .& 0x07 =? 0x01) && (state ctr =? 2) then ctr_set_out false ctr else quiet ctr
  else
    match m ctr .& 0x07 with
    | 0 => tick_mode0 ctr
    | 1 => tick_mode1 ctr
    | 2 | 6 => tick_mode2 ctr
    | 3 | 7 => tick_mode3 ctr
    | _ => tick_mode45 ctr
    end.

(** ** Loading, latching, gate and clock *)

Definition ctr_set_state_1 (ctr : ctr_t) : ctr_t :=
  let mode := m ctr .& 0x03 in
  let do_reload := incomplete ctr || (mode =? 0) || (state ctr =? 0) in
  let ctr := ctr <| incomplete := false |> in
  if do_reload then ctr <| state := 1 + (cbool (mode =? 1) <<< 2) |> else ctr.

(** The count for [load_func] in BCD: the digits are joined with [|]. *)
Definition load_bcd (c : Z) : Z :=
  (((c >>> 16) .& 0xf) * 10000) .| (((c >>> 12) .& 0xf) * 1000) .| (((c >>> 8) .& 0xf) * 100)
  .| (((c >>> 4) .& 0xf) * 10) .| (c .& 0xf).

Definition ctr_load : ctr_op := fun ctr =>
  let ctr := if l ctr =? 1 then
               (if m ctr =? 2 then ctr <| l := 2 |>
                else if m ctr =? 3 then ctr <| l := 0 |> else ctr)
             else ctr in
  let ctr := if using_timer ctr then ctr <| latch := true |> else ctr_set_state_1 ctr in
  (ctr, match load_func ctr with
        | Some f =>
            let c := if ctrue (l ctr) then l ctr else 0x10000 in
            [LoadFunc f (m ctr) (if bcd ctr then load_bcd c else c)]
        | None => []
        end).

Definition ctr_latch_status (ctr : ctr_t) : ctr_t :=
  ctr <| read_status := (ctrl ctr .& 0x3f) .| (if out ctr then 0x80 else 0)
                        .| (if null_count ctr then 0x40 else 0) |>
      <| do_read_status := true |>.

Definition ctr_latch_count (ctr : ctr_t) : ctr_t :=
  let c := if latch ctr || (state ctr =? 1) then l ctr else count ctr in
  match rm ctr .& 0x03 with
  | 1 => ctr <| rl := u16 (((c <<< 8) .& 0xff00) .| (c .& 0xff)) |> <| latched := 1 |>
  | 2 => ctr <| rl := u16 ((c .& 0xff00) .| ((c >>> 8) .& 0xff)) |> <| latched := 1 |>
  | 3 => ctr <| rl := u16 c |> <| latched := 2 |>
  | _ => ctr
  end.

(** [pit_ctr_set_gate] on a counter.  The modes are taken modulo four, so
    that the cases 5 to 7 of the switch are those of 1 to 3. *)
Definition set_gate (g : bool) : ctr_op := fun ctr =>
  let old := gate ctr in
  let mode := m ctr .& 3 in
  and_then
    (if (mode =? 1) || (mode =? 2) || (mode =? 3) then
       if negb old && g then
         if ctrue (mode .& 1) then
           let '(ctr, es) := if negb (mode =? 1) then ctr_set_out true ctr else quiet ctr in
           (ctr <| state := 1 |>, es)
         else if mode =? 2 then quiet (ctr <| state := 3 |>) else quiet ctr
       else if old && negb g then (if ctrue (mode .& 2) then ctr_set_out true ctr else quiet ctr)
       else quiet ctr
     else quiet ctr)
    (fun ctr => quiet (ctr <| gate := g |>)).

Definition pit_ctr_set_clock_common (clk : bool) : ctr_op := fun ctr =>
  let old := clock ctr in
  let ctr := ctr <| clock := clk |> in
  if using_timer ctr && latch ctr then
    if old && negb clk then quiet ((ctr_set_state_1 ctr) <| latch := false |>) else quiet ctr
  else if using_timer ctr && negb (latch ctr) then
    if state ctr =? 1 then
      if negb old && clk then quiet (ctr <| s1_det := 1 |>)
      else if old && negb clk then
        let ctr := ctr <| s1_det := u8 (s1_det ctr + 1) |> in
        if 2 <=? s1_det ctr then ctr_tick (ctr <| s1_det := 0 |>) else quiet ctr
      else quiet ctr
    else if old && negb clk then ctr_tick ctr else quiet ctr
  else quiet ctr.

Definition pit_ctr_set_clock (clk : bool) : ctr_op := pit_ctr_set_clock_common clk.

(** [ctr_clock] on a counter. *)
Definition ctr_clock : ctr_op := fun ctr =>
  if (state ctr =? 3) && negb (m ctr =? 2) && negb (m ctr =? 3) then quiet ctr
  else if using_timer ctr then quiet ctr
  else ctr_tick ctr.

(** ** The bus *)

(** A control word for one counter, not a read-back. *)
Definition ctr_control (val : Z) : ctr_op := fun ctr =>
  if val .& 0x30 =? 0 then quiet (ctr_latch_count ctr)
  else
    let mode := (val >>> 1) .& 7 in
    let mode := if 5 <? mode then mode .& 3 else mode in
    let ctr := ctr <| ctrl := val |> <| rm := (val >>> 4) .& 3 |> <| wm := (val >>> 4) .& 3 |> <| m := mode |>
                   <| null_count := true |> <| bcd := ctrue (val .& 0x01) |> in
    let '(ctr, es) := ctr_set_out (ctrue mode) ctr in
    let ctr := ctr <| state := 0 |> in
    (if ctrue (latched ctr) then ctr <| rl := u16 (rl ctr - 1) |> else ctr, es).

Definition set_l (v : Z) (ctr : ctr_t) : ctr_t := ctr <| l := v |> <| lback := v |> <| lback2 := v |>.

(** [if (ctr->m == 0) ctr_set_out(ctr, 0, dev)] *)
Definition out_low_mode0 : ctr_op := fun ctr => if m ctr =? 0 then ctr_set_out false ctr else quiet ctr.

(** A byte of the count. *)
Definition ctr_write (val : Z) : ctr_op := fun ctr =>
  match wm ctr with
  | 1 => and_then (out_low_mode0 (set_l val ctr)) ctr_load
  | 2 => and_then (out_low_mode0 (set_l (val <<< 8) ctr)) ctr_load
  | 3 | 0x83 =>
      and_then
        (if ctrue (wm ctr .& 0x80)
         then ctr_load (set_l ((l ctr .& 0x00ff) .| (val <<< 8)) ctr)
         else
           let ctr := set_l ((l ctr .& 0xff00) .| val) ctr in
           if m ctr =? 0 then ctr_set_out false (ctr <| state := 0 |>) else quiet ctr)
        (fun ctr => quiet (ctr <| wm := if ctrue (wm ctr .& 0x80) then wm ctr .&~ 0x80 else wm ctr .| 0x80 |>))
  | _ => quiet ctr
  end.

(** [rm ^= 0x80], as it is written. *)
Definition flip_rm (ctr : ctr_t) : ctr_t :=
  ctr <| rm := if ctrue (rm ctr .& 0x80) then rm ctr .&~ 0x80 else rm ctr .| 0x80 |>.

(** A byte read from a counter, and the counter after it. *)
Definition ctr_read (ctr : ctr_t) : Z * ctr_t :=
  if do_read_status ctr then (read_status ctr, ctr <| do_read_status := false |>)
  else
    let c := if state ctr =? 1 then l ctr else count ctr in
    let high := if ctrue (rm ctr .& 0x80) then 8 else 0 in
    if ctrue (latched ctr) then
      (u8 (rl ctr >>> high), (flip_rm ctr) <| latched := latched ctr - 1 |>)
    else
      match rm ctr with
      | 0 | 0x80 => (0, ctr)
      | 1 => (c .& 0xff, ctr)
      | 2 => (u8 (c >>> 8), ctr)
      | 3 | 0x83 =>
          (if ctrue (wm ctr .& 0x80) then u8 (Z.lnot (l ctr .& 0xff)) else u8 (c >>> high), flip_rm ctr)
      | _ => (0xff, ctr)
      end.

(** ** The device *)

Record pit_t := mkPit {
  flags : Z;
  pit_clock : bool;
  clock_period_numerator : Z;
  clock_period_denominator : Z;
  callback_timer : ptr;
  counters : list ctr_t;
  pit_ctrl : Z;
  pit_const : Z;
}.

(** An operation on [&dev->counters[i]]; [None] is an index out of range. *)
Definition on_counter (i : Z) (f : ctr_op) (dev : pit_t) : option (pit_t * list pit_call) :=
  ctr ← arr_get (counters dev) i;
  let '(ctr, es) := f ctr in
  cs ← arr_set (counters dev) i ctr;
  Some (dev <| counters := cs |>, es).

(** The same operation on the counters of a list, in turn. *)
Fixpoint on_counters (idx : list Z) (f : ctr_op) (dev : pit_t) : option (pit_t * list pit_call) :=
  match idx with
  | [] => Some (dev, [])
  | i :: idx =>
      '(dev, es) ← on_counter i f dev;
      '(dev, es') ← on_counters idx f dev;
      Some (dev, es ++ es')
  end.

(** The counters a read-back command selects. *)
Definition selected (val : Z) : list Z := filter (fun i => ctrue (val .& (2 <<< i)) = true) [0; 1; 2].

Definition pit_write (addr val : Z) (dev : pit_t) : option (pit_t * list pit_call) :=
  let t := addr .& 3 in
  if t =? 3 then
    let t := val >>> 6 in
    if t =? 3 then
      if ctrue (flags dev .& PIT_8254) then
        '(dev, es) ← (if val .& 0x20 =? 0
                      then on_counters (selected val) (fun c => quiet (ctr_latch_count c)) dev
                      else Some (dev, []));
        '(dev, es') ← (if val .& 0x10 =? 0
                       then on_counters (selected val) (fun c => quiet (ctr_latch_status c)) dev
                       else Some (dev, []));
        Some (dev, es ++ es')
      else Some (dev, [])
    else on_counter t (ctr_control val) (dev <| pit_ctrl := val |>)
  else on_counter t (ctr_write val) dev.

Definition pit_read (addr : Z) (dev : pit_t) : option (Z * pit_t) :=
  let t := addr .& 3 in
  if t =? 3 then Some (if ctrue (flags dev .& PIT_8254) then pit_ctrl dev else 0x00, dev)
  else
    ctr ← arr_get (counters dev) t;
    let '(ret, ctr) := ctr_read ctr in
    cs ← arr_set (counters dev) t ctr;
    Some (ret, dev <| counters := cs |>).

Definition pit_read_reg (dev : pit_t) (reg : Z) : option Z :=
  match reg with
  | 0x00 | 0x02 | 0x04 => c ← arr_get (counters dev) (reg >>> 1); Some (l c .& 0xff)
  | 0x01 | 0x03 | 0x05 => c ← arr_get (counters dev) (reg >>> 1); Some ((l c >>> 8) .& 0xff)
  | 0x06 => Some (pit_ctrl dev)
  | 0x07 =>
      c0 ← arr_get (counters dev) 0;
      c1 ← arr_get (counters dev) 1;
      c2 ← arr_get (counters dev) 2;
      let flag v b := if ctrue (v .& 0x80) then b else 0x00 in
      Some (flag (rm c0) 0x01 .| flag (rm c1) 0x02 .| flag (rm c2) 0x04
            .| flag (wm c0) 0x08 .| flag (wm c1) 0x10 .| flag (wm c2) 0x20)
  | _ => Some 0xff
  end.

(** [pit_ctr_get_count] and the other functions of [pit_classic_intf]. *)
Definition pit_ctr_get_count (dev : pit_t) (i : Z) : option Z := c ← arr_get (counters dev) i; Some (u16 (l c)).
Definition pit_ctr_get_outlevel (dev : pit_t) (i : Z) : option bool := c ← arr_get (counters dev) i; Some (out c).
Definition pit_ctr_set_load_func (i : Z) (f : option Z) : pit_t -> option (pit_t * list pit_call) :=
  on_counter i (fun c => quiet (c <| load_func := f |>)).
Definition pit_ctr_set_out_func (i : Z) (f : option Z) : pit_t -> option (pit_t * list pit_call) :=
  on_counter i (fun c => quiet (c <| out_func := f |>)).
Definition pit_ctr_set_gate (i : Z) (g : bool) : pit_t -> option (pit_t * list pit_call) :=
  on_counter i (set_gate g).
Definition pit_ctr_clock (i : Z) : pit_t -> option (pit_t * list pit_call) := on_counter i ctr_clock.
Definition pit_set_pit_const (k : Z) (dev : pit_t) : pit_t := dev <| pit_const := k |>.

Definition pit_set_clock_period_ratio (PITCONST numerator denominator : Z) (dev : pit_t) : pit_t :=
  let n := if ctrue numerator then numerator else 1 in
  let d := if ctrue denominator then denominator else 1 in
  pit_set_pit_const (u64 (PITCONST * n) `div` d)
    (dev <| clock_period_numerator := n |> <| clock_period_denominator := d |>).

Definition pit_speed_changed (PITCONST : Z) (dev : pit_t) : pit_t :=
  let n := clock_period_numerator dev in
  let d := clock_period_denominator dev in
  pit_set_pit_const (u64 (PITCONST * (if ctrue n then n else 1)) `div` (if ctrue d then d else 1)) dev.

Definition ctr_reset (ctr : ctr_t) : ctr_t :=
  ctr <| ctrl := 0 |> <| m := 0 |> <| gate := false |> <| l := 0xffff |> <| using_timer := true |>
      <| state := 0 |> <| null_count := true |> <| latch := false |> <| s1_det := 0 |> <| l_det := 0 |>.

Definition pit_device_reset (dev : pit_t) : pit_t :=
  dev <| pit_clock := false |> <| counters := map ctr_reset (counters dev) |>.

(** [memset] to zero. *)
Definition ctr_zero : ctr_t :=
  mkCtr 0 0 0 false 0 0 false false 0 0 0 false false false false false 0 0 false false 0 0 0 0 None None.

(** [pit_reset]; the timer object, which is part of the device, stays at its
    address. *)
Definition pit_reset (dev : pit_t) : pit_t :=
  mkPit 0 false 0 0 (callback_timer dev) (replicate NUM_COUNTERS (ctr_reset ctr_zero)) 0 0.

(** ** The timer and the ports *)

Section wiring.
Context {D : Type}.
Implicit Types q : Timer.world D.

(** [pit_timer_over]: the calls are made before the timer is advanced. *)
Definition pit_timer_over (dev : pit_t) q : option (pit_t * list pit_call * Timer.world D) :=
  let dev := dev <| pit_clock := negb (pit_clock dev) |> in
  '(dev, es) ← on_counters [0; 1; 2] (pit_ctr_set_clock_common (pit_clock dev)) dev;
  q ← timer_advance_u64 (Some (callback_timer dev)) (pit_const dev >>> 1) q;
  Some (dev, es, q).

(** [process] is [timer_process]. *)
Definition pit_ctr_set_using_timer (process : Timer.world D -> option (Timer.world D)) (i : Z) (u : bool)
    (dev : pit_t) q : option (pit_t * Timer.world D) :=
  q ← (if 0 <? tsc q then process q else Some q);
  '(dev, _) ← on_counter i (fun c => quiet (c <| using_timer := u |>)) dev;
  Some (dev, q).

(** What the device registers at its ports: [pit_read] and [pit_write] by
    address, and the device's own address. *)
Definition pit_ops (rd wr x : Z) : Io.io_ops :=
  Io.mkOps (Some (Io.Dev rd)) None None (Some (Io.Dev wr)) None None x.

Definition pit_handler {B} (rd wr : Z) (set base size x : Z) (bus : Io.iobus B) : option (Io.iobus B) :=
  Io.io_handler set base size (pit_ops rd wr x) bus.

(** [pit_init] on the allocated device; [pit_timer_over] is the callback
    [over] with the device's address [x]. *)
Definition pit_init {B} (local PITCONST over rd wr x : Z) (dev : pit_t) q (bus : Io.iobus B)
    : option (pit_t * Timer.world D * Io.iobus B) :=
  let dev := pit_reset dev in
  let dev := pit_set_pit_const PITCONST
               (dev <| clock_period_numerator := 1 |> <| clock_period_denominator := 1 |>) in
  let dev := dev <| flags := local |> in
  q ← (if (flags dev .& PIT_PS2 =? 0) && (flags dev .& PIT_CUSTOM_CLOCK =? 0) then
         q ← timer_add (callback_timer dev) (Some over) x false q;
         timer_set_delay_u64 (Some (callback_timer dev)) (pit_const dev >>> 1) q
       else Some q);
  bus ← (if flags dev .& PIT_EXT_IO =? 0 then
           Io.io_sethandler (if ctrue (flags dev .& PIT_SECONDARY) then 0x0048 else 0x0040) 0x0004
             (pit_ops rd wr x) bus
         else Some bus);
  Some (dev, q, bus).

(** [for (i = 0; i < 3; i++) { set_gate(i, 1); set_using_timer(i, 1); }] *)
Fixpoint enable_counters (process : Timer.world D -> option (Timer.world D)) (idx : list Z) (dev : pit_t) q
    : option (pit_t * list pit_call * Timer.world D) :=
  match idx with
  | [] => Some (dev, [], q)
  | i :: idx =>
      '(dev, es) ← pit_ctr_set_gate i true dev;
      '(dev, q) ← pit_ctr_set_using_timer process i true dev q;
      '(dev, es', q) ← enable_counters process idx dev q;
      Some (dev, es ++ es', q)
  end.

(** [pit_common_init] after [device_add], with [pit_classic_intf]. *)
Definition pit_common_init (process : Timer.world D -> option (Timer.world D))
    (out0 out1 : option Z) (pit_speaker_timer speaker_set_count : Z) (dev : pit_t) q
    : option (pit_t * list pit_call * Timer.world D) :=
  '(dev, es, q) ← enable_counters process [0; 1; 2] dev q;
  '(dev, _) ← pit_ctr_set_out_func 0 out0 dev;
  '(dev, _) ← pit_ctr_set_out_func 1 out1 dev;
  '(dev, _) ← pit_ctr_set_out_func 2 (Some pit_speaker_timer) dev;
  '(dev, _) ← pit_ctr_set_load_func 2 (Some speaker_set_count) dev;
  '(dev, es') ← pit_ctr_set_gate 2 false dev;
  Some (dev, es ++ es', q).

End wiring.

(** ** Counts *)

Abbreviation enc := PitExact.enc.
Abbreviation modulus := PitExact.modulus.
Abbreviation visible_count := PitExact.visible_count.

Definition digits_ok (v : Z) : bool :=
  ((v =? 0) || (digit_decrease 5 (enc true v) 0 =? enc true (v - 1))) &&
  Bool.eqb (1 <=? enc true v) (1 <=? v) && Bool.eqb (2 <=? enc true v) (2 <=? v) && (0 <=? enc true v).

Lemma digits_all : forallb digits_ok (seqZ 0 10001) = true.
Proof. by vm_compute. Qed.

Lemma enc_bounds b v :
  0 <= v <= modulus b ->
  (1 <=? enc b v) = (1 <=? v) /\ (2 <=? enc b v) = (2 <=? v) /\ (0 <=? enc b v) = true /\
  (1 <= v -> b = true -> digit_decrease 5 (enc b v) 0 = enc b (v - 1)).
Proof.
  intros Hv. destruct b; cbn [PitExact.modulus] in *.
  - assert (digits_ok v = true) as H.
    { pose proof digits_all as H. rewrite forallb_forall in H. apply H.
      apply list_elem_of_In, elem_of_seqZ. lia. }
    unfold digits_ok in H. rewrite !andb_true_iff, !eqb_true_iff, orb_true_iff, !Z.eqb_eq in H.
    destruct H as [[[H1 H2] H3] H4]. split_and!; try done. intros Hv1 _. by destruct H1; [lia|].
  - rewrite PitExact.enc_binary by lia. split_and!; [done..|by apply Z.leb_le; lia|done].
Qed.

Lemma enc_ltb b v k :
  0 <= v <= modulus b -> k = 1 \/ k = 2 -> (enc b v <? k) = (v <? k).
Proof.
  intros Hv Hk. destruct (enc_bounds b v Hv) as (H1 & H2 & _). rewrite !Z.ltb_antisym.
  by destruct Hk as [->| ->]; rewrite ?H1, ?H2.
Qed.

Lemma enc_zero b v : 0 <= v <= modulus b -> (enc b v =? 0) = (v =? 0).
Proof.
  intros Hv. destruct (enc_bounds b v Hv) as (H1 & _ & H0 & _). apply Z.leb_le in H0.
  assert ((enc b v <? 1) = (v <? 1)) as H by (rewrite !Z.ltb_antisym; by rewrite H1). clear H1. decide_z.
Qed.

Lemma decrease_enc b v c :
  bcd c = b -> count c = enc b v -> 1 <= v <= modulus b -> count (ctr_decrease_count c) = enc b (v - 1).
Proof.
  intros Hb Hc Hv. unfold ctr_decrease_count. fields. rewrite Hb, Hc. destruct b.
  - by apply enc_bounds; [lia|lia|].
  - cbn [PitExact.modulus] in Hv. rewrite !PitExact.enc_binary by lia.
    change 0xffff with (Z.ones 16). rewrite land_mask by lia. apply Z.mod_small. lia.
Qed.

(** ** A programmed counter on the timer *)

(** Both edges of the clock. *)
Definition full_clock (ctr : ctr_t) : ctr_t :=
  (pit_ctr_set_clock_common false (pit_ctr_set_clock_common true ctr).1).1.

Definition running (mode : Z) (b : bool) (N : Z) (c : ctr_t) : Prop :=
  m c = mode /\ bcd c = b /\ gate c = true /\ using_timer c = true /\ latch c = false /\ clock c = false /\
  l c = visible_count (enc b N).

Definition standing (b : bool) (v : Z) (o : bool) (st : Z) (nc : bool) (c : ctr_t) : Prop :=
  count c = enc b v /\ out c = o /\ state c = st /\ newcount c = nc.

Section counter.
Context (mode : Z) (b : bool) (N : Z).
Context (HN : 1 <= N <= modulus b).

Lemma edge_counting clk c :
  using_timer c = true -> latch c = false -> state c <> 1 ->
  pit_ctr_set_clock_common clk c
  = if clock c && negb clk then ctr_tick (c <| clock := clk |>) else quiet (c <| clock := clk |>).
Proof.
  intros Hu Hl Hs%Z.eqb_neq. unfold pit_ctr_set_clock_common.
  change (using_timer (c <| clock := clk |>)) with (using_timer c).
  change (latch (c <| clock := clk |>)) with (latch c).
  change (state (c <| clock := clk |>)) with (state c). by rewrite Hu, Hl, Hs.
Qed.

Lemma full_clock_tick c :
  using_timer c = true -> latch c = false -> state c <> 1 ->
  full_clock c = (ctr_tick (c <| clock := true |> <| clock := false |>)).1.
Proof.
  intros Hu Hl Hs. unfold full_clock. rewrite (edge_counting true c), andb_false_r by done.
  by rewrite edge_counting by done.
Qed.

Lemma decrease_standing v o st nc c :
  running mode b N c -> standing b v o st nc c -> 1 <= v <= modulus b ->
  running mode b N (ctr_decrease_count c) /\ standing b (v - 1) o st nc (ctr_decrease_count c).
Proof.
  intros Hr (Hc & Hs) Hv. split; [exact Hr|]. split; [|exact Hs].
  apply decrease_enc; [apply Hr|done|done].
Qed.

Lemma load_standing v o st nc c :
  running mode b N c -> standing b v o st nc c ->
  running mode b N (ctr_load_count c) /\ standing b N o st (Z.odd N) (ctr_load_count c).
Proof.
  intros Hr (_ & Ho & Hs & _). split; [exact Hr|]. destruct Hr as (_ & Hb & _ & _ & _ & _ & Hl).
  assert ((if ctrue (l c) then l c else 0x10000) = enc b N) as E by (rewrite Hl; by apply PitExact.register_enc).
  unfold ctr_load_count. rewrite E. split_and!; [done..|]. fields.
  destruct (decide (N = modulus b)) as [->|]; [by destruct b|]. apply PitExact.enc_odd. lia.
Qed.
End counter.

Section steps.
Context (mode : Z) (b : bool) (N : Z).
Context (HN : 1 <= N <= modulus b).

Lemma set_out_fst o c : (ctr_set_out o c).1 = c <| out := o |>.
Proof. done. Qed.

Lemma count_to_zero_step o' v o st nc c :
  running mode b N c -> standing b v o st nc c -> 1 <= v <= modulus b ->
  running mode b N (count_to_zero o' c).1 /\
  standing b (v - 1) (if v =? 1 then o' else o) (if v =? 1 then 3 else st) nc (count_to_zero o' c).1.
Proof.
  intros Hr Hs Hv. unfold count_to_zero. pose proof Hs as (Hc & _).
  destruct (enc_bounds b v ltac:(lia)) as (H1 & _). rewrite Hc, H1, (proj2 (Z.leb_le 1 v)) by lia.
  destruct (decrease_standing mode b N v o st nc c Hr Hs Hv) as [Hr' Hs'].
  pose proof Hs' as (Hc' & Hs2). rewrite Hc', enc_ltb by lia.
  assert ((v - 1 <? 1) = (v =? 1)) as -> by decide_z.
  destruct (v =? 1); [|done]. rewrite set_out_fst. split; [exact Hr'|].
  split; [exact Hc'|]. split_and!; [done|done|apply Hs2].
Qed.

(** The digits or the number, [n] less. *)
Lemma decrease_n v o st nc c (n : nat) :
  running mode b N c -> standing b v o st nc c -> Z.of_nat n <= v <= modulus b ->
  let c' := if bcd c then Nat.iter n ctr_decrease_count c else c <| count := count c - Z.of_nat n |> in
  running mode b N c' /\ standing b (v - Z.of_nat n) o st nc c'.
Proof.
  intros Hr Hs Hv. pose proof Hr as (_ & Hb & _). rewrite Hb. destruct b eqn:Eb.
  - clear Hb. revert Hv. induction n as [|n IH]; intros Hv.
    + rewrite Z.sub_0_r. by split.
    + destruct IH as [Hr' Hs']; [lia|].
      destruct (decrease_standing mode true N _ _ _ _ _ Hr' Hs') as [Hr2 Hs2]; [lia|].
      split; [exact Hr2|]. replace (v - Z.of_nat (S n)) with (v - Z.of_nat n - 1) by lia. exact Hs2.
  - split; [exact Hr|]. destruct Hs as (Hc & Hs). split; [|exact Hs]. fields. rewrite Hc.
    cbn in Hv. by rewrite !PitExact.enc_binary by lia.
Qed.

Lemma count_square_step first o' st' v o st nc c :
  running mode b N c -> standing b v o st nc c ->
  let n := Z.of_nat (if nc then first else 2%nat) in
  n <= v <= modulus b ->
  running mode b N (count_square first o' st' c).1 /\
  standing b (if v =? n then N else v - n) (if v =? n then o' else o) (if v =? n then st' else st)
    (if v =? n then Z.odd N else false) (count_square first o' st' c).1.
Proof.
  intros Hr Hs n Hv. unfold count_square. pose proof Hr as (_ & _ & Hg & _). pose proof Hs as (Hc & _ & _ & Hnc).
  destruct (enc_bounds b v ltac:(lia)) as (_ & _ & H0 & _). rewrite Hg, Hc, H0, Hnc. cbn [negb].
  rewrite <- Hc. fold n.
  destruct (decrease_n v o st nc c (if nc then first else 2%nat) Hr Hs Hv) as [Hr' Hs'].
  fold n in Hr', Hs'. revert Hr' Hs'.
  generalize (if bcd c then Nat.iter (if nc then first else 2%nat) ctr_decrease_count c
              else c <| count := count c - n |>). intros c' Hr' Hs'.
  pose proof Hs' as (Hc' & Ho' & Hst' & Hnc'). rewrite Hc', enc_zero by lia.
  assert ((v - n =? 0) = (v =? n)) as -> by decide_z.
  destruct (v =? n).
  - destruct (load_standing mode b N HN (v - n) o' st nc (c' <| out := o' |>)) as [Hr2 Hs2];
      [exact Hr'|done|]. destruct (ctr_set_out o' c') as [c2 es] eqn:E.
    assert (c2 = c' <| out := o' |>) as -> by (rewrite <- set_out_fst, E; done).
    split; [exact Hr2|]. destruct Hs2 as (Hc2 & Ho2 & _ & Hn2). done.
  - rewrite Hnc'. split; [by destruct nc|]. destruct nc; done.
Qed.

(** A clock of a counter that counts. *)
Lemma tick_running c :
  running mode b N c -> 0 <= mode <= 4 -> state c = 0 \/ state c = 2 \/ state c = 3 ->
  exists c1, full_clock c = match mode with
    | 0 => (tick_mode0 c1).1 | 1 => (tick_mode1 c1).1 | 2 => (tick_mode2 c1).1
    | 3 => (tick_mode3 c1).1 | _ => (tick_mode45 c1).1 end /\
    running mode b N c1 /\ (forall v o st nc, standing b v o st nc c -> standing b v o st nc c1) /\
    state c1 = state c /\ out c1 = out c.
Proof.
  intros Hr Hm Hs. pose proof Hr as (Hmode & _ & _ & Hu & Hl & _).
  rewrite full_clock_tick by (done || lia). set (c1 := c <| clock := true |> <| clock := false |>).
  exists c1. split_and!; [|by destruct Hr as (?&?&?&?&?&?&?)|done|done|done].
  assert (m c1 = mode) as Em by exact Hmode. assert (state c1 = state c) as Es by done. clearbody c1.
  unfold ctr_tick. rewrite Em, Es. destruct Hs as [->|[->| ->]];
    (assert (mode = 0 \/ mode = 1 \/ mode = 2 \/ mode = 3 \/ mode = 4) as Hc by lia;
     by destruct Hc as [->|[->|[->|[->| ->]]]]).
Qed.

End steps.

(** ** The waves of the modes *)

Abbreviation count3 := (PitExact.count3 PitExact.PITX_8253).
Abbreviation high3 := PitExact.high3.

Definition fresh3 (N p : Z) : bool := Z.odd N && ((p =? 0) || (p =? N `div` 2 + 1)).

Definition square (b : bool) (N p : Z) (c : ctr_t) : Prop :=
  running 3 b N c /\
  standing b (count3 N p) (high3 N p) (if high3 N p then 2 else 3) (fresh3 N p) c.

Definition rate (b : bool) (N p : Z) (c : ctr_t) : Prop :=
  running 2 b N c /\ exists nc, standing b (N - p) (p <? N - 1) (if p =? N - 1 then 3 else 2) nc c.

(** Modes 0 and 4, where [p] goes on: the output before, at and after the
    terminal count. *)
Definition terminal (b : bool) (N p : Z) (c : ctr_t) : Prop :=
  running 0 b N c /\
  if p <? N then exists nc, standing b (N - p) false 2 nc c else out c = true /\ state c = 3.

Definition strobe (b : bool) (N p : Z) (c : ctr_t) : Prop :=
  running 4 b N c /\
  if p <? N then exists nc, standing b (N - p) true 2 nc c
  else if p =? N then out c = false /\ state c = 3 else out c = true /\ state c = 0.

Ltac same_standing :=
  match goal with |- standing _ ?v ?o ?s ?g _ -> standing _ ?v' ?o' ?s' ?g' _ =>
    replace v' with v; [replace o' with o; [replace s' with s; [replace g' with g; [done|]|]|]|] end.

Section waves.
Context (b : bool) (N : Z).

(** How much the next clock of mode 3 takes off. *)
Definition step3 (p : Z) : Z := if fresh3 N p then (if high3 N p then 1 else 3) else 2.

Lemma square_numbers p :
  2 <= N <= modulus b -> 0 <= p < N ->
  let v := count3 N p in let n := step3 p in let p' := (p + 1) `mod` N in
  n <= v <= N /\ count3 N p' = (if v =? n then N else v - n) /\
  high3 N p' = (if v =? n then negb (high3 N p) else high3 N p) /\
  fresh3 N p' = (if v =? n then Z.odd N else false).
Proof.
  intros HN Hp. cbv zeta. rewrite (PitExact.next_pos b) by done.
  unfold step3, fresh3, PitExact.high3, PitExact.count3. destruct (Z.odd N) eqn:Ho; cbn [andb].
  - assert (exists h, N = 2 * h + 1) as [h Eh] by (apply Z.odd_spec in Ho as [h ?]; by exists h).
    assert (N `div` 2 = h /\ (N + 1) `div` 2 = h + 1) as [-> ->] by (split; Z.div_mod_to_equations; lia).
    clear Ho. subst N. split_and!; decide_z; cbn [orb negb] in *; try done; lia.
  - assert (exists h, N = 2 * h) as [h Eh].
    { rewrite <- Z.negb_even, negb_false_iff in Ho. apply Z.even_spec in Ho as [h ?]. by exists h. }
    assert (N `div` 2 = h /\ (N + 1) `div` 2 = h) as [-> ->] by (split; Z.div_mod_to_equations; lia).
    clear Ho. subst N. split_and!; decide_z; cbn [orb negb] in *; try done; lia.
Qed.

Lemma square_step p c :
  2 <= N <= modulus b -> 0 <= p < N -> square b N p c -> square b N ((p + 1) `mod` N) (full_clock c).
Proof.
  intros HN Hp [Hr Hs]. pose proof Hs as (_ & _ & Hst & _).
  destruct (square_numbers p HN Hp) as (Hn & Ev & Eh & Ef).
  destruct (tick_running 3 b N c Hr ltac:(lia)) as (c1 & -> & Hr1 & Hs1 & _).
  { rewrite Hst. destruct (high3 N p); lia. }
  specialize (Hs1 _ _ _ _ Hs). pose proof Hs1 as (_ & _ & Hst1 & _).
  unfold square. rewrite Ev, Eh, Ef. unfold tick_mode3. rewrite Hst1. destruct (high3 N p) eqn:E3; cbn [negb].
  - change (u8 2) with 2. cbn iota.
    assert (Z.of_nat (if fresh3 N p then 1%nat else 2%nat) = step3 p) as En
      by (unfold step3; rewrite E3; by destruct (fresh3 N p)).
    destruct (count_square_step 3 b N ltac:(lia) 1 false 3 _ _ _ _ c1 Hr1 Hs1) as [Hr2 Hs2]; [rewrite En; lia|].
    split; [exact Hr2|]. rewrite En in Hs2. destruct (count3 N p =? step3 p); exact Hs2.
  - change (u8 3) with 3. cbn iota.
    assert (Z.of_nat (if fresh3 N p then 3%nat else 2%nat) = step3 p) as En
      by (unfold step3; rewrite E3; by destruct (fresh3 N p)).
    destruct (count_square_step 3 b N ltac:(lia) 3 true 2 _ _ _ _ c1 Hr1 Hs1) as [Hr2 Hs2]; [rewrite En; lia|].
    split; [exact Hr2|]. rewrite En in Hs2. destruct (count3 N p =? step3 p); exact Hs2.
Qed.

Lemma rate_step p c :
  2 <= N <= modulus b -> 0 <= p < N -> rate b N p c -> rate b N ((p + 1) `mod` N) (full_clock c).
Proof.
  intros HN Hp [Hr [nc Hs]]. pose proof Hs as (_ & Ho & Hst & _). rewrite (PitExact.next_pos b) by done.
  destruct (tick_running 2 b N c Hr ltac:(lia)) as (c1 & -> & Hr1 & Hs1 & _).
  { rewrite Hst. destruct (p =? N - 1); lia. }
  specialize (Hs1 _ _ _ _ Hs). pose proof Hs1 as (Hc1 & _ & Hst1 & _). unfold rate, tick_mode2. rewrite Hst1.
  destruct (Z.eqb_spec p (N - 1)) as [->|Hne].
  - change (u8 3) with 3. cbn iota. rewrite set_out_fst.
    destruct (load_standing 2 b N ltac:(lia) _ _ _ _ c1 Hr1 Hs1) as [Hr2 (Hc2 & _ & _ & Hn2)].
    split; [exact Hr2|]. exists (Z.odd N). clear -HN Hc2 Hn2. rewrite Z.sub_0_r.
    split_and!; [done|change (true = (0 <? N - 1))|change (2 = if 0 =? N - 1 then 3 else 2)|done]; decide_z.
  - change (u8 2) with 2. cbn iota. pose proof Hr1 as (_ & _ & Hg & _).
    destruct (enc_bounds b (N - p) ltac:(lia)) as (_ & H2 & _).
    rewrite Hg, Hc1, H2, (proj2 (Z.leb_le 2 (N - p))) by lia. cbn [negb].
    destruct (decrease_standing 2 b N _ _ _ _ _ Hr1 Hs1) as [Hr2 Hs2]; [lia|].
    pose proof Hs2 as (Hc2 & _ & _ & Hn2). rewrite Hc2, enc_ltb by lia.
    destruct (Z.ltb_spec (N - p - 1) 2); (split; [exact Hr2|]); exists nc.
    + clear -HN Hp Hne H Hc2 Hn2. rewrite set_out_fst.
      split_and!; [etrans; [exact Hc2|f_equal; lia]|change (false = (p + 1 <? N - 1))
        |change (3 = if p + 1 =? N - 1 then 3 else 2)|done]; decide_z.
    + revert Hs2. clear -HN Hp Hne H. same_standing; decide_z.
Qed.

Lemma terminal_step p c :
  1 <= N <= modulus b -> 0 <= p -> terminal b N p c -> terminal b N (p + 1) (full_clock c).
Proof.
  intros HN Hp [Hr Hs]. unfold terminal. destruct (Z.ltb_spec p N) as [Hlt|Hge].
  - destruct Hs as [nc Hs]. pose proof Hs as (_ & _ & Hst & _).
    destruct (tick_running 0 b N c Hr ltac:(lia)) as (c1 & -> & Hr1 & Hs1 & _); [lia|].
    specialize (Hs1 _ _ _ _ Hs). pose proof Hs1 as (_ & _ & Hst1 & _). unfold tick_mode0. rewrite Hst1.
    change (u8 2) with 2. cbn iota. pose proof Hr1 as (_ & _ & -> & _).
    destruct (count_to_zero_step 0 b N true _ _ _ _ c1 Hr1 Hs1) as [Hr2 Hs2]; [lia|].
    split; [exact Hr2|]. destruct (Z.eqb_spec (N - p) 1).
    + rewrite (proj2 (Z.ltb_ge (p + 1) N)) by lia. by destruct Hs2 as (_ & ? & ? & _).
    + rewrite (proj2 (Z.ltb_lt (p + 1) N)) by lia. exists nc. by replace (N - (p + 1)) with (N - p - 1) by lia.
  - destruct Hs as [Ho Hst]. rewrite (proj2 (Z.ltb_ge (p + 1) N)) by lia.
    destruct (tick_running 0 b N c Hr ltac:(lia)) as (c1 & -> & Hr1 & _ & Hst1 & Ho1); [lia|].
    unfold tick_mode0. rewrite Hst1, Hst. change (u8 3) with 3. cbn iota.
    split; [exact Hr1|]. by rewrite <- Ho1, <- Hst1 in *.
Qed.

Lemma strobe_step p c :
  1 <= N <= modulus b -> 0 <= p -> strobe b N p c -> strobe b N (p + 1) (full_clock c).
Proof.
  intros HN Hp [Hr Hs]. unfold strobe. destruct (Z.ltb_spec p N) as [Hlt|Hge].
  - destruct Hs as [nc Hs]. pose proof Hs as (_ & _ & Hst & _).
    destruct (tick_running 4 b N c Hr ltac:(lia)) as (c1 & -> & Hr1 & Hs1 & _); [lia|].
    specialize (Hs1 _ _ _ _ Hs). pose proof Hs1 as (_ & _ & Hst1 & _). unfold tick_mode45. rewrite Hst1.
    change (u8 2) with 2. cbn iota. pose proof Hr1 as (_ & _ & -> & _). cbn [orb].
    destruct (count_to_zero_step 4 b N false _ _ _ _ c1 Hr1 Hs1) as [Hr2 Hs2]; [lia|].
    split; [exact Hr2|]. destruct (Z.eqb_spec (N - p) 1).
    + rewrite (proj2 (Z.ltb_ge (p + 1) N)), (proj2 (Z.eqb_eq (p + 1) N)) by lia. by destruct Hs2 as (_ & ? & ? & _).
    + rewrite (proj2 (Z.ltb_lt (p + 1) N)) by lia. exists nc. by replace (N - (p + 1)) with (N - p - 1) by lia.
  - rewrite (proj2 (Z.ltb_ge (p + 1) N)), (proj2 (Z.eqb_neq (p + 1) N)) by lia.
    destruct (tick_running 4 b N c Hr ltac:(lia)) as (c1 & -> & Hr1 & _ & Hst1 & Ho1);
      [destruct (p =? N); lia|]. pose proof Hr1 as (_ & _ & Hg & _).
    unfold tick_mode45. rewrite Hg, Hst1. cbn [orb]. destruct (p =? N); destruct Hs as [Ho Hst]; rewrite Hst.
    + change (u8 3) with 3. cbn iota. done.
    + change (u8 0) with 0. cbn iota. split; [exact Hr1|]. cbn [quiet fst].
      change (out (ctr_decrease_count c1)) with (out c1). change (state (ctr_decrease_count c1)) with (state c1).
      by rewrite Ho1, Hst1.
Qed.

End waves.

(** ** Programming a counter *)

Definition programmed (c : ctr_t) (ctl lsb msb : Z) : ctr_t :=
  (ctr_write msb (ctr_write lsb (ctr_control ctl c).1).1).1.

Section program.
Context (mode : Z) (b : bool) (N ctl lsb msb : Z) (c : ctr_t).
Context (Hctl : PitExact.control_for mode b ctl = true) (Hb : PitExact.count_bytes b N lsb msb).
Context (HN : 1 <= N <= modulus b) (Hmode : mode ∈ [0; 2; 3; 4]).
Context (Hg : gate c = true) (Hu : using_timer c = true) (Hc : clock c = false).

Let N' : Z := PitExact.effective mode b N.

(** A counter between the writes and the load. *)
Definition written (lt : bool) (st : Z) (c : ctr_t) : Prop :=
  m c = mode /\ bcd c = b /\ gate c = true /\ using_timer c = true /\ latch c = lt /\ clock c = false /\
  l c = visible_count (enc b N') /\ state c = st /\ out c = negb (mode =? 0).

Lemma control_written :
  let c1 := (ctr_control ctl c).1 in
  m c1 = mode /\ bcd c1 = b /\ gate c1 = true /\ using_timer c1 = true /\ clock c1 = false /\
  state c1 = 0 /\ out c1 = negb (mode =? 0) /\ wm c1 = 3.
Proof.
  unfold PitExact.control_for in Hctl. rewrite !andb_true_iff, !Z.eqb_eq, eqb_true_iff in Hctl.
  destruct Hctl as [[Hrw Hm] Hbcd]. unfold ctr_control.
  destruct (Z.eqb_spec (ctl .& 0x30) 0) as [E|_].
  { apply (f_equal (fun z => Z.testbit z 4)) in E. apply (f_equal (fun z => Z.testbit z 0)) in Hrw.
    rewrite Z.land_spec, Z.shiftr_spec in Hrw by lia. rewrite Z.land_spec in E.
    change (Z.testbit 0x30 4) with true in E. change (Z.testbit 3 0) with true in Hrw.
    rewrite andb_true_r in E, Hrw. change (0 + 4) with 4 in Hrw. by rewrite Hrw in E. }
  assert ((if 5 <? (ctl >>> 1) .& 7 then (ctl >>> 1) .& 7 .& 3 else (ctl >>> 1) .& 7) = mode) as ->.
  { rewrite <- Hm. unfold PitExact.canonical_mode. 
    assert (forall x, (x .& 7) .& 7 = x .& 7) as -> by (intros x; by rewrite <- Z.land_assoc). done. }
  rewrite Hrw, Hbcd. set (c2 := c <| ctrl := ctl |> <| rm := 3 |> <| wm := 3 |> <| m := mode |>
                   <| null_count := true |> <| bcd := b |>).
  cbn [ctr_set_out fst]. destruct (ctrue (latched _)); done.
Qed.

Lemma programmed_written : written true 0 (programmed c ctl lsb msb).
Proof.
  destruct control_written as (Em & Eb & Eg & Eu & Ec & Es & Eo & Ew). unfold programmed.
  set (c1 := (ctr_control ctl c).1) in *. clearbody c1. destruct Hb as (Hl & Hh & Hr).
  set (v := (l c1 .& 0xff00) .| lsb).
  assert (exists c2, (ctr_write lsb c1).1 = c2 /\ m c2 = mode /\ bcd c2 = b /\ gate c2 = true /\ using_timer c2 = true /\
    clock c2 = false /\ state c2 = 0 /\ out c2 = negb (mode =? 0) /\ wm c2 = 0x83 /\ l c2 = v)
    as (c2 & -> & Em2 & Eb2 & Eg2 & Eu2 & Ec2 & Es2 & Eo2 & Ew2 & El2).
  { eexists. split; [done|]. unfold ctr_write. rewrite Ew. change (ctrue (3 .& 0x80)) with false. cbn iota.
    fold v. change (m (set_l v c1)) with (m c1). rewrite Em.
    destruct (mode =? 0) eqn:E0; cbn [ctr_set_out and_then quiet fst];
      (split_and!; [done|done|done|done|done|done|by rewrite ?Eo|by fields; rewrite Ew|done]). }
  unfold ctr_write. rewrite Ew2. change (ctrue (0x83 .& 0x80)) with true. cbn iota. rewrite El2.
  unfold v. rewrite low_byte, lor_shiftl_add by (done || lia). rewrite (Z.mul_comm msb). change (2 ^ 8) with 256.
  rewrite <- Hr. set (c3 := set_l _ c2).
  assert (exists c4, (ctr_load c3).1 = c4 /\ written true 0 c4 /\ wm c4 = 0x83) as (c4 & E4 & Hw & Ew4).
  { eexists. split; [done|]. unfold ctr_load. cbn [fst]. change (l c3) with (visible_count (enc b N)).
    assert ((visible_count (enc b N) =? 1) = (N =? 1)) as -> by (apply PitExact.visible_one; lia).
    change (m c3) with (m c2). rewrite Em2.
    assert (forall c', using_timer c' = true -> (if using_timer c' then c' <| latch := true |> else ctr_set_state_1 c')
      = c' <| latch := true |>) as E by (intros c' ->; done).
    unfold written, N', PitExact.effective.
    destruct (N =? 1); cbn [andb]; [destruct (mode =? 2); [|destruct (mode =? 3)]|]; rewrite E by exact Eu2; clear E;
      split_and!; try done; by destruct b. }
  destruct (ctr_load c3) as [c4' es]. cbn in E4. subst c4'. cbn [and_then fst quiet].
  unfold written in *. fields. done.
Qed.

(** The first clock accepts the count, the second loads it. *)
Lemma first_clock c0 : written true 0 c0 -> written false 1 (full_clock c0).
Proof.
  intros (Em & Eb & Eg & Eu & El & Ec & Ell & Es & Eo). unfold full_clock.
  assert ((pit_ctr_set_clock_common true c0).1 = c0 <| clock := true |>) as ->.
  { unfold pit_ctr_set_clock_common. change (using_timer (c0 <| clock := true |>)) with (using_timer c0).
    change (latch (c0 <| clock := true |>)) with (latch c0). by rewrite Eu, El, Ec. }
  set (c1 := c0 <| clock := true |>). unfold pit_ctr_set_clock_common.
  change (using_timer (c1 <| clock := false |>)) with (using_timer c0).
  change (latch (c1 <| clock := false |>)) with (latch c0). rewrite Eu, El. cbn [andb].
  change (clock c1 && negb false) with true. cbn iota. unfold ctr_set_state_1.
  set (c2 := c1 <| clock := false |>). change (m c2) with (m c0). change (state c2) with (state c0). rewrite Em, Es.
  change (0 =? 0) with true. rewrite orb_true_r.
  assert (1 + (cbool (mode .& 3 =? 1) <<< 2) = 1) as ->.
  { rewrite !elem_of_cons in Hmode. by destruct Hmode as [->|[->|[->|[->|[]%elem_of_nil]]]]. }
  done.
Qed.

Lemma second_clock c0 :
  written false 1 c0 ->
  running mode b N' (full_clock c0) /\ standing b N' (negb (mode =? 0)) 2 (Z.odd N') (full_clock c0).
Proof.
  intros (Em & Eb & Eg & Eu & El & Ec & Ell & Es & Eo). unfold full_clock.
  assert ((pit_ctr_set_clock_common true c0).1 = c0 <| clock := true |> <| s1_det := 1 |>) as ->.
  { unfold pit_ctr_set_clock_common. change (using_timer (c0 <| clock := true |>)) with (using_timer c0).
    change (latch (c0 <| clock := true |>)) with (latch c0).
    change (state (c0 <| clock := true |>)) with (state c0). by rewrite Eu, El, Ec, Es. }
  set (c1 := c0 <| clock := true |> <| s1_det := 1 |>). unfold pit_ctr_set_clock_common.
  change (using_timer (c1 <| clock := false |>)) with (using_timer c0).
  change (latch (c1 <| clock := false |>)) with (latch c0).
  change (state (c1 <| clock := false |>)) with (state c0). rewrite Eu, El, Es. cbn [andb negb].
  change (clock c1) with true. cbn [andb negb].
  match goal with |- context [2 <=? ?a] => change (2 <=? a) with true end. cbn iota.
  set (c2 := _ <| s1_det := 0 |>). unfold ctr_tick. change (state c2) with (state c0). rewrite Es.
  change (u8 1 .& 3 =? 1) with true. cbn iota.
  pose proof (PitExact.effective_range mode b N HN) as HN'. fold N' in HN'.
  assert (running mode b N' c2) as Hr2 by done.
  destruct (load_standing mode b N' HN' 0 (negb (mode =? 0)) 1 false (c2 <| count := enc b 0 |> <| newcount := false |>))
    as [Hr (Hv & Ho & Hst & Hn)]; [exact Hr2|done|].
  change (ctr_load_count (c2 <| count := enc b 0 |> <| newcount := false |>)) with (ctr_load_count c2) in *.
  set (c3 := (ctr_load_count c2) <| state := _ |>).
  assert ((m c3 .& 7 =? 1) && (state c3 =? 2) = false) as ->.
  { change (m c3) with (m c0). rewrite Em. rewrite !elem_of_cons in Hmode.
    by destruct Hmode as [->|[->|[->|[->|[]%elem_of_nil]]]]. }
  split; [exact Hr|]. split_and!; [exact Hv|exact Ho|by cbn; rewrite Es|exact Hn].
Qed.

Lemma counter_loads :
  running mode b N' (full_clock (full_clock (programmed c ctl lsb msb))) /\
  standing b N' (negb (mode =? 0)) 2 (Z.odd N') (full_clock (full_clock (programmed c ctl lsb msb))).
Proof. apply second_clock, first_clock, programmed_written. Qed.

End program.

(** A description that every clock carries on holds from the load on. *)
Lemma clocks_wave (W : Z -> ctr_t -> Prop) (n : nat) c0 :
  (forall p c, 0 <= p -> W p c -> W (p + 1) (full_clock c)) -> W 0 c0 -> W (Z.of_nat n) (Nat.iter n full_clock c0).
Proof.
  intros Hs H0. induction n as [|n IH]; [done|]. replace (Z.of_nat (S n)) with (Z.of_nat n + 1) by lia.
  apply Hs; [lia|exact IH].
Qed.

(** The output [n] clocks after the load. *)
Definition output_at (mode : Z) (b : bool) (N n : Z) : bool :=
  let N' := PitExact.effective mode b N in
  match mode with
  | 0 => N' <=? n
  | 2 => n `mod` N' <? N' - 1
  | 3 => n `mod` N' <? (N' + 1) `div` 2
  | _ => negb (n =? N')
  end.

Lemma counter_output mode b N ctl lsb msb c (n : nat) :
  PitExact.control_for mode b ctl = true -> PitExact.count_bytes b N lsb msb -> 1 <= N <= modulus b ->
  mode ∈ [0; 2; 3; 4] -> gate c = true -> using_timer c = true -> clock c = false ->
  out (Nat.iter n full_clock (full_clock (full_clock (programmed c ctl lsb msb)))) = output_at mode b N (Z.of_nat n).
Proof.
  intros Hctl Hb HN Hmode Hg Hu Hc. set (N' := PitExact.effective mode b N).
  destruct (counter_loads mode b N ctl lsb msb c Hctl Hb HN Hmode Hg Hu Hc) as [Hr Hs]. fold N' in Hr, Hs.
  pose proof (PitExact.effective_range mode b N HN) as HN'. fold N' in HN'.
  set (c0 := full_clock (full_clock _)) in *. clearbody c0. unfold output_at. fold N'.
  assert (mode = 2 \/ mode = 3 -> 2 <= N' <= modulus b) as H2.
  { intros Hm. by apply PitExact.effective_two. } clearbody N'.
  rewrite !elem_of_cons in Hmode. destruct Hmode as [->|[->|[->|[->|[]%elem_of_nil]]]].
  - assert (terminal b N' (Z.of_nat n) (Nat.iter n full_clock c0)) as [_ Hw].
    { apply (clocks_wave (terminal b N')); [intros; by apply terminal_step|]. split; [done|].
      rewrite (proj2 (Z.ltb_lt 0 N')) by lia. exists (Z.odd N'). by rewrite Z.sub_0_r. }
    rewrite Z.leb_antisym. destruct (Z.of_nat n <? N'); [by destruct Hw as (nc & _ & -> & _)|by destruct Hw].
  - specialize (H2 ltac:(lia)).
    assert (rate b N' (Z.of_nat n `mod` N') (Nat.iter n full_clock c0)) as (_ & nc & _ & -> & _); [|done].
    apply (clocks_wave (fun p => rate b N' (p `mod` N'))).
    + intros p c2 Hp Hw. rewrite <- Zplus_mod_idemp_l. apply rate_step; [done| |done]. apply Z.mod_pos_bound. lia.
    + rewrite Z.mod_0_l by lia. split; [done|]. exists (Z.odd N').
      rewrite Z.sub_0_r, (proj2 (Z.ltb_lt 0 (N' - 1))), (proj2 (Z.eqb_neq 0 (N' - 1))) by lia. done.
  - specialize (H2 ltac:(lia)).
    assert (square b N' (Z.of_nat n `mod` N') (Nat.iter n full_clock c0)) as (_ & _ & -> & _); [|done].
    apply (clocks_wave (fun p => square b N' (p `mod` N'))).
    + intros p c2 Hp Hw. rewrite <- Zplus_mod_idemp_l. apply square_step; [done| |done]. apply Z.mod_pos_bound. lia.
    + rewrite Z.mod_0_l by lia. split; [done|].
      assert (high3 N' 0 = true) as -> by (apply Z.ltb_lt; Z.div_mod_to_equations; lia).
      assert (count3 N' 0 = N') as ->.
      { unfold PitExact.count3. assert (0 < N' `div` 2) by (Z.div_mod_to_equations; lia).
        generalize dependent (N' `div` 2). intros h Hh. destruct (Z.odd N'); decide_z. }
      unfold fresh3. rewrite Z.eqb_refl, orb_true_l, andb_true_r. done.
  - assert (strobe b N' (Z.of_nat n) (Nat.iter n full_clock c0)) as [_ Hw].
    { apply (clocks_wave (strobe b N')); [intros; by apply strobe_step|]. split; [done|].
      rewrite (proj2 (Z.ltb_lt 0 N')) by lia. exists (Z.odd N'). by rewrite Z.sub_0_r. }
    destruct (Z.ltb_spec (Z.of_nat n) N'), (Z.eqb_spec (Z.of_nat n) N'); try lia;
      [by destruct Hw as (nc & _ & -> & _)|by destruct Hw..].
Qed.

(** The same counters as the core of [PitExact], up to a second strobe. *)
Lemma exact_output mode b N ctl lsb msb (x : PitExact.pitx_channel_t) (n : nat) :
  PitExact.control_for mode b ctl = true -> PitExact.count_bytes b N lsb msb -> 1 <= N <= modulus b ->
  mode ∈ [0; 2; 3; 4] -> PitExact.gate x = true -> (mode = 4 -> Z.of_nat n <= N + modulus b) ->
  exists x', PitExact.ticks (S n) (PitExact.programmed x ctl lsb msb) = Some x' /\
    PitExact.output x' = output_at mode b N (Z.of_nat n).
Proof.
  intros Hctl Hb HN Hmode Hg H4. unfold output_at. set (N' := PitExact.effective mode b N).
  rewrite !elem_of_cons in Hmode. destruct Hmode as [->|[->|[->|[->|[]%elem_of_nil]]]].
  - destruct (PitExact.mode0_run x ctl b N lsb msb Hb HN Hg n Hctl) as (x' & Ex & _ & _ & Ho & _).
    exists x'. split; [done|]. rewrite Ho. unfold N'. by rewrite PitExact.effective_id.
  - destruct (PitExact.mode2_run x ctl b N lsb msb Hb HN Hg n Hctl) as (x' & Ex & _ & _ & Ho & _).
    by exists x'.
  - destruct (PitExact.mode3_run x ctl b N lsb msb Hb HN Hg n Hctl) as (x' & Ex & _ & _ & Ho & _).
    by exists x'.
  - destruct (PitExact.mode4_run x ctl b N lsb msb Hb HN Hg n Hctl) as (x' & Ex & _ & _ & Ho & _).
    exists x'. split; [done|]. rewrite Ho. unfold N'. rewrite PitExact.effective_id by done. f_equal.
    unfold PitExact.strobe4. pose proof (PitExact.modulus_pos b). specialize (H4 eq_refl).
    destruct (Z.leb_spec N (Z.of_nat n)); [|cbn; symmetry; apply Z.eqb_neq; lia].
    rewrite Z.mod_small by lia. cbn [andb]. decide_z.
Qed.

(** ** The device *)

Lemma on_counter_eq i f dev c :
  0 <= i -> counters dev !! Z.to_nat i = Some c ->
  on_counter i f dev = Some (dev <| counters := <[Z.to_nat i := (f c).1]> (counters dev) |>, (f c).2).
Proof.
  intros Hi Hc. unfold on_counter. rewrite (proj2 (arr_get_Some _ _ _) (conj Hi Hc)). cbn [mbind option_bind].
  destruct (f c) as [c' es]. rewrite arr_set_Some; [done|]. apply lookup_lt_Some in Hc. lia.
Qed.

Lemma three_counters (cs : list ctr_t) :
  length cs = 3%nat -> exists c0 c1 c2, cs = [c0; c1; c2].
Proof. destruct cs as [|c0 [|c1 [|c2 [|]]]]; try done. eauto. Qed.

Lemma on_all f dev :
  length (counters dev) = 3%nat ->
  exists es, on_counters [0; 1; 2] f dev
  = Some (dev <| counters := map (fun c => (f c).1) (counters dev) |>, es).
Proof.
  intros (c0 & c1 & c2 & E)%three_counters. eexists. cbn [on_counters].
  rewrite (on_counter_eq 0 f dev c0) by (done || by rewrite E). cbn [mbind option_bind].
  rewrite (on_counter_eq 1 f _ c1) by (done || by fields; rewrite E). cbn [mbind option_bind].
  rewrite (on_counter_eq 2 f _ c2) by (done || by fields; rewrite E). cbn [mbind option_bind].
  fields. by rewrite E.
Qed.

Section overs.
Context {D : Type}.
Implicit Types q : Timer.world D.

(** [n] expiries of the timer, with the calls made. *)
Fixpoint overs (n : nat) (dev : pit_t) q : option (pit_t * list pit_call * Timer.world D) :=
  match n with
  | O => Some (dev, [], q)
  | S n =>
      '(dev, es, q) ← pit_timer_over dev q;
      '(dev, es', q) ← overs n dev q;
      Some (dev, es ++ es', q)
  end.

(** What they do to the timer. *)
Fixpoint advances (n : nat) (dev : pit_t) q : option (Timer.world D) :=
  match n with
  | O => Some q
  | S n => q ← timer_advance_u64 (Some (callback_timer dev)) (pit_const dev >>> 1) q; advances n dev q
  end.

Lemma advances_ext n dev dev' q :
  callback_timer dev = callback_timer dev' -> pit_const dev = pit_const dev' -> advances n dev q = advances n dev' q.
Proof.
  intros Ht Hk. revert q. induction n as [|n IH]; intros q; [done|]. cbn [advances]. rewrite Ht, Hk.
  destruct (timer_advance_u64 _ _ q) as [r|]; [|done]. apply IH.
Qed.

Lemma over_eq dev q q' :
  length (counters dev) = 3%nat ->
  timer_advance_u64 (Some (callback_timer dev)) (pit_const dev >>> 1) q = Some q' ->
  exists es, pit_timer_over dev q
  = Some (dev <| pit_clock := negb (pit_clock dev) |>
              <| counters := map (fun c => (pit_ctr_set_clock_common (negb (pit_clock dev)) c).1) (counters dev) |>,
          es, q').
Proof.
  intros Hl Hq. unfold pit_timer_over. set (d1 := dev <| pit_clock := negb (pit_clock dev) |>).
  destruct (on_all (pit_ctr_set_clock_common (pit_clock d1)) d1 Hl) as [es ->]. cbn [mbind option_bind].
  change (callback_timer (d1 <| counters := _ |>)) with (callback_timer dev).
  change (pit_const (d1 <| counters := _ |>)) with (pit_const dev). rewrite Hq. cbn [mbind option_bind].
  by exists es.
Qed.

(** Two expiries are a clock of every counter. *)
Lemma overs_clock n dev q q' :
  length (counters dev) = 3%nat -> pit_clock dev = false -> advances (2 * n) dev q = Some q' ->
  exists dev' es, overs (2 * n) dev q = Some (dev', es, q') /\
    counters dev' = map (Nat.iter n full_clock) (counters dev).
Proof.
  revert dev q. induction n as [|n IH]; intros dev q Hl Hc Hq.
  - injection Hq as <-. exists dev, []. split; [done|]. by rewrite map_id.
  - replace (2 * S n)%nat with (S (S (2 * n))) in * by lia. cbn [advances overs] in *.
    apply bind_Some in Hq as (q1 & Hq1 & Hq). apply bind_Some in Hq as (q2 & Hq2 & Hq).
    destruct (over_eq dev q q1 Hl Hq1) as [es1 ->]. cbn [mbind option_bind]. rewrite Hc. cbn [negb].
    set (d1 := dev <| pit_clock := true |> <| counters := _ |>).
    destruct (over_eq d1 q1 q2) as [es2 ->]; [by unfold d1; fields; rewrite length_map|done|].
    cbn [mbind option_bind]. change (negb (pit_clock d1)) with false.
    set (d2 := d1 <| pit_clock := false |> <| counters := _ |>).
    assert (counters d2 = map full_clock (counters dev)) as E2 by (unfold d2, d1; fields; by rewrite map_map).
    assert (advances (2 * n) d2 q2 = Some q') as Hq' by (rewrite <- Hq; by apply advances_ext).
    destruct (IH d2 q2) as (dev' & es & -> & E); [by rewrite E2, length_map|done|done|]. cbn [mbind option_bind].
    do 2 eexists. split; [done|]. rewrite E, E2, map_map. apply map_ext. intros c. by rewrite <- Nat.iter_succ_r.
Qed.

End overs.

(** Writes to the ports, with the calls made. *)
Fixpoint pit_writes (ws : list (Z * Z)) (dev : pit_t) : option (pit_t * list pit_call) :=
  match ws with
  | [] => Some (dev, [])
  | (addr, val) :: ws =>
      '(dev, es) ← pit_write addr val dev;
      '(dev, es') ← pit_writes ws dev;
      Some (dev, es ++ es')
  end.

Lemma writes_program i ctl lsb msb dev c :
  0 <= i < 3 -> ctl >>> 6 = i -> counters dev !! Z.to_nat i = Some c ->
  exists dev' es, pit_writes [(0x43, ctl); (0x40 + i, lsb); (0x40 + i, msb)] dev = Some (dev', es) /\
    counters dev' = <[Z.to_nat i := programmed c ctl lsb msb]> (counters dev) /\
    pit_clock dev' = pit_clock dev /\ pit_const dev' = pit_const dev /\ callback_timer dev' = callback_timer dev.
Proof.
  intros Hi Hctl Hc. cbn [pit_writes]. unfold pit_write. change (0x43 .& 3) with 3. change (3 =? 3) with true. cbn iota.
  rewrite Hctl, (proj2 (Z.eqb_neq i 3)) by lia.
  assert ((0x40 + i) .& 3 = i) as ->.
  { assert (i = 0 \/ i = 1 \/ i = 2) as Hi3 by lia. by destruct Hi3 as [->|[->| ->]]. }
  rewrite (proj2 (Z.eqb_neq i 3)) by lia.
  pose proof (lookup_lt_Some _ _ _ Hc) as Hlt.
  rewrite (on_counter_eq i _ _ c) by (lia || done). cbn [mbind option_bind].
  rewrite (on_counter_eq i _ _ (ctr_control ctl c).1) by (lia || by fields; rewrite list_lookup_insert_eq).
  cbn [mbind option_bind].
  rewrite (on_counter_eq i _ _ (ctr_write lsb (ctr_control ctl c).1).1)
    by (lia || by fields; rewrite list_lookup_insert_eq by (by rewrite length_insert)).
  cbn [mbind option_bind].
  do 2 eexists. split; [done|]. fields. split_and!; [|done..]. unfold programmed. by rewrite !list_insert_insert_eq.
Qed.

(** C27: The two implementations of the timer agree: when counter [i] of a
    device of the default branch of pit.c, with a high gate, is programmed
    over ports 0x43 and 0x40+i, then after [n] + 2 periods of the device's
    timer (two expiries each) its output is that of the counter core of the
    other branch after the same writes and [n] + 1 clocks, whatever the count,
    in binary and BCD, in modes 0, 2 and 3; in mode 4 they agree until the
    core strobes for the second time. *)
Theorem pits_agree {D} i mode b N ctl lsb msb dev c (x : PitExact.pitx_channel_t) (n : nat) (q q' : Timer.world D) :
  0 <= i < 3 -> ctl >>> 6 = i -> length (counters dev) = 3%nat -> counters dev !! Z.to_nat i = Some c ->
  PitExact.control_for mode b ctl = true -> PitExact.count_bytes b N lsb msb -> 1 <= N <= modulus b ->
  mode ∈ [0; 2; 3; 4] -> gate c = true -> using_timer c = true -> clock c = false -> pit_clock dev = false ->
  PitExact.gate x = true -> (mode = 4 -> Z.of_nat n <= N + modulus b) ->
  advances (2 * (n + 2)) dev q = Some q' ->
  exists dev1 es1 dev2 es2 c2 x',
    pit_writes [(0x43, ctl); (0x40 + i, lsb); (0x40 + i, msb)] dev = Some (dev1, es1) /\
    overs (2 * (n + 2)) dev1 q = Some (dev2, es2, q') /\ counters dev2 !! Z.to_nat i = Some c2 /\
    PitExact.ticks (n + 1) (PitExact.programmed x ctl lsb msb) = Some x' /\ out c2 = PitExact.output x'.
Proof.
  intros Hi Hsel Hl Hci Hctl Hb HN Hmode Hg Hu Hc Hpc Hgx H4 Hq.
  destruct (writes_program i ctl lsb msb dev c Hi Hsel Hci) as (dev1 & es1 & E1 & Hc1 & Hpc1 & Hk1 & Ht1).
  destruct (overs_clock (n + 2) dev1 q q') as (dev2 & es2 & E2 & Hc2);
    [by rewrite Hc1, length_insert|by rewrite Hpc1|by rewrite <- Hq; apply advances_ext|].
  destruct (exact_output mode b N ctl lsb msb x n Hctl Hb HN Hmode Hgx H4) as (x' & Ex & Eo).
  exists dev1, es1, dev2, es2. do 2 eexists. split_and!; [exact E1|exact E2| |by rewrite Nat.add_1_r|].
  - rewrite Hc2, list_lookup_fmap, Hc1, list_lookup_insert_eq by (by apply lookup_lt_Some in Hci). done.
  - rewrite Eo, Nat.iter_add. cbn [Nat.iter nat_rect]. by apply counter_output.
Qed.

(** ** The read flip-flop *)

(** What a read depends on besides the count. *)
Definition read_state (c : ctr_t) : Z * Z * bool := (rm c, latched c, do_read_status c).

Lemma decrease_reads c n : read_state (Nat.iter n ctr_decrease_count c) = read_state c.
Proof. induction n as [|n IH]; [done|]. by rewrite <- IH. Qed.

Lemma count_to_zero_reads o c : read_state (count_to_zero o c).1 = read_state c.
Proof. unfold count_to_zero. repeat case_match; done. Qed.

Lemma count_square_reads first o st c : read_state (count_square first o st c).1 = read_state c.
Proof.
  unfold count_square. case_match; [done|]. case_match; [|done].
  set (c1 := if bcd c then _ else _). assert (read_state c1 = read_state c) as <-.
  { unfold c1. destruct (bcd c); [apply decrease_reads|done]. }
  destruct (count c1 =? 0); [done|by destruct (newcount c1)].
Qed.

Lemma tick_reads c : read_state (ctr_tick c).1 = read_state c.
Proof.
  unfold ctr_tick. case_match; [by case_match|].
  assert (read_state (tick_mode0 c).1 = read_state c /\ read_state (tick_mode1 c).1 = read_state c /\
    read_state (tick_mode2 c).1 = read_state c /\ read_state (tick_mode3 c).1 = read_state c /\
    read_state (tick_mode45 c).1 = read_state c) as (?&?&?&?&?).
  { unfold tick_mode0, tick_mode1, tick_mode2, tick_mode3, tick_mode45. split_and!;
      repeat case_match; try apply count_to_zero_reads; try apply count_square_reads; done. }
  repeat case_match; done.
Qed.

(** Reading a count latched in the mode that transfers the low byte only
    leaves the reads' flip-flop set: the latched read returns the low byte of
    the count, but then every live read returns 0xff, however many clocks come
    before it. *)
Theorem lsb_latch_blocks_reads c (n : nat) :
  rm c = 1 -> do_read_status c = false ->
  let '(v, c1) := ctr_read (ctr_latch_count c) in
  let c2 := Nat.iter n (fun c => (ctr_tick c).1) c1 in
  v = (if latch c || (state c =? 1) then l c else count c) .& 0xff /\ ctr_read c2 = (0xff, c2).
Proof.
  intros Hrm Hs. set (k := if latch c || (state c =? 1) then l c else count c).
  set (c0 := ctr_latch_count c).
  assert (read_state c0 = (1, 1, false) /\ rl c0 = u16 (((k <<< 8) .& 0xff00) .| (k .& 0xff))) as [E0 Erl].
  { unfold c0, ctr_latch_count. rewrite Hrm. fold k. change (1 .& 0x03) with 1. cbn iota.
    unfold read_state. fields. by rewrite Hrm, Hs. }
  clearbody c0. injection E0 as E1 E2 E3. unfold ctr_read at 1. rewrite E3, E2, E1.
  change (ctrue (1 .& 0x80)) with false. change (ctrue 1) with true. cbn iota.
  set (c1 := (flip_rm c0) <| latched := 1 - 1 |>). split.
  - rewrite Erl. unfold wrap. rewrite Z.shiftr_0_r. change (2 ^ 16) with (2 ^ 8 * 2 ^ 8).
    apply Z.bits_inj'. intros i Hi. change 0xff with (Z.ones 8). change 0xff00 with (Z.ones 8 <<< 8).
    change (2 ^ 8 * 2 ^ 8) with (2 ^ 16). rewrite Z.land_spec. destruct (decide (i < 8)).
    + rewrite !Z.mod_pow2_bits_low by lia.
      by rewrite Z.lor_spec, !Z.land_spec, !Z.shiftl_spec_low, orb_false_l by lia.
    + by rewrite Z.mod_pow2_bits_high, Z.ones_spec_high, andb_false_r by lia.
  - assert (read_state c1 = (0x81, 0, false)) as H1 by (unfold c1, flip_rm, read_state; fields; by rewrite E1, E3).
    assert (read_state (Nat.iter n (fun c => (ctr_tick c).1) c1) = (0x81, 0, false)) as H2.
    { rewrite <- H1. clear. induction n as [|n IH]; [done|]. etrans; [apply tick_reads|exact IH]. }
    generalize dependent (Nat.iter n (fun c => (ctr_tick c).1) c1). intros c2 H2. injection H2 as F1 F2 F3.
    unfold ctr_read. by rewrite F3, F2, F1.
Qed.

(** The count [load_func] is told in BCD joins the digits bit by bit. *)
Example load_bcd_19 : load_bcd 0x19 = 11.
Proof. done. Qed.

(** ** Witnesses *)

(** A counter of an initialised device, counter 2 of three, on a queue with
    the device's timer. *)
Definition ctr_idle : ctr_t := (ctr_reset ctr_zero) <| gate := true |>.

Definition pit_idle : pit_t := mkPit PIT_8254 false 1 1 7 (replicate NUM_COUNTERS ctr_idle) 0 0x600000000.

Definition queue_idle : Timer.world unit :=
  Timer.mkWorld {[ 7 := Timer.mkTimer 0 0 0 0 Timer.dbl_zero (Some 1) 0 None None ]} None 0 true 0 4000 tt.

Lemma queue_idle_advances : exists q, advances (2 * (6 + 2)) pit_idle queue_idle = Some q.
Proof. eexists. vm_compute. reflexivity. Qed.

Lemma seven_bytes : PitExact.count_bytes true 7 7 0.
Proof. split_and!; by vm_compute. Qed.

Lemma pits_agree_witness :
  exists q' dev1 es1 dev2 es2 c2 x',
    pit_writes [(0x43, 0xb7); (0x40 + 2, 7); (0x40 + 2, 0)] pit_idle = Some (dev1, es1) /\
    overs (2 * (6 + 2)) dev1 queue_idle = Some (dev2, es2, q') /\ counters dev2 !! Z.to_nat 2 = Some c2 /\
    PitExact.ticks (6 + 1) (PitExact.programmed (PitExact.running_gate PitExact.PITX_8253) 0xb7 7 0) = Some x' /\
    out c2 = PitExact.output x'.
Proof.
  assert (0 <= 2 < 3) as H1 by lia. assert (1 <= 7 <= modulus true) as H2 by (cbn; lia).
  assert (3 ∈ [0; 2; 3; 4]) as H3 by set_solver.
  assert (3 = 4 -> Z.of_nat 6 <= 7 + modulus true) as H4 by done.
  destruct queue_idle_advances as [q' Hq]. exists q'.
  exact (pits_agree 2 3 true 7 0xb7 7 0 pit_idle ctr_idle (PitExact.running_gate PitExact.PITX_8253) 6 queue_idle q'
    H1 eq_refl eq_refl eq_refl eq_refl seven_bytes H2 H3 eq_refl eq_refl eq_refl eq_refl eq_refl H4 Hq).
Defined.

Lemma lsb_latch_blocks_reads_witness :
  let c := ctr_idle <| rm := 1 |> <| count := 0x1234 |> in
  let '(v, c1) := ctr_read (ctr_latch_count c) in
  let c2 := Nat.iter 3 (fun c => (ctr_tick c).1) c1 in
  v = 0x1234 .& 0xff /\ ctr_read c2 = (0xff, c2).
Proof. exact (lsb_latch_blocks_reads (ctr_idle <| rm := 1 |> <| count := 0x1234 |>) 3 eq_refl eq_refl). Defined.
