(* ===== verification/Dma.v ===== *)
(** * Dma: the 8237 controllers of src/src/dma.c

    The two cascaded controllers of the AT, their page registers, the
    scatter/gather engine of the PCI chipsets and the extended controller of
    the PS/2, as they are built by default: without DMA_FORCE_REWRITE
    [dma_xt8237_active] is 0, so that every entry point of the exact XT path
    is its [_legacy] function.  [dma[8]] and the file's static variables are
    one record; [&dma[c]] is the index [c].  Memory, ports, interrupts and
    bus time are the interface [DmaMachine] on the rest of the machine,
    which is assumed not to call back into the controllers.  An operation
    returns [None] for an index out of range, for [fatal], for a division by
    zero, and when a software request or a PS/2 transfer is still running
    after the iterations it is given: its [extra_rounds] are a parameter, so
    that what holds for all of them holds for every run that ends. *)
From S2P Require Import Prelude.
From S2P Require Io.

Definition DMA_NODATA : Z := -1.
Definition DMA_OVER : Z := 0x10000.

Definition DMA_PS2_IOA : Z := 1.
Definition DMA_PS2_AUTOINIT : Z := 2.
Definition DMA_PS2_XFER_MEM_TO_IO : Z := 4.
Definition DMA_PS2_XFER_IO_TO_MEM : Z := 12.
Definition DMA_PS2_XFER_MASK : Z := 12.
Definition DMA_PS2_DEC2 : Z := 16.
Definition DMA_PS2_SIZE16 : Z := 64.

(** The fields of [dma_t] that dma.c uses. *)
Record dma_t := mkDma {
  mode : Z;
  page : Z;
  ps2_mode : Z;
  arb_level : Z;
  sg_command : Z;
  sg_status : Z;
  ptr0 : Z;
  ext_mode : Z;
  page_l : Z;
  page_h : Z;
  cb : Z;
  io_addr : Z;
  transfer_mode : Z;
  ptr : Z;
  ptr_cur : Z;
  addr : Z;
  ab : Z;
  ac : Z;
  cc : Z;
  size : Z;
  count : Z;
  eot : bool;
}.

Definition dma_zero : dma_t := mkDma 0 0 0 0 0 0 0 0 0 0 0 0 0 0 0 0 0 0 0 0 0 false.

(** The static variables; the fields from [xfr_command] on are [dma_ps2].
    The buffers are maps that are zero outside their domain. *)
Record dma_state := mkState {
  dma : list dma_t;
  dma_e : Z;
  dma_m : Z;
  dma_force_xt : bool;
  dmaregs : list (list Z);
  dma_wp0 : Z;
  dma_wp1 : Z;
  dma_stat : Z;
  dma_stat_rq : Z;
  dma_stat_rq_pc : Z;
  dma_stat_adv_pend : Z;
  dma_command0 : Z;
  dma_command1 : Z;
  dma_req_is_soft : bool;
  dma_advanced : bool;
  dma_at : bool;
  dma_buffer : gmap Z Z;
  dma16_buffer : gmap Z Z;
  dma_sg_base : Z;
  dma_mask : Z;
  xfr_command : Z;
  xfr_channel : Z;
  byte_ptr : Z;
  arb_control : Z;
  arb_status : Z;
  is_ps2 : bool;
}.

(** What the configuration of the machine decides.  The last field is not of
    the machine: it is how many iterations beyond those counted below the two
    loops are given that the guest can make longer, or endless, with a
    scatter/gather list. *)
Record dma_config := mkConfig {
  is286 : bool;
  is_nec : bool;
  use_dynarec : bool;
  xt_ibm5550 : bool;
  at_wd76c10 : bool;
  mem_size : Z;
  extra_rounds : nat;
}.

(** The rest of the machine. *)
Class DmaMachine (W : Type) := {
  mem_readb_phys : Z -> W -> Z * W;
  mem_readw_phys : Z -> W -> Z * W;
  mem_readl_phys : Z -> W -> Z * W;
  mem_writeb_phys : Z -> Z -> W -> W;
  mem_writew_phys : Z -> Z -> W -> W;
  mem_writel_phys : Z -> Z -> W -> W;
  mem_invalidate_range : Z -> Z -> W -> W;
  inb : Z -> W -> Z * W;
  inw : Z -> W -> Z * W;
  outb : Z -> Z -> W -> W;
  outw : Z -> Z -> W -> W;
  picint : Z -> W -> W;
  nmi_raise : W -> W;
  refreshread : W -> W;
  refreshread_vx0 : W -> W;
  ps2_cache_clean : W -> W;
  update_tsc : W -> W;
  (** [CS] is 0xf000 and [pc & ~7] is 0x7278. *)
  in_timing_loop : W -> bool;
  cpu_busspeed : W -> Z;
}.

Section controllers.
Context {W : Type} `{DmaMachine W} (cfg : dma_config).

(** ** Physical memory in units of one, two and four bytes *)

Definition le_bytes (n : nat) (v : Z) : list Z := map (fun i => (v >>> (8 * i)) .& 0xff) (seqZ 0 (Z.of_nat n)).

Fixpoint le_word (bytes : list Z) : Z :=
  match bytes with
  | [] => 0
  | b :: bytes => b .| (le_word bytes <<< 8)
  end.

(** [memcpy (dst + off, src, length src)] inside an array. *)
Definition patch (dst : list Z) (off : nat) (src : list Z) : list Z :=
  take off dst ++ src ++ drop (off + length src) dst.

Definition mem_read_phys (dst : list Z) (off : nat) (a ts : Z) (w : W) : list Z * W :=
  match ts with
  | 4 => let '(v, w) := mem_readl_phys a w in (patch dst off (le_bytes 4 v), w)
  | 2 => let '(v, w) := mem_readw_phys a w in (patch dst off (le_bytes 2 v), w)
  | 1 => let '(v, w) := mem_readb_phys a w in (patch dst off (le_bytes 1 v), w)
  | _ => (dst, w)
  end.

Definition mem_write_phys (src : list Z) (off : nat) (a ts : Z) (w : W) : W :=
  match ts with
  | 4 => mem_writel_phys a (le_word (take 4 (drop off src))) w
  | 2 => mem_writew_phys a (le_word (take 2 (drop off src))) w
  | 1 => mem_writeb_phys a (le_word (take 1 (drop off src))) w
  | _ => w
  end.

(** The loops of [dma_bm_read] and [dma_bm_write] on the divisible part:
    [k] units from the offset [i]. *)
Fixpoint bm_read_units (k : nat) (i a ts : Z) (dst : list Z) (off : nat) (w : W) : list Z * W :=
  match k with
  | O => (dst, w)
  | S k =>
      let '(dst, w) := mem_read_phys dst (off + Z.to_nat i) (u32 (a + i)) ts w in
      bm_read_units k (i + ts) a ts dst off w
  end.

Fixpoint bm_write_units (k : nat) (i a ts : Z) (src : list Z) (off : nat) (w : W) : W :=
  match k with
  | O => w
  | S k => bm_write_units k (i + ts) a ts src off (mem_write_phys src (off + Z.to_nat i) (u32 (a + i)) ts w)
  end.

(** [dma_bm_read (a, dst + off, total, ts)] *)
Definition dma_bm_read (a : Z) (dst : list Z) (off : nat) (total ts : Z) (w : W) : list Z * W :=
  let n := total .&~ (ts - 1) in
  let n2 := total - n in
  let '(dst, w) := bm_read_units (Z.to_nat (n / ts)) 0 a ts dst off w in
  if ctrue n2 then
    let '(bytes, w) := mem_read_phys [0; 0; 0; 0] 0 (u32 (a + n)) ts w in
    (patch dst (off + Z.to_nat n) (take (Z.to_nat n2) bytes), w)
  else (dst, w).

Definition dma_bm_write (at_ : bool) (a : Z) (src : list Z) (off : nat) (total ts : Z) (w : W) : W :=
  let n := total .&~ (ts - 1) in
  let n2 := total - n in
  let w := bm_write_units (Z.to_nat (n / ts)) 0 a ts src off w in
  let w :=
    if ctrue n2 then
      let '(bytes, w) := mem_read_phys [0; 0; 0; 0] 0 (u32 (a + n)) ts w in
      let bytes := patch bytes 0 (take (Z.to_nat n2) (drop (off + Z.to_nat n) src)) in
      mem_write_phys bytes 0 (u32 (a + n)) ts w
    else w in
  if at_ then mem_invalidate_range a (u32 (a + total - 1)) w else w.

(** ** Scatter/gather *)

Definition dma_transfer_size (dev : dma_t) : Z := transfer_mode dev .& 0xff.

(** [page = page_l = (ac >> 16) & 0xff; page_h = (ac >> 24) & 0xff] *)
Definition pages_of_ac (dev : dma_t) : dma_t :=
  dev <| page := (ac dev >>> 16) .& 0xff |> <| page_l := (ac dev >>> 16) .& 0xff |>
      <| page_h := (ac dev >>> 24) .& 0xff |>.

Definition dma_sg_next_addr (mask : Z) (dev : dma_t) (w : W) : dma_t * W :=
  let ts := dma_transfer_size dev in
  let '(a, w) := dma_bm_read (ptr_cur dev) (le_bytes 4 (addr dev)) 0 4 ts w in
  let '(c, w) := dma_bm_read (u32 (ptr_cur dev + 4)) (le_bytes 4 (count dev)) 0 4 ts w in
  let dev := dev <| addr := u32 (le_word a) |> in
  let dev := dev <| eot := Z.testbit (le_word c) 31 |> in
  let n := le_word c .& 0xfffe in
  let dev := dev <| cb := n |> <| cc := n |> in
  let dev := dev <| count := if n =? 0 then 65536 else n |> in
  let dev := if ts =? 2 then dev <| addr := addr dev .& 0xfffffffe |> else dev in
  let dev := dev <| ab := addr dev .& mask |> <| ac := addr dev .& mask |> in
  let dev := pages_of_ac dev in
  (dev <| ptr_cur := u32 (ptr_cur dev + 8) |>, w).

(** One block between memory and [data], at [pos]. *)
Definition sg_block (at_ out : bool) (n : Z) (data : list Z) (pos : nat) (dev : dma_t) (w : W) : list Z * W :=
  if out then dma_bm_read (addr dev) data pos n 4 w
  else (data, dma_bm_write at_ (addr dev) data pos n 4 w).

Fixpoint sg_loop (fuel : nat) (at_ : bool) (mask : Z) (out : bool) (data : list Z) (len : Z) (pos : nat)
    (dev : dma_t) (w : W) : option (Z * list Z * dma_t * W) :=
  match fuel with
  | O => None
  | S fuel =>
      if count dev <=? len then
        let '(data, w) := sg_block at_ out (count dev) data pos dev w in
        let pos := (pos + Z.to_nat (count dev))%nat in
        let len := len - count dev in
        if (len =? 0) && negb (eot dev) then Some (1, data, dev, w)
        else if negb (len =? 0) && eot dev then Some (4, data, dev, w)
        else if eot dev then Some (5, data, dev, w)
        else
          let '(dev, w) := dma_sg_next_addr mask dev w in
          sg_loop fuel at_ mask out data len pos dev w
      else
        let '(data, w) := sg_block at_ out len data pos dev w in
        let dev := dev <| addr := u32 (addr dev + len) |> <| count := count dev - len |> in
        Some (1, data, dev, w)
  end.

(** Each iteration but the first, whose block can be empty, transfers a byte
    at least. *)
Definition dma_sg (s : dma_state) (data : list Z) (len : Z) (out : bool) (dev : dma_t) (w : W)
    : option (Z * list Z * dma_t * W) :=
  if negb (ctrue (sg_status dev .& 1)) then Some (2, data, dev, w)
  else sg_loop (S (S (Z.to_nat len))) (dma_at s) (dma_mask s) out data len 0 dev w.

(** [sg_status = (sg_status & 0x0f) | (dma_sg (...) << 4)] *)
Definition sg_result (r : Z) (dev : dma_t) : dma_t :=
  dev <| sg_status := u8 ((sg_status dev .& 0x0f) .| (r <<< 4)) |>.

Definition _dma_read (s : dma_state) (a : Z) (dma_c : dma_t) (w : W) : option (Z * dma_t * W) :=
  if dma_advanced s then
    if ctrue (sg_status dma_c .& 1) then
      '(r, data, dma_c, w) ← dma_sg s [0] 1 true dma_c w;
      Some (u8 (le_word data), sg_result r dma_c, w)
    else
      let '(data, w) := dma_bm_read a [0] 0 1 (dma_transfer_size dma_c) w in
      Some (u8 (le_word data), dma_c, w)
  else let '(v, w) := mem_readb_phys a w in Some (v, dma_c, w).

Definition _dma_readw (s : dma_state) (a : Z) (dma_c : dma_t) (w : W) : option (Z * dma_t * W) :=
  if dma_advanced s then
    if ctrue (sg_status dma_c .& 1) then
      '(r, data, dma_c, w) ← dma_sg s [0; 0] 2 true dma_c w;
      Some (u16 (le_word data), sg_result r dma_c, w)
    else
      let '(data, w) := dma_bm_read a [0; 0] 0 2 (dma_transfer_size dma_c) w in
      Some (u16 (le_word data), dma_c, w)
  else
    '(lo, dma_c, w) ← _dma_read s a dma_c w;
    '(hi, dma_c, w) ← _dma_read s (u32 (a + 1)) dma_c w;
    Some (lo .| (hi <<< 8), dma_c, w).

Definition _dma_write (s : dma_state) (a val : Z) (dma_c : dma_t) (w : W) : option (dma_t * W) :=
  if dma_advanced s then
    if ctrue (sg_status dma_c .& 1) then
      '(r, _, dma_c, w) ← dma_sg s [val] 1 false dma_c w;
      Some (sg_result r dma_c, w)
    else Some (dma_c, dma_bm_write (dma_at s) a [val] 0 1 (dma_transfer_size dma_c) w)
  else
    let w := mem_writeb_phys a val w in
    Some (dma_c, if dma_at s then mem_invalidate_range a a w else w).

Definition _dma_writew (s : dma_state) (a val : Z) (dma_c : dma_t) (w : W) : option (dma_t * W) :=
  if dma_advanced s then
    if ctrue (sg_status dma_c .& 1) then
      '(r, _, dma_c, w) ← dma_sg s (le_bytes 2 val) 2 false dma_c w;
      Some (sg_result r dma_c, w)
    else Some (dma_c, dma_bm_write (dma_at s) a (le_bytes 2 val) 0 2 (dma_transfer_size dma_c) w)
  else
    '(dma_c, w) ← _dma_write s a (val .& 0xff) dma_c w;
    _dma_write s (u32 (a + 1)) (val >>> 8) dma_c w.

(** ** The channels *)

Definition bit (c : Z) : Z := 1 <<< c.

Definition dma_retreat (mask : Z) (dma_c : dma_t) : dma_t :=
  let as_ := transfer_mode dma_c >>> 8 in
  if ctrue (sg_status dma_c .& 1) then pages_of_ac (dma_c <| ac := u32 (ac dma_c - as_) .& mask |>)
  else if as_ =? 2 then
    dma_c <| ac := (ac dma_c .& 0xfffe0000 .& mask) .| ((ac dma_c - as_) .& 0x1ffff) |>
  else dma_c <| ac := (ac dma_c .& 0xffff0000 .& mask) .| ((ac dma_c - as_) .& 0xffff) |>.

Definition dma_advance (mask : Z) (dma_c : dma_t) : dma_t :=
  let as_ := transfer_mode dma_c >>> 8 in
  if ctrue (sg_status dma_c .& 1) then pages_of_ac (dma_c <| ac := u32 (ac dma_c + as_) .& mask |>)
  else if as_ =? 2 then
    dma_c <| ac := (ac dma_c .& 0xfffe0000 .& mask) .| ((ac dma_c + as_) .& 0x1ffff) |>
  else dma_c <| ac := (ac dma_c .& 0xffff0000 .& mask) .| ((ac dma_c + as_) .& 0xffff) |>.

(** The address after a byte, and after a word. *)
Definition step8 (s : dma_state) (dma_c : dma_t) : dma_t :=
  if ctrue (mode dma_c .& 0x20) then
    if is_ps2 s then dma_c <| ac := u32 (ac dma_c - 1) |>
    else if dma_advanced s then dma_retreat (dma_mask s) dma_c
    else dma_c <| ac := (ac dma_c .& 0xffff0000 .& dma_mask s) .| ((ac dma_c - 1) .& 0xffff) |>
  else
    if is_ps2 s then dma_c <| ac := u32 (ac dma_c + 1) |>
    else if dma_advanced s then dma_advance (dma_mask s) dma_c
    else dma_c <| ac := (ac dma_c .& 0xffff0000 .& dma_mask s) .| ((ac dma_c + 1) .& 0xffff) |>.

Definition step16 (s : dma_state) (dma_c : dma_t) : dma_t :=
  if ctrue (mode dma_c .& 0x20) then
    if is_ps2 s then dma_c <| ac := u32 (ac dma_c - 2) |>
    else if dma_advanced s then dma_retreat (dma_mask s) dma_c
    else dma_c <| ac := (ac dma_c .& 0xfffe0000 .& dma_mask s) .| ((ac dma_c - 2) .& 0x1ffff) |>
  else
    if is_ps2 s then dma_c <| ac := u32 (ac dma_c + 2) |>
    else if dma_advanced s then dma_advance (dma_mask s) dma_c
    else dma_c <| ac := (ac dma_c .& 0xfffe0000 .& dma_mask s) .| ((ac dma_c + 2) .& 0x1ffff) |>.

(** The data phases. *)
Definition read_unit (s : dma_state) (dma_c : dma_t) (w : W) : option (Z * dma_t * W) :=
  if size dma_c =? 0 then
    '(temp, dma_c, w) ← _dma_read s (ac dma_c) dma_c w;
    Some (temp, step8 s dma_c, w)
  else
    '(temp, dma_c, w) ← _dma_readw s (ac dma_c) dma_c w;
    Some (temp, step16 s dma_c, w).

(** [type] is 4, a write, or 0, a verification. *)
Definition write_unit (s : dma_state) (type val : Z) (dma_c : dma_t) (w : W) : option (dma_t * W) :=
  if size dma_c =? 0 then
    '(dma_c, w) ← (if type =? 0x04 then _dma_write s (ac dma_c) (val .& 0xff) dma_c w else Some (dma_c, w));
    Some (step8 s dma_c, w)
  else
    '(dma_c, w) ← (if type =? 0x04 then _dma_writew s (ac dma_c) val dma_c w else Some (dma_c, w));
    Some (step16 s dma_c, w).

(** [cc--], which is an [int] and wraps around, and the end of the block; the
    result says whether it is the terminal count. *)
Definition count_down (s : dma_state) (c : Z) (dma_c : dma_t) (w : W) : bool * dma_state * dma_t * W :=
  let dma_c := dma_c <| cc := swrap 32 (cc dma_c - 1) |> in
  if cc dma_c <? 0 then
    if dma_advanced s && ctrue (sg_status dma_c .& 1) && negb (ctrue (sg_status dma_c .& 6)) then
      let '(dma_c, w) := dma_sg_next_addr (dma_mask s) dma_c w in (false, s, dma_c, w)
    else
      let '(s, dma_c) :=
        if ctrue (mode dma_c .& 0x10) then (s, dma_c <| cc := cb dma_c |> <| ac := ab dma_c |>)
        else (s <| dma_m := dma_m s .| bit c |>, dma_c) in
      (true, s <| dma_stat := dma_stat s .| bit c |>, dma_c, w)
  else (false, s, dma_c, w).

(** The interrupt of a scatter/gather list that has ended. *)
Definition sg_interrupt (s : dma_state) (dma_c : dma_t) (w : W) : dma_t * W :=
  if dma_advanced s && ctrue (sg_status dma_c .& 1) && (sg_command dma_c .& 0xc0 =? 0x40) then
    (dma_c <| sg_status := sg_status dma_c .| 8 |>, picint (1 <<< 13) w)
  else (dma_c, w).

(** [dma[c] = dma_c] *)
Definition put (c : Z) (dma_c : dma_t) (s : dma_state) : dma_state :=
  s <| dma := <[Z.to_nat c := dma_c]> (dma s) |>.

Definition controller_disabled (s : dma_state) (c : Z) : bool :=
  if c <? 4 then ctrue (dma_command0 s .& 0x04) else ctrue (dma_command1 s .& 0x04).

(** What the five functions below test first. *)
Definition refused (s : dma_state) (c : Z) : bool :=
  controller_disabled s c || negb (ctrue (dma_e s .& bit c))
  || (ctrue (dma_m s .& bit c) && negb (dma_req_is_soft s)).

Definition dma_channel_readable (s : dma_state) (c : Z) : option Z :=
  dma_c ← arr_get (dma s) c;
  Some (cbool (negb (refused s c) && (mode dma_c .& 0xc =? 8))).

Definition dma_channel_writable (s : dma_state) (c : Z) : option Z :=
  dma_c ← arr_get (dma s) c;
  Some (cbool (negb (refused s c) && (mode dma_c .& 0xc =? 4))).

Definition dma_channel_advance (c : Z) (s : dma_state) (w : W) : option (Z * dma_state * W) :=
  dma_c ← arr_get (dma s) c;
  if ctrue (dma_stat_adv_pend s .& bit c) then
    let '(tc, s, dma_c, w) := count_down s c dma_c w in
    let '(dma_c, w) := if tc then sg_interrupt s dma_c w else (dma_c, w) in
    Some (cbool tc, (put c dma_c s) <| dma_stat_adv_pend := dma_stat_adv_pend s .&~ bit c |>, w)
  else Some (0, s, w).

(** [if (!dma_at && !channel) is_nec ? refreshread_vx0 () : refreshread ()] *)
Definition refresh (s : dma_state) (c : Z) (w : W) : W :=
  if negb (dma_at s) && (c =? 0) then if is_nec cfg then refreshread_vx0 w else refreshread w else w.

Definition dma_channel_read_only (c : Z) (s : dma_state) (w : W) : option (Z * dma_state * W) :=
  dma_c ← arr_get (dma s) c;
  if refused s c || negb (mode dma_c .& 0xc =? 8) then Some (DMA_NODATA, s, w)
  else
    '(_, s, w) ← dma_channel_advance c s w;
    dma_c ← arr_get (dma s) c;
    '(temp, dma_c, w) ← read_unit s dma_c (refresh s c w);
    Some (temp, (put c dma_c s) <| dma_stat_rq := dma_stat_rq s .| bit c |>
                                <| dma_stat_adv_pend := dma_stat_adv_pend s .| bit c |>, w).

Definition dma_channel_read (c : Z) (s : dma_state) (w : W) : option (Z * dma_state * W) :=
  dma_c ← arr_get (dma s) c;
  if refused s c || negb (mode dma_c .& 0xc =? 8) then Some (DMA_NODATA, s, w)
  else
    '(_, s, w) ← (if ctrue (dma_stat_adv_pend s .& bit c) then dma_channel_advance c s w else Some (0, s, w));
    dma_c ← arr_get (dma s) c;
    '(temp, dma_c, w) ← read_unit s dma_c (refresh s c w);
    let s := s <| dma_stat_rq := dma_stat_rq s .| bit c |> in
    let '(tc, s, dma_c, w) := count_down s c dma_c w in
    if tc then
      let '(dma_c, w) := sg_interrupt s dma_c w in Some (temp .| DMA_OVER, put c dma_c s, w)
    else Some (temp, put c dma_c s, w).

Definition dma_channel_write (c val : Z) (s : dma_state) (w : W) : option (Z * dma_state * W) :=
  dma_c ← arr_get (dma s) c;
  let type := mode dma_c .& 0x0c in
  if refused s c || negb ((type =? 0x04) || (type =? 0x00)) then Some (DMA_NODATA, s, w)
  else
    '(dma_c, w) ← write_unit s type val dma_c w;
    let s := s <| dma_stat_rq := dma_stat_rq s .| bit c |>
               <| dma_stat_adv_pend := dma_stat_adv_pend s .&~ bit c |> in
    let '(_, s, dma_c, w) := count_down s c dma_c w in
    if ctrue (dma_m s .& bit c) then
      let '(dma_c, w) := sg_interrupt s dma_c w in Some (DMA_OVER, put c dma_c s, w)
    else Some (0, put c dma_c s, w).

Definition dma_mode (s : dma_state) (c : Z) : option Z :=
  dma_c ← arr_get (dma s) c; Some (mode dma_c).

Definition dma_get_drq (s : dma_state) (c : Z) : Z :=
  if (c <? 0) || (7 <? c) then 0 else cbool (ctrue (dma_stat_rq_pc s .& bit c)).

Definition dma_set_drq (c : Z) (set_ : bool) (s : dma_state) : dma_state :=
  if (c <? 0) || (7 <? c) then s
  else
    let s := s <| dma_stat_rq_pc := dma_stat_rq_pc s .&~ bit c |> in
    if set_ then s <| dma_stat_rq_pc := dma_stat_rq_pc s .| bit c |> else s.

(** ** Transfers on a software request *)

Definition buffer_get (b : gmap Z Z) (i : Z) : Z := default 0 (b !! i).

(** An iteration of the loop of [dma_block_transfer] for the [uint16_t i]. *)
Definition block_body (bit16 : bool) (c i : Z) (s : dma_state) (w : W) : option (dma_state * W) :=
  dma_c ← arr_get (dma s) c;
  if mode dma_c .& 0x8c =? 0x84 then
    '(_, s, w) ← dma_channel_write c (buffer_get (if bit16 then dma16_buffer s else dma_buffer s) i) s w;
    Some (s, w)
  else if mode dma_c .& 0x8c =? 0x88 then
    '(v, s, w) ← dma_channel_read c s w;
    Some (if bit16 then s <| dma16_buffer := <[i := u16 v]> (dma16_buffer s) |>
          else s <| dma_buffer := <[i := u8 v]> (dma_buffer s) |>, w)
  else Some (s, w).

(** The loop: [inl] when the condition has failed, [inr] with the next [i]
    after [fuel] iterations. *)
Fixpoint block_loop (fuel : nat) (bit16 : bool) (c i : Z) (s : dma_state) (w : W)
    : option (dma_state * W + Z * dma_state * W) :=
  match fuel with
  | O => Some (inr (i, s, w))
  | S fuel =>
      dma_c ← arr_get (dma s) c;
      if i <=? cb dma_c then
        '(s, w) ← block_body bit16 c i s w;
        block_loop fuel bit16 c (u16 (i + 1)) s w
      else Some (inl (s, w))
  end.

(** More iterations than a loop on 16 bits can have that ends with the bound
    it started with. *)
Definition block_fuel : nat := Z.to_nat 0x10001.

Definition dma_block_transfer (c : Z) (s : dma_state) (w : W) : option (dma_state * W) :=
  dma_c ← arr_get (dma s) c;
  let bit16 := if dma_advanced s then dma_transfer_size dma_c =? 2 else 4 <=? c in
  r ← block_loop (block_fuel + extra_rounds cfg) bit16 c 0 (s <| dma_req_is_soft := true |>) w;
  match r with
  | inl (s, w) => Some (s <| dma_req_is_soft := false |>, w)
  | inr _ => None
  end.

(** The loops of [dma_mem_to_mem_transfer]; the bounds are [cb] of the
    channels, which the loop tests again each time. *)
Fixpoint mem_read_loop (fuel : nat) (i : Z) (s : dma_state) (w : W) : option (dma_state * W) :=
  dma_c ← arr_get (dma s) 0;
  if i <=? cb dma_c then
    match fuel with
    | O => None
    | S fuel =>
        '(v, s, w) ← dma_channel_read 0 s w;
        mem_read_loop fuel (i + 1) (s <| dma_buffer := <[i := u8 v]> (dma_buffer s) |>) w
    end
  else Some (s, w).

Fixpoint mem_write_loop (fuel : nat) (i : Z) (s : dma_state) (w : W) : option (dma_state * W) :=
  dma_c ← arr_get (dma s) 1;
  if i <=? cb dma_c then
    match fuel with
    | O => None
    | S fuel =>
        '(_, s, w) ← dma_channel_write 1 (buffer_get (dma_buffer s) i) s w;
        mem_write_loop fuel (i + 1) s w
    end
  else Some (s, w).

Definition dma_mem_to_mem_transfer (s : dma_state) (w : W) : option (dma_state * W) :=
  c0 ← arr_get (dma s) 0;
  c1 ← arr_get (dma s) 1;
  if negb (mode c0 .& 0x0c =? 0x08) then None
  else if negb (mode c1 .& 0x0c =? 0x04) then None
  else
    '(s, w) ← mem_read_loop block_fuel 0 (s <| dma_req_is_soft := true |>) w;
    '(s, w) ← mem_write_loop block_fuel 0 s w;
    Some (s <| dma_req_is_soft := false |>, w).

(** ** The registers of the two controllers *)

Definition regs_get (s : dma_state) (bank : nat) (i : Z) : Z := nth (Z.to_nat i) (nth bank (dmaregs s) []) 0.
Definition regs_set (bank : nat) (i v : Z) (s : dma_state) : dma_state :=
  s <| dmaregs := alter (<[Z.to_nat i := v]>) bank (dmaregs s) |>.

(** An update of [dma[c]]. *)
Definition on_channel (c : Z) (f : dma_t -> dma_t) (s : dma_state) : option dma_state :=
  dma_c ← arr_get (dma s) c; Some (put c (f dma_c) s).

(** A count register is read low byte first. *)
Definition count_byte (low : bool) (dma_c : dma_t) : Z :=
  if low then cc dma_c .& 0xff else u8 (cc dma_c >>> 8).

(** [dma_read], which is [dma_read_legacy]. *)
Definition dma_read (a : Z) (s : dma_state) : option (Z * dma_state) :=
  let c := (a >>> 1) .& 3 in
  let i := a .& 0xf in
  match i with
  | 0 | 2 | 4 | 6 =>
      let s := s <| dma_wp0 := dma_wp0 s .^ 1 |> in
      dma_c ← arr_get (dma s) c;
      Some (if ctrue (dma_wp0 s) then ac dma_c .& 0xff else (ac dma_c >>> 8) .& 0xff, s)
  | 1 | 3 | 5 | 7 =>
      let s := s <| dma_wp0 := dma_wp0 s .^ 1 |> in
      dma_c ← arr_get (dma s) c;
      Some (count_byte (ctrue (dma_wp0 s)) dma_c, s)
  | 8 =>
      if is_ps2 s then
        Some (((dma_stat_rq s .& 0x0f) <<< 4) .| (dma_stat s .& 0x0f),
              s <| dma_stat := dma_stat s .&~ 0x0f |> <| dma_stat_rq := dma_stat_rq s .&~ 0x0f |>)
      else
        Some (((dma_stat_rq_pc s .& 0x0f) <<< 4) .| (dma_stat s .& 0x0f),
              s <| dma_stat := dma_stat s .&~ 0x0f |>)
  | 0xd => Some (0, s)
  | _ => Some (regs_get s 0 i, s)
  end.

(** The byte [val] into a base register; current and base are then equal. *)
Definition write_address (low : bool) (mask val : Z) (dma_c : dma_t) : dma_t :=
  let dma_c := dma_c <| ab := if low then (ab dma_c .& 0xffffff00 .& mask) .| val
                              else (ab dma_c .& 0xffff00ff .& mask) .| (val <<< 8) |> in
  dma_c <| ac := ab dma_c |>.

Definition write_address16 (low : bool) (mask val : Z) (dma_c : dma_t) : dma_t :=
  let dma_c := dma_c <| ab := if low then (ab dma_c .& 0xfffffe00 .& mask) .| (val <<< 1)
                              else (ab dma_c .& 0xfffe01ff .& mask) .| (val <<< 9) |> in
  dma_c <| ac := ab dma_c |>.

Definition write_count (low : bool) (val : Z) (dma_c : dma_t) : dma_t :=
  let dma_c := dma_c <| cb := if low then (cb dma_c .& 0xff00) .| val
                              else (cb dma_c .& 0x00ff) .| (val <<< 8) |> in
  dma_c <| cc := cb dma_c |>.

(** The mode register; a PS/2 translates it to its own mode register. *)
Definition write_mode (s : dma_state) (base val : Z) (dma_c : dma_t) : dma_t :=
  let dma_c := dma_c <| mode := val |> in
  if is_ps2 s then
    let p := base in
    let p := if ctrue (val .& 0x10) then p .| DMA_PS2_AUTOINIT else p in
    let p := if ctrue (val .& 0x20) then p .| DMA_PS2_DEC2 else p in
    let p := if val .& 0xc =? 8 then p .| DMA_PS2_XFER_MEM_TO_IO
             else if val .& 0xc =? 4 then p .| DMA_PS2_XFER_IO_TO_MEM else p in
    dma_c <| ps2_mode := p |> <| size := base |>
  else dma_c.

Definition return_ (w : W) (r : option dma_state) : option (dma_state * W) := s ← r; Some (s, w).

(** [dma_write], which is [dma_write_legacy]. *)
Definition dma_write (a val : Z) (s : dma_state) (w : W) : option (dma_state * W) :=
  let c := (a >>> 1) .& 3 in
  let s := regs_set 0 (a .& 0xf) val s in
  match a .& 0xf with
  | 0 | 2 | 4 | 6 =>
      let s := s <| dma_wp0 := dma_wp0 s .^ 1 |> in
      return_ w (on_channel c (write_address (ctrue (dma_wp0 s)) (dma_mask s) val) s)
  | 1 | 3 | 5 | 7 =>
      let s := s <| dma_wp0 := dma_wp0 s .^ 1 |> in
      return_ w (on_channel c (write_count (ctrue (dma_wp0 s)) val) s)
  | 8 => Some (s <| dma_command0 := val |>, w)
  | 9 =>
      let c := val .& 3 in
      if ctrue (val .& 4) then
        let s := s <| dma_stat_rq_pc := dma_stat_rq_pc s .| bit c |> in
        if (c =? 0) && ctrue (dma_command0 s .& 0x01) then dma_mem_to_mem_transfer s w
        else dma_block_transfer c s w
      else Some (s <| dma_stat_rq_pc := dma_stat_rq_pc s .&~ bit c |>, w)
  | 0xa =>
      let c := val .& 3 in
      Some (s <| dma_m := if ctrue (val .& 4) then dma_m s .| bit c else dma_m s .&~ bit c |>, w)
  | 0xb => return_ w (on_channel (val .& 3) (write_mode s 0 val) s)
  | 0xc => Some (s <| dma_wp0 := 0 |>, w)
  | 0xd => Some (s <| dma_wp0 := 0 |> <| dma_m := dma_m s .| 0xf |>
                   <| dma_stat_rq_pc := dma_stat_rq_pc s .&~ 0x0f |>, w)
  | 0xe => Some (s <| dma_m := dma_m s .& 0xf0 |>, w)
  | _ => Some (s <| dma_m := (dma_m s .& 0xf0) .| (val .& 0xf) |>, w)
  end.

Definition dma16_read (a : Z) (s : dma_state) : option (Z * dma_state) :=
  let c := ((a >>> 2) .& 3) + 4 in
  let a := a >>> 1 in
  let i := a .& 0xf in
  match i with
  | 0 | 2 | 4 | 6 =>
      let s := s <| dma_wp1 := dma_wp1 s .^ 1 |> in
      dma_c ← arr_get (dma s) c;
      Some (if is_ps2 s then
              if ctrue (dma_wp1 s) then u8 (ac dma_c) else (ac dma_c >>> 8) .& 0xff
            else if ctrue (dma_wp1 s) then (ac dma_c >>> 1) .& 0xff
            else (ac dma_c >>> 9) .& 0xff, s)
  | 1 | 3 | 5 | 7 =>
      let s := s <| dma_wp1 := dma_wp1 s .^ 1 |> in
      dma_c ← arr_get (dma s) c;
      Some (count_byte (ctrue (dma_wp1 s)) dma_c, s)
  | 8 =>
      if is_ps2 s then
        Some ((dma_stat_rq s .& 0xf0) .| ((dma_stat s .& 0xf0) >>> 4),
              s <| dma_stat := dma_stat s .&~ 0xf0 |> <| dma_stat_rq := dma_stat_rq s .&~ 0xf0 |>)
      else
        Some ((dma_stat_rq_pc s .& 0xf0) .| (dma_stat s >>> 4), s <| dma_stat := dma_stat s .&~ 0xf0 |>)
  | _ => Some (regs_get s 1 i, s)
  end.

Definition dma16_write (a val : Z) (s : dma_state) (w : W) : option (dma_state * W) :=
  let c := ((a >>> 2) .& 3) + 4 in
  let a := a >>> 1 in
  let s := regs_set 1 (a .& 0xf) val s in
  match a .& 0xf with
  | 0 | 2 | 4 | 6 =>
      let s := s <| dma_wp1 := dma_wp1 s .^ 1 |> in
      return_ w
        (on_channel c
           (if is_ps2 s then write_address (ctrue (dma_wp1 s)) (dma_mask s) val
            else write_address16 (ctrue (dma_wp1 s)) (dma_mask s) val) s)
  | 1 | 3 | 5 | 7 =>
      let s := s <| dma_wp1 := dma_wp1 s .^ 1 |> in
      return_ w (on_channel c (write_count (ctrue (dma_wp1 s)) val) s)
  | 8 => Some (s, w)
  | 9 =>
      let c := (val .& 3) + 4 in
      if ctrue (val .& 4) then
        dma_block_transfer c (s <| dma_stat_rq_pc := dma_stat_rq_pc s .| bit c |>) w
      else Some (s <| dma_stat_rq_pc := dma_stat_rq_pc s .&~ bit c |>, w)
  | 0xa =>
      let c := val .& 3 in
      Some (s <| dma_m := if ctrue (val .& 4) then dma_m s .| (0x10 <<< c) else dma_m s .&~ (0x10 <<< c) |>, w)
  | 0xb => return_ w (on_channel ((val .& 3) + 4) (write_mode s DMA_PS2_SIZE16 val) s)
  | 0xc => Some (s <| dma_wp1 := 0 |>, w)
  | 0xd => Some (s <| dma_wp1 := 0 |> <| dma_m := dma_m s .| 0xf0 |>
                   <| dma_stat_rq_pc := dma_stat_rq_pc s .&~ 0xf0 |>, w)
  | 0xe => Some (s <| dma_m := dma_m s .& 0x0f |>, w)
  | _ => Some (s <| dma_m := (dma_m s .& 0x0f) .| ((val .& 0xf) <<< 4) |>, w)
  end.

(** ** Page registers *)

(** [CHANNELS] *)
Definition convert (i : Z) : Z := nth (Z.to_nat i) [8; 2; 3; 1; 8; 8; 8; 0] 0.

(** The channel of a page register's number; 8 and above is none. *)
Definition page_channel (a : Z) : Z :=
  if 8 <=? a then convert (a .& 0x07) .| 4 else convert (a .& 0x07).

(** [dma_at] alone does not tell an XT with an accelerator. *)
Definition dma_page_is_xt (s : dma_state) : bool := dma_force_xt s || negb (dma_at s).

Definition write_page (xt : bool) (mask c val : Z) (dma_c : dma_t) : dma_t :=
  let dma_c := dma_c <| page_l := val |> in
  if 4 <? c then
    let dma_c := dma_c <| page := val .& 0xfe |> in
    dma_c <| ab := (ab dma_c .& 0xff01ffff .& mask) .| (page dma_c <<< 16) |>
          <| ac := (ac dma_c .& 0xff01ffff .& mask) .| (page dma_c <<< 16) |>
  else
    let dma_c := dma_c <| page := if xt then val .& 0x0f else val |> in
    dma_c <| ab := (ab dma_c .& 0xff00ffff .& mask) .| (page dma_c <<< 16) |>
          <| ac := (ac dma_c .& 0xff00ffff .& mask) .| (page dma_c <<< 16) |>.

Definition dma_page_write (a val : Z) (s : dma_state) (w : W) : option (dma_state * W) :=
  let w := if (a =? 0x84) && use_dynarec cfg then update_tsc w else w in
  let a := a .& 0x0f in
  let s := regs_set 2 a val s in
  let c := if xt_ibm5550 cfg then (if 4 <=? a then 8 else a) else page_channel a in
  if c <? 8 then return_ w (on_channel c (write_page (dma_page_is_xt s) (dma_mask s) c val) s)
  else Some (s, w).

(** The result for the timing loop of the MegaPC's BIOS. *)
Definition timing_result (a speed : Z) : Z :=
  match a with
  | 0x81 => if 25000000 <=? speed then 0x98 else if 20000000 <=? speed then 0xe0 else 0x80
  | 0x82 => if 25000000 <=? speed then 0x08 else if 20000000 <=? speed then 0x06 else 0x05
  | _ => 0xff
  end.

Definition dma_page_read (a : Z) (s : dma_state) (w : W) : option Z :=
  if (a .& 0xfffc =? 0x80) && in_timing_loop w && at_wd76c10 cfg then Some (timing_result a (cpu_busspeed w))
  else
    let a := a .& 0x0f in
    let c := page_channel a in
    if c <? 8 then dma_c ← arr_get (dma s) c; Some (page_l dma_c)
    else Some (regs_get s 2 a).

Definition write_high_page (mask val : Z) (dma_c : dma_t) : dma_t :=
  let dma_c := dma_c <| page_h := val |> in
  dma_c <| ab := ((ab dma_c .& 0xffffff) .| (val <<< 24)) .& mask |>
        <| ac := ((ac dma_c .& 0xffffff) .| (val <<< 24)) .& mask |>.

Definition dma_high_page_write (a val : Z) (s : dma_state) : option dma_state :=
  let c := page_channel (a .& 0x0f) in
  if c <? 8 then on_channel c (write_high_page (dma_mask s) val) s else Some s.

Definition dma_high_page_read (a : Z) (s : dma_state) : option Z :=
  let c := page_channel (a .& 0x0f) in
  if c <? 8 then dma_c ← arr_get (dma s) c; Some (page_h dma_c) else Some 0xff.

(** ** Scatter/gather registers of channel [c] *)

Definition sg_port (port : Z) : Z :=
  let port := port .& 0xff in if port <? 0x20 then port .& 0xf8 else port .& 0xe3.

(** [ptr = ...; ptr %= (mem_size * 1024)] *)
Definition set_ptr (v : Z) (dev : dma_t) : option dma_t :=
  if u32 (mem_size cfg * 1024) =? 0 then None else Some (dev <| ptr := v `mod` u32 (mem_size cfg * 1024) |>).

Definition sg_command_write (s : dma_state) (val : Z) (dev : dma_t) (w : W) : dma_t * W :=
  let '(dev, w) :=
    if ctrue (val .& 1) && negb (ctrue (sg_command dev .& 1)) then
      let '(dev, w) := dma_sg_next_addr (dma_mask s) (dev <| ptr_cur := ptr dev |>) w in
      (dev <| sg_status := (sg_status dev .& 0xf7) .| 0x01 |>, w)
    else (dev, w) in
  let dev := if negb (ctrue (val .& 1)) && ctrue (sg_command dev .& 1)
             then dev <| sg_status := sg_status dev .&~ 0x81 |> else dev in
  (dev <| sg_command := val |>, w).

Definition return_put (c : Z) (s : dma_state) (w : W) (r : option dma_t) : option (dma_state * W) :=
  dev ← r; Some (put c dev s, w).

Definition dma_sg_write (c port val : Z) (s : dma_state) (w : W) : option (dma_state * W) :=
  dev ← arr_get (dma s) c;
  match sg_port port with
  | 0x00 => let '(dev, w) := sg_command_write s val dev w in Some (put c dev s, w)
  | 0x20 => return_put c s w (dev ← set_ptr ((ptr dev .& 0xffffff00) .| (val .& 0xfc)) dev;
                              Some (dev <| ptr0 := val |>))
  | 0x21 => return_put c s w (set_ptr ((ptr dev .& 0xffff00fc) .| (val <<< 8)) dev)
  | 0x22 => return_put c s w (set_ptr ((ptr dev .& 0xff00fffc) .| (val <<< 16)) dev)
  | 0x23 => return_put c s w (set_ptr ((ptr dev .& 0x00fffffc) .| (val <<< 24)) dev)
  | _ => Some (s, w)
  end.

Definition dma_sg_writew (c port val : Z) (s : dma_state) (w : W) : option (dma_state * W) :=
  dev ← arr_get (dma s) c;
  match sg_port port with
  | 0x00 => dma_sg_write c (sg_port port) (val .& 0xff) s w
  | 0x20 => return_put c s w (dev ← set_ptr ((ptr dev .& 0xffff0000) .| (val .& 0xfffc)) dev;
                              Some (dev <| ptr0 := val .& 0xff |>))
  | 0x22 => return_put c s w (set_ptr ((ptr dev .& 0x0000fffc) .| (val <<< 16)) dev)
  | _ => Some (s, w)
  end.

Definition dma_sg_writel (c port val : Z) (s : dma_state) (w : W) : option (dma_state * W) :=
  dev ← arr_get (dma s) c;
  match sg_port port with
  | 0x00 => dma_sg_write c (sg_port port) (val .& 0xff) s w
  | 0x20 => return_put c s w (dev ← set_ptr (val .& 0xfffffffc) dev; Some (dev <| ptr0 := val .& 0xff |>))
  | _ => Some (s, w)
  end.

Definition sg_status_byte (dev : dma_t) : Z :=
  (sg_status dev .& 0x01) .| (if eot dev then 0x80 else 0)
  .| (if sg_command dev .& 0xc0 =? 0x40 then 0x20 else 0)
  .| (if ctrue (ab dev) then 0x08 else 0) .| (if ctrue (ac dev) then 0x04 else 0).

Definition dma_sg_read (c port : Z) (s : dma_state) : option Z :=
  dev ← arr_get (dma s) c;
  Some match sg_port port with
       | 0x08 => sg_status_byte dev
       | 0x20 => ptr0 dev
       | 0x21 => u8 (ptr dev >>> 8)
       | 0x22 => u8 (ptr dev >>> 16)
       | 0x23 => u8 (ptr dev >>> 24)
       | _ => 0xff
       end.

Definition dma_sg_readw (c port : Z) (s : dma_state) : option Z :=
  dev ← arr_get (dma s) c;
  match sg_port port with
  | 0x08 => dma_sg_read c (sg_port port) s
  | 0x20 => Some (ptr0 dev .| (ptr dev .& 0xff00))
  | 0x22 => Some (u16 (ptr dev >>> 16))
  | _ => Some 0xffff
  end.

Definition dma_sg_readl (c port : Z) (s : dma_state) : option Z :=
  dev ← arr_get (dma s) c;
  match sg_port port with
  | 0x08 => dma_sg_read c (sg_port port) s
  | 0x20 => Some (ptr0 dev .| (ptr dev .& 0xffffff00))
  | _ => Some 0xffffffff
  end.

Fixpoint sg_int_bits (idx : list Z) (s : dma_state) (ret : Z) : option Z :=
  match idx with
  | [] => Some ret
  | i :: idx =>
      if i =? 4 then sg_int_bits idx s ret
      else
        dev ← arr_get (dma s) i;
        sg_int_bits idx s (ret .| (cbool (ctrue (sg_status dev .& 8)) <<< i))
  end.

Definition dma_sg_int_status_read (s : dma_state) : option Z := sg_int_bits (seqZ 0 8) s 0.

Definition ext_transfer_mode (val : Z) : Z :=
  match (val >>> 2) .& 0x03 with
  | 0 => 0x0101
  | 1 => 0x0202
  | 2 => 0x0201
  | _ => 0x0102
  end.

Definition dma_ext_mode_write (a val : Z) (s : dma_state) : option dma_state :=
  let c := if a =? 0x4d6 then (val .& 0x03) .| 4 else val .& 0x03 in
  on_channel c (fun dma_c => dma_c <| ext_mode := val .& 0x7c |> <| transfer_mode := ext_transfer_mode val |>) s.

(** ** The extended controller of the PS/2 *)

Definition dma_ps2_arb_level (c : Z) (dma_c : dma_t) : Z := if c .& 3 =? 0 then arb_level dma_c .& 0x0f else c.

Definition dma_ps2_master_clear (s : dma_state) : dma_state :=
  s <| dma_wp0 := 0 |> <| dma_wp1 := 0 |> <| byte_ptr := 0 |> <| dma_m := 0xff |> <| dma_stat := 0 |>
    <| dma_stat_rq := 0 |> <| dma_stat_adv_pend := 0 |> <| dma_req_is_soft := false |>
    <| dma_command0 := 0 |> <| dma_command1 := 0 |>.

(** The next address of [dma_ps2_run]. *)
Definition ps2_step (dma_c : dma_t) : dma_t :=
  let n := if size dma_c =? 0 then 1 else 2 in
  dma_c <| ac := if ctrue (ps2_mode dma_c .& DMA_PS2_DEC2) then u32 (ac dma_c - n) else u32 (ac dma_c + n) |>.

(** The bodies of its three loops. *)
Definition ps2_unit (s : dma_state) (port : Z) (dma_c : dma_t) (w : W) : option (dma_t * W) :=
  let x := ps2_mode dma_c .& DMA_PS2_XFER_MASK in
  if x =? DMA_PS2_XFER_MEM_TO_IO then
    if size dma_c =? 0 then
      '(temp, dma_c, w) ← _dma_read s (ac dma_c) dma_c w;
      Some (ps2_step dma_c, outb port temp w)
    else
      '(temp, dma_c, w) ← _dma_readw s (ac dma_c) dma_c w;
      Some (ps2_step dma_c, outw port temp w)
  else if x =? DMA_PS2_XFER_IO_TO_MEM then
    if size dma_c =? 0 then
      let '(temp, w) := inb port w in
      '(dma_c, w) ← _dma_write s (ac dma_c) temp dma_c w;
      Some (ps2_step dma_c, w)
    else
      let '(temp, w) := inw port w in
      '(dma_c, w) ← _dma_writew s (ac dma_c) temp dma_c w;
      Some (ps2_step dma_c, w)
  else Some (ps2_step dma_c, w).

(** [do { ... cc--; } while (cc >= 0)] *)
Fixpoint ps2_loop (fuel : nat) (s : dma_state) (port : Z) (dma_c : dma_t) (w : W) : option (dma_t * W) :=
  match fuel with
  | O => None
  | S fuel =>
      '(dma_c, w) ← ps2_unit s port dma_c w;
      let dma_c := dma_c <| cc := swrap 32 (cc dma_c - 1) |> in
      if 0 <=? cc dma_c then ps2_loop fuel s port dma_c w else Some (dma_c, w)
  end.

(** The iterations that end by the count, and the extra ones for a list,
    which reloads it. *)
Definition ps2_fuel (dma_c : dma_t) : nat :=
  (S (Z.to_nat (swrap 32 (cc dma_c - 1) + 1)) + extra_rounds cfg)%nat.

Definition dma_ps2_run (c : Z) (s : dma_state) (w : W) : option (dma_state * W) :=
  dma_c ← arr_get (dma s) c;
  let port := (if ctrue (ps2_mode dma_c .& DMA_PS2_IOA) then io_addr dma_c else 0)
              .& (if size dma_c =? 0 then 0xffff else 0xfffe) in
  let s := s <| dma_stat_rq := dma_stat_rq s .| bit c |> in
  '(dma_c, w) ← ps2_loop (ps2_fuel dma_c) s port dma_c w;
  let w := if ps2_mode dma_c .& DMA_PS2_XFER_MASK =? DMA_PS2_XFER_IO_TO_MEM then ps2_cache_clean w else w in
  let s := s <| dma_stat := dma_stat s .| bit c |> in
  Some (if ctrue (ps2_mode dma_c .& DMA_PS2_AUTOINIT) then
          (put c (dma_c <| cc := cb dma_c |> <| ac := ab dma_c |>) s, w)
        else (put c dma_c (s <| dma_m := dma_m s .| bit c |>), w)).

(** The loop of [dma_ps2_request] over the channels from [c]. *)
Fixpoint ps2_grant (n : nat) (c level : Z) (matched : bool) (s : dma_state) (w : W)
    : option (bool * dma_state * W) :=
  match n with
  | O => Some (matched, s, w)
  | S n =>
      dma_c ← arr_get (dma s) c;
      if negb (ctrue (dma_m s .& bit c)) && (dma_ps2_arb_level c dma_c =? level) then
        '(s, w) ← dma_ps2_run c s w;
        ps2_grant n (c + 1) level true s w
      else ps2_grant n (c + 1) level matched s w
  end.

Definition dma_ps2_request (c : Z) (s : dma_state) (w : W) : option (dma_state * W) :=
  dma_c ← arr_get (dma s) c;
  let level := dma_ps2_arb_level c dma_c in
  let s := s <| arb_status := (arb_status s .& 0x60) .| level |> in
  '(matched, s, w) ← ps2_grant 8 0 level false s w;
  Some (if matched : bool then (s, w)
        else (s <| arb_status := 0x60 .| level |>, if ctrue (arb_control s .& 0x80) then nmi_raise w else w)).

Definition dma_ps2_arb_read (s : dma_state) : Z * dma_state :=
  ((arb_control s .& 0x80) .| arb_status s,
   if ctrue (arb_status s .& 0x20) then s <| arb_status := arb_status s .&~ 0x40 |> else s).

Definition dma_ps2_arb_write (val : Z) (s : dma_state) : dma_state :=
  let s := s <| arb_control := val .& 0xa0 |> in
  if ctrue (val .& 0x40) then s else s <| arb_status := arb_status s .& 0x0f |>.

(** [byte_ptr = (byte_ptr + 1) & 1], and the steps 0, 1, 2, 0 of an address. *)
Definition flip (s : dma_state) : dma_state := s <| byte_ptr := (byte_ptr s + 1) .& 1 |>.
Definition next_of_three (s : dma_state) : dma_state :=
  s <| byte_ptr := match byte_ptr s with 0 => 1 | 1 => 2 | 2 => 0 | b => b end |>.

(** Commands 0xb, direct and with a data phase. *)
Definition run_unmasked (s : dma_state) (w : W) : option (dma_state * W) :=
  if ctrue (dma_m s .& bit (xfr_channel s)) then Some (s, w) else dma_ps2_run (xfr_channel s) s w.

Definition address_byte (i a : Z) : Z :=
  match i with
  | 0 => a .& 0xff
  | 1 => (a >>> 8) .& 0xff
  | 2 => (a >>> 16) .& 0xff
  | _ => 0xff
  end.

Definition word_byte (high : bool) (v : Z) : Z := if high then u8 (v >>> 8) else v .& 0xff.

Definition dma_ps2_read (a : Z) (s : dma_state) (w : W) : option (Z * dma_state * W) :=
  dma_c ← arr_get (dma s) (xfr_channel s);
  let high := ctrue (byte_ptr s) in
  if negb (a =? 0x1a) then Some (0xff, s, w)
  else
    match xfr_command s with
    | 0 => Some (word_byte high (io_addr dma_c), flip s, w)
    | 2 => Some (address_byte (byte_ptr s) (ab dma_c), next_of_three s, w)
    | 3 => Some (address_byte (byte_ptr s) (ac dma_c), next_of_three s, w)
    | 4 => Some (word_byte high (cb dma_c), flip s, w)
    | 5 => Some (word_byte high (u16 (cc dma_c)), flip s, w)
    | 6 =>
        if high then
          Some (((dma_stat_rq s .& 0xf0) >>> 4) .| (dma_stat s .& 0xf0),
                flip (s <| dma_stat := dma_stat s .&~ 0xf0 |> <| dma_stat_rq := dma_stat_rq s .&~ 0xf0 |>), w)
        else
          Some ((dma_stat_rq s .& 0x0f) .| ((dma_stat s .& 0x0f) <<< 4),
                flip (s <| dma_stat := dma_stat s .&~ 0xf |> <| dma_stat_rq := dma_stat_rq s .&~ 0xf |>), w)
    | 7 => Some (ps2_mode dma_c, s, w)
    | 8 =>
        Some (if (xfr_channel s =? 0) || (xfr_channel s =? 4) then dma_ps2_arb_level (xfr_channel s) dma_c
              else 0xff, s, w)
    | 0xb => '(s, w) ← run_unmasked s w; Some (0xff, s, w)
    | _ => Some (0xff, s, w)
    end.

Definition write_io_addr (high : bool) (val : Z) (dma_c : dma_t) : dma_t :=
  dma_c <| io_addr := if high then (io_addr dma_c .& 0x00ff) .| (val <<< 8)
                      else (io_addr dma_c .& 0xff00) .| val |>.

Definition write_ps2_address (i val : Z) (dma_c : dma_t) : dma_t :=
  let a := ac dma_c in
  let dma_c := dma_c <| ac := match i with
                              | 0 => (a .& 0xffff00) .| val
                              | 1 => (a .& 0xff00ff) .| (val <<< 8)
                              | 2 => (a .& 0x00ffff) .| (val <<< 16)
                              | _ => a
                              end |> in
  dma_c <| ab := ac dma_c |>.

Definition write_ps2_count (high : bool) (val : Z) (dma_c : dma_t) : dma_t :=
  let dma_c := dma_c <| cc := if high then (cc dma_c .& 0xff) .| (val <<< 8)
                              else (cc dma_c .& 0xff00) .| val |> in
  dma_c <| cb := u16 (cc dma_c) |>.

Definition write_ps2_mode (val : Z) (dma_c : dma_t) : dma_t :=
  let m := if ctrue (val .& DMA_PS2_DEC2) then 0x20 else 0 in
  let m := if val .& DMA_PS2_XFER_MASK =? DMA_PS2_XFER_MEM_TO_IO then m .| 8
           else if val .& DMA_PS2_XFER_MASK =? DMA_PS2_XFER_IO_TO_MEM then m .| 4 else m in
  let dma_c := dma_c <| mode := (mode dma_c .&~ 0x3c) .| m |> in
  let dma_c := if ctrue (val .& DMA_PS2_AUTOINIT) then dma_c <| mode := mode dma_c .| 0x10 |> else dma_c in
  dma_c <| ps2_mode := val |> <| size := val .& DMA_PS2_SIZE16 |>.

(** Port 0x18: a function and a channel. *)
Definition ps2_function (val : Z) (s : dma_state) (w : W) : option (dma_state * W) :=
  let s := s <| xfr_channel := val .& 0x7 |> <| xfr_command := val >>> 4 |> <| byte_ptr := 0 |> in
  let c := xfr_channel s in
  match xfr_command s with
  | 9 => Some (s <| dma_m := dma_m s .| bit c |>, w)
  | 0xa => Some (s <| dma_m := dma_m s .&~ bit c |>, w)
  | 0xb => if ctrue (dma_m s .& bit c) then dma_ps2_request c s w else dma_ps2_run c s w
  | 0xd => Some (dma_ps2_master_clear s, w)
  | _ => Some (s, w)
  end.

(** Port 0x1a: the data of the function. *)
Definition ps2_data (val : Z) (s : dma_state) (w : W) : option (dma_state * W) :=
  let c := xfr_channel s in
  let high := ctrue (byte_ptr s) in
  match xfr_command s with
  | 0 => return_ w (s ← on_channel c (write_io_addr high val) s; Some (flip s))
  | 2 => return_ w (s ← on_channel c (write_ps2_address (byte_ptr s) val) s; Some (next_of_three s))
  | 4 => return_ w (s ← on_channel c (write_ps2_count high val) s; Some (flip s))
  | 7 => return_ w (on_channel c (write_ps2_mode val) s)
  | 8 => if (c =? 0) || (c =? 4) then return_ w (on_channel c (fun d => d <| arb_level := val .& 0x0f |>) s)
         else Some (s, w)
  | 0xb => run_unmasked s w
  | _ => Some (s, w)
  end.

Definition dma_ps2_write (a val : Z) (s : dma_state) (w : W) : option (dma_state * W) :=
  match a with
  | 0x18 => ps2_function val s w
  | 0x1a => ps2_data val s w
  | _ => Some (s, w)
  end.

(** ** Reset and configuration *)

(** Static storage is zero. *)
Definition power_on : dma_state :=
  mkState (replicate 8 dma_zero) 0 0 false (replicate 3 (replicate 16 0)) 0 0 0 0 0 0 0 0 false false false ∅ ∅ 0 0
    0 0 0 0 0 false.

Definition dma_set_params (advanced : bool) (mask : Z) (s : dma_state) : dma_state :=
  s <| dma_advanced := advanced |> <| dma_mask := mask |>.

Definition dma_set_mask (mask : Z) (s : dma_state) : dma_state :=
  s <| dma_mask := mask |>
    <| dma := map (fun d => d <| ab := ab d .& mask |> <| ac := ac d .& mask |>) (dma s) |>.

Definition dma_set_at (at_ : bool) (s : dma_state) : dma_state := s <| dma_at := at_ |>.
Definition dma_set_force_xt (enable : bool) (s : dma_state) : dma_state := s <| dma_force_xt := enable |>.

Definition channel_reset (ps2 : bool) (c : Z) : dma_t :=
  let high := ctrue (c .& 4) in
  dma_zero <| ps2_mode := if ps2 && high then DMA_PS2_SIZE16 else 0 |>
           <| size := cbool high |> <| transfer_mode := if high then 0x0202 else 0x0101 |>.

(** The handlers this file puts on ports, by number; the argument of the
    scatter/gather ones, [&dma[i]], is [i + 1]. *)
Definition ops8 (rd wr : Z) : Io.io_ops :=
  Io.mkOps (Some (Io.Dev rd)) None None (Some (Io.Dev wr)) None None 0.
Definition dma_ops := ops8 1 2.
Definition dma16_ops := ops8 3 4.
Definition page_ops := ops8 5 6.
Definition high_page_ops := ops8 7 8.
Definition ps2_ops := ops8 9 10.
Definition arb_ops := ops8 11 12.
Definition ext_mode_ops : Io.io_ops := Io.mkOps None None None (Some (Io.Dev 13)) None None 0.
Definition sg_int_ops : Io.io_ops := Io.mkOps (Some (Io.Dev 14)) None None None None None 0.
Definition sg_ops (i : Z) : Io.io_ops :=
  Io.mkOps (Some (Io.Dev 15)) (Some (Io.Dev 16)) (Some (Io.Dev 17))
           (Some (Io.Dev 18)) (Some (Io.Dev 19)) (Some (Io.Dev 20)) (i + 1).

(** [dma_set_sg_base] and [dma_remove_sg] do the same calls with
    [io_sethandler] or [io_removehandler]. *)
Definition sg_handler {B} (set_ : Z) (i base : Z) (bus : Io.iobus B) : option (Io.iobus B) :=
  bus ← Io.io_handler set_ (base + 0x10 + i) 0x01 (sg_ops i) bus;
  bus ← Io.io_handler set_ (base + 0x18 + i) 0x01 (sg_ops i) bus;
  Io.io_handler set_ (base + 0x20 + i * 4) 0x04 (sg_ops i) bus.

Definition sg_handlers {B} (set_ base : Z) (bus : Io.iobus B) : option (Io.iobus B) :=
  bus ← Io.io_handler set_ (base + 0x0a) 0x01 sg_int_ops bus;
  foldl (fun bus i => bus ← bus; sg_handler set_ i base bus) (Some bus) (seqZ 0 8).

Definition dma_remove_sg {B} (s : dma_state) (bus : Io.iobus B) : option (Io.iobus B) :=
  sg_handlers 0 (dma_sg_base s) bus.

Definition dma_set_sg_base {B} (sg_base : Z) (s : dma_state) (bus : Io.iobus B)
    : option (dma_state * Io.iobus B) :=
  let s := s <| dma_sg_base := sg_base <<< 8 |> in
  bus ← sg_handlers 1 (dma_sg_base s) bus;
  Some (s, bus).

(** The registers after [dma_reset_legacy]. *)
Definition registers_reset (s : dma_state) : dma_state :=
  s <| dma_wp0 := 0 |> <| dma_wp1 := 0 |> <| dma_m := 0 |> <| dma_e := 0xff |>
    <| dmaregs := [replicate 16 0; replicate 16 0] ++ drop 2 (dmaregs s) |>
    <| dma := map (channel_reset (is_ps2 s)) (seqZ 0 8) |>
    <| dma_stat := 0 |> <| dma_stat_rq := 0 |> <| dma_stat_rq_pc := 0 |> <| dma_stat_adv_pend := 0 |>
    <| dma_req_is_soft := false |> <| dma_advanced := false |>
    <| dma_buffer := ∅ |> <| dma16_buffer := ∅ |>.

Definition legacy_state (s : dma_state) : dma_state :=
  (registers_reset s) <| dma_sg_base := 0x0400 |> <| dma_mask := 0x00ffffff |> <| dma_at := is286 cfg |>.

Definition dma_reset_legacy {B} (s : dma_state) (bus : Io.iobus B) : option (dma_state * Io.iobus B) :=
  bus ← dma_remove_sg (registers_reset s) bus; Some (legacy_state s, bus).

(** What [dma_reset] does after it. *)
Definition reset_tail (s : dma_state) : dma_state :=
  let s := s <| dma_command0 := 0 |> <| dma_command1 := 0 |> in
  let s :=
    if is_ps2 s then
      s <| dma_m := 0xff |> <| byte_ptr := 0 |> <| arb_control := 0 |> <| arb_status := 0 |>
        <| dma := alter (fun d => d <| arb_level := 4 |>) 4%nat
                    (alter (fun d => d <| arb_level := 0 |>) 0%nat (dma s)) |>
    else s in
  if dma_page_is_xt s then s <| dma_m := (dma_m s .& 0xf0) .| 0x0f |> else s.

Definition reset_state (s : dma_state) : dma_state := reset_tail (legacy_state s).

Definition dma_reset {B} (s : dma_state) (bus : Io.iobus B) : option (dma_state * Io.iobus B) :=
  '(_, bus) ← dma_reset_legacy s bus; Some (reset_state s, bus).

Definition dma_init {B} (s : dma_state) (bus : Io.iobus B) : option (dma_state * Io.iobus B) :=
  '(s, bus) ← dma_reset (s <| is_ps2 := false |>) bus;
  bus ← Io.io_sethandler 0x0000 16 dma_ops bus;
  bus ← Io.io_sethandler 0x0080 8 page_ops bus;
  Some (s, bus).

Definition dma16_init {B} (s : dma_state) (bus : Io.iobus B) : option (dma_state * Io.iobus B) :=
  '(s, bus) ← dma_reset s bus;
  bus ← Io.io_sethandler 0x00C0 32 dma16_ops bus;
  bus ← Io.io_sethandler 0x0088 8 page_ops bus;
  Some (s, bus).

Definition ps2_dma_init {B} (s : dma_state) (bus : Io.iobus B) : option (dma_state * Io.iobus B) :=
  '(s, bus) ← dma_reset (s <| is_ps2 := true |>) bus;
  bus ← Io.io_sethandler 0x0018 1 ps2_ops bus;
  bus ← Io.io_sethandler 0x001a 1 ps2_ops bus;
  bus ← Io.io_sethandler 0x0090 1 arb_ops bus;
  Some (s, bus).

Definition dma_ext_mode_init {B} (bus : Io.iobus B) : option (Io.iobus B) :=
  bus ← Io.io_sethandler 0x040b 0x01 ext_mode_ops bus;
  Io.io_sethandler 0x04d6 0x01 ext_mode_ops bus.

Definition dma_high_page_init {B} (bus : Io.iobus B) : option (Io.iobus B) :=
  Io.io_sethandler 0x0480 8 high_page_ops bus.

Definition dma_alias {B} (set_ : Z) (bus : Io.iobus B) : option (Io.iobus B) :=
  bus ← Io.io_handler set_ 0x0090 2 page_ops bus;
  Io.io_handler set_ 0x0093 13 page_ops bus.

Definition dma_alias_set {B} (bus : Io.iobus B) := dma_alias 1 bus.
Definition dma_alias_remove {B} (bus : Io.iobus B) := dma_alias 0 bus.

Definition dma_alias_piix {B} (set_ : Z) (bus : Io.iobus B) : option (Io.iobus B) :=
  bus ← Io.io_handler set_ 0x0090 1 page_ops bus;
  bus ← Io.io_handler set_ 0x0094 3 page_ops bus;
  bus ← Io.io_handler set_ 0x0098 1 page_ops bus;
  Io.io_handler set_ 0x009C 3 page_ops bus.

Definition dma_alias_set_piix {B} (bus : Io.iobus B) := dma_alias_piix 1 bus.
Definition dma_alias_remove_piix {B} (bus : Io.iobus B) := dma_alias_piix 0 bus.

End controllers.
