(* ===== verification/DmaBlock.v ===== *)
(** * DmaBlock: transfers of whole blocks with the controllers of [Dma]

    Programming a channel through its ports, the units of memory a device
    then gets or writes, the registers on the way, transfers from memory to
    memory, and blocks moved on a software request; for the controllers of
    the AT (neither the PS/2's nor with scatter/gather). *)
From S2P Require Import Prelude Dma.

(** ** Bits of the channel registers *)

Lemma bit_pow c : 0 <= c -> bit c = 2 ^ c.
Proof. apply shiftl_1. Qed.

Lemma ctrue_bit_test x c : 0 <= c -> ctrue (x .& bit c) = Z.testbit x c.
Proof. intros. rewrite bit_pow by done. by apply ctrue_bit. Qed.

Lemma clear_absent x c : 0 <= c -> ctrue (x .& bit c) = false -> x .&~ bit c = x.
Proof.
  intros Hc. rewrite ctrue_bit_test, bit_pow by done. intros Hx. apply Z.bits_inj'. intros i Hi.
  rewrite ldiff_bit by done. destruct (Z.eqb_spec i c) as [->|]; [by rewrite Hx|apply andb_true_r].
Qed.

Lemma set_bit_test x c c' : 0 <= c -> 0 <= c' -> ctrue ((x .| bit c) .& bit c') = ctrue (x .& bit c') || (c' =? c).
Proof. intros. rewrite !ctrue_bit_test, bit_pow, lor_bit by done. done. Qed.

Lemma set_bit_twice x y : x .| y .| y = x .| y.
Proof. by rewrite <- Z.lor_assoc, Z.lor_diag. Qed.

(** Two states with the same fields. *)
Lemma state_ext (s s' : dma_state) :
  dma s = dma s' -> dma_e s = dma_e s' -> dma_m s = dma_m s' ->
  dma_force_xt s = dma_force_xt s' -> dmaregs s = dmaregs s' -> dma_wp0 s = dma_wp0 s' ->
  dma_wp1 s = dma_wp1 s' -> dma_stat s = dma_stat s' -> dma_stat_rq s = dma_stat_rq s' ->
  dma_stat_rq_pc s = dma_stat_rq_pc s' -> dma_stat_adv_pend s = dma_stat_adv_pend s' -> dma_command0 s = dma_command0 s' ->
  dma_command1 s = dma_command1 s' -> dma_req_is_soft s = dma_req_is_soft s' -> dma_advanced s = dma_advanced s' ->
  dma_at s = dma_at s' -> dma_buffer s = dma_buffer s' -> dma16_buffer s = dma16_buffer s' ->
  dma_sg_base s = dma_sg_base s' -> dma_mask s = dma_mask s' -> xfr_command s = xfr_command s' ->
  xfr_channel s = xfr_channel s' -> byte_ptr s = byte_ptr s' -> arb_control s = arb_control s' ->
  arb_status s = arb_status s' -> is_ps2 s = is_ps2 s' -> s = s'.
Proof. destruct s, s'. cbn. intros. by subst. Qed.

(** ** Addresses stay in their page *)

(** A channel moves bytes in pages of 64K, or words in pages of 128K. *)
Definition page_bits (d : dma_t) : Z := if size d =? 0 then 16 else 17.
Definition unit_bytes (d : dma_t) : Z := if size d =? 0 then 1 else 2.
Definition direction (d : dma_t) : Z := if ctrue (mode d .& 0x20) then -1 else 1.

(** The address [k] units after [a]. *)
Definition unit_addr (d : dma_t) (a k : Z) : Z :=
  (a >>> page_bits d) * 2 ^ page_bits d + (a + direction d * k * unit_bytes d) `mod` 2 ^ page_bits d.

(** The page of [a] is within the address mask. *)
Definition page_in_mask (mask p a : Z) : Prop := ((a >>> p) <<< p) .& mask = (a >>> p) <<< p.

Lemma page_bits_pos d : 16 <= page_bits d <= 17.
Proof. unfold page_bits. by destruct (size d =? 0). Qed.

Lemma unit_addr_page d a k : unit_addr d a k >>> page_bits d = a >>> page_bits d.
Proof.
  unfold unit_addr. pose proof (page_bits_pos d). rewrite Z.shiftr_div_pow2 at 1 by lia.
  assert (0 < 2 ^ page_bits d) by (apply Z.pow_pos_nonneg; lia).
  rewrite Z.div_add_l, (Z.div_small (_ `mod` _)) by (try apply Z.mod_pos_bound; lia). lia.
Qed.

Lemma unit_addr_mod d a k :
  unit_addr d a k `mod` 2 ^ page_bits d = (a + direction d * k * unit_bytes d) `mod` 2 ^ page_bits d.
Proof. unfold unit_addr. rewrite Z.add_comm, Z_mod_plus_full. apply Zmod_mod. Qed.

Lemma unit_addr_add d a k k' : unit_addr d (unit_addr d a k) k' = unit_addr d a (k + k').
Proof.
  unfold unit_addr at 1. rewrite unit_addr_page. unfold unit_addr at 2. f_equal.
  rewrite <- Zplus_mod_idemp_l, unit_addr_mod, Zplus_mod_idemp_l. f_equal. lia.
Qed.

Lemma split_page p a : 0 <= p -> a = (a >>> p) * 2 ^ p + a `mod` 2 ^ p.
Proof.
  intros Hp. rewrite Z.shiftr_div_pow2 by done. rewrite Z.mul_comm. apply Z.div_mod.
  by apply Z.pow_nonzero.
Qed.

Lemma unit_addr_0 d a : unit_addr d a 0 = a.
Proof.
  unfold unit_addr. replace (a + _) with a by lia. symmetry. apply split_page.
  pose proof (page_bits_pos d). lia.
Qed.

Lemma in_width_page p q a : 0 <= p <= q -> in_width q a ->
  in_width q ((a >>> p) * 2 ^ p + 0) /\ 0 <= a >>> p < 2 ^ (q - p).
Proof.
  intros Hp [Ha Hq]. assert (2 ^ q = 2 ^ (q - p) * 2 ^ p) as E by (rewrite <- Z.pow_add_r by lia; f_equal; lia).
  rewrite Z.shiftr_div_pow2 by lia. assert (0 < 2 ^ p) by (apply Z.pow_pos_nonneg; lia).
  pose proof (Z.div_pos a (2 ^ p) Ha ltac:(lia)). pose proof (Z.mul_div_le a (2 ^ p) ltac:(lia)).
  split; [split; lia|]. split; [lia|]. apply Z.div_lt_upper_bound; lia.
Qed.

Lemma unit_addr_range d a k : is_u32 a -> is_u32 (unit_addr d a k).
Proof.
  intros Ha. pose proof (page_bits_pos d). destruct (in_width_page (page_bits d) 32 a ltac:(lia) Ha) as [_ Hp].
  unfold unit_addr. assert (2 ^ 32 = 2 ^ (32 - page_bits d) * 2 ^ page_bits d) as E
    by (rewrite <- Z.pow_add_r by lia; f_equal; lia).
  assert (0 < 2 ^ page_bits d) by (apply Z.pow_pos_nonneg; lia).
  pose proof (Z.mod_pos_bound (a + direction d * k * unit_bytes d) (2 ^ page_bits d) ltac:(lia)).
  unfold in_width. nia.
Qed.

Lemma page_of p a hi : 0 <= p -> is_u32 a -> hi = Z.ones 32 .&~ Z.ones p -> a .& hi = (a >>> p) <<< p.
Proof.
  intros Hp Ha ->. apply Z.bits_inj'. intros i Hi.
  rewrite !Z.land_spec, Z.lnot_spec by done. destruct (decide (i < p)).
  - rewrite (Z.ones_spec_low p) by lia. rewrite Z.shiftl_spec_low by lia. by rewrite !andb_false_r.
  - rewrite (Z.ones_spec_high p), Z.shiftl_spec, Z.shiftr_spec by lia. replace (i - p + p) with i by lia.
    rewrite andb_true_r. destruct (decide (i < 32)).
    + by rewrite Z.ones_spec_low, andb_true_r by lia.
    + rewrite Z.ones_spec_high by lia. rewrite andb_false_r. symmetry. apply (in_width_testbit 32); [lia|done|lia].
Qed.

(** The C expression of the six address updates. *)
Lemma next_address mask p hi lo a x :
  0 <= p -> is_u32 a -> hi = Z.ones 32 .&~ Z.ones p -> lo = Z.ones p -> page_in_mask mask p a ->
  (a .& hi .& mask) .| (x .& lo) = (a >>> p) * 2 ^ p + x `mod` 2 ^ p.
Proof.
  intros Hp Ha Hhi -> Hm. rewrite (page_of p a hi), Hm, land_mask by done. rewrite Z.lor_comm, lor_shiftl_add; [lia|done|].
  apply Z.mod_pos_bound. by apply Z.pow_pos_nonneg.
Qed.

Definition in_page (mask : Z) (d : dma_t) : Prop := is_u32 (ac d) /\ page_in_mask mask (page_bits d) (ac d).

(** The controllers of the AT: neither the PS/2's nor a PCI chipset's. *)
Definition classic (s : dma_state) : Prop := is_ps2 s = false /\ dma_advanced s = false.

Definition step_unit (s : dma_state) (d : dma_t) : dma_t := if size d =? 0 then step8 s d else step16 s d.

Lemma step_unit_addr s d :
  classic s -> in_page (dma_mask s) d -> step_unit s d = d <| ac := unit_addr d (ac d) 1 |>.
Proof.
  intros [Hp Ha] [Hw Hm]. unfold step_unit, step8, step16, unit_addr, page_bits, unit_bytes, direction in *.
  rewrite Hp, Ha. destruct (size d =? 0), (ctrue (mode d .& 0x20)).
  1,2: by rewrite (next_address _ 16 _ _ (ac d)) by done.
  1,2: by rewrite (next_address _ 17 _ _ (ac d)) by done.
Qed.

Lemma page_in_mask_unit mask d a k :
  page_in_mask mask (page_bits d) a -> page_in_mask mask (page_bits d) (unit_addr d a k).
Proof. unfold page_in_mask. by rewrite unit_addr_page. Qed.

Lemma in_page_moved mask d k n :
  in_page mask d -> in_page mask (d <| ac := unit_addr d (ac d) k |> <| cc := n |>).
Proof.
  intros [Hw Hm]. split; [exact (unit_addr_range d _ k Hw)|exact (page_in_mask_unit mask d _ k Hm)].
Qed.

(** A channel [k] units later. *)
Abbreviation moved d k := (d <| ac := unit_addr d (ac d) k |> <| cc := cc d - k |>).

(** ** Transfers of a block *)

Section transfers.
Context {W : Type} `{DmaMachine W} (cfg : dma_config).
Implicit Types (s : dma_state) (d : dma_t) (w : W).

(** The data of one unit, as bytes in memory. *)
Definition fetch d (a : Z) w : Z * W :=
  if size d =? 0 then mem_readb_phys a w
  else
    let '(lo, w) := mem_readb_phys a w in
    let '(hi, w) := mem_readb_phys (u32 (a + 1)) w in (lo .| (hi <<< 8), w).

Definition store_byte (at_ : bool) (a v : Z) w : W :=
  let w := mem_writeb_phys a v w in if at_ then mem_invalidate_range a a w else w.

Definition store (at_ : bool) d (a v : Z) w : W :=
  if size d =? 0 then store_byte at_ a (v .& 0xff) w
  else store_byte at_ (u32 (a + 1)) (v >>> 8) (store_byte at_ a (v .& 0xff) w).

(** A channel that accepts transfers of [d]'s type and has none half done. *)
Record serving s (c : Z) d : Prop := {
  serving_chan : arr_get (dma s) c = Some d;
  serving_range : 0 <= c < 8;
  serving_granted : refused s c = false;
  serving_classic : classic s;
  serving_page : in_page (dma_mask s) d;
  serving_count : 0 <= cc d < 2 ^ 31;
  serving_done : ctrue (dma_stat_adv_pend s .& bit c) = false;
}.

(** The controllers after the unit [k] of a block of [N] + 1 that started
    at [s] with the channel [d]. *)
Definition after_units (c : Z) (k : Z) s d : dma_state :=
  put c (d <| ac := unit_addr d (ac d) k |> <| cc := cc d - k |>) s
    <| dma_stat_rq := dma_stat_rq s .| bit c |>.

(** The end of the block: reloaded or masked. *)
Definition at_terminal (c : Z) s d : dma_state :=
  let s := s <| dma_stat_rq := dma_stat_rq s .| bit c |> <| dma_stat := dma_stat s .| bit c |> in
  if ctrue (mode d .& 0x10) then put c (d <| cc := cb d |> <| ac := ab d |>) s
  else put c (d <| ac := unit_addr d (ac d) (cc d + 1) |> <| cc := -1 |>) s
         <| dma_m := dma_m s .| bit c |>.

Lemma read_unit_classic s d w :
  classic s -> in_page (dma_mask s) d ->
  read_unit s d w = Some ((fetch d (ac d) w).1, d <| ac := unit_addr d (ac d) 1 |>, (fetch d (ac d) w).2).
Proof.
  intros Hc Hd. pose proof (step_unit_addr s d Hc Hd) as Hs. destruct Hc as [_ Ha].
  unfold read_unit, fetch, _dma_readw, _dma_read, step_unit in *. rewrite Ha. destruct (size d =? 0).
  - destruct (mem_readb_phys (ac d) w). cbn. by rewrite Hs.
  - destruct (mem_readb_phys (ac d) w) as [lo w1]. cbn.
    destruct (mem_readb_phys (u32 (ac d + 1)) w1). cbn. by rewrite Hs.
Qed.

Lemma write_unit_classic s type val d w :
  classic s -> in_page (dma_mask s) d ->
  write_unit s type val d w
  = Some (d <| ac := unit_addr d (ac d) 1 |>,
          if type =? 4 then store (dma_at s) d (ac d) val w else w).
Proof.
  intros Hc Hd. pose proof (step_unit_addr s d Hc Hd) as Hs. destruct Hc as [_ Ha].
  unfold write_unit, store, _dma_writew, _dma_write, step_unit in *. rewrite Ha.
  destruct (size d =? 0), (type =? 4); cbn; by rewrite Hs.
Qed.

Lemma count_down_classic s c d w :
  classic s ->
  count_down s c d w =
    let n := swrap 32 (cc d - 1) in
    if n <? 0 then
      if ctrue (mode d .& 0x10)
      then (true, s <| dma_stat := dma_stat s .| bit c |>, d <| cc := cb d |> <| ac := ab d |>, w)
      else (true, s <| dma_m := dma_m s .| bit c |> <| dma_stat := dma_stat s .| bit c |>, d <| cc := n |>, w)
    else (false, s, d <| cc := n |>, w).
Proof.
  intros [_ Ha]. unfold count_down. rewrite Ha. change (cc (d <| cc := ?n |>)) with n. cbv zeta.
  destruct (swrap 32 (cc d - 1) <? 0); [|done].
  cbn [andb]. by destruct (ctrue (mode d .& 0x10)) eqn:E; fields; rewrite E.
Qed.

(** A count that is not negative does not wrap around. *)
Lemma count_down_served s c d w :
  classic s -> 0 <= cc d < 2 ^ 31 ->
  count_down s c d w =
    if cc d <=? 0 then
      if ctrue (mode d .& 0x10)
      then (true, s <| dma_stat := dma_stat s .| bit c |>, d <| cc := cb d |> <| ac := ab d |>, w)
      else (true, s <| dma_m := dma_m s .| bit c |> <| dma_stat := dma_stat s .| bit c |>,
            d <| cc := cc d - 1 |>, w)
    else (false, s, d <| cc := cc d - 1 |>, w).
Proof.
  intros Hs Hn. rewrite count_down_classic by done. cbv zeta. rewrite swrap_id by lia.
  by replace (cc d - 1 <? 0) with (cc d <=? 0) by decide_z.
Qed.

Lemma sg_interrupt_classic s d w : classic s -> sg_interrupt s d w = (d, w).
Proof. intros [_ Ha]. unfold sg_interrupt. by rewrite Ha. Qed.

Lemma put_range s c d x : arr_get (dma s) c = Some d -> arr_get (dma (put c x s)) c = Some x.
Proof.
  intros [Hc Hl]%arr_get_Some. apply arr_get_Some. split; [done|].
  apply list_lookup_insert_eq, lookup_lt_Some with d, Hl.
Qed.

Lemma put_other s c c' x : 0 <= c -> c <> c' -> arr_get (dma (put c x s)) c' = arr_get (dma s) c'.
Proof.
  intros Hc Hne. unfold arr_get, put. fields. case_decide; [|done]. apply list_lookup_insert_ne. lia.
Qed.

Lemma put_same s c d : arr_get (dma s) c = Some d -> put c d s = s.
Proof.
  intros [Hc Hl]%arr_get_Some. unfold put. rewrite list_insert_id by done. by destruct s.
Qed.

Lemma put_twice s c x y : put c x (put c y s) = put c x s.
Proof. unfold put. fields. by rewrite list_insert_insert_eq. Qed.

(** One read, before and at the terminal count. *)
Lemma channel_read_step s c d w :
  serving s c d -> mode d .& 0xc = 8 ->
  let '(v, w') := fetch d (ac d) (refresh cfg s c w) in
  dma_channel_read cfg c s w =
    if cc d <=? 0 then Some (v .| DMA_OVER, at_terminal c s d, w')
    else Some (v, after_units c 1 s d, w').
Proof.
  intros [Hd Hr Hg Hc Hp Hn Ha] Hm. destruct (fetch _ _ _) as [v w'] eqn:Hf.
  unfold dma_channel_read. rewrite Hd. cbn [mbind option_bind]. rewrite Hg, Hm, Z.eqb_refl. cbn [orb negb].
  rewrite Ha. cbn [mbind option_bind]. rewrite Hd. cbn [mbind option_bind].
  rewrite read_unit_classic, Hf by done. cbn [mbind option_bind fst snd].
  rewrite count_down_served by done.
  change (mode (d <| ac := unit_addr d (ac d) 1 |>)) with (mode d).
  change (cc (d <| ac := unit_addr d (ac d) 1 |>)) with (cc d).
  destruct (Z.leb_spec (cc d) 0) as [Hz|]; [|done]. unfold at_terminal.
  assert (cc d = 0) as -> by lia.
  destruct (ctrue (mode d .& 0x10)); by rewrite sg_interrupt_classic.
Qed.

Lemma write_result s (b : bool) c d w :
  classic s ->
  (if b then let '(d, w) := sg_interrupt s d w in Some (DMA_OVER, put c d s, w) else Some (0, put c d s, w))
  = Some (if b then DMA_OVER else 0, put c d s, w).
Proof. intros. rewrite sg_interrupt_classic by done. by destruct b. Qed.

Lemma channel_write_step s c d val w :
  serving s c d -> mode d .& 0xc = 4 \/ mode d .& 0xc = 0 ->
  let w' := if mode d .& 0xc =? 4 then store (dma_at s) d (ac d) val w else w in
  let s' := if cc d <=? 0 then at_terminal c s d else after_units c 1 s d in
  dma_channel_write c val s w = Some (if ctrue (dma_m s' .& bit c) then DMA_OVER else 0, s', w').
Proof.
  intros [Hd Hr Hg Hc Hp Hn Ha] Hm w' s'. unfold dma_channel_write. rewrite Hd. cbn [mbind option_bind].
  rewrite Hg. cbn [orb].
  replace (negb ((mode d .& 0x0c =? 4) || (mode d .& 0x0c =? 0))) with false by (by destruct Hm as [->| ->]).
  rewrite write_unit_classic by done. cbn [mbind option_bind].
  rewrite count_down_served by done. fold w'.
  change (mode (d <| ac := unit_addr d (ac d) 1 |>)) with (mode d).
  change (cc (d <| ac := unit_addr d (ac d) 1 |>)) with (cc d).
  set (s1 := s <| dma_stat_rq := _ |>).
  replace (s1 <| dma_stat_adv_pend := dma_stat_adv_pend s .&~ bit c |>) with s1
    by (rewrite (clear_absent _ c) by (done || lia); by destruct s).
  subst s'. unfold at_terminal, after_units. destruct (Z.leb_spec (cc d) 0) as [Hz|]; [|by apply write_result].
  assert (cc d = 0) as -> by lia. destruct (ctrue (mode d .& 0x10)); by apply write_result.
Qed.

(** *** Blocks *)

(** [n] reads, or a write for each value, one after the other. *)
Fixpoint channel_reads (n : nat) (c : Z) s w : option (list Z * dma_state * W) :=
  match n with
  | O => Some ([], s, w)
  | S n =>
      '(v, s, w) ← dma_channel_read cfg c s w;
      '(vs, s, w) ← channel_reads n c s w;
      Some (v :: vs, s, w)
  end.

Fixpoint channel_writes (vals : list Z) (c : Z) s w : option (list Z * dma_state * W) :=
  match vals with
  | [] => Some ([], s, w)
  | val :: vals =>
      '(r, s, w) ← dma_channel_write c val s w;
      '(rs, s, w) ← channel_writes vals c s w;
      Some (r :: rs, s, w)
  end.

(** What they do to memory: consecutive units from the unit [k] on. *)
Fixpoint fetch_block (n : nat) s (c : Z) d (k : Z) w : list Z * W :=
  match n with
  | O => ([], w)
  | S n =>
      let '(v, w) := fetch d (unit_addr d (ac d) k) (refresh cfg s c w) in
      let '(vs, w) := fetch_block n s c d (k + 1) w in
      (v :: vs, w)
  end.

Fixpoint store_block (vals : list Z) (at_ : bool) d (k : Z) w : W :=
  match vals with
  | [] => w
  | val :: vals => store_block vals at_ d (k + 1) (store at_ d (unit_addr d (ac d) k) val w)
  end.

Lemma fetch_block_S n s c d k w :
  fetch_block (S n) s c d k w =
    let '(v, w) := fetch d (unit_addr d (ac d) k) (refresh cfg s c w) in
    let '(vs, w) := fetch_block n s c d (k + 1) w in (v :: vs, w).
Proof. done. Qed.

Lemma channel_reads_S n c s w :
  channel_reads (S n) c s w =
    '(v, s, w) ← dma_channel_read cfg c s w; '(vs, s, w) ← channel_reads n c s w; Some (v :: vs, s, w).
Proof. done. Qed.

Lemma moved_addr d j k : unit_addr (moved d j) (ac (moved d j)) k = unit_addr d (ac d) (j + k).
Proof. exact (unit_addr_add d (ac d) j k). Qed.

Lemma fetch_block_moved n s s' c d j k w :
  dma_at s' = dma_at s -> fetch_block n s' c (moved d j) k w = fetch_block n s c d (j + k) w.
Proof.
  intros Hs. revert k w. induction n as [|n IH]; intros k w; [done|]. cbn [fetch_block].
  rewrite moved_addr. replace (refresh cfg s' c w) with (refresh cfg s c w) by (unfold refresh; by rewrite Hs).
  change (fetch (moved d j)) with (fetch d). destruct (fetch _ _ _). rewrite IH.
  by replace (j + (k + 1)) with (j + k + 1) by lia.
Qed.

Lemma store_block_moved vals at_ d j k w :
  store_block vals at_ (moved d j) k w = store_block vals at_ d (j + k) w.
Proof.
  revert k w. induction vals as [|v vals IH]; intros k w; [done|]. cbn [store_block].
  rewrite moved_addr. change (store at_ (moved d j)) with (store at_ d). rewrite IH.
  by replace (j + (k + 1)) with (j + k + 1) by lia.
Qed.

Lemma serving_after s c d :
  serving s c d -> 0 < cc d -> serving (after_units c 1 s d) c (moved d 1).
Proof.
  intros [Hd Hr Hg Hc Hp Hn Ha] Hpos. split; try done.
  - by apply (put_range s c d).
  - exact (in_page_moved (dma_mask s) d 1 (cc d - 1) Hp).
  - change (0 <= cc d - 1 < 2 ^ 31). lia.
Qed.

Lemma terminal_after s c d :
  at_terminal c (after_units c 1 s d) (moved d 1) = at_terminal c s d.
Proof.
  unfold at_terminal, after_units.
  change (mode (moved d 1)) with (mode d). rewrite moved_addr.
  replace (1 + (cc (moved d 1) + 1)) with (cc d + 1) by (change (cc (moved d 1)) with (cc d - 1); lia).
  destruct (ctrue (mode d .& 0x10)); apply state_ext; lazymatch goal with
  | |- dma _ = _ => exact (list_insert_insert_eq _ _ _ _)
  | |- dma_stat_rq _ = _ => exact (set_bit_twice _ _)
  | _ => reflexivity
  end.
Qed.

Lemma channel_reads_block n s c d w :
  serving s c d -> mode d .& 0xc = 8 -> cc d = Z.of_nat n ->
  exists vs v w', fetch_block (S n) s c d 0 w = (vs ++ [v], w') /\
    channel_reads (S n) c s w = Some (vs ++ [v .| DMA_OVER], at_terminal c s d, w').
Proof.
  revert s d w. induction n as [|n IH]; intros s d w Hs Hm Hn.
  - pose proof (channel_read_step s c d w Hs Hm) as Hstep.
    cbn [fetch_block channel_reads]. rewrite unit_addr_0.
    destruct (fetch d (ac d) _) as [v w']. rewrite Hstep, Hn. exists [], v, w'. done.
  - pose proof (channel_read_step s c d w Hs Hm) as Hstep.
    rewrite fetch_block_S, channel_reads_S, unit_addr_0.
    destruct (fetch d (ac d) _) as [v w1]. rewrite Hstep.
    replace (cc d <=? 0) with false by decide_z. cbn [mbind option_bind].
    destruct (IH (after_units c 1 s d) (moved d 1) w1) as (vs & v' & w' & Hf & Hr).
    + apply serving_after; [done|lia].
    + done.
    + change (cc (moved d 1)) with (cc d - 1). lia.
    + rewrite (fetch_block_moved (S n) s) in Hf by done. change (0 + 1) with (1 + 0). rewrite Hf, Hr. cbn [mbind option_bind]. rewrite terminal_after.
      by exists (v :: vs), v', w'.
Qed.

Lemma mask_at_terminal s c d :
  0 <= c < 8 ->
  ctrue (dma_m (at_terminal c s d) .& bit c) = ctrue (dma_m s .& bit c) || negb (ctrue (mode d .& 0x10)).
Proof.
  intros Hc. unfold at_terminal. destruct (ctrue (mode d .& 0x10)); unfold put; fields.
  - by rewrite orb_false_r.
  - rewrite set_bit_test, Z.eqb_refl by lia. by rewrite orb_true_r.
Qed.

Lemma channel_writes_block n s c d vals val w :
  serving s c d -> mode d .& 0xc = 4 -> cc d = Z.of_nat n -> length vals = n ->
  ctrue (dma_m s .& bit c) = false ->
  channel_writes (vals ++ [val]) c s w =
    Some (replicate n 0 ++ [if ctrue (mode d .& 0x10) then 0 else DMA_OVER], at_terminal c s d,
          store_block (vals ++ [val]) (dma_at s) d 0 w).
Proof.
  revert s d vals w. induction n as [|n IH]; intros s d vals w Hs Hm Hn Hl Hk.
  - apply nil_length_inv in Hl as ->. cbn [app channel_writes store_block].
    rewrite (channel_write_step s c d val w Hs (or_introl Hm)), Hn, Hm, unit_addr_0. cbn [Z.leb].
    cbn [mbind option_bind replicate app].
    change (Z.of_nat 0 <=? 0) with true. cbv iota. rewrite mask_at_terminal, Hk by apply Hs.
    by destruct (ctrue (mode d .& 0x10)).
  - destruct vals as [|v vals]; [done|]. cbn [app channel_writes store_block replicate].
    rewrite (channel_write_step s c d v w Hs (or_introl Hm)), Hm, unit_addr_0.
    replace (cc d <=? 0) with false by decide_z. cbn [mbind option_bind].
    change (dma_m (after_units c 1 s d)) with (dma_m s). rewrite Hk.
    rewrite (IH (after_units c 1 s d) (moved d 1) vals).
    + cbn [mbind option_bind]. by rewrite terminal_after, store_block_moved.
    + apply serving_after; [done|lia].
    + done.
    + change (cc (moved d 1)) with (cc d - 1). lia.
    + by injection Hl.
    + done.
Qed.
End transfers.

(** ** Programming a channel through its ports *)

(** Two values of [w] bits are equal when their bits are, one by one. *)
Lemma bits_equal w (x y : Z) :
  0 <= w -> in_width w x -> in_width w y ->
  (forall i, 0 <= i -> Forall (fun j => i = j -> Z.testbit x i = Z.testbit y i) (seqZ 0 w)) -> x = y.
Proof.
  intros Hw Hx Hy Hf. apply in_width_testbit in Hx as [_ Hx], Hy as [_ Hy]; [|done..].
  apply Z.bits_inj'. intros i Hi. destruct (decide (i < w)); [|by rewrite Hx, Hy by lia].
  specialize (Hf i Hi). rewrite Forall_forall in Hf. apply (Hf i); [apply elem_of_seqZ; lia|done].
Qed.

Lemma in_width_shiftl w k x : 0 <= w -> 0 <= k -> in_width w x -> in_width (w + k) (x <<< k).
Proof.
  intros Hw Hk [? Hx]. rewrite Z.shiftl_mul_pow2 by done. unfold in_width. rewrite Z.pow_add_r by done.
  assert (0 < 2 ^ k) by (by apply Z.pow_pos_nonneg). nia.
Qed.

Lemma in_width_high k w x : 0 <= k -> 0 <= w -> in_width (w + k) x -> in_width w (x >>> k).
Proof.
  intros Hk Hw [Hx Hlt]. rewrite Z.pow_add_r in Hlt by done. rewrite Z.shiftr_div_pow2 by done.
  assert (0 < 2 ^ k) by (by apply Z.pow_pos_nonneg).
  split; [by apply Z.div_pos|]. apply Z.div_lt_upper_bound; lia.
Qed.

(** Compares expressions of masks, shifts and [|] bit by bit. *)
Ltac bit_cases :=
  let i := fresh "i" in let Hi := fresh "Hi" in
  intros i Hi;
  repeat (rewrite ?Z.lor_spec, ?Z.land_spec; rewrite ?Z.shiftl_spec, ?Z.shiftr_spec by lia);
  match goal with |- Forall _ ?l => let l' := eval vm_compute in l in change l with l' end;
  repeat (apply Forall_cons_2;
    [intros ->; rewrite ?Z.shiftr_spec by lia; cbn;
     rewrite ?andb_true_r, ?andb_false_r, ?orb_false_r; try done|]);
  constructor.

(** The bytes of a start address, as they are written. *)
Lemma address_written a A :
  in_width 24 A ->
  (((((a .& 0xffffff00 .& 0xffffff) .| (A .& 0xff)) .& 0xffff00ff .& 0xffffff) .| (((A >>> 8) .& 0xff) <<< 8))
   .& 0xff00ffff .& 0xffffff) .| ((A >>> 16) <<< 16) = A.
Proof.
  intros HA. apply (bits_equal 24); [lia| |done|].
  - apply in_width_lor; [lia|width|]. apply (in_width_shiftl 8 16); [lia..|]. by apply (in_width_high 16 8).
  - bit_cases.
Qed.

Lemma address16_written a A :
  in_width 24 A -> Z.even A = true ->
  (((((a .& 0xfffffe00 .& 0xffffff) .| (((A >>> 1) .& 0xff) <<< 1)) .& 0xfffe01ff .& 0xffffff)
     .| (((A >>> 9) .& 0xff) <<< 9)) .& 0xff01ffff .& 0xffffff) .| (((A >>> 16) .& 0xfe) <<< 16) = A.
Proof.
  intros HA He. rewrite <- Z.negb_odd, <- Z.bit0_odd, negb_true_iff in He.
  apply (bits_equal 24); [lia| |done|].
  - apply in_width_lor; [lia|width|]. apply (in_width_shiftl 8 16); [lia..|width].
  - bit_cases.
Qed.

Lemma count_written a N :
  is_u16 N ->
  (((a .& 0xff00) .| (N .& 0xff)) .& 0x00ff) .| ((N >>> 8) <<< 8) = N.
Proof.
  intros HN. apply (bits_equal 16); [lia| |done|].
  - apply in_width_lor; [lia|width|]. apply (in_width_shiftl 8 8); [lia..|]. by apply (in_width_high 8 8).
  - bit_cases.
Qed.

(** The channels but the cascade. *)
Definition is_channel (c : Z) : Prop := c ∈ [0; 1; 2; 3; 5; 6; 7].

Ltac channel_cases Hc :=
  unfold is_channel in Hc; set_unfold in Hc;
  repeat (destruct Hc as [->|Hc]); [..|subst|done].

Section programming.
Context {W : Type} `{DmaMachine W} (cfg : dma_config).

(** Where [dma_init] and [dma16_init] put the handlers. *)
Definition dma_outb (port val : Z) (s : dma_state) (w : W) : option (dma_state * W) :=
  if port <? 0x10 then dma_write cfg port val s w
  else if (0x80 <=? port) && (port <? 0x90) then dma_page_write cfg port val s w
  else if (0xc0 <=? port) && (port <? 0xe0) then dma16_write cfg port val s w
  else None.

Definition dma_inb (port : Z) (s : dma_state) (w : W) : option (Z * dma_state) :=
  if port <? 0x10 then dma_read port s
  else if (0x80 <=? port) && (port <? 0x90) then v ← dma_page_read cfg port s w; Some (v, s)
  else if (0xc0 <=? port) && (port <? 0xe0) then dma16_read port s
  else None.

Fixpoint dma_outs (l : list (Z * Z)) (s : dma_state) (w : W) : option (dma_state * W) :=
  match l with
  | [] => Some (s, w)
  | (port, val) :: l => '(s, w) ← dma_outb port val s w; dma_outs l s w
  end.

(** The ports of the channel [c]: the register [r] of its controller, its
    address and its count, its page. *)
Definition register_port (c r : Z) : Z := if c <? 4 then r else 0xc0 + 2 * r.
Definition address_port (c : Z) : Z := register_port c (2 * (c .& 3)).
Definition count_port (c : Z) : Z := register_port c (2 * (c .& 3) + 1).
Definition page_port (c : Z) : Z := nth (Z.to_nat c) [0x87; 0x83; 0x81; 0x82; 0x8f; 0x8b; 0x89; 0x8a] 0.

(** What a driver writes to transfer [N] + 1 units from the address [A]:
    the second controller takes the address of a word. *)
Definition setup (c md A N : Z) : list (Z * Z) :=
  let a := if c <? 4 then A else A >>> 1 in
  [(register_port c 0xc, 0);
   (address_port c, a .& 0xff); (address_port c, (a >>> 8) .& 0xff);
   (count_port c, N .& 0xff); (count_port c, N >>> 8);
   (page_port c, A >>> 16);
   (register_port c 0xb, md);
   (register_port c 0xa, c .& 3)].

(** Controllers that are enabled and idle, as after reset, with 24 address
    bits; byte channels on the first and word channels on the second. *)
Record at_rest (s : dma_state) : Prop := {
  rest_classic : classic s;
  rest_mask : dma_mask s = 0xffffff;
  rest_command : dma_command0 s = 0 /\ dma_command1 s = 0;
  rest_e : dma_e s = 0xff;
  rest_pend : dma_stat_adv_pend s = 0;
  rest_chan : forall c, 0 <= c < 8 -> exists d, arr_get (dma s) c = Some d /\ size d = cbool (4 <=? c);
}.

Definition wp (c : Z) (s : dma_state) : Z := if c <? 4 then dma_wp0 s else dma_wp1 s.
Definition address_set (c : Z) := if c <? 4 then write_address else write_address16.

(** What programming leaves alone. *)
Definition config (s : dma_state) :=
  (is_ps2 s, dma_advanced s, dma_mask s, (dma_at s, dma_force_xt s), (dma_command0 s, dma_command1 s),
   (dma_e s, dma_stat_adv_pend s, dma_req_is_soft s), dma_stat s).

(** The channel [c] is now [d], and its flip-flop [v]. *)
Definition stepped (c : Z) (d : dma_t) (v : Z) (s s' : dma_state) : Prop :=
  config s' = config s /\ arr_get (dma s') c = Some d /\ wp c s' = v.

Lemma outb_clear_ff c d s (w : W) :
  is_channel c -> arr_get (dma s) c = Some d ->
  exists s', dma_outb (register_port c 0xc) 0 s w = Some (s', w) /\ stepped c d 0 s s'.
Proof. intros Hc Hd. channel_cases Hc; eexists; (split; [reflexivity|]); by split_and!. Qed.

(** A write that [on_channel] does to the channel [c]. *)
Lemma on_channel_stepped c f d v s s1 (w : W) :
  arr_get (dma s) c = Some d -> config s1 = config s -> dma s1 = dma s -> wp c s1 = v ->
  exists s', return_ w (on_channel c f s1) = Some (s', w) /\ stepped c (f d) v s s'.
Proof.
  intros Hd Hs Hd1 Hv. unfold return_, on_channel. rewrite Hd1, Hd. cbn [mbind option_bind].
  eexists. split; [reflexivity|]. split; [exact Hs|]. split; [|exact Hv].
  apply (put_range s1 c d). by rewrite Hd1.
Qed.

Lemma outb_address c d v s (w : W) :
  is_channel c -> classic s -> arr_get (dma s) c = Some d ->
  exists s', dma_outb (address_port c) v s w = Some (s', w) /\
    stepped c (address_set c (ctrue (wp c s .^ 1)) (dma_mask s) v d) (wp c s .^ 1) s s'.
Proof.
  intros Hc [Hp _] Hd. channel_cases Hc.
  1-4: by apply (on_channel_stepped _ _ d _ s).
  all: match goal with |- context [address_port ?c] =>
    destruct (on_channel_stepped c
      (if is_ps2 s then write_address (ctrue (dma_wp1 s .^ 1)) (dma_mask s) v
       else write_address16 (ctrue (dma_wp1 s .^ 1)) (dma_mask s) v) d (dma_wp1 s .^ 1) s
      (regs_set 1 ((address_port c >>> 1) .& 0xf) v (s <| dma_wp1 := dma_wp1 s .^ 1 |>)) w Hd)
      as (s' & E & Hs); [done..|]; rewrite Hp in Hs; by exists s' end.
Qed.

Lemma outb_count c d v s (w : W) :
  is_channel c -> arr_get (dma s) c = Some d ->
  exists s', dma_outb (count_port c) v s w = Some (s', w) /\
    stepped c (write_count (ctrue (wp c s .^ 1)) v d) (wp c s .^ 1) s s'.
Proof. intros Hc Hd. channel_cases Hc; by apply (on_channel_stepped _ _ d _ s). Qed.

Lemma outb_page c d v s (w : W) :
  is_channel c -> xt_ibm5550 cfg = false -> arr_get (dma s) c = Some d ->
  exists s', dma_outb (page_port c) v s w = Some (s', w) /\
    stepped c (write_page (dma_page_is_xt s) (dma_mask s) c v d) (wp c s) s s'.
Proof.
  intros Hc Hm Hd. unfold dma_outb, dma_page_write. rewrite Hm.
  channel_cases Hc; by apply (on_channel_stepped _ _ d _ s).
Qed.

Lemma outb_mode c d v s (w : W) :
  is_channel c -> classic s -> v .& 3 = c .& 3 -> arr_get (dma s) c = Some d ->
  exists s', dma_outb (register_port c 0xb) v s w = Some (s', w) /\
    stepped c (d <| mode := v |>) (wp c s) s s'.
Proof.
  intros Hc [Hp _] Hv Hd.
  assert (forall b s1, is_ps2 s1 = is_ps2 s -> write_mode s1 b v d = d <| mode := v |>) as Hw
    by (intros b s1 E; unfold write_mode; by rewrite E, Hp).
  assert (exists b, dma_outb (register_port c 0xb) v s w =
    let s1 := regs_set (if c <? 4 then 0%nat else 1%nat) 0xb v s in
    return_ w (on_channel (if c <? 4 then v .& 3 else (v .& 3) + 4) (write_mode s1 b v) s1)) as [b ->]
    by (channel_cases Hc; by eexists).
  cbv zeta. replace (if c <? 4 then v .& 3 else (v .& 3) + 4) with c
    by (rewrite Hv; clear Hv Hw Hd; by channel_cases Hc).
  destruct (on_channel_stepped c (write_mode (regs_set (if c <? 4 then 0%nat else 1%nat) 0xb v s) b v) d
    (wp c s) s (regs_set (if c <? 4 then 0%nat else 1%nat) 0xb v s) w Hd) as (s' & E & Hs); [done..|].
  rewrite Hw in Hs by done. by exists s'.
Qed.

Lemma outb_unmask c d s (w : W) :
  is_channel c -> arr_get (dma s) c = Some d ->
  exists s', dma_outb (register_port c 0xa) (c .& 3) s w = Some (s', w) /\
    stepped c d (wp c s) s s' /\ ctrue (dma_m s' .& bit c) = false.
Proof.
  intros Hc Hd. exists (regs_set (if c <? 4 then 0%nat else 1%nat) 0xa (c .& 3) s <| dma_m := dma_m s .&~ bit c |>).
  assert (ctrue (dma_m s .&~ bit c .& bit c) = false) as Hm.
  { assert (0 <= c) by (clear Hd; by channel_cases Hc).
    rewrite ctrue_bit_test, bit_pow, ldiff_bit, Z.eqb_refl by done. apply andb_false_r. }
  split; [by channel_cases Hc|]. split; [|exact Hm]. split; [done|]. split; [exact Hd|].
  unfold wp. by destruct (c <? 4).
Qed.

(** The fields of a channel that has been set up. *)
Definition set_up (md A N : Z) (d : dma_t) : Prop :=
  mode d = md /\ ab d = A /\ ac d = A /\ cb d = N /\ cc d = N.

Lemma config_classic s s' :
  config s' = config s -> classic s ->
  classic s' /\ dma_mask s' = dma_mask s /\ dma_page_is_xt s' = dma_page_is_xt s.
Proof.
  intros E [H1 H2]. unfold config in E. injection E. intros. unfold dma_page_is_xt.
  split; [by split; congruence|]. split; congruence.
Qed.

(** The channel after the bytes of [setup]. *)
Definition set_up_channel (c md A N : Z) (xt : bool) (d : dma_t) : dma_t :=
  let a := if c <? 4 then A else A >>> 1 in
  let d := address_set c true 0xffffff (a .& 0xff) d in
  let d := address_set c false 0xffffff ((a >>> 8) .& 0xff) d in
  let d := write_count false (N >>> 8) (write_count true (N .& 0xff) d) in
  let d := write_page xt 0xffffff c (A >>> 16) d in
  d <| mode := md |>.

Lemma set_up_channel_ok c md A N (xt : bool) d :
  is_channel c -> is_u16 N -> in_width (if xt then 20 else 24) A -> (4 <= c -> Z.even A = true) ->
  set_up md A N (set_up_channel c md A N xt d) /\ size (set_up_channel c md A N xt d) = size d.
Proof.
  intros Hc HN HA He. pose proof (count_written (cb d) N HN) as EN.
  assert (in_width 24 A) as HA' by (destruct xt; [by apply (in_width_mono 20)|done]).
  assert ((if xt then (A >>> 16) .& 0x0f else A >>> 16) = A >>> 16) as Ex.
  { destruct xt; [|done]. change 0x0f with (Z.ones 4). rewrite land_mask by done. apply Z.mod_small.
    by apply (in_width_high 16 4). }
  pose proof (address_written (ab d) A HA') as E8.
  assert (4 <= c -> (A >>> 1 >>> 8) .& 0xff = (A >>> 9) .& 0xff) as Es by (by rewrite Z.shiftr_shiftr).
  assert (c <= 3 \/ 4 < c) as [Hlt|Hlt] by (clear - Hc; channel_cases Hc; lia).
  - unfold set_up_channel, address_set, write_page. replace (c <? 4) with true by decide_z.
    replace (4 <? c) with false by decide_z. rewrite Ex. by split_and!.
  - unfold set_up_channel, address_set, write_page. replace (c <? 4) with false by decide_z.
    replace (4 <? c) with true by decide_z.
    pose proof (address16_written (ab d) A HA' (He ltac:(lia))) as E16. rewrite Es by lia.
    by split_and!.
Qed.

Lemma setup_written c md A N s w :
  at_rest s -> is_channel c -> xt_ibm5550 cfg = false ->
  md .& 3 = c .& 3 -> is_u16 N ->
  in_width (if dma_page_is_xt s then 20 else 24) A -> (4 <= c -> Z.even A = true) ->
  exists s' d, dma_outs (setup c md A N) s w = Some (s', w) /\ set_up md A N d /\
    config s' = config s /\ arr_get (dma s') c = Some d /\ size d = cbool (4 <=? c) /\
    ctrue (dma_m s' .& bit c) = false.
Proof.
  intros [Hcl Hmask _ _ _ Hch] Hc Hm Hmd HN HA He.
  destruct (Hch c) as (d & Hd & Hsz); [clear - Hc; by channel_cases Hc|].
  destruct (set_up_channel_ok c md A N (dma_page_is_xt s) d Hc HN HA He) as [Hok Hs8].
  unfold setup. cbn [dma_outs].
  destruct (outb_clear_ff c d s w Hc Hd) as (s1 & E1 & C1 & D1 & W1).
  pose proof (config_classic _ _ C1 Hcl) as (P1 & M1 & _).
  edestruct (outb_address c d) as (s2 & E2 & C2 & D2 & W2); [done|exact P1|exact D1|].
  rewrite W1, M1, Hmask in D2. rewrite W1 in W2.
  pose proof (config_classic _ _ C2 P1) as (P2 & M2 & _).
  edestruct (outb_address c) as (s3 & E3 & C3 & D3 & W3); [done|exact P2|exact D2|].
  rewrite W2, M2, M1, Hmask in D3. rewrite W2 in W3.
  edestruct (outb_count c) as (s4 & E4 & C4 & D4 & W4); [done|exact D3|]. rewrite W3 in D4, W4.
  edestruct (outb_count c) as (s5 & E5 & C5 & D5 & W5); [done|exact D4|]. rewrite W4 in D5.
  assert (config s5 = config s) as C5s by congruence.
  pose proof (config_classic _ _ C5s Hcl) as (P5 & M5 & X5).
  edestruct (outb_page c) as (s6 & E6 & C6 & D6 & W6); [done|done|exact D5|].
  rewrite M5, Hmask, X5 in D6. pose proof (config_classic _ _ C6 P5) as (P6 & _ & _).
  edestruct (outb_mode c) as (s7 & E7 & C7 & D7 & _); [done|exact P6|exact Hmd|exact D6|].
  edestruct (outb_unmask c) as (s8 & E8 & (C8 & D8 & _) & Hu); [done|exact D7|].
  exists s8, (set_up_channel c md A N (dma_page_is_xt s) d).
  rewrite E1. cbn [mbind option_bind]. rewrite E2. cbn [mbind option_bind].
  rewrite E3. cbn [mbind option_bind]. rewrite E4. cbn [mbind option_bind].
  rewrite E5. cbn [mbind option_bind]. rewrite E6. cbn [mbind option_bind].
  rewrite E7. cbn [mbind option_bind]. rewrite E8. cbn [mbind option_bind].
  split; [done|]. split; [exact Hok|]. split; [congruence|]. split; [exact D8|]. split; [congruence|exact Hu].
Qed.

(** A channel that has been set up serves. *)
Lemma setup_serving c md A N s s' d :
  at_rest s -> is_channel c -> is_u16 N -> in_width 24 A -> config s' = config s ->
  set_up md A N d -> arr_get (dma s') c = Some d -> ctrue (dma_m s' .& bit c) = false ->
  serving s' c d.
Proof.
  intros [Hcl Hmask [Hc0 Hc1] He Hp _] Hc HN HA HC (Hm & Hab & Hac & Hcb & Hcc) Hd Hu.
  pose proof (config_classic _ _ HC Hcl) as (Hcl' & M & _).
  assert (0 <= c < 8) as Hr by (clear - Hc; by channel_cases Hc).
  unfold config in HC. injection HC as _ _ _ _ _ HC0 HC1 HE HP _ _.
  split; [done|done| |done| |rewrite Hcc; unfold in_width in HN; lia|by rewrite HP, Hp].
  - unfold refused, controller_disabled. rewrite HC0, HC1, HE, Hc0, Hc1, He, Hu. clear - Hc.
    by channel_cases Hc.
  - split; rewrite Hac; [by apply (in_width_mono 24)|]. rewrite M, Hmask. unfold page_in_mask.
    change 0xffffff with (Z.ones 24). rewrite land_mask by done. apply Z.mod_small.
    pose proof (page_bits_pos d). rewrite Z.shiftl_mul_pow2 by lia.
    destruct (in_width_page (page_bits d) 24 A) as [HB _]; [lia|done|]. unfold in_width in HB. lia.
Qed.
End programming.

(** ** What a driver and a device see *)

Section blocks.
Context {W : Type} `{DmaMachine W} (cfg : dma_config).

(** The request of [setup] is one that the channel can serve. *)
Definition setup_valid (s : dma_state) (c md A N : Z) : Prop :=
  at_rest s /\ is_channel c /\ xt_ibm5550 cfg = false /\ is_u8 md /\ md .& 3 = c .& 3 /\ is_u16 N /\
  in_width (if dma_page_is_xt s then 20 else 24) A /\ (4 <= c -> Z.even A = true).

Lemma setup_ready c md A N s w :
  setup_valid s c md A N ->
  exists s' d, dma_outs cfg (setup c md A N) s w = Some (s', w) /\ set_up md A N d /\
    config s' = config s /\ size d = cbool (4 <=? c) /\ serving s' c d /\ ctrue (dma_m s' .& bit c) = false.
Proof.
  intros (Hs & Hc & Hm & _ & Hmd & HN & HA & He).
  destruct (setup_written cfg c md A N s w) as (s' & d & E & Hd & HC & Hg & Hsz & Hu); [done..|].
  exists s', d. split_and!; try done. apply (setup_serving c md A N s); try done.
  destruct (dma_page_is_xt s); [by apply (in_width_mono 20)|done].
Qed.

Lemma at_terminal_stat s c d : 0 <= c -> Z.testbit (dma_stat (at_terminal c s d)) c = true.
Proof.
  intros Hc. unfold at_terminal. destruct (ctrue (mode d .& 0x10)); unfold put; fields;
    by rewrite bit_pow, lor_bit, Z.eqb_refl, orb_true_r by done.
Qed.

(** At the end of a block an auto-initialised channel is as it was before. *)
Lemma at_terminal_auto s c d :
  serving s c d -> ctrue (mode d .& 0x10) = true -> ab d = ac d -> cb d = cc d ->
  serving (at_terminal c s d) c d.
Proof.
  intros [Hd Hr Hg Hc Hp Hn Ha] Hm Hab Hcb. unfold at_terminal. rewrite Hm, Hab, Hcb.
  replace (d <| cc := cc d |> <| ac := ac d |>) with d by (by destruct d).
  split; [by apply (put_range s c d)|done..].
Qed.

(** Otherwise it is masked and refuses. *)
Lemma at_terminal_once s c d w :
  serving s c d -> ctrue (mode d .& 0x10) = false -> dma_req_is_soft s = false ->
  dma_channel_read cfg c (at_terminal c s d) w = Some (DMA_NODATA, at_terminal c s d, w).
Proof.
  intros [Hd Hr Hg Hc Hp Hn Ha] Hm Hs. pose proof (mask_at_terminal s c d Hr) as Hk. rewrite Hm, orb_true_r in Hk.
  assert (exists x, arr_get (dma (at_terminal c s d)) c = Some x) as [x Hx].
  { unfold at_terminal. rewrite Hm. eexists. by apply (put_range s c d). }
  assert (dma_req_is_soft (at_terminal c s d) = false) as Hs' by (unfold at_terminal; by rewrite Hm).
  unfold dma_channel_read, refused. rewrite Hx. cbn [mbind option_bind]. by rewrite Hk, Hs', orb_true_r.
Qed.

(** C28: After a driver has written an address A, a count N and a read mode
    to a channel's ports, the device gets exactly the N + 1 units of memory
    from A, in order and wrapping within the page; the last one carries the
    terminal count, which is then in the status register; an auto-initialised
    channel is again as programmed, another one is masked and refuses. *)
Theorem dma_read_block s c md A N w :
  setup_valid s c md A N -> dma_req_is_soft s = false -> md .& 0xc = 8 ->
  exists s1 d vs v s2 w2,
    dma_outs cfg (setup c md A N) s w = Some (s1, w) /\ set_up md A N d /\ size d = cbool (4 <=? c) /\
    fetch_block cfg (S (Z.to_nat N)) s1 c d 0 w = (vs ++ [v], w2) /\
    channel_reads cfg (S (Z.to_nat N)) c s1 w = Some (vs ++ [v .| DMA_OVER], s2, w2) /\
    Z.testbit (dma_stat s2) c = true /\
    if ctrue (md .& 0x10) then serving s2 c d
    else dma_channel_read cfg c s2 w2 = Some (DMA_NODATA, s2, w2).
Proof.
  intros Hv Hsoft Hmd. destruct (setup_ready c md A N s w Hv) as (s1 & d & E & Hd & HC & Hsz & Hs & _).
  assert (0 <= N) as HN by apply Hv. pose proof Hd as (Hm & Hab & Hac & Hcb & Hcc).
  destruct (channel_reads_block cfg (Z.to_nat N) s1 c d w Hs) as (vs & v & w2 & Hf & Hr); [by rewrite Hm|lia|].
  exists s1, d, vs, v, (at_terminal c s1 d), w2. split_and!; try done.
  - apply at_terminal_stat, Hs.
  - rewrite <- Hm. destruct (ctrue (mode d .& 0x10)) eqn:Ha.
    + apply at_terminal_auto; congruence.
    + apply at_terminal_once; [done..|]. unfold config in HC. congruence.
Qed.

(** C29: After a driver has written an address A, a count N and a write mode
    to a channel's ports, the first N units of a device get 0 and the last
    one the terminal count - except that an auto-initialised channel never
    tells the device -, and they are in memory from A on, wrapping within
    the page. *)
Theorem dma_write_block s c md A N vals val w :
  setup_valid s c md A N -> md .& 0xc = 4 -> length vals = Z.to_nat N ->
  exists s1 d s2,
    dma_outs cfg (setup c md A N) s w = Some (s1, w) /\ set_up md A N d /\ size d = cbool (4 <=? c) /\
    channel_writes (vals ++ [val]) c s1 w =
      Some (replicate (Z.to_nat N) 0 ++ [if ctrue (md .& 0x10) then 0 else DMA_OVER], s2,
            store_block (vals ++ [val]) (dma_at s) d 0 w) /\
    Z.testbit (dma_stat s2) c = true /\ (ctrue (md .& 0x10) = true -> serving s2 c d).
Proof.
  intros Hv Hmd Hl. destruct (setup_ready c md A N s w Hv) as (s1 & d & E & Hd & HC & Hsz & Hs & Hu).
  assert (0 <= N) as HN by apply Hv. pose proof Hd as (Hm & Hab & Hac & Hcb & Hcc).
  exists s1, d, (at_terminal c s1 d). split; [done|]. split; [done|]. split; [done|]. split; [|split].
  - rewrite (channel_writes_block (Z.to_nat N) s1 c d) by (done || lia || by rewrite Hm). rewrite Hm.
    replace (dma_at s1) with (dma_at s); [done|]. unfold config in HC. congruence.
  - apply at_terminal_stat, Hs.
  - rewrite <- Hm. intros Ha. apply at_terminal_auto; congruence.
Qed.

(** The first units of a block. *)
Lemma channel_reads_some j s c d w :
  serving s c d -> mode d .& 0xc = 8 -> Z.of_nat j <= cc d ->
  exists s' , channel_reads cfg j c s w = Some ((fetch_block cfg j s c d 0 w).1, s', (fetch_block cfg j s c d 0 w).2) /\
    serving s' c (moved d (Z.of_nat j)) /\ config s' = config s.
Proof.
  revert s d w. induction j as [|j IH]; intros s d w Hs Hm Hj.
  - exists s. split; [done|]. split; [|done].
    replace (moved d (Z.of_nat 0)) with d; [done|]. destruct d. unfold set. cbn. rewrite Z.sub_0_r.
    by rewrite unit_addr_0.
  - pose proof (channel_read_step cfg s c d w Hs Hm) as Hstep.
    rewrite fetch_block_S, channel_reads_S, unit_addr_0.
    destruct (fetch d (ac d) _) as [v w1]. rewrite Hstep. replace (cc d <=? 0) with false by decide_z.
    cbn [mbind option_bind].
    destruct (IH (after_units c 1 s d) (moved d 1) w1) as (s' & Hr & Hs' & HC).
    + apply serving_after; [done|lia].
    + done.
    + change (cc (moved d 1)) with (cc d - 1). lia.
    + rewrite (fetch_block_moved cfg j s) in Hr by done. change (0 + 1) with (1 + 0). rewrite Hr.
      cbn [mbind option_bind]. exists s'. split_and!; [by destruct (fetch_block _ _ _ _ _ _ _)| |exact HC].
      replace (moved d (Z.of_nat (S j))) with (moved (moved d 1) (Z.of_nat j)); [done|].
      rewrite moved_addr. destruct d. unfold set. cbn. f_equal; [f_equal|]; lia.
Qed.

(** A driver reads the current address and count of a channel. *)
Definition read_word (port : Z) s (w : W) : option (Z * dma_state) :=
  '(lo, s) ← dma_inb cfg port s w;
  '(hi, s) ← dma_inb cfg port s w;
  Some (lo .| (hi <<< 8), s).

Definition read_current (c : Z) s w : option (Z * Z) :=
  '(s, w) ← dma_outb cfg (register_port c 0xc) 0 s w;
  '(a, s) ← read_word (address_port c) s w;
  '(n, s) ← read_word (count_port c) s w;
  Some (a, n).

Lemma word_of_bytes x : (x .& 0xff) .| (((x >>> 8) .& 0xff) <<< 8) = x `mod` 2 ^ 16.
Proof.
  rewrite <- land_mask by done. change (Z.ones 16) with 0xffff.
  apply (bits_equal 16); [lia| |width|bit_cases].
  apply in_width_lor; [lia|width|]. apply (in_width_shiftl 8 8); [lia..|width].
Qed.

Lemma inb_address c d s (w : W) :
  is_channel c -> classic s -> arr_get (dma s) c = Some d ->
  let a := if c <? 4 then ac d else ac d >>> 1 in
  exists s', dma_inb cfg (address_port c) s w =
      Some (if ctrue (wp c s .^ 1) then a .& 0xff else (a >>> 8) .& 0xff, s') /\
    stepped c d (wp c s .^ 1) s s'.
Proof.
  intros Hc [Hp _] Hd a. subst a.
  exists (if c <? 4 then s <| dma_wp0 := dma_wp0 s .^ 1 |> else s <| dma_wp1 := dma_wp1 s .^ 1 |>).
  split; [|by channel_cases Hc].
  assert (dma_inb cfg (address_port c) s w =
    let s' := if c <? 4 then s <| dma_wp0 := dma_wp0 s .^ 1 |> else s <| dma_wp1 := dma_wp1 s .^ 1 |> in
    dma_c ← arr_get (dma s) c;
    Some (if c <? 4 then if ctrue (wp c s .^ 1) then ac dma_c .& 0xff else (ac dma_c >>> 8) .& 0xff
          else if is_ps2 s then
            if ctrue (wp c s .^ 1) then u8 (ac dma_c) else (ac dma_c >>> 8) .& 0xff
          else if ctrue (wp c s .^ 1) then (ac dma_c >>> 1) .& 0xff else (ac dma_c >>> 9) .& 0xff, s')) as ->
    by (clear - Hc; by channel_cases Hc).
  rewrite Hd, Hp. cbn [mbind option_bind]. f_equal. f_equal. destruct (c <? 4); [done|].
  by rewrite Z.shiftr_shiftr by done.
Qed.

Lemma inb_count c d s (w : W) :
  is_channel c -> arr_get (dma s) c = Some d ->
  exists s', dma_inb cfg (count_port c) s w = Some (count_byte (ctrue (wp c s .^ 1)) d, s') /\
    stepped c d (wp c s .^ 1) s s'.
Proof.
  intros Hc Hd.
  exists (if c <? 4 then s <| dma_wp0 := dma_wp0 s .^ 1 |> else s <| dma_wp1 := dma_wp1 s .^ 1 |>).
  split; [|by channel_cases Hc].
  assert (dma_inb cfg (count_port c) s w =
    let s' := if c <? 4 then s <| dma_wp0 := dma_wp0 s .^ 1 |> else s <| dma_wp1 := dma_wp1 s .^ 1 |> in
    dma_c ← arr_get (dma s) c; Some (count_byte (ctrue (wp c s .^ 1)) dma_c, s')) as ->
    by (clear - Hc; by channel_cases Hc).
  by rewrite Hd.
Qed.

Lemma read_current_ok c d s (w : W) :
  is_channel c -> classic s -> arr_get (dma s) c = Some d -> is_u16 (cc d) ->
  read_current c s w = Some ((if c <? 4 then ac d else ac d >>> 1) `mod` 2 ^ 16, cc d).
Proof.
  intros Hc Hcl Hd Hn. unfold read_current, read_word.
  destruct (outb_clear_ff cfg c d s w Hc Hd) as (s1 & E1 & C1 & D1 & W1).
  pose proof (config_classic _ _ C1 Hcl) as (P1 & _).
  edestruct (inb_address c d s1 w) as (s2 & E2 & C2 & D2 & W2); [done|exact P1|exact D1|].
  rewrite W1 in E2, W2. pose proof (config_classic _ _ C2 P1) as (P2 & _).
  edestruct (inb_address c d s2 w) as (s3 & E3 & C3 & D3 & W3); [done|exact P2|exact D2|]. rewrite W2 in E3, W3.
  edestruct (inb_count c d s3 w) as (s4 & E4 & C4 & D4 & W4); [done|exact D3|]. rewrite W3 in E4, W4.
  edestruct (inb_count c d s4 w) as (s5 & E5 & _); [done|exact D4|]. rewrite W4 in E5.
  rewrite E1. cbn [mbind option_bind]. rewrite E2. cbn [mbind option_bind]. rewrite E3. cbn [mbind option_bind].
  rewrite E4. cbn [mbind option_bind]. rewrite E5. cbn [mbind option_bind].
  change (ctrue (0 .^ 1)) with true. change (ctrue (0 .^ 1 .^ 1)) with false.
  change (ctrue (0 .^ 1 .^ 1 .^ 1)) with true. change (ctrue (0 .^ 1 .^ 1 .^ 1 .^ 1)) with false.
  cbv iota. unfold count_byte. replace (u8 (cc d >>> 8)) with ((cc d >>> 8) .& 0xff)
    by (symmetry; exact (eq_sym (land_mask (cc d >>> 8) 8 ltac:(lia)))).
  rewrite !word_of_bytes. f_equal. f_equal. by apply Z.mod_small.
Qed.

(** Between the units of a block the registers of the channel read back
    the address of the next unit within its page - in words on the second
    controller - and the number of units left less one. *)
Theorem dma_read_progress s c md A N j w :
  setup_valid s c md A N -> md .& 0xc = 8 -> 0 <= j <= N ->
  exists s1 d vs s2 w2,
    dma_outs cfg (setup c md A N) s w = Some (s1, w) /\ set_up md A N d /\ size d = cbool (4 <=? c) /\
    channel_reads cfg (Z.to_nat j) c s1 w = Some (vs, s2, w2) /\
    let a := unit_addr d A j in
    read_current c s2 w2 = Some ((if c <? 4 then a else a >>> 1) `mod` 2 ^ 16, N - j).
Proof.
  intros Hv Hmd Hj. destruct (setup_ready c md A N s w Hv) as (s1 & d & E & Hd & HC & Hsz & Hs & _).
  pose proof Hd as (Hm & Hab & Hac & Hcb & Hcc). assert (is_u16 N) as HN by apply Hv.
  destruct (channel_reads_some (Z.to_nat j) s1 c d w Hs) as (s2 & Hr & Hs2 & HC2); [by rewrite Hm|lia|].
  rewrite Z2Nat.id in Hs2 by lia. eexists s1, d, _, s2, _. split_and!; [done..|exact Hr|].
  destruct Hs2 as [Hd2 _ _ Hcl2 _ _ _]. cbv zeta. rewrite (read_current_ok c (moved d j)).
  - change (ac (moved d j)) with (unit_addr d (ac d) j). change (cc (moved d j)) with (cc d - j). by rewrite Hac, Hcc.
  - apply Hv.
  - exact Hcl2.
  - exact Hd2.
  - change (is_u16 (cc d - j)). unfold in_width in *. lia.
Qed.
End blocks.

(** ** Memory to memory *)

(** Memory that keeps its bytes, for what reads and writes it. *)
Class PlainMemory (W : Type) `{DmaMachine W} := {
  byte_at : W -> Z -> Z;
  plain_byte w a : is_u8 (byte_at w a);
  plain_read a w : mem_readb_phys a w = (byte_at w a, w);
  plain_write a v w b : is_u8 v -> byte_at (mem_writeb_phys a v w) b = if decide (a = b) then v else byte_at w b;
  plain_invalidate a b w x : byte_at (mem_invalidate_range a b w) x = byte_at w x;
  plain_refresh w x : byte_at (refreshread w) x = byte_at w x;
  plain_refresh_vx0 w x : byte_at (refreshread_vx0 w) x = byte_at w x;
}.

Section memory.
Context {W : Type} `{PlainMemory W} (cfg : dma_config).

(** A transfer of one channel does not disturb another one. *)
Lemma serving_other s s' c c' d d' :
  serving s c d -> serving s c' d' -> c <> c' ->
  s' = after_units c 1 s d \/ s' = at_terminal c s d ->
  serving s' c' d'.
Proof.
  intros [Hd Hr _ _ _ _ _] [Hd' Hr' Hg' Hc' Hp' Hn' Ha'] Hne Hs.
  assert (arr_get (dma s') c' = Some d') as E.
  { destruct Hs as [->| ->]; unfold at_terminal, after_units; [|destruct (ctrue (mode d .& 0x10))];
      by rewrite put_other by lia. }
  destruct Hs as [->| ->]; [by split|].
  unfold at_terminal in *. destruct (ctrue (mode d .& 0x10)); [by split|]. split; try done.
  unfold refused in *. change (dma_m (put c _ _)) with (dma_m s .| bit c). rewrite set_bit_test by lia.
  replace (c' =? c) with false by decide_z. by rewrite orb_false_r.
Qed.

Lemma serving_buffer s b c d : serving s c d -> serving (s <| dma_buffer := b |>) c d.
Proof. intros []. by split. Qed.

Lemma byte_refresh s c w x : byte_at (refresh cfg s c w) x = byte_at w x.
Proof.
  unfold refresh. destruct (negb (dma_at s) && (c =? 0)); [|done].
  destruct (is_nec cfg); [apply plain_refresh_vx0|apply plain_refresh].
Qed.

Lemma over_byte v : is_u8 v -> u8 (v .| DMA_OVER) = v.
Proof.
  intros Hv. apply Z.bits_inj'. intros i Hi. rewrite wrap_testbit, Z.lor_spec by lia.
  change DMA_OVER with (2 ^ 16). rewrite Z.pow2_bits_eqb by lia.
  destruct (Z.ltb_spec i 8).
  - replace (16 =? i) with false by decide_z. by rewrite orb_false_r.
  - symmetry. apply (in_width_testbit 8); [lia|done|lia].
Qed.

Lemma mem_read_loop_done fuel i s d (w : W) :
  arr_get (dma s) 0 = Some d -> cb d < i -> mem_read_loop cfg fuel i s w = Some (s, w).
Proof. intros Hd Hi. destruct fuel; cbn [mem_read_loop]; rewrite Hd; cbn [mbind option_bind]; decide_z. Qed.

Lemma mem_write_loop_done fuel i s d (w : W) :
  arr_get (dma s) 1 = Some d -> cb d < i -> mem_write_loop fuel i s w = Some (s, w).
Proof. intros Hd Hi. destruct fuel; cbn [mem_write_loop]; rewrite Hd; cbn [mbind option_bind]; decide_z. Qed.

Lemma at_terminal_cb s c d :
  arr_get (dma s) c = Some d -> exists x, arr_get (dma (at_terminal c s d)) c = Some x /\ cb x = cb d.
Proof.
  intros Hd. unfold at_terminal. destruct (ctrue (mode d .& 0x10)); eexists; (split; [by apply (put_range s c d)|done]).
Qed.

Lemma fetch_byte d a (w : W) : size d = 0 -> fetch d a w = (byte_at w a, w).
Proof. intros Hz. unfold fetch. by rewrite Hz, plain_read. Qed.

Lemma buffer_insert b i v j : buffer_get (<[i := v]> b) j = if decide (i = j) then v else buffer_get b j.
Proof. unfold buffer_get. case_decide; subst; [by rewrite lookup_insert_eq|by rewrite lookup_insert_ne]. Qed.

(** The first loop: the buffer gets the block, memory stays. *)
Lemma mem_read_loop_ok n fuel i s d d1 (w : W) :
  serving s 0 d -> serving s 1 d1 -> mode d .& 0xc = 8 -> size d = 0 ->
  cc d = Z.of_nat n -> cb d = i + Z.of_nat n -> (n < fuel)%nat ->
  exists s' w', mem_read_loop cfg fuel i s w = Some (s', w') /\ serving s' 1 d1 /\ dma_at s' = dma_at s /\
    (forall x, byte_at w' x = byte_at w x) /\
    forall j, buffer_get (dma_buffer s') j =
      if decide (i <= j <= cb d) then byte_at w (unit_addr d (ac d) (j - i)) else buffer_get (dma_buffer s) j.
Proof.
  revert fuel i s d w. induction n as [|n IH]; intros fuel i s d w Hs H1 Hm Hz Hn Hcb Hf;
    (destruct fuel as [|fuel]; [lia|]); cbn [mem_read_loop]; rewrite (serving_chan _ _ _ Hs);
    cbn [mbind option_bind]; (replace (i <=? cb d) with true by decide_z);
    pose proof (channel_read_step cfg s 0 d w Hs Hm) as Hstep;
    rewrite fetch_byte, byte_refresh in Hstep by done; rewrite Hstep.
  - replace (cc d <=? 0) with true by decide_z. cbn [mbind option_bind].
    destruct (at_terminal_cb s 0 d (serving_chan _ _ _ Hs)) as (x & Hx & Ex).
    rewrite (mem_read_loop_done _ _ _ x) by (done || lia).
    eexists _, _. split; [reflexivity|]. split; [|split; [|split]].
    + apply serving_buffer. apply (serving_other s _ 0 1 d); [done..|by right].
    + unfold at_terminal. by destruct (ctrue _).
    + intros y. apply byte_refresh.
    + intros j. change (dma_buffer (_ <| dma_buffer := ?b |>)) with b.
      rewrite buffer_insert, over_byte by apply plain_byte.
      replace (dma_buffer (at_terminal 0 s d)) with (dma_buffer s) by (unfold at_terminal; by destruct (ctrue _)).
      repeat case_decide; try lia; try done. replace (j - i) with 0 by lia. by rewrite unit_addr_0.
  - replace (cc d <=? 0) with false by decide_z. cbn [mbind option_bind].
    set (s2 := (after_units 0 1 s d) <| dma_buffer := _ |>).
    destruct (IH fuel (i + 1) s2 (moved d 1) (refresh cfg s 0 w)) as (s' & w' & E & Hs' & Ha & Hb & Hj).
    + apply serving_buffer, serving_after; [done|lia].
    + apply serving_buffer. apply (serving_other s _ 0 1 d); [done..|by left].
    + done.
    + done.
    + change (cc (moved d 1)) with (cc d - 1). lia.
    + change (cb (moved d 1)) with (cb d). lia.
    + lia.
    + exists s', w'. split; [exact E|]. split; [done|]. split; [exact Ha|]. split.
      * intros y. by rewrite Hb, byte_refresh.
      * intros j. rewrite Hj. change (cb (moved d 1)) with (cb d). rewrite byte_refresh, moved_addr.
        change (dma_buffer s2) with (<[i := u8 (byte_at w (ac d))]> (dma_buffer s)).
        rewrite buffer_insert, wrap_id by apply plain_byte.
        repeat case_decide; try lia; try done.
        -- by replace (1 + (j - (i + 1))) with (j - i) by lia.
        -- replace (j - i) with 0 by lia. by rewrite unit_addr_0.
Qed.

Lemma land_byte v : is_u8 v -> v .& 0xff = v.
Proof. intros Hv. rewrite (land_mask v 8 ltac:(lia) : v .& 0xff = _). by apply Z.mod_small. Qed.

Lemma byte_store at_ a v (w : W) b :
  is_u8 v -> byte_at (store_byte at_ a v w) b = if decide (a = b) then v else byte_at w b.
Proof. intros Hv. unfold store_byte. destruct at_; by rewrite ?plain_invalidate, plain_write. Qed.

Lemma unit_addr_inj d a j k :
  size d = 0 -> 0 <= j < 65536 -> 0 <= k < 65536 -> unit_addr d a j = unit_addr d a k -> j = k.
Proof.
  intros Hz Hj Hk E. assert (j mod 65536 = k mod 65536) as Em.
  { pose proof (f_equal (fun x => x mod 2 ^ page_bits d) E) as E'. cbn beta in E'. rewrite !unit_addr_mod in E'.
    unfold page_bits, unit_bytes in E'. rewrite Hz in E'. cbn [Z.eqb] in E'. change (2 ^ 16) with 65536 in E'.
    unfold direction in E'. destruct (ctrue (mode d .& 0x20)).
    - replace j with (a - (a + -1 * j * 1)) by lia. replace k with (a - (a + -1 * k * 1)) by lia.
      rewrite (Zminus_mod a), (Zminus_mod a (a + -1 * k * 1)). by rewrite E'.
    - replace j with (a + 1 * j * 1 - a) by lia. replace k with (a + 1 * k * 1 - a) by lia.
      rewrite (Zminus_mod (a + 1 * j * 1)), (Zminus_mod (a + 1 * k * 1)). by rewrite E'. }
  by rewrite !Z.mod_small in Em by lia.
Qed.

(** The second loop: the block gets the buffer, in 64K without overlap. *)
Lemma mem_write_loop_ok n fuel i s d (w : W) :
  serving s 1 d -> mode d .& 0xc = 4 -> size d = 0 ->
  cc d = Z.of_nat n -> cb d = i + Z.of_nat n -> (n < fuel)%nat -> Z.of_nat n < 65536 ->
  (forall j, i <= j <= cb d -> is_u8 (buffer_get (dma_buffer s) j)) ->
  exists s' w', mem_write_loop fuel i s w = Some (s', w') /\
    (forall k, 0 <= k <= Z.of_nat n ->
       byte_at w' (unit_addr d (ac d) k) = buffer_get (dma_buffer s) (i + k)) /\
    (forall x, (forall k, 0 <= k <= Z.of_nat n -> x <> unit_addr d (ac d) k) -> byte_at w' x = byte_at w x).
Proof.
  revert fuel i s d w. induction n as [|n IH]; intros fuel i s d w Hs Hm Hz Hn Hcb Hf Hmax Hbuf;
    (destruct fuel as [|fuel]; [lia|]); cbn [mem_write_loop]; rewrite (serving_chan _ _ _ Hs);
    cbn [mbind option_bind]; (replace (i <=? cb d) with true by decide_z);
    rewrite (channel_write_step s 1 d _ w Hs (or_introl Hm)), Hm; cbn [Z.eqb Pos.eqb];
    set (v := buffer_get (dma_buffer s) i); assert (is_u8 v) as Hv by (apply Hbuf; lia);
    (replace (store (dma_at s) d (ac d) v w) with (store_byte (dma_at s) (ac d) v w)
       by (unfold store; by rewrite Hz, land_byte)).
  - replace (cc d <=? 0) with true by decide_z. cbn [mbind option_bind].
    destruct (at_terminal_cb s 1 d (serving_chan _ _ _ Hs)) as (x & Hx & Ex).
    rewrite (mem_write_loop_done _ _ _ x) by (done || lia).
    eexists _, _. split; [reflexivity|]. split.
    + intros k Hk. replace k with 0 by lia. rewrite unit_addr_0, byte_store, decide_True by done.
      by rewrite Z.add_0_r.
    + intros y Hy. rewrite byte_store by done. rewrite decide_False; [done|]. intros <-.
      apply (Hy 0); [lia|]. by rewrite unit_addr_0.
  - replace (cc d <=? 0) with false by decide_z. cbn [mbind option_bind].
    destruct (IH fuel (i + 1) (after_units 1 1 s d) (moved d 1) (store_byte (dma_at s) (ac d) v w))
      as (s' & w' & E & Hin & Hout).
    + apply serving_after; [done|lia].
    + done.
    + done.
    + change (cc (moved d 1)) with (cc d - 1). lia.
    + change (cb (moved d 1)) with (cb d). lia.
    + lia.
    + lia.
    + intros j Hj. apply Hbuf. change (cb (moved d 1)) with (cb d) in Hj. lia.
    + exists s', w'. split; [exact E|]. split.
      * intros k Hk. destruct (decide (k = 0)) as [->|Hk0].
        -- rewrite unit_addr_0, Hout; [rewrite byte_store, decide_True by done; by rewrite Z.add_0_r|].
           intros j Hj Ej. rewrite moved_addr in Ej.
           assert (0 = 1 + j); [|lia]. apply (unit_addr_inj d (ac d)); [done|lia|lia|by rewrite unit_addr_0].
        -- specialize (Hin (k - 1) ltac:(lia)). rewrite moved_addr in Hin.
           replace (1 + (k - 1)) with k in Hin by lia. rewrite Hin.
           change (dma_buffer (after_units 1 1 s d)) with (dma_buffer s). f_equal. lia.
      * intros x Hx. rewrite Hout; [rewrite byte_store, decide_False; [done| |done]|].
        -- intros <-. apply (Hx 0); [lia|]. by rewrite unit_addr_0.
        -- intros j Hj. rewrite moved_addr. apply Hx. lia.
Qed.

(** C30: A software request for channel 0 with memory-to-memory transfers
    enabled copies the block of channel 0 to the block of channel 1 when it
    is as long at least - also when the blocks overlap, because the source
    is read as a whole first - and changes no other byte. *)
Theorem mem_to_mem_copies s d0 d1 (w : W) :
  let s0 := s <| dma_req_is_soft := true |> in
  serving s0 0 d0 -> serving s0 1 d1 -> ctrue (dma_command0 s .& 1) = true ->
  mode d0 .& 0xc = 8 -> mode d1 .& 0xc = 4 -> size d0 = 0 -> size d1 = 0 ->
  cc d0 = cb d0 -> cc d1 = cb d1 -> cb d1 <= cb d0 < 65536 ->
  exists s' w', dma_write cfg 0x09 0x04 s w = Some (s', w') /\
    (forall k, 0 <= k <= cb d1 -> byte_at w' (unit_addr d1 (ac d1) k) = byte_at w (unit_addr d0 (ac d0) k)) /\
    (forall x, (forall k, 0 <= k <= cb d1 -> x <> unit_addr d1 (ac d1) k) -> byte_at w' x = byte_at w x).
Proof.
  intros s0 Hs0 Hs1 Hc Hm0 Hm1 Hz0 Hz1 Hc0 Hc1 Hcb.
  pose proof (serving_count _ _ _ Hs0) as Hp0. pose proof (serving_count _ _ _ Hs1) as Hp1.
  set (t := regs_set 0 9 4 s <| dma_stat_rq_pc := dma_stat_rq_pc s .| bit 0 |>).
  assert (dma_write cfg 0x09 0x04 s w = dma_mem_to_mem_transfer cfg t w) as E.
  { change (dma_write cfg 0x09 0x04 s w)
      with (if ctrue (dma_command0 s .& 1) then dma_mem_to_mem_transfer cfg t w else dma_block_transfer cfg 0 t w).
    by rewrite Hc. }
  rewrite E. unfold dma_mem_to_mem_transfer.
  change (arr_get (dma t) 0) with (arr_get (dma s0) 0). rewrite (serving_chan _ _ _ Hs0). cbn [mbind option_bind].
  change (arr_get (dma t) 1) with (arr_get (dma s0) 1). rewrite (serving_chan _ _ _ Hs1). cbn [mbind option_bind].
  rewrite Hm0, Hm1. cbn [Z.eqb Pos.eqb negb].
  assert (forall c d, serving s0 c d -> serving (t <| dma_req_is_soft := true |>) c d) as Ht
    by (intros c d []; by split).
  assert (Z.of_nat block_fuel = 65537) as Hfuel by done.
  destruct (mem_read_loop_ok (Z.to_nat (cb d0)) block_fuel 0 (t <| dma_req_is_soft := true |>) d0 d1 w)
    as (s1 & w1 & E1 & Hs1' & _ & Hw1 & Hb1); [by apply Ht|by apply Ht|done|done|lia|lia|lia|].
  rewrite E1. cbn [mbind option_bind].
  assert (forall k, 0 <= k <= cb d1 -> buffer_get (dma_buffer s1) k = byte_at w (unit_addr d0 (ac d0) k)) as Hb.
  { intros k Hk. rewrite Hb1, decide_True by lia. by rewrite Z.sub_0_r. }
  destruct (mem_write_loop_ok (Z.to_nat (cb d1)) block_fuel 0 s1 d1 w1) as (s2 & w2 & E2 & Hin & Hout);
    [done|done|done|lia|lia|lia|lia| |].
  { intros j Hj. rewrite Hb by lia. apply plain_byte. }
  rewrite E2. cbn [mbind option_bind]. eexists _, _. split; [reflexivity|]. rewrite Z2Nat.id in Hin, Hout by lia. split.
  - intros k Hk. rewrite Hin by lia. by apply Hb.
  - intros x Hx. rewrite Hout by done. apply Hw1.
Qed.
End memory.

(** ** Any sequence of device calls *)

Inductive dma_call :=
  | Read (c : Z)
  | Write (c val : Z)
  | ReadOnly (c : Z)
  | Advance (c : Z).

Definition call_channel (x : dma_call) : Z :=
  match x with Read c | Write c _ | ReadOnly c | Advance c => c end.

Section calls.
Context {W : Type} `{DmaMachine W} (cfg : dma_config).

Definition run_call (x : dma_call) (s : dma_state) (w : W) : option (Z * dma_state * W) :=
  match x with
  | Read c => dma_channel_read cfg c s w
  | Write c val => dma_channel_write c val s w
  | ReadOnly c => dma_channel_read_only cfg c s w
  | Advance c => dma_channel_advance c s w
  end.

Fixpoint run_calls (l : list dma_call) (s : dma_state) (w : W) : option (list Z * dma_state * W) :=
  match l with
  | [] => Some ([], s, w)
  | x :: l =>
      '(r, s, w) ← run_call x s w;
      '(rs, s, w) ← run_calls l s w;
      Some (r :: rs, s, w)
  end.

(** A property of the channels that survives what the calls do to one. *)
Section stable.
Context (P : Z -> dma_t -> Prop) (mask : Z).
Context (P_step : forall s c d, classic s -> dma_mask s = mask -> P c d -> P c (step_unit s d)).
Context (P_count : forall c d n, P c d -> P c (d <| cc := n |>)).
Context (P_reload : forall c d, P c d -> P c (d <| cc := cb d |> <| ac := ab d |>)).

Record good (s : dma_state) : Prop := {
  good_classic : classic s;
  good_length : length (dma s) = 8%nat;
  good_mask : dma_mask s = mask;
  good_chan : forall c d, arr_get (dma s) c = Some d -> P c d;
}.

Lemma good_lookup s c : good s -> 0 <= c < 8 -> exists d, arr_get (dma s) c = Some d /\ P c d.
Proof.
  intros Hs Hc. destruct (arr_get_lt (dma s) c) as [d Hd]; [rewrite (good_length s Hs); lia|].
  exists d. split; [done|]. by apply (good_chan s Hs).
Qed.

(** States that differ in nothing that matters here. *)
Lemma good_same s s' :
  good s -> is_ps2 s' = is_ps2 s -> dma_advanced s' = dma_advanced s -> dma s' = dma s ->
  dma_mask s' = dma_mask s -> good s'.
Proof. intros [[] ? ? Hc] Hp Ha Hd Hm. split; [split; congruence|congruence|congruence|]. by rewrite Hd. Qed.

Lemma good_put s c d : good s -> 0 <= c < 8 -> P c d -> good (put c d s).
Proof.
  intros [Hcl Hl Hm Hch] Hc Hd. split; [exact Hcl| |exact Hm|].
  - unfold put. fields. by rewrite length_insert.
  - intros c' d' Hd'. destruct (decide (c = c')) as [->|Hne].
    + destruct (arr_get_lt (dma s) c') as [d0 Hd0]; [rewrite Hl; lia|].
      rewrite (put_range s c' d0) in Hd' by done. by injection Hd' as <-.
    + rewrite put_other in Hd' by lia. by apply Hch.
Qed.

Lemma count_down_good s c d w :
  good s -> P c d ->
  exists tc s' d', count_down s c d w = (tc, s', d', w) /\ good s' /\ P c d'.
Proof.
  intros Hs Hd. rewrite count_down_classic by apply Hs. cbv zeta.
  destruct (_ <? 0); [destruct (ctrue (mode d .& 0x10))|]; eexists _, _, _; (split; [reflexivity|]).
  - split; [by apply (good_same s)|by apply P_reload].
  - split; [by apply (good_same s)|by apply P_count].
  - split; [done|by apply P_count].
Qed.

Lemma read_unit_good s c d (w : W) :
  good s -> P c d -> exists v d' w', read_unit s d w = Some (v, d', w') /\ P c d'.
Proof.
  intros Hs Hd. destruct (good_classic s Hs) as [Hp Ha].
  pose proof (P_step s c d (good_classic s Hs) (good_mask s Hs) Hd) as Hd'.
  unfold read_unit, _dma_readw, _dma_read, step_unit in *. rewrite Ha. destruct (size d =? 0).
  - destruct (mem_readb_phys (ac d) w). cbn [mbind option_bind]. eauto.
  - destruct (mem_readb_phys (ac d) w) as [lo w1]. cbn [mbind option_bind].
    destruct (mem_readb_phys (u32 (ac d + 1)) w1). cbn [mbind option_bind]. eauto.
Qed.

Lemma write_unit_good s c type val d (w : W) :
  good s -> P c d -> exists d' w', write_unit s type val d w = Some (d', w') /\ P c d'.
Proof.
  intros Hs Hd. destruct (good_classic s Hs) as [Hp Ha].
  pose proof (P_step s c d (good_classic s Hs) (good_mask s Hs) Hd) as Hd'.
  unfold write_unit, _dma_writew, _dma_write, step_unit in *. rewrite Ha.
  destruct (size d =? 0), (type =? 4); cbn [mbind option_bind]; eauto.
Qed.

Lemma advance_good c s (w : W) :
  good s -> 0 <= c < 8 -> exists r s' w', dma_channel_advance c s w = Some (r, s', w') /\ good s'.
Proof.
  intros Hs Hc. destruct (good_lookup s c Hs Hc) as (d & Hd & HP). unfold dma_channel_advance.
  rewrite Hd. cbn [mbind option_bind]. destruct (ctrue _); [|eauto].
  destruct (count_down_good s c d w Hs HP) as (tc & s' & d' & -> & Hs' & HP').
  destruct tc; [rewrite sg_interrupt_classic by apply Hs'|]; eexists _, _, _; (split; [reflexivity|]);
    (apply (good_same (put c d' s')); [by apply good_put|done..]).
Qed.
Lemma write_good c val s (w : W) :
  good s -> 0 <= c < 8 -> exists r s' w', dma_channel_write c val s w = Some (r, s', w') /\ good s'.
Proof.
  intros Hs Hc. destruct (good_lookup s c Hs Hc) as (d & Hd & HP). unfold dma_channel_write.
  rewrite Hd. cbn [mbind option_bind]. destruct (refused s c || _); [eauto|].
  destruct (write_unit_good s c (mode d .& 0x0c) val d w Hs HP) as (d1 & w1 & E & HP1).
  rewrite E. cbn [mbind option_bind]. set (s1 := s <| dma_stat_rq := _ |> <| dma_stat_adv_pend := _ |>).
  assert (good s1) as Hs1 by by apply (good_same s).
  destruct (count_down_good s1 c d1 w1 Hs1 HP1) as (tc & s2 & d2 & -> & Hs2 & HP2).
  rewrite write_result by apply Hs2. eexists _, _, _. split; [reflexivity|by apply good_put].
Qed.

Lemma read_good c s (w : W) :
  good s -> 0 <= c < 8 -> exists r s' w', dma_channel_read cfg c s w = Some (r, s', w') /\ good s'.
Proof.
  intros Hs Hc. destruct (good_lookup s c Hs Hc) as (d & Hd & HP). unfold dma_channel_read.
  rewrite Hd. cbn [mbind option_bind]. destruct (refused s c || _); [eauto|].
  assert (exists r s1 w1, (if ctrue (dma_stat_adv_pend s .& bit c) then dma_channel_advance c s w
    else Some (0, s, w)) = Some (r, s1, w1) /\ good s1) as (r & s1 & w1 & E & Hs1)
    by (destruct (ctrue _); [by apply advance_good|eauto]).
  rewrite E. cbn [mbind option_bind]. destruct (good_lookup s1 c Hs1 Hc) as (d1 & Hd1 & HP1).
  rewrite Hd1. cbn [mbind option_bind].
  destruct (read_unit_good s1 c d1 (refresh cfg s1 c w1) Hs1 HP1) as (v & d2 & w2 & E2 & HP2).
  rewrite E2. cbn [mbind option_bind]. set (s2 := s1 <| dma_stat_rq := _ |>).
  assert (good s2) as Hs2 by by apply (good_same s1).
  destruct (count_down_good s2 c d2 w2 Hs2 HP2) as (tc & s3 & d3 & -> & Hs3 & HP3).
  destruct tc; [rewrite sg_interrupt_classic by apply Hs3|]; eexists _, _, _; (split; [reflexivity|]);
    by apply good_put.
Qed.

Lemma read_only_good c s (w : W) :
  good s -> 0 <= c < 8 -> exists r s' w', dma_channel_read_only cfg c s w = Some (r, s', w') /\ good s'.
Proof.
  intros Hs Hc. destruct (good_lookup s c Hs Hc) as (d & Hd & HP). unfold dma_channel_read_only.
  rewrite Hd. cbn [mbind option_bind]. destruct (refused s c || _); [eauto|].
  destruct (advance_good c s w Hs Hc) as (r & s1 & w1 & E & Hs1).
  rewrite E. cbn [mbind option_bind]. destruct (good_lookup s1 c Hs1 Hc) as (d1 & Hd1 & HP1).
  rewrite Hd1. cbn [mbind option_bind].
  destruct (read_unit_good s1 c d1 (refresh cfg s1 c w1) Hs1 HP1) as (v & d2 & w2 & E2 & HP2).
  rewrite E2. cbn [mbind option_bind]. eexists _, _, _. split; [reflexivity|].
  apply (good_same (put c d2 s1)); [by apply good_put|done..].
Qed.

Lemma run_call_good x s (w : W) :
  good s -> 0 <= call_channel x < 8 -> exists r s' w', run_call x s w = Some (r, s', w') /\ good s'.
Proof.
  destruct x; cbn [run_call call_channel];
    [apply read_good|apply write_good|apply read_only_good|apply advance_good].
Qed.

Lemma run_calls_good l s (w : W) :
  good s -> Forall (fun x => 0 <= call_channel x < 8) l ->
  exists rs s' w', run_calls l s w = Some (rs, s', w') /\ good s'.
Proof.
  intros Hs Hl. revert s w Hs. induction Hl as [|x l Hx _ IH]; intros s w Hs; cbn [run_calls]; [eauto|].
  destruct (run_call_good x s w Hs Hx) as (r & s1 & w1 & -> & Hs1). cbn [mbind option_bind].
  destruct (IH s1 w1 Hs1) as (rs & s2 & w2 & -> & Hs2). cbn [mbind option_bind]. eauto.
Qed.
End stable.

(** [a] is in the page that the channel was programmed for. *)
Definition page_set (mask : Z) (d : dma_t) : Prop := in_page mask d /\ is_u32 (ab d) /\ ab d >>> page_bits d = ac d >>> page_bits d.

(** C31: Whatever devices do - any interleaving of reads, writes and delayed
    reads on all channels, through terminal counts and reloads - the calls
    return, and the address of a channel stays in the 64K page (128K on word
    channels) that it was programmed for. *)
Theorem transfers_stay_in_page l s (w : W) :
  classic s -> length (dma s) = 8%nat ->
  (forall c d, arr_get (dma s) c = Some d -> page_set (dma_mask s) d) ->
  Forall (fun x => 0 <= call_channel x < 8) l ->
  exists rs s' w', run_calls l s w = Some (rs, s', w') /\
    forall c d, arr_get (dma s) c = Some d ->
      exists d', arr_get (dma s') c = Some d' /\ is_u32 (ac d') /\ size d' = size d /\
        ac d' >>> page_bits d = ac d >>> page_bits d.
Proof.
  intros Hcl Hlen Hpage Hl.
  set (P := fun c d' => exists d, arr_get (dma s) c = Some d /\ page_set (dma_mask s) d' /\
                           size d' = size d /\ ac d' >>> page_bits d = ac d >>> page_bits d).
  destruct (run_calls_good P (dma_mask s)) with (l := l) (s := s) (w := w) as (rs & s' & w' & E & [_ Hl' _ Hch]).
  - intros t c d' Ht Hm (d & Hd & (Hp & Hb & Hbp) & Hz & Ha).
    assert (page_bits d' = page_bits d) as Eb by (unfold page_bits; by rewrite Hz).
    rewrite step_unit_addr by (by rewrite ?Hm). exists d. split; [done|]. split; [split; [|split; [done|]]|split; [done|]].
    + exact (in_page_moved (dma_mask s) d' 1 (cc d') Hp).
    + transitivity (ac d' >>> page_bits d'); [exact Hbp|]. symmetry. exact (unit_addr_page d' (ac d') 1).
    + rewrite <- Ha, <- Eb. exact (unit_addr_page d' (ac d') 1).
  - intros c d' n (d & ? & ? & ? & ?). by exists d.
  - intros c d' (d & Hd & ([Hw Hm] & Hb & Hbp) & Hz & Ha).
    assert (page_bits d' = page_bits d) as Eb by (unfold page_bits; by rewrite Hz).
    exists d. split; [done|]. split; [split; [split; [exact Hb|]|split; [exact Hb|done]]|split; [done|]].
    + unfold page_in_mask in *. change (page_bits (d' <| cc := _ |> <| ac := _ |>)) with (page_bits d').
      change (ac (d' <| cc := _ |> <| ac := ?x |>)) with x. by rewrite Hbp.
    + change (ac (d' <| cc := _ |> <| ac := ?x |>)) with x. by rewrite <- Ha, <- Eb.
  - split; [done|done|done|]. intros c d Hd. exists d. split; [done|]. split; [by apply (Hpage c)|done].
  - done.
  - exists rs, s', w'. split; [done|]. intros c d Hd.
    assert (0 <= c < 8) as Hc by (apply arr_get_Some in Hd as [? ?%lookup_lt_Some]; lia).
    destruct (arr_get_lt (dma s') c) as [d' Hd']; [rewrite Hl'; lia|].
    destruct (Hch c d' Hd') as (d0 & Hd0 & ([Hw _] & _) & Hz & Ha). rewrite Hd in Hd0. injection Hd0 as <-.
    by exists d'.
Qed.

(** *** Blocks on a software request *)

Section request.
Context (c N : Z).
Context (Hc : 0 <= c < 8).

(** The count of the channel stays. *)
Definition same_count (c' : Z) (d : dma_t) : Prop := c' = c -> cb d = N.

Abbreviation counted s := (good same_count (dma_mask s) s).

Lemma block_body_good m b i s (w : W) :
  good same_count m s -> exists s' w', block_body cfg b c i s w = Some (s', w') /\ good same_count m s'.
Proof.
  intros Hs. unfold block_body. destruct (good_lookup _ _ s c Hs Hc) as (d & Hd & _). rewrite Hd.
  cbn [mbind option_bind].
  assert (forall t k e, classic t -> dma_mask t = m -> same_count k e -> same_count k (step_unit t e)) as H1.
  { intros t k e [Hp Ha] _ He Hk. rewrite <- (He Hk). unfold step_unit, step8, step16. rewrite Hp, Ha.
    by destruct (size e =? 0), (ctrue _). }
  assert (forall k e n, same_count k e -> same_count k (e <| cc := n |>)) as H2 by done.
  assert (forall k e, same_count k e -> same_count k (e <| cc := cb e |> <| ac := ab e |>)) as H3 by done.
  destruct (_ =? _).
  - destruct (write_good same_count m H1 H2 H3 c (buffer_get (if b then dma16_buffer s else dma_buffer s) i) s w Hs Hc)
      as (r & s1 & w1 & -> & Hs1). cbn [mbind option_bind]. eauto.
  - destruct (_ =? _); [|eauto].
    destruct (read_good same_count m H1 H2 H3 c s w Hs Hc) as (r & s1 & w1 & -> & Hs1). cbn [mbind option_bind].
    eexists _, _. split; [reflexivity|]. destruct b; by apply (good_same _ _ s1).
Qed.

(** The loop ends after the [n] iterations from [i] when [i] can pass [N]. *)
Lemma block_loop_ends m b n fuel i s (w : W) :
  good same_count m s -> 0 <= i -> i + Z.of_nat n = N + 1 -> N < 65535 -> (n < fuel)%nat ->
  exists s' w', block_loop cfg fuel b c i s w = Some (inl (s', w')).
Proof.
  revert fuel i s w. induction n as [|n IH]; intros fuel i s w Hs Hi Hn Hmax Hf;
    (destruct fuel as [|fuel]; [lia|]); cbn [block_loop];
    destruct (good_lookup _ _ s c Hs Hc) as (d & Hd & HN); rewrite Hd; cbn [mbind option_bind];
    rewrite (HN eq_refl).
  - replace (i <=? N) with false by decide_z. eauto.
  - replace (i <=? N) with true by decide_z.
    destruct (block_body_good m b i s w Hs) as (s1 & w1 & -> & Hs1). cbn [mbind option_bind].
    rewrite (wrap_id 16) by (unfold in_width; lia). apply IH; [done|lia..].
Qed.

(** It goes on for ever when it cannot. *)
Lemma block_loop_goes_on m b fuel i s (w : W) :
  good same_count m s -> is_u16 i -> N = 65535 ->
  exists j s' w', block_loop cfg fuel b c i s w = Some (inr (j, s', w')).
Proof.
  intros Hs Hi HN65. revert i s w Hs Hi. induction fuel as [|fuel IH]; intros i s w Hs Hi; cbn [block_loop]; [eauto|].
  destruct (good_lookup _ _ s c Hs Hc) as (d & Hd & HN). rewrite Hd. cbn [mbind option_bind].
  rewrite (HN eq_refl), HN65. unfold in_width in Hi. replace (i <=? 65535) with true by decide_z.
  destruct (block_body_good m b i s w Hs) as (s1 & w1 & -> & Hs1). cbn [mbind option_bind].
  apply IH; [done|]. apply wrap_range. lia.
Qed.
End request.

(** C32: A block transfer on a software request ends exactly when the count is
    not 0xffff: the loop's counter has 16 bits, like the count, and with the
    largest one it is still running after any number of iterations. *)
Theorem block_request_ends c s d (w : W) :
  classic s -> length (dma s) = 8%nat -> arr_get (dma s) c = Some d -> is_u16 (cb d) ->
  ((exists s' w', dma_block_transfer cfg c s w = Some (s', w')) <-> cb d <> 0xffff) /\
  (cb d = 0xffff -> forall n, exists i s' w',
     block_loop cfg n (4 <=? c) c 0 (s <| dma_req_is_soft := true |>) w = Some (inr (i, s', w'))).
Proof.
  intros Hcl Hlen Hd Hn.
  assert (0 <= c < 8) as Hc by (apply arr_get_Some in Hd as [? ?%lookup_lt_Some]; lia).
  set (s1 := s <| dma_req_is_soft := true |>).
  assert (good (same_count c (cb d)) (dma_mask s) s1) as Hs1.
  { split; [done..|]. intros c' d' Hd' ->. change (dma s1) with (dma s) in Hd'. congruence. }
  assert (cb d = 0xffff -> forall n, exists i s' w', block_loop cfg n (4 <=? c) c 0 s1 w = Some (inr (i, s', w')))
    as Hon by (intros E n; by apply (block_loop_goes_on c (cb d) Hc (dma_mask s))).
  split; [|exact Hon]. unfold dma_block_transfer. rewrite Hd. destruct Hcl as [_ Ha]. rewrite Ha.
  cbn [mbind option_bind]. fold s1. split.
  - intros (s' & w' & E) Hmax. destruct (Hon Hmax (block_fuel + extra_rounds cfg)%nat) as (i & s2 & w2 & E2).
    rewrite E2 in E. done.
  - intros Hmax. destruct (block_loop_ends c (cb d) Hc (dma_mask s) (4 <=? c) (Z.to_nat (cb d + 1)) (block_fuel + extra_rounds cfg) 0 s1 w)
      as (s2 & w2 & E); [done|lia|unfold in_width in Hn; lia|unfold in_width in Hn; lia| |].
    { assert (Z.of_nat block_fuel = 65537) by done. unfold in_width in Hn. lia. }
    rewrite E. cbn [mbind option_bind]. eauto.
Qed.
End calls.

(** ** Examples: an AT with flat memory *)

Abbreviation flat := (gmap Z Z).
Definition flat_byte (w : flat) (a : Z) : Z := u8 (default 0 (w !! a)).

#[export] Instance flat_machine : DmaMachine flat := {
  mem_readb_phys a w := (flat_byte w a, w);
  mem_readw_phys a w := (flat_byte w a .| (flat_byte w (a + 1) <<< 8), w);
  mem_readl_phys a w :=
    (flat_byte w a .| (flat_byte w (a + 1) <<< 8) .| (flat_byte w (a + 2) <<< 16) .| (flat_byte w (a + 3) <<< 24), w);
  mem_writeb_phys a v w := <[a := v]> w;
  mem_writew_phys a v w := <[a := v .& 0xff]> (<[a + 1 := v >>> 8]> w);
  mem_writel_phys a v w :=
    <[a := v .& 0xff]> (<[a + 1 := (v >>> 8) .& 0xff]> (<[a + 2 := (v >>> 16) .& 0xff]> (<[a + 3 := v >>> 24]> w)));
  mem_invalidate_range _ _ w := w;
  inb _ w := (0xff, w);
  inw _ w := (0xffff, w);
  outb _ _ w := w;
  outw _ _ w := w;
  picint _ w := w;
  nmi_raise w := w;
  refreshread w := w;
  refreshread_vx0 w := w;
  ps2_cache_clean w := w;
  update_tsc w := w;
  in_timing_loop _ := false;
  cpu_busspeed _ := 8000000;
}.

#[export] Instance flat_plain : PlainMemory flat.
Proof.
  refine {| byte_at := flat_byte |}; try done.
  - intros w a. apply wrap_range. lia.
  - intros a v w b Hv. unfold flat_byte. cbn [mem_writeb_phys flat_machine]. case_decide; subst.
    + rewrite lookup_insert_eq. by apply wrap_id.
    + by rewrite lookup_insert_ne.
Defined.

Definition at_config : dma_config := mkConfig true false false false false 4096 0.
Definition at_state : dma_state := reset_state at_config power_on.

Lemma at_state_rest : at_rest at_state.
Proof.
  split; [by split|reflexivity|by split|reflexivity|reflexivity|]. intros c Hc.
  assert (c = 0 \/ c = 1 \/ c = 2 \/ c = 3 \/ c = 4 \/ c = 5 \/ c = 6 \/ c = 7) as Hin by lia. clear Hc.
  repeat (destruct Hin as [->|Hin]; [eexists; split; reflexivity|]). subst. eexists; split; reflexivity.
Qed.

Lemma dma_read_block_witness :
  setup_valid at_config at_state 2 0x4a 0x1fffe 3 /\
  exists s1 d vs v s2 w2,
    dma_outs at_config (setup 2 0x4a 0x1fffe 3) at_state (∅ : flat) = Some (s1, ∅) /\
    set_up 0x4a 0x1fffe 3 d /\ size d = cbool (4 <=? 2) /\
    fetch_block at_config (S (Z.to_nat 3)) s1 2 d 0 ∅ = (vs ++ [v], w2) /\
    channel_reads at_config (S (Z.to_nat 3)) 2 s1 ∅ = Some (vs ++ [v .| DMA_OVER], s2, w2) /\
    Z.testbit (dma_stat s2) 2 = true /\
    if ctrue (0x4a .& 0x10) then serving s2 2 d
    else dma_channel_read at_config 2 s2 w2 = Some (DMA_NODATA, s2, w2).
Proof.
  assert (setup_valid at_config at_state 2 0x4a 0x1fffe 3) as Hv
    by (split; [exact at_state_rest|]; split_and!; try done; unfold is_channel; set_solver).
  split; [exact Hv|]. exact (dma_read_block at_config at_state 2 0x4a 0x1fffe 3 ∅ Hv eq_refl eq_refl).
Defined.

Lemma dma_write_block_witness :
  setup_valid at_config at_state 5 0x55 0x3fffc 2 /\
  exists s1 d s2,
    dma_outs at_config (setup 5 0x55 0x3fffc 2) at_state (∅ : flat) = Some (s1, ∅) /\
    set_up 0x55 0x3fffc 2 d /\ size d = cbool (4 <=? 5) /\
    channel_writes ([0x1234; 0x5678] ++ [0x9abc]) 5 s1 ∅ =
      Some (replicate (Z.to_nat 2) 0 ++ [if ctrue (0x55 .& 0x10) then 0 else DMA_OVER], s2,
            store_block ([0x1234; 0x5678] ++ [0x9abc]) (dma_at at_state) d 0 ∅) /\
    Z.testbit (dma_stat s2) 5 = true /\ (ctrue (0x55 .& 0x10) = true -> serving s2 5 d).
Proof.
  assert (setup_valid at_config at_state 5 0x55 0x3fffc 2) as Hv
    by (split; [exact at_state_rest|]; split_and!; try done; unfold is_channel; set_solver).
  split; [exact Hv|]. exact (dma_write_block at_config at_state 5 0x55 0x3fffc 2 [0x1234; 0x5678] 0x9abc ∅ Hv eq_refl eq_refl).
Defined.

Lemma dma_read_progress_witness :
  setup_valid at_config at_state 2 0x4a 0x1fffe 3 /\
  exists s1 d vs s2 w2,
    dma_outs at_config (setup 2 0x4a 0x1fffe 3) at_state (∅ : flat) = Some (s1, ∅) /\
    set_up 0x4a 0x1fffe 3 d /\ size d = cbool (4 <=? 2) /\
    channel_reads at_config (Z.to_nat 2) 2 s1 ∅ = Some (vs, s2, w2) /\
    let a := unit_addr d 0x1fffe 2 in
    read_current at_config 2 s2 w2 = Some ((if 2 <? 4 then a else a >>> 1) `mod` 2 ^ 16, 3 - 2).
Proof.
  assert (setup_valid at_config at_state 2 0x4a 0x1fffe 3) as Hv
    by (split; [exact at_state_rest|]; split_and!; try done; unfold is_channel; set_solver).
  split; [exact Hv|]. exact (dma_read_progress at_config at_state 2 0x4a 0x1fffe 3 2 ∅ Hv eq_refl ltac:(lia)).
Defined.

(** Both channels set up for an overlapping copy of four bytes. *)
Definition source_channel : dma_t := (channel_reset false 0) <| mode := 0x88 |> <| ab := 0x100 |> <| ac := 0x100 |>
  <| cb := 3 |> <| cc := 3 |>.
Definition target_channel : dma_t := source_channel <| mode := 0x85 |> <| ab := 0x102 |> <| ac := 0x102 |>.
Definition copy_state : dma_state :=
  (put 0 source_channel (put 1 target_channel at_state)) <| dma_command0 := 1 |>.

Lemma mem_to_mem_copies_witness :
  exists s' w', dma_write at_config 0x09 0x04 copy_state (<[0x100 := 0xaa]> ∅ : flat) = Some (s', w') /\
    (forall k, 0 <= k <= 3 -> flat_byte w' (unit_addr target_channel 0x102 k)
                              = flat_byte (<[0x100 := 0xaa]> ∅) (unit_addr source_channel 0x100 k)) /\
    (forall x, (forall k, 0 <= k <= 3 -> x <> unit_addr target_channel 0x102 k) ->
       flat_byte w' x = flat_byte (<[0x100 := 0xaa]> ∅) x).
Proof.
  refine (mem_to_mem_copies at_config copy_state source_channel target_channel (<[0x100 := 0xaa]> ∅)
            _ _ eq_refl eq_refl eq_refl eq_refl eq_refl eq_refl eq_refl _).
  - split; [reflexivity|lia|reflexivity|by split|by split|by vm_compute|reflexivity].
  - split; [reflexivity|lia|reflexivity|by split|by split|by vm_compute|reflexivity].
  - by vm_compute.
Defined.

Lemma transfers_stay_in_page_witness :
  exists rs s' w',
    run_calls at_config [Read 0; ReadOnly 0; Write 1 0x55; Advance 0; Read 3] copy_state (∅ : flat) = Some (rs, s', w') /\
    forall c d, arr_get (dma copy_state) c = Some d ->
      exists d', arr_get (dma s') c = Some d' /\ is_u32 (ac d') /\ size d' = size d /\
        ac d' >>> page_bits d = ac d >>> page_bits d.
Proof.
  refine (transfers_stay_in_page at_config _ copy_state ∅ _ eq_refl _ _); [by split| |repeat (apply Forall_cons_2; [cbn; lia|]); apply Forall_nil_2; done].
  intros c d [Hc Hd]%arr_get_Some. apply list_elem_of_lookup_2 in Hd. change (dma copy_state) with
    [source_channel; target_channel; channel_reset false 2; channel_reset false 3; channel_reset false 4;
     channel_reset false 5; channel_reset false 6; channel_reset false 7] in Hd.
  repeat (apply elem_of_cons in Hd as [->|Hd]; [by repeat split|]). by apply elem_of_nil in Hd.
Defined.

Lemma block_request_ends_witness :
  let s := put 2 ((channel_reset false 2) <| cb := 0xffff |>) at_state in
  ((exists s' w', dma_block_transfer at_config 2 s (∅ : flat) = Some (s', w')) <-> 0xffff <> 0xffff) /\
  (0xffff = 0xffff -> forall n, exists i s' w',
     block_loop at_config n (4 <=? 2) 2 0 (s <| dma_req_is_soft := true |>) (∅ : flat) = Some (inr (i, s', w'))).
Proof.
  refine (block_request_ends at_config 2 (put 2 ((channel_reset false 2) <| cb := 0xffff |>) at_state)
            ((channel_reset false 2) <| cb := 0xffff |>) (∅ : flat) _ eq_refl eq_refl _); by split.
Defined.
