(* ===== verification/DmaSafe.v ===== *)
(** * DmaSafe: invariants of the controllers of [Dma]

    Scatter/gather lists, and the ranges of all registers under every
    operation: ports, device calls, the PS/2's extended functions. *)
From S2P Require Import Prelude Dma DmaBlock.

(** ** Scatter/gather *)

Section scatter.
Context {W : Type} `{DmaMachine W} (cfg : dma_config).

(** A channel whose list has been started: bits 1 and 2 of the status, which
    the end of a block tests, are clear. *)
Definition listed (d : dma_t) : Prop := sg_status d .& 7 = 1 /\ 1 <= count d.

Lemma listed_bits d : listed d -> ctrue (sg_status d .& 1) = true /\ ctrue (sg_status d .& 6) = false.
Proof.
  intros [Hs _]. split.
  - replace (sg_status d .& 1) with (sg_status d .& 7 .& 1) by by rewrite <- Z.land_assoc. by rewrite Hs.
  - replace (sg_status d .& 6) with (sg_status d .& 7 .& 6) by by rewrite <- Z.land_assoc. by rewrite Hs.
Qed.

(** A channel whose block on a request ends, since 0xffff is no bound of the
    16-bit counter; no entry of a list makes it that. *)
Definition capped (d : dma_t) : Prop := cb d <= 0xfffe.

Lemma listed_next mask d (w : W) :
  exists d' w', dma_sg_next_addr mask d w = (d', w') /\ sg_status d' = sg_status d /\ 1 <= count d' /\ capped d'.
Proof.
  unfold dma_sg_next_addr. destruct (dma_bm_read _ _ _ _ _ w) as [a w1].
  destruct (dma_bm_read _ _ _ _ _ w1) as [cs w2]. eexists _, _. split; [reflexivity|].
  assert (0 <= le_word cs .& 0xfffe) as Hn by (apply Z.land_nonneg; lia).
  assert (le_word cs .& 0xfffe <= 0xfffe) as Hx.
  { assert (is_u16 (le_word cs .& 0xfffe)) as Hw by (apply in_width_land_r; [lia|unfold in_width; lia]).
    destruct (Z.eq_dec (le_word cs .& 0xfffe) 0xffff) as [E|]; [|unfold in_width in Hw; lia].
    apply (f_equal Z.odd) in E. by rewrite <- !Z.bit0_odd, Z.land_spec, andb_false_r in E. }
  destruct (_ =? 2); (split; [done|]); (split; [|exact Hx]);
    change (1 <= if le_word cs .& 0xfffe =? 0 then 65536 else le_word cs .& 0xfffe); decide_z.
Qed.

(** The loop returns; a block can be empty only at its start. *)
Lemma sg_loop_total fuel at_ mask out data len pos d (w : W) :
  0 <= count d -> 0 <= len -> len + cbool (count d =? 0) < Z.of_nat fuel ->
  exists r data' d' w', sg_loop fuel at_ mask out data len pos d w = Some (r, data', d', w') /\
    0 <= r < 16 /\ sg_status d' = sg_status d /\ (1 <= count d -> 1 <= count d') /\ (capped d -> capped d').
Proof.
  revert data len pos d w. induction fuel as [|fuel IH]; intros data len pos d w Hd Hl Hf;
    [destruct (count d =? 0); cbn [cbool] in Hf; lia|]. cbn [sg_loop].
  destruct (Z.leb_spec (count d) len).
  - destruct (sg_block _ _ _ _ _ _ _) as [data1 w1].
    destruct ((len - count d =? 0) && negb (eot d)); [by eexists _, _, _, _|].
    destruct (negb (len - count d =? 0) && eot d); [by eexists _, _, _, _|].
    destruct (eot d); [by eexists _, _, _, _|].
    destruct (listed_next mask d w1) as (d2 & w2 & -> & Hs & Hc & Hcap).
    destruct (IH data1 (len - count d) (pos + Z.to_nat (count d))%nat d2 w2) as (r & data' & d' & w' & E & Hr & Hs' & Hc' & Hcap');
      [lia|lia| |].
    { replace (count d2 =? 0) with false by decide_z. cbn [cbool].
      destruct (Z.eqb_spec (count d) 0); cbn [cbool] in Hf; lia. }
    exists r, data', d', w'. split; [exact E|]. split; [done|]. split; [congruence|]. split; [intros _; by apply Hc'|].
    intros _. by apply Hcap'.
  - destruct (sg_block _ _ _ _ _ _ _) as [data1 w1]. eexists _, _, _, _. split; [reflexivity|].
    split; [done|]. split; [done|]. split; [|done]. intros _. change (1 <= count d - len). lia.
Qed.

Lemma dma_sg_total s data len out d (w : W) :
  0 <= count d -> 0 <= len ->
  exists r data' d' w', dma_sg s data len out d w = Some (r, data', d', w') /\
    0 <= r < 16 /\ sg_status d' = sg_status d /\ (1 <= count d -> 1 <= count d') /\ (capped d -> capped d').
Proof.
  intros Hd Hl. unfold dma_sg. destruct (negb _); [by eexists _, _, _, _|].
  apply sg_loop_total; [done..|]. destruct (count d =? 0); cbn [cbool]; lia.
Qed.

Lemma sg_result_listed r d : 0 <= r < 16 -> listed d -> listed (sg_result r d).
Proof.
  intros Hr [Hs Hc]. split; [|exact Hc]. change (u8 ((sg_status d .& 0x0f) .| (r <<< 4)) .& 7 = 1).
  rewrite <- Hs. apply Z.bits_inj'. intros i Hi.
  rewrite !Z.land_spec, wrap_testbit, Z.lor_spec, Z.land_spec, Z.shiftl_spec by lia.
  change 7 with (Z.ones 3). change 0x0f with (Z.ones 4). destruct (decide (i < 3)).
  - rewrite !Z.ones_spec_low by lia. replace (i <? 8) with true by decide_z.
    rewrite (Z.testbit_neg_r r) by lia. by rewrite !andb_true_r, orb_false_r.
  - rewrite (Z.ones_spec_high 3) by lia. by rewrite !andb_false_r.
Qed.

Lemma dma_sg_listed s data len out d (w : W) :
  listed d -> 0 <= len ->
  exists r data' d' w', dma_sg s data len out d w = Some (r, data', d', w') /\ listed (sg_result r d').
Proof.
  intros [Hd Hn] Hl.
  destruct (dma_sg_total s data len out d w) as (r & data' & d' & w' & E & Hr & Hs & Hc & _); [lia|done|].
  exists r, data', d', w'. split; [exact E|]. apply sg_result_listed; [done|]. split; [congruence|by apply Hc].
Qed.

(** The result of a call that has no terminal count. *)
Definition no_terminal (v : Z) : Prop := v = DMA_NODATA \/ v .& DMA_OVER = 0.

Lemma no_terminal_word v : is_u16 v -> no_terminal v.
Proof.
  intros Hv. right. change DMA_OVER with (2 ^ 16). rewrite land_pow2 by lia.
  apply in_width_testbit in Hv as [_ Hv]; [|lia]. by rewrite Hv by lia.
Qed.

Lemma step_listed s d : dma_advanced s = true -> listed d -> listed (step8 s d) /\ listed (step16 s d).
Proof.
  intros Ha Hd. unfold step8, step16. rewrite Ha. unfold dma_retreat, dma_advance, pages_of_ac.
  destruct (ctrue (mode d .& 0x20)), (is_ps2 s), (ctrue (sg_status d .& 1)), (transfer_mode d >>> 8 =? 2); done.
Qed.

Lemma read_unit_listed s d (w : W) :
  dma_advanced s = true -> listed d ->
  exists v d' w', read_unit s d w = Some (v, d', w') /\ is_u16 v /\ listed d'.
Proof.
  intros Ha Hd. unfold read_unit, _dma_read, _dma_readw. rewrite Ha. destruct (listed_bits d Hd) as [-> _].
  destruct (size d =? 0).
  - destruct (dma_sg_listed s [0] 1 true d w Hd ltac:(lia)) as (r & data & d1 & w1 & -> & Hd1).
    cbn [mbind option_bind]. eexists _, _, _. split; [reflexivity|]. split; [|by apply step_listed].
    apply (in_width_mono 8); [lia|width].
  - destruct (dma_sg_listed s [0; 0] 2 true d w Hd ltac:(lia)) as (r & data & d1 & w1 & -> & Hd1).
    cbn [mbind option_bind]. eexists _, _, _. split; [reflexivity|]. split; [width|by apply step_listed].
Qed.

Lemma write_unit_listed s type val d (w : W) :
  dma_advanced s = true -> listed d -> exists d' w', write_unit s type val d w = Some (d', w') /\ listed d'.
Proof.
  intros Ha Hd. unfold write_unit, _dma_write, _dma_writew. rewrite Ha. destruct (listed_bits d Hd) as [-> _].
  destruct (size d =? 0), (type =? 4).
  - destruct (dma_sg_listed s [val .& 0xff] 1 false d w Hd ltac:(lia)) as (r & data & d1 & w1 & -> & Hd1).
    cbn [mbind option_bind]. eexists _, _. split; [reflexivity|by apply step_listed].
  - cbn [mbind option_bind]. eexists _, _. split; [reflexivity|by apply step_listed].
  - destruct (dma_sg_listed s (le_bytes 2 val) 2 false d w Hd ltac:(lia)) as (r & data & d1 & w1 & -> & Hd1).
    cbn [mbind option_bind]. eexists _, _. split; [reflexivity|by apply step_listed].
  - cbn [mbind option_bind]. eexists _, _. split; [reflexivity|by apply step_listed].
Qed.

Lemma count_down_listed s c d (w : W) :
  dma_advanced s = true -> listed d -> exists d' w', count_down s c d w = (false, s, d', w') /\ listed d'.
Proof.
  intros Ha Hd. unfold count_down. rewrite Ha. change (sg_status (d <| cc := _ |>)) with (sg_status d).
  destruct (listed_bits d Hd) as [-> ->]. cbn [andb negb]. destruct (_ <? 0); [|by eexists _, _].
  destruct (listed_next (dma_mask s) (d <| cc := swrap 32 (cc d - 1) |>) w) as (d' & w' & -> & Hs & Hc & _).
  eexists _, _. split; [reflexivity|]. split; [|done]. rewrite Hs. apply Hd.
Qed.

(** A channel with a list on a chipset; nothing has reached a terminal count
    since [s0]. *)
Definition scattering (s0 : dma_state) (c : Z) (s : dma_state) : Prop :=
  dma_advanced s = true /\ dma_req_is_soft s = false /\ dma_stat s = dma_stat s0 /\ dma_m s = dma_m s0 /\
  exists d, arr_get (dma s) c = Some d /\ listed d.

Lemma scattering_put s0 c s s' d d' :
  scattering s0 c s -> arr_get (dma s) c = Some d -> listed d' ->
  dma s' = dma s -> dma_advanced s' = dma_advanced s -> dma_req_is_soft s' = dma_req_is_soft s ->
  dma_stat s' = dma_stat s -> dma_m s' = dma_m s -> scattering s0 c (put c d' s').
Proof.
  intros (Ha & Hr & Ht & Hm & _) Hd Hl Ed Ea Er Et Em.
  split; [change (dma_advanced s' = true); congruence|]. split; [change (dma_req_is_soft s' = false); congruence|].
  split; [change (dma_stat s' = dma_stat s0); congruence|]. split; [change (dma_m s' = dma_m s0); congruence|].
  exists d'. split; [|done]. apply (put_range s' c d). by rewrite Ed.
Qed.

Lemma advance_scattering s0 c s (w : W) :
  scattering s0 c s ->
  exists s' w', dma_channel_advance c s w = Some (0, s', w') /\ scattering s0 c s'.
Proof.
  intros Hs. pose proof Hs as (Ha & Hr & Ht & Hm & d & Hd & Hl). unfold dma_channel_advance. rewrite Hd.
  cbn [mbind option_bind]. destruct (ctrue _); [|eauto].
  destruct (count_down_listed s c d w Ha Hl) as (d' & w' & -> & Hl').
  eexists _, _. split; [reflexivity|]. exact (scattering_put s0 c s s d d' Hs Hd Hl' eq_refl eq_refl eq_refl eq_refl eq_refl).
Qed.

Lemma read_scattering s0 c s (w : W) :
  scattering s0 c s ->
  exists v s' w', dma_channel_read cfg c s w = Some (v, s', w') /\ no_terminal v /\ scattering s0 c s'.
Proof.
  intros Hs. pose proof Hs as (_ & _ & _ & _ & d & Hd & _). unfold dma_channel_read. rewrite Hd.
  cbn [mbind option_bind]. destruct (refused s c || _); [eexists _, _, _; split; [reflexivity|]; by split; [left|]|].
  assert (exists r s1 w1, (if ctrue (dma_stat_adv_pend s .& bit c) then dma_channel_advance c s w
    else Some (0, s, w)) = Some (r, s1, w1) /\ scattering s0 c s1) as (r & s1 & w1 & -> & Hs1).
  { destruct (ctrue _); [|eauto]. destruct (advance_scattering s0 c s w Hs) as (s1 & w1 & ? & ?). eauto. }
  cbn [mbind option_bind]. pose proof Hs1 as (Ha1 & _ & _ & _ & d1 & Hd1 & Hl1). rewrite Hd1. cbn [mbind option_bind].
  destruct (read_unit_listed s1 d1 (refresh cfg s1 c w1) Ha1 Hl1) as (v & d2 & w2 & -> & Hv & Hl2).
  cbn [mbind option_bind]. set (s2 := s1 <| dma_stat_rq := _ |>).
  destruct (count_down_listed s2 c d2 w2 Ha1 Hl2) as (d3 & w3 & -> & Hl3).
  eexists _, _, _. split; [reflexivity|]. split; [by apply no_terminal_word|].
  exact (scattering_put s0 c s1 s2 d1 d3 Hs1 Hd1 Hl3 eq_refl eq_refl eq_refl eq_refl eq_refl).
Qed.

Lemma read_only_scattering s0 c s (w : W) :
  scattering s0 c s ->
  exists v s' w', dma_channel_read_only cfg c s w = Some (v, s', w') /\ no_terminal v /\ scattering s0 c s'.
Proof.
  intros Hs. pose proof Hs as (_ & _ & _ & _ & d & Hd & _). unfold dma_channel_read_only. rewrite Hd.
  cbn [mbind option_bind]. destruct (refused s c || _); [eexists _, _, _; split; [reflexivity|]; by split; [left|]|].
  destruct (advance_scattering s0 c s w Hs) as (s1 & w1 & -> & Hs1). cbn [mbind option_bind].
  pose proof Hs1 as (Ha1 & _ & _ & _ & d1 & Hd1 & Hl1). rewrite Hd1. cbn [mbind option_bind].
  destruct (read_unit_listed s1 d1 (refresh cfg s1 c w1) Ha1 Hl1) as (v & d2 & w2 & -> & Hv & Hl2).
  cbn [mbind option_bind]. eexists _, _, _. split; [reflexivity|]. split; [by apply no_terminal_word|].
  exact (scattering_put s0 c s1 s1 d1 d2 Hs1 Hd1 Hl2 eq_refl eq_refl eq_refl eq_refl eq_refl).
Qed.

Lemma write_scattering s0 c val s (w : W) :
  scattering s0 c s ->
  exists v s' w', dma_channel_write c val s w = Some (v, s', w') /\ no_terminal v /\ scattering s0 c s'.
Proof.
  intros Hs. pose proof Hs as (Ha & Hr & _ & _ & d & Hd & Hl). unfold dma_channel_write. rewrite Hd.
  cbn [mbind option_bind]. destruct (refused s c) eqn:Hg; [eexists _, _, _; split; [reflexivity|]; by split; [left|]|].
  cbn [orb]. destruct (negb _); [eexists _, _, _; split; [reflexivity|]; by split; [left|]|].
  destruct (write_unit_listed s (mode d .& 0x0c) val d w Ha Hl) as (d1 & w1 & -> & Hl1). cbn [mbind option_bind].
  set (s1 := s <| dma_stat_rq := _ |> <| dma_stat_adv_pend := _ |>).
  destruct (count_down_listed s1 c d1 w1 Ha Hl1) as (d2 & w2 & -> & Hl2).
  change (dma_m s1) with (dma_m s). assert (ctrue (dma_m s .& bit c) = false) as ->.
  { unfold refused in Hg. rewrite Hr, andb_true_r in Hg. by apply orb_false_iff in Hg as [_ ?]. }
  eexists _, _, _. split; [reflexivity|]. split; [by right|].
  exact (scattering_put s0 c s s1 d d2 Hs Hd Hl2 eq_refl eq_refl eq_refl eq_refl eq_refl).
Qed.

Lemma calls_scattering s0 c l s (w : W) :
  scattering s0 c s -> Forall (fun x => call_channel x = c) l ->
  exists rs s' w', run_calls cfg l s w = Some (rs, s', w') /\ Forall no_terminal rs /\ scattering s0 c s'.
Proof.
  intros Hs Hl. revert s w Hs. induction Hl as [|x l Hx _ IH]; intros s w Hs; cbn [run_calls]; [by eexists _, _, _|].
  assert (exists v s1 w1, run_call cfg x s w = Some (v, s1, w1) /\ no_terminal v /\ scattering s0 c s1)
    as (v & s1 & w1 & -> & Hv & Hs1).
  { destruct x as [c'|c' val|c'|c']; cbn [call_channel] in Hx; subst c'; cbn [run_call].
    - by apply read_scattering.
    - by apply write_scattering.
    - by apply read_only_scattering.
    - destruct (advance_scattering s0 c s w Hs) as (s1 & w1 & E & Hs1). eexists _, _, _. split; [exact E|].
      by split; [right|]. }
  cbn [mbind option_bind]. destruct (IH s1 w1 Hs1) as (rs & s2 & w2 & -> & Hrs & Hs2). cbn [mbind option_bind].
  eexists _, _, _. split; [reflexivity|]. by split; [constructor|].
Qed.

(** C34: A channel with a started scatter/gather list never reaches its
    terminal count: whatever calls a device makes, each one returns and none
    reports the end, the status and mask registers stay, and at the end of
    the list the engine goes on with the memory behind it - the test of the
    status looks at bits 1 and 2, while the result of a block is put into
    bits 4 to 7. *)
Theorem sg_never_terminal c l s d (w : W) :
  dma_advanced s = true -> dma_req_is_soft s = false -> arr_get (dma s) c = Some d -> listed d ->
  Forall (fun x => call_channel x = c) l ->
  exists rs s' w', run_calls cfg l s w = Some (rs, s', w') /\ Forall no_terminal rs /\
    dma_stat s' = dma_stat s /\ dma_m s' = dma_m s.
Proof.
  intros Ha Hr Hd Hl Hcalls.
  assert (scattering s c s) as Hs by (split_and!; [done..|]; eauto).
  destruct (calls_scattering s c l s w Hs Hcalls) as (rs & s' & w' & E & Hrs & (_ & _ & Hst & Hm & _)).
  by exists rs, s', w'.
Qed.
End scatter.

(** ** Ranges *)

(** A record of the controllers whose fields are of their C types; the
    remaining count of a list's block is even that of a block. *)
Record dma_ok (d : dma_t) : Prop := {
  ok_mode : is_u8 (mode d);
  ok_page : is_u8 (page d);
  ok_ps2_mode : is_u8 (ps2_mode d);
  ok_arb_level : is_u8 (arb_level d);
  ok_sg_command : is_u8 (sg_command d);
  ok_sg_status : is_u8 (sg_status d);
  ok_ptr0 : is_u8 (ptr0 d);
  ok_ext_mode : is_u8 (ext_mode d);
  ok_page_l : is_u8 (page_l d);
  ok_page_h : is_u8 (page_h d);
  ok_cb : is_u16 (cb d);
  ok_io_addr : is_u16 (io_addr d);
  ok_transfer_mode : is_u16 (transfer_mode d);
  ok_ptr : is_u32 (ptr d);
  ok_ptr_cur : is_u32 (ptr_cur d);
  ok_addr : is_u32 (addr d);
  ok_ab : is_u32 (ab d);
  ok_ac : is_u32 (ac d);
  ok_cc : - 2 ^ 31 <= cc d < 2 ^ 31;
  ok_size : is_u8 (size d);
  ok_count : 0 <= count d <= 0x10000;
}.

Definition bank_ok (l : list Z) : Prop := length l = 16%nat /\ Forall is_u8 l.

Record state_ok (s : dma_state) : Prop := {
  ok_dma_len : length (dma s) = 8%nat;
  ok_dma : Forall dma_ok (dma s);
  ok_e : is_u8 (dma_e s);
  ok_m : is_u8 (dma_m s);
  ok_regs_len : length (dmaregs s) = 3%nat;
  ok_regs : Forall bank_ok (dmaregs s);
  ok_wp0 : in_width 1 (dma_wp0 s);
  ok_wp1 : in_width 1 (dma_wp1 s);
  ok_stat : is_u8 (dma_stat s);
  ok_stat_rq : is_u8 (dma_stat_rq s);
  ok_stat_rq_pc : is_u8 (dma_stat_rq_pc s);
  ok_adv : is_u8 (dma_stat_adv_pend s);
  ok_command0 : is_u8 (dma_command0 s);
  ok_command1 : is_u8 (dma_command1 s);
  ok_buffer : map_Forall (fun _ => is_u8) (dma_buffer s);
  ok_buffer16 : map_Forall (fun _ => is_u16) (dma16_buffer s);
  ok_sg_base : is_u16 (dma_sg_base s);
  ok_mask : is_u32 (dma_mask s);
  ok_command : in_width 4 (xfr_command s);
  ok_channel : in_width 3 (xfr_channel s);
  ok_byte_ptr : in_width 2 (byte_ptr s);
  ok_arb_control : is_u8 (arb_control s);
  ok_arb_status : is_u8 (arb_status s);
}.

(** Ranges by the structure of the term. *)
Ltac ranged :=
  lazymatch goal with
  | H : ?P |- ?P => exact H
  | |- in_width _ (wrap ?k _) => apply (in_width_mono k); [lia|apply wrap_range; lia]
  | |- in_width _ (_ .| _) => apply in_width_lor; [lia|ranged|ranged]
  | |- in_width _ (_ .& Z.lnot _) => apply in_width_land_l; [lia|ranged]
  | |- in_width _ (_ .& _) => first [apply in_width_land_r; [lia|ranged] | apply in_width_land_l; [lia|ranged]]
  | |- in_width ?w (_ <<< ?k) =>
      let n := eval compute in (w - k) in change w with (n + k); apply in_width_shiftl; [lia|lia|ranged]
  | |- in_width ?w (?x >>> ?k) =>
      let n := eval compute in (w + k) in
      first [apply (in_width_high k w x); [lia|lia|change (w + k) with n; ranged]
            |apply in_width_shiftr; [lia|lia|ranged]]
  | |- - 2 ^ 31 <= swrap 32 ?x < 2 ^ 31 => exact (swrap_range 32 x eq_refl)
  | |- in_width _ (cbool _) => apply (in_width_mono 1); [lia|apply in_width_cbool]
  | |- in_width _ (if ?b then _ else _) => destruct b; ranged
  | |- in_width _ (Zpos _) => unfold in_width; lia
  | |- in_width _ Z0 => unfold in_width; lia
  | |- in_width ?w ?x =>
      match goal with H : in_width ?k x |- _ => apply (in_width_mono k); [lia|exact H] end
  | |- _ => first [lia|unfold in_width in *; lia]
  end.

(** Projections of updated records, and nothing else. *)
Ltac chan_fields :=
  cbn [set const mode page ps2_mode arb_level sg_command sg_status ptr0 ext_mode page_l page_h cb io_addr transfer_mode
       ptr ptr_cur addr ab ac cc size count eot].
Ltac chan_ok := intros []; split; chan_fields; ranged.

Lemma pages_ok d : dma_ok d -> dma_ok (pages_of_ac d).
Proof. unfold pages_of_ac. chan_ok. Qed.

Lemma retreat_ok mask d : is_u32 mask -> dma_ok d -> dma_ok (dma_retreat mask d).
Proof.
  intros Hm Hd. unfold dma_retreat. destruct (ctrue _); [apply pages_ok|destruct (_ =? 2)]; revert Hd; chan_ok.
Qed.

Lemma advance_ok mask d : is_u32 mask -> dma_ok d -> dma_ok (dma_advance mask d).
Proof.
  intros Hm Hd. unfold dma_advance. destruct (ctrue _); [apply pages_ok|destruct (_ =? 2)]; revert Hd; chan_ok.
Qed.

Lemma step8_ok s d : is_u32 (dma_mask s) -> dma_ok d -> dma_ok (step8 s d).
Proof.
  intros Hm Hd. unfold step8.
  destruct (ctrue (mode d .& 0x20)), (is_ps2 s), (dma_advanced s);
    lazymatch goal with
    | |- dma_ok (dma_retreat _ _) => by apply retreat_ok
    | |- dma_ok (dma_advance _ _) => by apply advance_ok
    | _ => revert Hd; chan_ok
    end.
Qed.

Lemma step16_ok s d : is_u32 (dma_mask s) -> dma_ok d -> dma_ok (step16 s d).
Proof.
  intros Hm Hd. unfold step16.
  destruct (ctrue (mode d .& 0x20)), (is_ps2 s), (dma_advanced s);
    lazymatch goal with
    | |- dma_ok (dma_retreat _ _) => by apply retreat_ok
    | |- dma_ok (dma_advance _ _) => by apply advance_ok
    | _ => revert Hd; chan_ok
    end.
Qed.

Lemma write_address_ok low mask val d :
  is_u32 mask -> is_u8 val -> dma_ok d -> dma_ok (write_address low mask val d).
Proof. intros ? ?. unfold write_address. destruct low; chan_ok. Qed.

Lemma write_address16_ok low mask val d :
  is_u32 mask -> is_u8 val -> dma_ok d -> dma_ok (write_address16 low mask val d).
Proof. intros ? ?. unfold write_address16. destruct low; chan_ok. Qed.

Lemma write_count_ok low val d : is_u8 val -> dma_ok d -> dma_ok (write_count low val d).
Proof.
  intros Hv Hd. set (n := if low then (cb d .& 0xff00) .| val else (cb d .& 0x00ff) .| (val <<< 8)).
  assert (is_u16 n) as Hn by (destruct Hd, low; subst n; ranged). revert Hd. unfold write_count. fold n. chan_ok.
Qed.

Lemma write_mode_ok s b val d : is_u8 b -> is_u8 val -> dma_ok d -> dma_ok (write_mode s b val d).
Proof.
  intros Hb Hv. unfold write_mode, DMA_PS2_AUTOINIT, DMA_PS2_DEC2, DMA_PS2_XFER_MEM_TO_IO, DMA_PS2_XFER_IO_TO_MEM.
  destruct (is_ps2 s); [|chan_ok].
  destruct (ctrue (val .& 0x10)), (ctrue (val .& 0x20)), (val .& 0xc =? 8), (val .& 0xc =? 4); chan_ok.
Qed.

Lemma write_page_ok xt mask c val d : is_u32 mask -> is_u8 val -> dma_ok d -> dma_ok (write_page xt mask c val d).
Proof. intros ? ?. unfold write_page. destruct (4 <? c), xt; chan_ok. Qed.

Lemma write_high_page_ok mask val d : is_u32 mask -> is_u8 val -> dma_ok d -> dma_ok (write_high_page mask val d).
Proof. intros ? ?. unfold write_high_page. chan_ok. Qed.

Lemma ext_mode_ok val d : is_u8 val ->
  dma_ok d -> dma_ok (d <| ext_mode := val .& 0x7c |> <| transfer_mode := ext_transfer_mode val |>).
Proof.
  intros Hv. assert (is_u16 (ext_transfer_mode val)) by (unfold ext_transfer_mode; repeat case_match; ranged).
  chan_ok.
Qed.

Lemma write_io_addr_ok high val d : is_u8 val -> dma_ok d -> dma_ok (write_io_addr high val d).
Proof. intros ?. unfold write_io_addr. destruct high; chan_ok. Qed.

Lemma write_ps2_address_ok i val d : is_u8 val -> dma_ok d -> dma_ok (write_ps2_address i val d).
Proof. intros ?. unfold write_ps2_address. repeat case_match; chan_ok. Qed.

Lemma write_ps2_count_ok high val d : is_u8 val -> dma_ok d -> dma_ok (write_ps2_count high val d).
Proof.
  intros Hv Hd. set (n := if high then (cc d .& 0xff) .| (val <<< 8) else (cc d .& 0xff00) .| val).
  assert (is_u16 n) as Hn by (destruct Hd, high; subst n; ranged). revert Hd. unfold write_ps2_count. fold n. chan_ok.
Qed.

Lemma write_ps2_mode_ok val d : is_u8 val -> dma_ok d -> dma_ok (write_ps2_mode val d).
Proof.
  intros Hv. unfold write_ps2_mode, DMA_PS2_DEC2, DMA_PS2_XFER_MASK, DMA_PS2_XFER_MEM_TO_IO, DMA_PS2_XFER_IO_TO_MEM,
    DMA_PS2_AUTOINIT, DMA_PS2_SIZE16.
  destruct (ctrue (val .& 16)), (val .& 12 =? 4), (val .& 12 =? 12), (ctrue (val .& 2)); chan_ok.
Qed.

Lemma ps2_step_ok d : dma_ok d -> dma_ok (ps2_step d).
Proof. unfold ps2_step. destruct (ctrue _); chan_ok. Qed.

Section memory_effects.
Context {W : Type} `{DmaMachine W} (cfg : dma_config).

Lemma sg_next_ok mask d (w : W) : is_u32 mask -> dma_ok d -> dma_ok (dma_sg_next_addr mask d w).1.
Proof.
  intros Hm Hd. unfold dma_sg_next_addr. destruct (dma_bm_read _ _ _ _ _ w) as [a w1].
  destruct (dma_bm_read _ _ _ _ _ w1) as [cs w2]. cbv zeta. cbn [fst].
  set (n := le_word cs .& 0xfffe). assert (is_u16 n) as Hn by (subst n; ranged).
  assert (forall e, dma_ok e -> dma_ok (e <| ptr_cur := u32 (ptr_cur e + 8) |>)) as Hcur by (intros e; chan_ok).
  apply Hcur, pages_ok. clear Hcur. destruct (n =? 0), (_ =? 2); revert Hd; chan_ok.
Qed.

Lemma sg_loop_ok fuel at_ mask out data len pos d (w : W) r data' d' w' :
  is_u32 mask -> dma_ok d -> 0 <= len ->
  sg_loop fuel at_ mask out data len pos d w = Some (r, data', d', w') -> dma_ok d'.
Proof.
  intros Hm. revert data len pos d w. induction fuel as [|fuel IH]; intros data len pos d w Hd Hl E; [done|].
  cbn [sg_loop] in E. destruct (Z.leb_spec (count d) len).
  - destruct (sg_block _ _ _ _ _ _ _) as [data1 w1].
    destruct (_ && negb (eot d)); [congruence|]. destruct (_ && eot d); [congruence|].
    destruct (eot d); [congruence|]. pose proof (sg_next_ok mask d w1 Hm Hd) as Hn.
    destruct (dma_sg_next_addr mask d w1) as [d2 w2]. apply (IH _ _ _ _ _ Hn) in E; [done|lia].
  - destruct (sg_block _ _ _ _ _ _ _) as [data1 w1]. injection E as _ _ <- _. revert Hd. chan_ok.
Qed.

Lemma dma_sg_ok s data len out d (w : W) r data' d' w' :
  is_u32 (dma_mask s) -> dma_ok d -> 0 <= len ->
  dma_sg s data len out d w = Some (r, data', d', w') -> dma_ok (sg_result r d').
Proof.
  intros Hm Hd Hl E. assert (dma_ok d') as Hd'.
  { unfold dma_sg in E. destruct (negb _); [congruence|]. by apply sg_loop_ok in E. }
  unfold sg_result. revert Hd'. chan_ok.
Qed.

(** The values memory gives are bytes. *)
Hypothesis bytes_read : forall a (w : W), is_u8 (mem_readb_phys a w).1.

Lemma dma_read_ok s a d (w : W) v d' w' :
  is_u32 (dma_mask s) -> dma_ok d -> _dma_read s a d w = Some (v, d', w') -> is_u8 v /\ dma_ok d'.
Proof.
  intros Hm Hd. unfold _dma_read. destruct (dma_advanced s); [destruct (ctrue _)|].
  - destruct (dma_sg _ _ _ _ _ _) as [[[[r data] d1] w1]|] eqn:E; [|done]. cbn [mbind option_bind].
    intros [= <- <- <-]. split; [ranged|]. by apply dma_sg_ok in E.
  - destruct (dma_bm_read _ _ _ _ _ _). intros [= <- <- <-]. split; [ranged|done].
  - pose proof (bytes_read a w). destruct (mem_readb_phys a w). intros [= <- <- <-]. done.
Qed.

Lemma dma_readw_ok s a d (w : W) v d' w' :
  is_u32 (dma_mask s) -> dma_ok d -> _dma_readw s a d w = Some (v, d', w') -> is_u16 v /\ dma_ok d'.
Proof.
  intros Hm Hd. unfold _dma_readw. destruct (dma_advanced s); [destruct (ctrue _)|].
  - destruct (dma_sg _ _ _ _ _ _) as [[[[r data] d1] w1]|] eqn:E; [|done]. cbn [mbind option_bind].
    intros [= <- <- <-]. split; [ranged|]. by apply dma_sg_ok in E.
  - destruct (dma_bm_read _ _ _ _ _ _). intros [= <- <- <-]. split; [ranged|done].
  - destruct (_dma_read s a d w) as [[[lo d1] w1]|] eqn:E1; [|done]. cbn [mbind option_bind].
    destruct (_dma_read s _ d1 w1) as [[[hi d2] w2]|] eqn:E2; [|done]. cbn [mbind option_bind].
    intros [= <- <- <-]. apply dma_read_ok in E1 as [? ?]; [|done..]. apply dma_read_ok in E2 as [? ?]; [|done..].
    split; [ranged|done].
Qed.

Lemma dma_write_byte_ok s a v d (w : W) d' w' :
  is_u32 (dma_mask s) -> dma_ok d -> _dma_write s a v d w = Some (d', w') -> dma_ok d'.
Proof.
  intros Hm Hd. unfold _dma_write. destruct (dma_advanced s); [destruct (ctrue _)|].
  - destruct (dma_sg _ _ _ _ _ _) as [[[[r data] d1] w1]|] eqn:E; [|done]. cbn [mbind option_bind].
    intros [= <- <-]. by apply dma_sg_ok in E.
  - intros [= <- <-]. done.
  - intros [= <- <-]. done.
Qed.

Lemma dma_writew_ok s a v d (w : W) d' w' :
  is_u32 (dma_mask s) -> dma_ok d -> _dma_writew s a v d w = Some (d', w') -> dma_ok d'.
Proof.
  intros Hm Hd. unfold _dma_writew. destruct (dma_advanced s); [destruct (ctrue _)|].
  - destruct (dma_sg _ _ _ _ _ _) as [[[[r data] d1] w1]|] eqn:E; [|done]. cbn [mbind option_bind].
    intros [= <- <-]. by apply dma_sg_ok in E.
  - intros [= <- <-]. done.
  - destruct (_dma_write s a _ d w) as [[d1 w1]|] eqn:E1; [|done]. cbn [mbind option_bind]. intros E2.
    apply dma_write_byte_ok in E1; [|done..]. by apply dma_write_byte_ok in E2.
Qed.

Lemma read_unit_ok s d (w : W) v d' w' :
  is_u32 (dma_mask s) -> dma_ok d -> read_unit s d w = Some (v, d', w') -> is_u16 v /\ dma_ok d'.
Proof.
  intros Hm Hd. unfold read_unit. destruct (size d =? 0).
  - destruct (_dma_read _ _ _ _) as [[[x d1] w1]|] eqn:E; [|done]. cbn [mbind option_bind]. intros [= <- <- <-].
    apply dma_read_ok in E as [? ?]; [|done..]. split; [ranged|by apply step8_ok].
  - destruct (_dma_readw _ _ _ _) as [[[x d1] w1]|] eqn:E; [|done]. cbn [mbind option_bind]. intros [= <- <- <-].
    apply dma_readw_ok in E as [? ?]; [|done..]. split; [done|by apply step16_ok].
Qed.

Lemma write_unit_ok s type val d (w : W) d' w' :
  is_u32 (dma_mask s) -> dma_ok d -> write_unit s type val d w = Some (d', w') -> dma_ok d'.
Proof.
  intros Hm Hd. unfold write_unit. destruct (size d =? 0), (type =? 4).
  - destruct (_dma_write _ _ _ _ _) as [[d1 w1]|] eqn:E; [|done]. cbn [mbind option_bind]. intros [= <- <-].
    apply dma_write_byte_ok in E; [|done..]. by apply step8_ok.
  - intros [= <- <-]. by apply step8_ok.
  - destruct (_dma_writew _ _ _ _ _) as [[d1 w1]|] eqn:E; [|done]. cbn [mbind option_bind]. intros [= <- <-].
    apply dma_writew_ok in E; [|done..]. by apply step16_ok.
  - intros [= <- <-]. by apply step16_ok.
Qed.
End memory_effects.

(** ** Ranges under every operation *)

Ltac state_fields :=
  cbn [set const dma dma_e dma_m dma_force_xt dmaregs dma_wp0 dma_wp1 dma_stat dma_stat_rq dma_stat_rq_pc
       dma_stat_adv_pend dma_command0 dma_command1 dma_req_is_soft dma_advanced dma_at dma_buffer dma16_buffer
       dma_sg_base dma_mask xfr_command xfr_channel byte_ptr arb_control arb_status is_ps2].
Ltac state_ok_tac := intros []; split; state_fields; ranged.

Lemma bit_ok c : 0 <= c < 8 -> is_u8 (bit c).
Proof. intros Hc. rewrite bit_pow by lia. split; [apply Z.pow_nonneg; lia|]. apply Z.pow_lt_mono_r; lia. Qed.

Lemma put_ok c d s : dma_ok d -> state_ok s -> state_ok (put c d s).
Proof.
  intros Hd []. unfold put. split; state_fields; try ranged.
  - by rewrite length_insert.
  - by apply Forall_insert.
Qed.

Lemma channel_ok c d s : state_ok s -> arr_get (dma s) c = Some d -> dma_ok d /\ 0 <= c < 8.
Proof.
  intros Hs [Hc Hd]%arr_get_Some. split.
  - eapply Forall_lookup_1; [apply (ok_dma s Hs)|exact Hd].
  - apply lookup_lt_Some in Hd. rewrite (ok_dma_len s Hs) in Hd. lia.
Qed.

Lemma lookup_ok c s : state_ok s -> 0 <= c < 8 -> exists d, arr_get (dma s) c = Some d.
Proof. intros Hs Hc. apply arr_get_lt. rewrite (ok_dma_len s Hs). lia. Qed.

Lemma chan_update_ok c f s s' :
  state_ok s -> (forall d, dma_ok d -> dma_ok (f d)) -> on_channel c f s = Some s' -> state_ok s'.
Proof.
  intros Hs Hf. unfold on_channel. destruct (arr_get (dma s) c) as [d|] eqn:Hd; [|done].
  intros [= <-]. apply put_ok; [|done]. by apply Hf, (channel_ok c d s).
Qed.

Lemma regs_set_ok bank i v s : is_u8 v -> state_ok s -> state_ok (regs_set bank i v s).
Proof.
  intros Hv []. unfold regs_set. split; state_fields; try ranged.
  - by rewrite length_alter.
  - apply Forall_alter; [done|]. intros l _ [Hl Hf]. split; [by rewrite length_insert|]. by apply Forall_insert.
Qed.

Lemma regs_get_ok bank i s : state_ok s -> is_u8 (regs_get s bank i).
Proof.
  intros Hs. unfold regs_get. apply Forall_nth_default; [|unfold in_width; lia].
  apply (Forall_nth_default (Forall is_u8)); [|constructor].
  eapply Forall_impl; [apply (ok_regs s Hs)|]. by intros l [].
Qed.

Section operations.
Context {W : Type} `{DmaMachine W} (cfg : dma_config).
Hypothesis bytes_read : forall a (w : W), is_u8 (mem_readb_phys a w).1.

Lemma count_down_ok s c d (w : W) tc s' d' w' :
  state_ok s -> 0 <= c < 8 -> dma_ok d -> count_down s c d w = (tc, s', d', w') -> state_ok s' /\ dma_ok d'.
Proof.
  intros Hs Hc Hd. pose proof (bit_ok c Hc) as Hb. pose proof (ok_mask s Hs) as Hm. unfold count_down.
  assert (dma_ok (d <| cc := swrap 32 (cc d - 1) |>)) as Hd1 by (revert Hd; chan_ok). set (d1 := d <| cc := _ |>) in *.
  destruct (cc d1 <? 0); [|by intros [= <- <- <- <-]].
  destruct (_ && negb _).
  - pose proof (sg_next_ok (dma_mask s) d1 w Hm Hd1). destruct (dma_sg_next_addr _ _ _). by intros [= <- <- <- <-].
  - destruct (ctrue (mode d1 .& 0x10)); intros [= <- <- <- <-].
    + split; [revert Hs; state_ok_tac|destruct Hd; clearbody d1; revert Hd1; chan_ok].
    + split; [revert Hs; state_ok_tac|done].
Qed.

Lemma sg_interrupt_ok s d (w : W) : dma_ok d -> dma_ok (sg_interrupt s d w).1.
Proof. intros Hd. unfold sg_interrupt. destruct (_ && _); [|done]. cbn [fst]. revert Hd. chan_ok. Qed.

(** What a device call returns: nothing, or a word with the mark. *)
Definition call_result (v : Z) : Prop := v = DMA_NODATA \/ in_width 17 v.

Lemma over_result v : is_u16 v -> call_result (v .| DMA_OVER).
Proof. intros. right. unfold DMA_OVER. ranged. Qed.

Lemma word_result v : is_u16 v -> call_result v.
Proof. intros. right. ranged. Qed.

Lemma advance_call_ok c s (w : W) r s' w' :
  state_ok s -> dma_channel_advance c s w = Some (r, s', w') -> call_result r /\ state_ok s'.
Proof.
  intros Hs. unfold dma_channel_advance. destruct (arr_get (dma s) c) as [d|] eqn:Hd; [|done]. cbn [mbind option_bind].
  destruct (channel_ok c d s Hs Hd) as [Hdo Hc].
  destruct (ctrue _); [|intros [= <- <- <-]; split; [by right|done]].
  destruct (count_down s c d w) as [[[tc s1] d1] w1] eqn:E. destruct (count_down_ok _ _ _ _ _ _ _ _ Hs Hc Hdo E) as [Hs1 Hd1].
  pose proof (sg_interrupt_ok s1 d1 w1 Hd1) as Hi. destruct (sg_interrupt s1 d1 w1) as [d2 w2].
  intros E2. assert (exists d3, dma_ok d3 /\ r = cbool tc /\
      s' = (put c d3 s1) <| dma_stat_adv_pend := dma_stat_adv_pend s1 .&~ bit c |>) as (d3 & Hd3 & -> & ->)
    by (destruct tc; injection E2 as <- <- <-; eauto).
  split; [right; ranged|]. pose proof (put_ok c d3 s1 Hd3 Hs1) as Hp. pose proof (ok_adv s1 Hs1). revert Hp. state_ok_tac.
Qed.

Lemma stat_rq_ok c s : 0 <= c < 8 -> state_ok s -> state_ok (s <| dma_stat_rq := dma_stat_rq s .| bit c |>).
Proof. intros Hc. pose proof (bit_ok c Hc). state_ok_tac. Qed.

Lemma read_call_ok c s (w : W) r s' w' :
  state_ok s -> dma_channel_read cfg c s w = Some (r, s', w') -> call_result r /\ state_ok s'.
Proof.
  intros Hs. unfold dma_channel_read. destruct (arr_get (dma s) c) as [d|] eqn:Hd; [|done]. cbn [mbind option_bind].
  destruct (channel_ok c d s Hs Hd) as [_ Hc].
  destruct (refused s c || _); [intros [= <- <- <-]; split; [by left|done]|].
  destruct (if ctrue _ then _ else _) as [[[r1 s1] w1]|] eqn:E1; [|done]. cbn [mbind option_bind].
  assert (state_ok s1) as Hs1.
  { destruct (ctrue _); [|congruence]. by apply advance_call_ok in E1 as [_ ?]. }
  destruct (arr_get (dma s1) c) as [d1|] eqn:Hd1; [|done]. cbn [mbind option_bind].
  destruct (channel_ok c d1 s1 Hs1 Hd1) as [Hdo1 _].
  destruct (read_unit s1 d1 _) as [[[v d2] w2]|] eqn:E2; [|done]. cbn [mbind option_bind].
  apply read_unit_ok in E2 as [Hv Hd2]; [|done|apply (ok_mask s1 Hs1)|done].
  destruct (count_down _ c d2 w2) as [[[tc s3] d3] w3] eqn:E3.
  apply count_down_ok in E3 as [Hs3 Hd3]; [|by apply stat_rq_ok|done|done].
  pose proof (sg_interrupt_ok s3 d3 w3 Hd3) as Hi. destruct (sg_interrupt s3 d3 w3) as [d4 w4].
  destruct tc; intros [= <- <- <-]; (split; [|by apply put_ok]); [by apply over_result|by apply word_result].
Qed.

Lemma read_only_call_ok c s (w : W) r s' w' :
  state_ok s -> dma_channel_read_only cfg c s w = Some (r, s', w') -> call_result r /\ state_ok s'.
Proof.
  intros Hs. unfold dma_channel_read_only. destruct (arr_get (dma s) c) as [d|] eqn:Hd; [|done]. cbn [mbind option_bind].
  destruct (channel_ok c d s Hs Hd) as [_ Hc].
  destruct (refused s c || _); [intros [= <- <- <-]; split; [by left|done]|].
  destruct (dma_channel_advance c s w) as [[[r1 s1] w1]|] eqn:E1; [|done]. cbn [mbind option_bind].
  apply advance_call_ok in E1 as [_ Hs1]; [|done].
  destruct (arr_get (dma s1) c) as [d1|] eqn:Hd1; [|done]. cbn [mbind option_bind].
  destruct (channel_ok c d1 s1 Hs1 Hd1) as [Hdo1 _].
  destruct (read_unit s1 d1 _) as [[[v d2] w2]|] eqn:E2; [|done]. cbn [mbind option_bind].
  apply read_unit_ok in E2 as [Hv Hd2]; [|done|apply (ok_mask s1 Hs1)|done].
  intros [= <- <- <-]. split; [by apply word_result|].
  pose proof (put_ok c d2 s1 Hd2 Hs1) as Hp. pose proof (bit_ok c Hc). destruct Hs1. revert Hp. state_ok_tac.
Qed.

Lemma write_call_ok c val s (w : W) r s' w' :
  state_ok s -> dma_channel_write c val s w = Some (r, s', w') -> call_result r /\ state_ok s'.
Proof.
  intros Hs. unfold dma_channel_write. destruct (arr_get (dma s) c) as [d|] eqn:Hd; [|done]. cbn [mbind option_bind].
  destruct (channel_ok c d s Hs Hd) as [Hdo Hc]. cbv zeta.
  destruct (refused s c || _); [intros [= <- <- <-]; split; [by left|done]|].
  destruct (write_unit s _ val d w) as [[d1 w1]|] eqn:E1; [|done]. cbn [mbind option_bind].
  apply write_unit_ok in E1; [|apply (ok_mask s Hs)|done].
  destruct (count_down _ c d1 w1) as [[[tc s3] d3] w3] eqn:E3.
  apply count_down_ok in E3 as [Hs3 Hd3]; [| |done|done].
  2: { pose proof (bit_ok c Hc). revert Hs. state_ok_tac. }
  pose proof (sg_interrupt_ok s3 d3 w3 Hd3) as Hi. destruct (sg_interrupt s3 d3 w3) as [d4 w4].
  destruct (ctrue _); intros [= <- <- <-]; (split; [right; unfold DMA_OVER; ranged|by apply put_ok]).
Qed.

(** *** Software requests *)

Lemma buffer_ok s b : map_Forall (fun _ => is_u8) b -> state_ok s -> state_ok (s <| dma_buffer := b |>).
Proof. intros Hb. state_ok_tac. Qed.

Lemma buffer16_ok s b : map_Forall (fun _ => is_u16) b -> state_ok s -> state_ok (s <| dma16_buffer := b |>).
Proof. intros Hb. state_ok_tac. Qed.

Lemma soft_ok b s : state_ok s -> state_ok (s <| dma_req_is_soft := b |>).
Proof. state_ok_tac. Qed.

Lemma stored_ok (b : bool) i v s :
  state_ok s ->
  state_ok (if b then s <| dma16_buffer := <[i := u16 v]> (dma16_buffer s) |>
            else s <| dma_buffer := <[i := u8 v]> (dma_buffer s) |>).
Proof.
  intros Hs. destruct b; [apply buffer16_ok|apply buffer_ok]; try done;
    (apply map_Forall_insert_2; [apply wrap_range; lia|]); [apply (ok_buffer16 s Hs)|apply (ok_buffer s Hs)].
Qed.

Lemma block_body_ok b c i s (w : W) s' w' :
  state_ok s -> block_body cfg b c i s w = Some (s', w') -> state_ok s'.
Proof.
  intros Hs. unfold block_body. destruct (arr_get (dma s) c) as [d|] eqn:Hd; [|done]. cbn [mbind option_bind].
  destruct (_ =? _).
  - destruct (dma_channel_write _ _ _ _) as [[[v s2] w2]|] eqn:E2; [|done]. cbn [mbind option_bind].
    intros [= <- <-]. by apply write_call_ok in E2 as [_ ?].
  - destruct (_ =? _); [|by intros [= <- <-]].
    destruct (dma_channel_read _ _ _ _) as [[[v s2] w2]|] eqn:E2; [|done]. cbn [mbind option_bind].
    intros [= <- <-]. apply read_call_ok in E2 as [_ ?]; [|done]. by apply stored_ok.
Qed.

Lemma block_loop_ok fuel b c i s (w : W) r :
  state_ok s -> block_loop cfg fuel b c i s w = Some r ->
  match r with inl (s', _) => state_ok s' | inr (_, s', _) => state_ok s' end.
Proof.
  revert i s w. induction fuel as [|fuel IH]; intros i s w Hs; cbn [block_loop]; [by intros [= <-]|].
  destruct (arr_get (dma s) c) as [d|] eqn:Hd; [|done]. cbn [mbind option_bind].
  destruct (i <=? cb d); [|by intros [= <-]].
  destruct (block_body cfg b c i s w) as [[s1 w1]|] eqn:E; [|done]. cbn [mbind option_bind]. apply IH.
  by apply block_body_ok in E.
Qed.

Lemma block_transfer_ok c s (w : W) s' w' :
  state_ok s -> dma_block_transfer cfg c s w = Some (s', w') -> state_ok s'.
Proof.
  intros Hs. unfold dma_block_transfer. destruct (arr_get (dma s) c) as [d|] eqn:Hd; [|done]. cbn [mbind option_bind].
  destruct (block_loop _ _ _ _ _ _ _) as [r|] eqn:E; [|done]. cbn [mbind option_bind].
  apply block_loop_ok in E; [|by apply soft_ok]. destruct r as [[s1 w1]|]; [|done]. intros [= <- <-]. by apply soft_ok.
Qed.

Lemma mem_read_loop_state fuel i s (w : W) s' w' :
  state_ok s -> mem_read_loop cfg fuel i s w = Some (s', w') -> state_ok s'.
Proof.
  revert i s w. induction fuel as [|fuel IH]; intros i s w Hs; cbn [mem_read_loop];
    (destruct (arr_get (dma s) 0) as [d|]; [|done]); cbn [mbind option_bind];
    (destruct (i <=? cb d); [|intros [= <- <-]; done]); [done|].
  destruct (dma_channel_read _ _ _ _) as [[[v s2] w2]|] eqn:E2; [|done]. cbn [mbind option_bind]. apply IH.
  apply read_call_ok in E2 as [_ ?]; [|done]. by apply (stored_ok false).
Qed.

Lemma mem_write_loop_state fuel i s (w : W) s' w' :
  state_ok s -> mem_write_loop fuel i s w = Some (s', w') -> state_ok s'.
Proof.
  revert i s w. induction fuel as [|fuel IH]; intros i s w Hs; cbn [mem_write_loop];
    (destruct (arr_get (dma s) 1) as [d|]; [|done]); cbn [mbind option_bind];
    (destruct (i <=? cb d); [|intros [= <- <-]; done]); [done|].
  destruct (dma_channel_write _ _ _ _) as [[[v s2] w2]|] eqn:E2; [|done]. cbn [mbind option_bind]. apply IH.
  by apply write_call_ok in E2 as [_ ?].
Qed.

Lemma mem_to_mem_ok s (w : W) s' w' :
  state_ok s -> dma_mem_to_mem_transfer cfg s w = Some (s', w') -> state_ok s'.
Proof.
  intros Hs. unfold dma_mem_to_mem_transfer.
  destruct (arr_get (dma s) 0) as [c0|]; [|done]. destruct (arr_get (dma s) 1) as [c1|]; [|done].
  cbn [mbind option_bind]. destruct (negb _); [done|]. destruct (negb _); [done|].
  destruct (mem_read_loop _ _ _ _ _) as [[s1 w1]|] eqn:E1; [|done]. cbn [mbind option_bind].
  destruct (mem_write_loop _ _ _ _) as [[s2 w2]|] eqn:E2; [|done]. cbn [mbind option_bind]. intros [= <- <-].
  apply mem_read_loop_state in E1; [|by apply soft_ok]. apply mem_write_loop_state in E2; [|done]. by apply soft_ok.
Qed.

(** *** What returns *)

Lemma sg_total s data len out d (w : W) :
  dma_ok d -> 0 <= len ->
  exists r data' d' w', dma_sg s data len out d w = Some (r, data', d', w') /\ (capped d -> capped (sg_result r d')).
Proof.
  intros Hd Hl. destruct (dma_sg_total s data len out d w) as (r & data' & d' & w' & E & _ & _ & _ & Hc);
    [apply Hd|done|]. by exists r, data', d', w'.
Qed.

Lemma read_byte_total s a d (w : W) :
  dma_ok d -> exists v d' w', _dma_read s a d w = Some (v, d', w') /\ (capped d -> capped d').
Proof.
  intros Hd. unfold _dma_read. destruct (dma_advanced s); [destruct (ctrue _)|].
  - destruct (sg_total s [0] 1 true d w Hd ltac:(lia)) as (r & data & d' & w' & -> & Hc). cbn [mbind option_bind]. eauto.
  - destruct (dma_bm_read _ _ _ _ _ _). eauto.
  - destruct (mem_readb_phys a w). eauto.
Qed.

Lemma read_word_total s a d (w : W) :
  is_u32 (dma_mask s) -> dma_ok d -> exists v d' w', _dma_readw s a d w = Some (v, d', w') /\ (capped d -> capped d').
Proof.
  intros Hm Hd. unfold _dma_readw. destruct (dma_advanced s); [destruct (ctrue _)|].
  - destruct (sg_total s [0; 0] 2 true d w Hd ltac:(lia)) as (r & data & d' & w' & -> & Hc). cbn [mbind option_bind]. eauto.
  - destruct (dma_bm_read _ _ _ _ _ _). eauto.
  - destruct (read_byte_total s a d w Hd) as (lo & d1 & w1 & E1 & Hc1). rewrite E1. cbn [mbind option_bind].
    apply dma_read_ok in E1 as [_ Hd1]; [|done..].
    destruct (read_byte_total s (u32 (a + 1)) d1 w1 Hd1) as (hi & d2 & w2 & -> & Hc2). cbn [mbind option_bind].
    eexists _, _, _. split; [reflexivity|auto].
Qed.

Lemma write_byte_total s a v d (w : W) :
  dma_ok d -> exists d' w', _dma_write s a v d w = Some (d', w') /\ (capped d -> capped d').
Proof.
  intros Hd. unfold _dma_write. destruct (dma_advanced s); [destruct (ctrue _)|]; [|eauto..].
  destruct (sg_total s [v] 1 false d w Hd ltac:(lia)) as (r & data & d' & w' & -> & Hc). cbn [mbind option_bind]. eauto.
Qed.

Lemma write_word_total s a v d (w : W) :
  is_u32 (dma_mask s) -> dma_ok d -> exists d' w', _dma_writew s a v d w = Some (d', w') /\ (capped d -> capped d').
Proof.
  intros Hm Hd. unfold _dma_writew. destruct (dma_advanced s); [destruct (ctrue _)|]; [|eauto|].
  - destruct (sg_total s (le_bytes 2 v) 2 false d w Hd ltac:(lia)) as (r & data & d' & w' & -> & Hc).
    cbn [mbind option_bind]. eauto.
  - destruct (write_byte_total s a (v .& 0xff) d w Hd) as (d1 & w1 & E1 & Hc1). rewrite E1. cbn [mbind option_bind].
    apply dma_write_byte_ok in E1; [|done..].
    destruct (write_byte_total s (u32 (a + 1)) (v >>> 8) d1 w1 E1) as (d2 & w2 & -> & Hc2).
    eexists _, _. split; [reflexivity|auto].
Qed.

Lemma step_capped s d : (capped d -> capped (step8 s d)) /\ (capped d -> capped (step16 s d)).
Proof.
  unfold step8, step16, dma_retreat, dma_advance, pages_of_ac.
  destruct (ctrue (mode d .& 0x20)), (is_ps2 s), (dma_advanced s), (ctrue (sg_status d .& 1)), (transfer_mode d >>> 8 =? 2);
    done.
Qed.

Lemma read_unit_total s d (w : W) :
  is_u32 (dma_mask s) -> dma_ok d -> exists v d' w', read_unit s d w = Some (v, d', w') /\ (capped d -> capped d').
Proof.
  intros Hm Hd. unfold read_unit. destruct (size d =? 0).
  - destruct (read_byte_total s (ac d) d w Hd) as (v & d' & w' & -> & Hc). cbn [mbind option_bind].
    eexists _, _, _. split; [reflexivity|]. intros Hd'. by apply step_capped, Hc.
  - destruct (read_word_total s (ac d) d w Hm Hd) as (v & d' & w' & -> & Hc). cbn [mbind option_bind].
    eexists _, _, _. split; [reflexivity|]. intros Hd'. by apply step_capped, Hc.
Qed.

Lemma write_unit_total s type val d (w : W) :
  is_u32 (dma_mask s) -> dma_ok d -> exists d' w', write_unit s type val d w = Some (d', w') /\ (capped d -> capped d').
Proof.
  intros Hm Hd. unfold write_unit. destruct (size d =? 0), (type =? 4);
    [destruct (write_byte_total s (ac d) (val .& 0xff) d w Hd) as (d' & w' & -> & Hc)| |
     destruct (write_word_total s (ac d) val d w Hm Hd) as (d' & w' & -> & Hc)|]; cbn [mbind option_bind];
    (eexists _, _; split; [reflexivity|]; intros Hd'; apply step_capped; auto).
Qed.

(** The channel [c] is capped. *)
Definition capped_at (c : Z) (s : dma_state) : Prop := forall d, arr_get (dma s) c = Some d -> capped d.

Lemma capped_put c d s : capped d -> capped_at c (put c d s).
Proof.
  intros Hd d' [Hc Hd']%arr_get_Some. unfold put in Hd'. cbn [set dma] in Hd'.
  apply list_lookup_insert_Some in Hd' as [(_ & <- & _)|[? _]]; [done|lia].
Qed.

Lemma count_down_capped s c d (w : W) tc s' d' w' :
  count_down s c d w = (tc, s', d', w') -> capped d -> capped d'.
Proof.
  unfold count_down. set (d1 := d <| cc := _ |>). intros E Hd. assert (capped d1) as Hd1 by exact Hd. clearbody d1.
  destruct (cc d1 <? 0); [|congruence]. destruct (_ && _).
  - destruct (listed_next (dma_mask s) d1 w) as (d2 & w2 & E2 & _ & _ & Hc). rewrite E2 in E. congruence.
  - destruct (ctrue (mode d1 .& 0x10)); injection E as _ _ <- _; exact Hd1.
Qed.

Lemma sg_interrupt_capped s d (w : W) : capped d -> capped (sg_interrupt s d w).1.
Proof. unfold sg_interrupt. by destruct (_ && _). Qed.

Lemma advance_total c s (w : W) :
  state_ok s -> 0 <= c < 8 ->
  exists r s' w', dma_channel_advance c s w = Some (r, s', w') /\ (capped_at c s -> capped_at c s').
Proof.
  intros Hs Hc. unfold dma_channel_advance. destruct (lookup_ok c s Hs Hc) as [d Hd]. rewrite Hd. cbn [mbind option_bind].
  destruct (ctrue _); [|eauto]. destruct (count_down s c d w) as [[[tc s1] d1] w1] eqn:E.
  pose proof (sg_interrupt_capped s1 d1 w1) as Hi. destruct (sg_interrupt s1 d1 w1) as [d2 w2].
  destruct tc; (eexists _, _, _; split; [reflexivity|]; intros Hcap; apply capped_put);
    [apply Hi|]; apply (count_down_capped _ _ _ _ _ _ _ _ E), Hcap, Hd.
Qed.

Lemma read_call_total c s (w : W) :
  state_ok s -> 0 <= c < 8 ->
  exists r s' w', dma_channel_read cfg c s w = Some (r, s', w') /\ (capped_at c s -> capped_at c s').
Proof.
  intros Hs Hc. unfold dma_channel_read. destruct (lookup_ok c s Hs Hc) as [d Hd]. rewrite Hd. cbn [mbind option_bind].
  destruct (refused s c || _); [eauto|].
  assert (exists r1 s1 w1, (if ctrue (dma_stat_adv_pend s .& bit c) then dma_channel_advance c s w else Some (0, s, w))
    = Some (r1, s1, w1) /\ state_ok s1 /\ (capped_at c s -> capped_at c s1)) as (r1 & s1 & w1 & -> & Hs1 & Hcap1).
  { destruct (ctrue _); [|eauto 6]. destruct (advance_total c s w Hs Hc) as (r1 & s1 & w1 & E & Hcap).
    exists r1, s1, w1. split; [done|]. by apply advance_call_ok in E as [_ ?]. }
  cbn [mbind option_bind]. destruct (lookup_ok c s1 Hs1 Hc) as [d1 Hd1]. rewrite Hd1. cbn [mbind option_bind].
  destruct (channel_ok c d1 s1 Hs1 Hd1) as [Hdo1 _].
  destruct (read_unit_total s1 d1 (refresh cfg s1 c w1) (ok_mask s1 Hs1) Hdo1) as (v & d2 & w2 & -> & Hcap2).
  cbn [mbind option_bind]. destruct (count_down _ c d2 w2) as [[[tc s3] d3] w3] eqn:E3.
  pose proof (sg_interrupt_capped s3 d3 w3) as Hi. destruct (sg_interrupt s3 d3 w3) as [d4 w4].
  destruct tc; (eexists _, _, _; split; [reflexivity|]; intros Hcap; apply capped_put);
    [apply Hi|]; apply (count_down_capped _ _ _ _ _ _ _ _ E3), Hcap2, (Hcap1 Hcap), Hd1.
Qed.

Lemma read_only_call_total c s (w : W) :
  state_ok s -> 0 <= c < 8 -> exists r s' w', dma_channel_read_only cfg c s w = Some (r, s', w').
Proof.
  intros Hs Hc. unfold dma_channel_read_only. destruct (lookup_ok c s Hs Hc) as [d Hd]. rewrite Hd. cbn [mbind option_bind].
  destruct (refused s c || _); [eauto|].
  destruct (advance_total c s w Hs Hc) as (r1 & s1 & w1 & E & _). rewrite E. cbn [mbind option_bind].
  apply advance_call_ok in E as [_ Hs1]; [|done]. destruct (lookup_ok c s1 Hs1 Hc) as [d1 Hd1]. rewrite Hd1.
  cbn [mbind option_bind]. destruct (channel_ok c d1 s1 Hs1 Hd1) as [Hdo1 _].
  destruct (read_unit_total s1 d1 (refresh cfg s1 c w1) (ok_mask s1 Hs1) Hdo1) as (v & d2 & w2 & -> & _).
  cbn [mbind option_bind]. eauto.
Qed.

Lemma write_call_total c val s (w : W) :
  state_ok s -> 0 <= c < 8 ->
  exists r s' w', dma_channel_write c val s w = Some (r, s', w') /\ (capped_at c s -> capped_at c s').
Proof.
  intros Hs Hc. unfold dma_channel_write. destruct (lookup_ok c s Hs Hc) as [d Hd]. rewrite Hd. cbn [mbind option_bind].
  destruct (channel_ok c d s Hs Hd) as [Hdo _]. cbv zeta. destruct (refused s c || _); [eauto|].
  destruct (write_unit_total s (mode d .& 0x0c) val d w (ok_mask s Hs) Hdo) as (d1 & w1 & -> & Hcap1).
  cbn [mbind option_bind]. destruct (count_down _ c d1 w1) as [[[tc s3] d3] w3] eqn:E3.
  pose proof (sg_interrupt_capped s3 d3 w3) as Hi. destruct (sg_interrupt s3 d3 w3) as [d4 w4].
  destruct (ctrue _); (eexists _, _, _; split; [reflexivity|]; intros Hcap; apply capped_put);
    [apply Hi|]; apply (count_down_capped _ _ _ _ _ _ _ _ E3), Hcap1, Hcap, Hd.
Qed.

Lemma call_total x s (w : W) :
  state_ok s -> 0 <= call_channel x < 8 -> exists r s' w', run_call cfg x s w = Some (r, s', w').
Proof.
  intros Hs Hx. destruct x as [c|c val|c|c]; cbn [run_call call_channel] in *.
  - destruct (read_call_total c s w Hs Hx) as (r & s' & w' & -> & _). eauto.
  - destruct (write_call_total c val s w Hs Hx) as (r & s' & w' & -> & _). eauto.
  - by apply read_only_call_total.
  - destruct (advance_total c s w Hs Hx) as (r & s' & w' & -> & _). eauto.
Qed.

Lemma stored_dma (b : bool) i v s :
  dma (if b then s <| dma16_buffer := <[i := u16 v]> (dma16_buffer s) |>
       else s <| dma_buffer := <[i := u8 v]> (dma_buffer s) |>) = dma s.
Proof. by destruct b. Qed.

Lemma block_body_total b c i s (w : W) :
  state_ok s -> 0 <= c < 8 ->
  exists s' w', block_body cfg b c i s w = Some (s', w') /\ (capped_at c s -> capped_at c s').
Proof.
  intros Hs Hc. unfold block_body. destruct (lookup_ok c s Hs Hc) as [d Hd]. rewrite Hd. cbn [mbind option_bind].
  destruct (_ =? _); [|destruct (_ =? _); [|eauto]].
  - destruct (write_call_total c (buffer_get (if b then dma16_buffer s else dma_buffer s) i) s w Hs Hc)
      as (r & s' & w' & -> & Hcap). cbn [mbind option_bind]. eauto.
  - destruct (read_call_total c s w Hs Hc) as (v & s' & w' & -> & Hcap). cbn [mbind option_bind].
    eexists _, _. split; [reflexivity|]. unfold capped_at. by rewrite stored_dma.
Qed.

(** With a count below 0xffff the loop ends in the iterations it is given. *)
Lemma block_loop_total fuel b c i s (w : W) :
  state_ok s -> 0 <= c < 8 -> capped_at c s -> 0 <= i <= 65535 -> 65535 - i < Z.of_nat fuel ->
  exists s' w', block_loop cfg fuel b c i s w = Some (inl (s', w')).
Proof.
  revert i s w. induction fuel as [|fuel IH]; intros i s w Hs Hc Hcap Hi Hf; [lia|]. cbn [block_loop].
  destruct (lookup_ok c s Hs Hc) as [d Hd]. rewrite Hd. cbn [mbind option_bind].
  destruct (Z.leb_spec i (cb d)); [|eauto]. pose proof (Hcap d Hd) as Hd'. unfold capped in Hd'.
  destruct (block_body_total b c i s w Hs Hc) as (s1 & w1 & E & Hcap1). rewrite E. cbn [mbind option_bind].
  apply block_body_ok in E; [|done]. rewrite (wrap_id 16) by (unfold in_width; lia). apply IH; auto; lia.
Qed.

Lemma block_transfer_total c s (w : W) :
  state_ok s -> 0 <= c < 8 -> capped_at c s -> exists s' w', dma_block_transfer cfg c s w = Some (s', w').
Proof.
  intros Hs Hc Hcap. unfold dma_block_transfer. destruct (lookup_ok c s Hs Hc) as [d Hd]. rewrite Hd.
  cbn [mbind option_bind].
  destruct (block_loop_total (block_fuel + extra_rounds cfg) (if dma_advanced s then dma_transfer_size d =? 2 else 4 <=? c)
    c 0 (s <| dma_req_is_soft := true |>) w) as (s' & w' & ->); [by apply soft_ok|done|done|lia| |].
  { assert (Z.of_nat block_fuel = 65537) by done. lia. }
  cbn [mbind option_bind]. eauto.
Qed.

Lemma mem_read_loop_total fuel i s (w : W) :
  state_ok s -> 0 <= i -> 65536 - i <= Z.of_nat fuel ->
  exists s' w', mem_read_loop cfg fuel i s w = Some (s', w').
Proof.
  revert i s w. induction fuel as [|fuel IH]; intros i s w Hs Hi Hf; cbn [mem_read_loop];
    destruct (lookup_ok 0 s Hs ltac:(lia)) as [d Hd]; rewrite Hd; cbn [mbind option_bind];
    pose proof (ok_cb d (proj1 (channel_ok 0 d s Hs Hd))) as Hcb; unfold in_width in Hcb;
    (destruct (Z.leb_spec i (cb d)); [|eauto]); [lia|].
  destruct (read_call_total 0 s w Hs ltac:(lia)) as (v & s1 & w1 & E & _). rewrite E. cbn [mbind option_bind].
  apply read_call_ok in E as [_ Hs1]; [|done]. apply IH; [by apply (stored_ok false)|lia..].
Qed.

Lemma mem_write_loop_total fuel i s (w : W) :
  state_ok s -> 0 <= i -> 65536 - i <= Z.of_nat fuel ->
  exists s' w', mem_write_loop fuel i s w = Some (s', w').
Proof.
  revert i s w. induction fuel as [|fuel IH]; intros i s w Hs Hi Hf; cbn [mem_write_loop];
    destruct (lookup_ok 1 s Hs ltac:(lia)) as [d Hd]; rewrite Hd; cbn [mbind option_bind];
    pose proof (ok_cb d (proj1 (channel_ok 1 d s Hs Hd))) as Hcb; unfold in_width in Hcb;
    (destruct (Z.leb_spec i (cb d)); [|eauto]); [lia|].
  destruct (write_call_total 1 (buffer_get (dma_buffer s) i) s w Hs ltac:(lia)) as (v & s1 & w1 & E & _). rewrite E.
  cbn [mbind option_bind]. apply write_call_ok in E as [_ Hs1]; [|done]. apply IH; [done|lia..].
Qed.

(** The modes of the two channels of a memory-to-memory transfer, without
    which it is fatal. *)
Definition copy_modes (s : dma_state) : bool :=
  match arr_get (dma s) 0, arr_get (dma s) 1 with
  | Some c0, Some c1 => (mode c0 .& 0x0c =? 0x08) && (mode c1 .& 0x0c =? 0x04)
  | _, _ => false
  end.

Lemma mem_to_mem_total s (w : W) :
  state_ok s -> copy_modes s = true -> exists s' w', dma_mem_to_mem_transfer cfg s w = Some (s', w').
Proof.
  intros Hs. unfold dma_mem_to_mem_transfer, copy_modes.
  destruct (arr_get (dma s) 0) as [c0|]; [|done]. destruct (arr_get (dma s) 1) as [c1|]; [|done].
  cbn [mbind option_bind]. intros [-> ->]%andb_true_iff. cbn [negb].
  assert (Z.of_nat block_fuel = 65537) as Hf by done.
  destruct (mem_read_loop_total block_fuel 0 (s <| dma_req_is_soft := true |>) w) as (s1 & w1 & E); [by apply soft_ok|lia..|].
  rewrite E. cbn [mbind option_bind]. apply mem_read_loop_state in E; [|by apply soft_ok].
  destruct (mem_write_loop_total block_fuel 0 s1 w1) as (s2 & w2 & ->); [done|lia..|]. cbn [mbind option_bind]. eauto.
Qed.
End operations.

(** ** Every operation *)

(** What reaches the controllers: ports (scatter/gather ones of the channel
    [c]), calls of devices, configuration by the chipset, reset. *)
Inductive dma_op :=
  | InB (port : Z)
  | OutB (port val : Z)
  | SgInB (c port : Z)
  | SgInW (c port : Z)
  | SgInL (c port : Z)
  | SgOutB (c port val : Z)
  | SgOutW (c port val : Z)
  | SgOutL (c port val : Z)
  | SgIntStatus
  | ExtMode (port val : Z)
  | HighIn (port : Z)
  | HighOut (port val : Z)
  | Ps2In (port : Z)
  | Ps2Out (port val : Z)
  | ArbIn
  | ArbOut (val : Z)
  | Call (x : dma_call)
  | SetDrq (c : Z) (on : bool)
  | SetParams (advanced : bool) (mask : Z)
  | SetMask (mask : Z)
  | Reset (ps2 : bool).

(** The ports of the AT: the controllers and the page registers. *)
Definition mapped (port : Z) : bool :=
  ((0 <=? port) && (port <? 0x10)) || ((0x80 <=? port) && (port <? 0x90)) || ((0xc0 <=? port) && (port <? 0xe0)).

(** The arguments are of their C types; ports and channels exist. *)
Definition args_ok (x : dma_op) : Prop :=
  match x with
  | InB port => mapped port = true
  | OutB port val => mapped port = true /\ is_u8 val
  | SgInB c _ | SgInW c _ | SgInL c _ => 0 <= c < 8
  | SgOutB c _ val => 0 <= c < 8 /\ is_u8 val
  | SgOutW c _ val => 0 <= c < 8 /\ is_u16 val
  | SgOutL c _ val => 0 <= c < 8 /\ is_u32 val
  | ExtMode _ val | HighOut _ val | Ps2Out _ val | ArbOut val => is_u8 val
  | Call x => 0 <= call_channel x < 8
  | SetParams _ mask | SetMask mask => is_u32 mask
  | _ => True
  end.

Definition result_ok (x : dma_op) (r : Z) : Prop :=
  match x with
  | SgInW _ _ => is_u16 r
  | SgInL _ _ => is_u32 r
  | Call _ => call_result r
  | _ => is_u8 r
  end.

Section everything.
Context {W : Type} `{DmaMachine W} (cfg : dma_config).

(** An operation without a result gives 0. *)
Definition done_ (r : option (dma_state * W)) : option (Z * dma_state * W) := '(s, w) ← r; Some (0, s, w).
Definition got (s : dma_state) (w : W) (r : option Z) : option (Z * dma_state * W) := v ← r; Some (v, s, w).

Definition run_op (x : dma_op) (s : dma_state) (w : W) : option (Z * dma_state * W) :=
  match x with
  | InB port => '(v, s) ← dma_inb cfg port s w; Some (v, s, w)
  | OutB port val => done_ (dma_outb cfg port val s w)
  | SgInB c port => got s w (dma_sg_read c port s)
  | SgInW c port => got s w (dma_sg_readw c port s)
  | SgInL c port => got s w (dma_sg_readl c port s)
  | SgOutB c port val => done_ (dma_sg_write cfg c port val s w)
  | SgOutW c port val => done_ (dma_sg_writew cfg c port val s w)
  | SgOutL c port val => done_ (dma_sg_writel cfg c port val s w)
  | SgIntStatus => got s w (dma_sg_int_status_read s)
  | ExtMode port val => done_ (return_ w (dma_ext_mode_write port val s))
  | HighIn port => got s w (dma_high_page_read port s)
  | HighOut port val => done_ (return_ w (dma_high_page_write port val s))
  | Ps2In port => dma_ps2_read cfg port s w
  | Ps2Out port val => done_ (dma_ps2_write cfg port val s w)
  | ArbIn => let '(v, s) := dma_ps2_arb_read s in Some (v, s, w)
  | ArbOut val => Some (0, dma_ps2_arb_write val s, w)
  | Call x => run_call cfg x s w
  | SetDrq c on => Some (0, dma_set_drq c on s, w)
  | SetParams advanced mask => Some (0, dma_set_params advanced mask s, w)
  | SetMask mask => Some (0, dma_set_mask mask s, w)
  | Reset ps2 => Some (0, reset_state cfg (s <| is_ps2 := ps2 |>), w)
  end.

Fixpoint run_ops (l : list dma_op) (s : dma_state) (w : W) : option (list Z * dma_state * W) :=
  match l with
  | [] => Some ([], s, w)
  | x :: l =>
      '(r, s, w) ← run_op x s w;
      '(rs, s, w) ← run_ops l s w;
      Some (r :: rs, s, w)
  end.

Hypothesis bytes_read : forall a (w : W), is_u8 (mem_readb_phys a w).1.

(** *** The ports of the AT *)

Lemma count_byte_ok low d : is_u8 (count_byte low d).
Proof. unfold count_byte. destruct low; ranged. Qed.

Lemma return_ok w r s' (w' : W) : return_ w r = Some (s', w') -> r = Some s'.
Proof. unfold return_. destruct r; [|done]. by intros [= <- <-]. Qed.

(** Flip-flops, commands, masks, status: fields that an operation sets. *)
Lemma wp0_ok v s : in_width 1 v -> state_ok s -> state_ok (s <| dma_wp0 := v |>).
Proof. intros ?. state_ok_tac. Qed.
Lemma wp1_ok v s : in_width 1 v -> state_ok s -> state_ok (s <| dma_wp1 := v |>).
Proof. intros ?. state_ok_tac. Qed.
Lemma m_ok v s : is_u8 v -> state_ok s -> state_ok (s <| dma_m := v |>).
Proof. intros ?. state_ok_tac. Qed.
Lemma stat_ok v s : is_u8 v -> state_ok s -> state_ok (s <| dma_stat := v |>).
Proof. intros ?. state_ok_tac. Qed.
Lemma set_stat_rq_ok v s : is_u8 v -> state_ok s -> state_ok (s <| dma_stat_rq := v |>).
Proof. intros ?. state_ok_tac. Qed.
Lemma rq_pc_ok v s : is_u8 v -> state_ok s -> state_ok (s <| dma_stat_rq_pc := v |>).
Proof. intros ?. state_ok_tac. Qed.
Lemma byte_ptr_ok v s : in_width 2 v -> state_ok s -> state_ok (s <| byte_ptr := v |>).
Proof. intros ?. state_ok_tac. Qed.

Lemma toggle_ok v : in_width 1 v -> in_width 1 (v .^ 1).
Proof. intros. apply in_width_lxor; [lia|done|unfold in_width; lia]. Qed.

(** The cases of a [match] on the number of a register. *)
Ltac register_cases x :=
  destruct x as [|[[[[?|?|]|[?|?|]|]|[[?|?|]|[?|?|]|]|]|[[[?|?|]|[?|?|]|]|[[?|?|]|[?|?|]|]|]|]|].

(** A lookup of a channel followed by a value of it. *)
Lemma got_channel c s (f : dma_t -> Z * dma_state) v s' :
  state_ok s -> (forall d, dma_ok d -> is_u8 (f d).1 /\ state_ok (f d).2) ->
  (dma_c ← arr_get (dma s) c; Some (f dma_c)) = Some (v, s') -> is_u8 v /\ state_ok s'.
Proof.
  intros Hs Hf. destruct (arr_get (dma s) c) as [d|] eqn:Hd; [|done]. cbn [mbind option_bind]. intros [= E].
  destruct (Hf d) as [? ?]; [by apply (channel_ok c d s)|]. by rewrite E in *.
Qed.

Lemma dma_read_port_ok a s v s' : state_ok s -> dma_read a s = Some (v, s') -> is_u8 v /\ state_ok s'.
Proof.
  intros Hs. pose proof (regs_get_ok 0 (a .& 0xf) s Hs) as Hr.
  pose proof (ok_stat s Hs). pose proof (ok_stat_rq s Hs). pose proof (ok_stat_rq_pc s Hs).
  assert (state_ok (s <| dma_wp0 := dma_wp0 s .^ 1 |>)) as Hw by (apply wp0_ok, Hs; apply toggle_ok, Hs).
  assert (forall low, (dma_c ← arr_get (dma s) ((a >>> 1) .& 3);
      Some (if low : bool then ac dma_c .& 0xff else (ac dma_c >>> 8) .& 0xff, s <| dma_wp0 := dma_wp0 s .^ 1 |>))
      = Some (v, s') -> is_u8 v /\ state_ok s') as Ha.
  { intros low. apply (got_channel _ s (fun d => (_, _))); [done|]. intros d Hd. split; [cbn [fst]; ranged|exact Hw]. }
  assert (forall low, (dma_c ← arr_get (dma s) ((a >>> 1) .& 3);
      Some (count_byte low dma_c, s <| dma_wp0 := dma_wp0 s .^ 1 |>)) = Some (v, s') -> is_u8 v /\ state_ok s') as Hc.
  { intros low. apply (got_channel _ s (fun d => (_, _))); [done|]. intros d Hd. split; [apply count_byte_ok|exact Hw]. }
  unfold dma_read. cbv zeta. register_cases (a .& 0xf); first [apply Ha|apply Hc|by intros [= <- <-]|destruct (is_ps2 s)];
    intros [= <- <-]; (split; [ranged|]); try done; repeat first [done|apply stat_ok|apply set_stat_rq_ok]; ranged.
Qed.

Lemma return_channel_ok c f s (w : W) s' w' :
  state_ok s -> (forall d, dma_ok d -> dma_ok (f d)) -> return_ w (on_channel c f s) = Some (s', w') -> state_ok s'.
Proof. intros Hs Hf E%return_ok. by apply chan_update_ok in E. Qed.

Lemma two_bits x : in_width 2 (x .& 3).
Proof. ranged. Qed.

Lemma dma_write_port_ok a val s (w : W) s' w' :
  is_u8 val -> state_ok s -> dma_write cfg a val s w = Some (s', w') -> state_ok s'.
Proof.
  intros Hv Hs0. unfold dma_write. set (s1 := regs_set 0 (a .& 0xf) val s).
  assert (state_ok s1) as Hs by by apply regs_set_ok. clearbody s1. clear s Hs0. rename s1 into s. cbv zeta.
  assert (0 <= val .& 3 < 8) as Hc3 by (pose proof (two_bits val); unfold in_width in *; lia).
  pose proof (bit_ok _ Hc3). pose proof (ok_m s Hs). pose proof (ok_stat_rq_pc s Hs). pose proof (ok_mask s Hs).
  assert (state_ok (s <| dma_wp0 := dma_wp0 s .^ 1 |>)) as Hw by (apply wp0_ok, Hs; apply toggle_ok, Hs).
  assert (forall low, return_ w (on_channel ((a >>> 1) .& 3) (write_address low (dma_mask s) val)
    (s <| dma_wp0 := dma_wp0 s .^ 1 |>)) = Some (s', w') -> state_ok s') as Ha
    by (intros low; apply return_channel_ok; [done|]; intros d; by apply write_address_ok).
  assert (forall low, return_ w (on_channel ((a >>> 1) .& 3) (write_count low val)
    (s <| dma_wp0 := dma_wp0 s .^ 1 |>)) = Some (s', w') -> state_ok s') as Hn
    by (intros low; apply return_channel_ok; [done|]; intros d; by apply write_count_ok).
  assert (forall b, is_u8 b -> state_ok (s <| dma_stat_rq_pc := b |>)) as Hrq by (intros b Hb; by apply rq_pc_ok).
  register_cases (a .& 0xf);
    lazymatch goal with
    | |- return_ _ (on_channel _ (write_mode _ _ _) _) = _ -> _ =>
        apply return_channel_ok; [done|]; intros d; by apply write_mode_ok
    | |- return_ _ (on_channel _ (write_address _ _ _) _) = _ -> _ => apply Ha
    | |- return_ _ (on_channel _ (write_count _ _) _) = _ -> _ => apply Hn
    | |- Some _ = _ -> _ =>
        intros [= <- <-]; first [solve [repeat first [exact Hs|apply m_ok|apply wp0_ok|apply rq_pc_ok]; ranged]
                                |revert Hs; state_ok_tac]
    | |- _ => idtac
    end.
  destruct (ctrue (val .& 4)); [|intros [= <- <-]; apply Hrq; ranged].
  destruct (_ && _); intros E; [apply mem_to_mem_ok in E|apply block_transfer_ok in E]; try done; apply Hrq; ranged.
Qed.

Lemma dma16_read_port_ok a s v s' : state_ok s -> dma16_read a s = Some (v, s') -> is_u8 v /\ state_ok s'.
Proof.
  intros Hs. pose proof (regs_get_ok 1 ((a >>> 1) .& 0xf) s Hs) as Hr.
  pose proof (ok_stat s Hs). pose proof (ok_stat_rq s Hs). pose proof (ok_stat_rq_pc s Hs).
  assert (state_ok (s <| dma_wp1 := dma_wp1 s .^ 1 |>)) as Hw by (apply wp1_ok, Hs; apply toggle_ok, Hs).
  assert (forall f, (forall d, is_u8 (f d)) -> (dma_c ← arr_get (dma s) (((a >>> 2) .& 3) + 4);
      Some (f dma_c, s <| dma_wp1 := dma_wp1 s .^ 1 |>)) = Some (v, s') -> is_u8 v /\ state_ok s') as Hf.
  { intros f Hf. apply (got_channel _ s (fun d => (_, _))); [done|]. intros d Hd. split; [apply Hf|exact Hw]. }
  unfold dma16_read. cbv zeta. register_cases ((a >>> 1) .& 0xf);
    lazymatch goal with
    | |- Some _ = _ -> _ => intros [= <- <-]; by split
    | |- (if _ then _ else _) = _ -> _ =>
        destruct (is_ps2 s); intros [= <- <-]; (split; [ranged|]); repeat first [done|apply stat_ok|apply set_stat_rq_ok]; ranged
    | |- _ => apply Hf; intros d; first [apply count_byte_ok|ranged]
    end.
Qed.

Lemma dma16_write_port_ok a val s (w : W) s' w' :
  is_u8 val -> state_ok s -> dma16_write cfg a val s w = Some (s', w') -> state_ok s'.
Proof.
  intros Hv Hs0. unfold dma16_write. cbv zeta. set (s1 := regs_set 1 ((a >>> 1) .& 0xf) val s).
  assert (state_ok s1) as Hs by by apply regs_set_ok. clearbody s1. clear s Hs0. rename s1 into s.
  assert (0 <= (val .& 3) + 4 < 8) as Hc3 by (pose proof (two_bits val); unfold in_width in *; lia).
  pose proof (bit_ok _ Hc3). pose proof (ok_m s Hs). pose proof (ok_stat_rq_pc s Hs). pose proof (ok_mask s Hs).
  assert (state_ok (s <| dma_wp1 := dma_wp1 s .^ 1 |>)) as Hw by (apply wp1_ok, Hs; apply toggle_ok, Hs).
  assert (is_u8 (0x10 <<< (val .& 3))) as Hb.
  { replace (0x10 <<< (val .& 3)) with (bit ((val .& 3) + 4)); [done|]. unfold bit.
    rewrite Z.add_comm. symmetry. apply (Z.shiftl_shiftl 1 4). done. }
  assert (forall b, is_u8 b -> state_ok (s <| dma_stat_rq_pc := b |>)) as Hrq by (intros b Hb'; by apply rq_pc_ok).
  register_cases ((a >>> 1) .& 0xf);
    lazymatch goal with
    | |- return_ _ (on_channel _ (if _ then _ else _) _) = _ -> _ =>
        apply return_channel_ok; [done|]; intros d; destruct (is_ps2 _);
        [by apply write_address_ok|by apply write_address16_ok]
    | |- return_ _ (on_channel _ (write_mode _ _ _) _) = _ -> _ =>
        apply return_channel_ok; [done|]; intros d; apply write_mode_ok; [unfold in_width, DMA_PS2_SIZE16; lia|done]
    | |- return_ _ _ = _ -> _ => apply return_channel_ok; [done|]; intros d; by apply write_count_ok
    | |- Some _ = _ -> _ => intros [= <- <-]; revert Hs; state_ok_tac
    | |- _ => idtac
    end.
  destruct (ctrue (val .& 4)); [|intros [= <- <-]; apply Hrq; ranged].
  intros E. apply block_transfer_ok in E; try done; apply Hrq; ranged.
Qed.

Lemma page_write_ok a val s (w : W) s' w' :
  is_u8 val -> state_ok s -> dma_page_write cfg a val s w = Some (s', w') -> state_ok s'.
Proof.
  intros Hv Hs. unfold dma_page_write. cbv zeta. assert (state_ok (regs_set 2 (a .& 0x0f) val s)) as Hs1 by by apply regs_set_ok.
  destruct (_ <? 8); [|by intros [= <- <-]]. apply return_channel_ok; [done|]. intros d.
  apply write_page_ok; [apply (ok_mask s Hs)|done].
Qed.

Lemma page_read_ok a s (w : W) v : state_ok s -> dma_page_read cfg a s w = Some v -> is_u8 v.
Proof.
  intros Hs. unfold dma_page_read. destruct (_ && at_wd76c10 cfg).
  - intros [= <-]. unfold timing_result. repeat case_match; ranged.
  - destruct (_ <? 8); [|intros [= <-]; by apply regs_get_ok].
    destruct (arr_get (dma s) _) as [d|] eqn:Hd; [|done]. intros [= <-]. by apply channel_ok in Hd as [[] _].
Qed.

(** *** Scatter/gather registers *)

Lemma set_ptr_ok v d d' : dma_ok d -> set_ptr cfg v d = Some d' -> dma_ok d'.
Proof.
  intros Hd. unfold set_ptr. assert (is_u32 (u32 (mem_size cfg * 1024))) as Hm by ranged.
  destruct (Z.eqb_spec (u32 (mem_size cfg * 1024)) 0) as [|Hne]; [done|]. intros [= <-].
  assert (is_u32 (v `mod` u32 (mem_size cfg * 1024))) as Hp.
  { unfold in_width in *. pose proof (Z.mod_pos_bound v (u32 (mem_size cfg * 1024)) ltac:(lia)). lia. }
  revert Hd. chan_ok.
Qed.

Lemma set_ptr0_ok v p d d' :
  is_u8 p -> dma_ok d -> (dev ← set_ptr cfg v d; Some (dev <| ptr0 := p |>)) = Some d' -> dma_ok d'.
Proof.
  intros Hp Hd. destruct (set_ptr cfg v d) as [d1|] eqn:E; [|done]. intros [= <-]. apply set_ptr_ok in E; [|done].
  revert E. chan_ok.
Qed.

Lemma return_put_ok c s (w : W) r s' w' :
  state_ok s -> (forall d, r = Some d -> dma_ok d) -> return_put c s w r = Some (s', w') -> state_ok s'.
Proof. intros Hs Hr. unfold return_put. destruct r as [d|]; [|done]. intros [= <- <-]. apply put_ok; [by apply Hr|done]. Qed.

Lemma sg_command_ok s val d (w : W) :
  is_u8 val -> is_u32 (dma_mask s) -> dma_ok d -> dma_ok (sg_command_write s val d w).1.
Proof.
  intros Hv Hm Hd. unfold sg_command_write. destruct (ctrue (val .& 1) && _).
  - assert (dma_ok (d <| ptr_cur := ptr d |>)) as Hd1 by (revert Hd; chan_ok).
    pose proof (sg_next_ok (dma_mask s) _ w Hm Hd1) as Hd2. destruct (dma_sg_next_addr _ _ _) as [d2 w2].
    cbn [fst] in *. destruct (negb _ && _); revert Hd2; chan_ok.
  - cbn [fst]. destruct (negb _ && _); revert Hd; chan_ok.
Qed.

Lemma sg_write_ok c port val s (w : W) s' w' :
  is_u8 val -> state_ok s -> dma_sg_write cfg c port val s w = Some (s', w') -> state_ok s'.
Proof.
  intros Hv Hs. unfold dma_sg_write. destruct (arr_get (dma s) c) as [d|] eqn:Hd; [|done]. cbn [mbind option_bind].
  destruct (channel_ok c d s Hs Hd) as [Hdo _].
  pose proof (sg_command_ok s val d w Hv (ok_mask s Hs) Hdo). destruct (sg_command_write s val d w) as [d1 w1].
  repeat case_match; try (intros [= <- <-]; try done; by apply put_ok);
    (apply return_put_ok; [done|]; intros d2); first [by apply set_ptr_ok|by apply set_ptr0_ok].
Qed.

Lemma sg_writew_ok c port val s (w : W) s' w' :
  is_u16 val -> state_ok s -> dma_sg_writew cfg c port val s w = Some (s', w') -> state_ok s'.
Proof.
  intros Hv Hs. unfold dma_sg_writew. destruct (arr_get (dma s) c) as [d|] eqn:Hd; [|done]. cbn [mbind option_bind].
  destruct (channel_ok c d s Hs Hd) as [Hdo _]. assert (is_u8 (val .& 0xff)) by ranged.
  repeat case_match; try (by intros [= <- <-]); try (by apply sg_write_ok);
    (apply return_put_ok; [done|]; intros d2); first [by apply set_ptr_ok|by apply set_ptr0_ok].
Qed.

Lemma sg_writel_ok c port val s (w : W) s' w' :
  is_u32 val -> state_ok s -> dma_sg_writel cfg c port val s w = Some (s', w') -> state_ok s'.
Proof.
  intros Hv Hs. unfold dma_sg_writel. destruct (arr_get (dma s) c) as [d|] eqn:Hd; [|done]. cbn [mbind option_bind].
  destruct (channel_ok c d s Hs Hd) as [Hdo _]. assert (is_u8 (val .& 0xff)) by ranged.
  repeat case_match; try (by intros [= <- <-]); try (by apply sg_write_ok);
    (apply return_put_ok; [done|]; intros d2); by apply set_ptr0_ok.
Qed.

Lemma sg_read_ok c port s v : state_ok s -> dma_sg_read c port s = Some v -> is_u8 v.
Proof.
  intros Hs. unfold dma_sg_read. destruct (arr_get (dma s) c) as [d|] eqn:Hd; [|done]. intros [= <-].
  destruct (channel_ok c d s Hs Hd) as [[] _]. unfold sg_status_byte. repeat case_match; ranged.
Qed.

Lemma sg_readw_ok c port s v : state_ok s -> dma_sg_readw c port s = Some v -> is_u16 v.
Proof.
  intros Hs. unfold dma_sg_readw. destruct (arr_get (dma s) c) as [d|] eqn:Hd; [|done]. cbn [mbind option_bind].
  destruct (channel_ok c d s Hs Hd) as [[] _].
  repeat case_match; try (intros [= <-]; ranged). intros E. apply sg_read_ok in E; [ranged|done].
Qed.

Lemma sg_readl_ok c port s v : state_ok s -> dma_sg_readl c port s = Some v -> is_u32 v.
Proof.
  intros Hs. unfold dma_sg_readl. destruct (arr_get (dma s) c) as [d|] eqn:Hd; [|done]. cbn [mbind option_bind].
  destruct (channel_ok c d s Hs Hd) as [[] _].
  repeat case_match; try (intros [= <-]; ranged). intros E. apply sg_read_ok in E; [ranged|done].
Qed.

Lemma int_bits_ok idx s ret v :
  state_ok s -> is_u8 ret -> sg_int_bits idx s ret = Some v -> is_u8 v.
Proof.
  intros Hs. revert ret. induction idx as [|i idx IH]; intros ret Hr; cbn [sg_int_bits]; [by intros [= <-]|].
  destruct (i =? 4); [by apply IH|]. destruct (arr_get (dma s) i) as [d|] eqn:Hd; [|done]. cbn [mbind option_bind].
  apply IH. pose proof (bit_ok i (proj2 (channel_ok i d s Hs Hd))) as Hb. unfold bit in Hb.
  destruct (ctrue _); cbn [cbool]; [ranged|]. rewrite Z.shiftl_0_l. ranged.
Qed.

Lemma high_page_write_ok a val s s' :
  is_u8 val -> state_ok s -> dma_high_page_write a val s = Some s' -> state_ok s'.
Proof.
  intros Hv Hs. unfold dma_high_page_write. cbv zeta. destruct (_ <? 8); [|by intros [= <-]].
  apply chan_update_ok; [done|]. intros d. apply write_high_page_ok; [apply (ok_mask s Hs)|done].
Qed.

Lemma high_page_read_ok a s v : state_ok s -> dma_high_page_read a s = Some v -> is_u8 v.
Proof.
  intros Hs. unfold dma_high_page_read. cbv zeta. destruct (_ <? 8); [|intros [= <-]; ranged].
  destruct (arr_get (dma s) _) as [d|] eqn:Hd; [|done]. intros [= <-]. by apply channel_ok in Hd as [[] _].
Qed.

Lemma ext_write_ok a val s s' : is_u8 val -> state_ok s -> dma_ext_mode_write a val s = Some s' -> state_ok s'.
Proof. intros Hv Hs. apply chan_update_ok; [done|]. intros d. by apply ext_mode_ok. Qed.

(** *** The PS/2 *)

Lemma ps2_unit_ok s port d (w : W) d' w' :
  is_u32 (dma_mask s) -> dma_ok d -> ps2_unit s port d w = Some (d', w') -> dma_ok d'.
Proof.
  intros Hm Hd. unfold ps2_unit. cbv zeta. destruct (_ =? DMA_PS2_XFER_MEM_TO_IO); [|destruct (_ =? DMA_PS2_XFER_IO_TO_MEM)].
  - destruct (size d =? 0).
    + destruct (_dma_read _ _ _ _) as [[[v d1] w1]|] eqn:E; [|done]. intros [= <- <-].
      apply dma_read_ok in E as [_ ?]; [|done..]. by apply ps2_step_ok.
    + destruct (_dma_readw _ _ _ _) as [[[v d1] w1]|] eqn:E; [|done]. intros [= <- <-].
      apply dma_readw_ok in E as [_ ?]; [|done..]. by apply ps2_step_ok.
  - destruct (size d =? 0).
    + destruct (inb port w) as [v w1]. destruct (_dma_write _ _ _ _ _) as [[d1 w2]|] eqn:E; [|done]. intros [= <- <-].
      apply dma_write_byte_ok in E; [|done..]. by apply ps2_step_ok.
    + destruct (inw port w) as [v w1]. destruct (_dma_writew _ _ _ _ _) as [[d1 w2]|] eqn:E; [|done]. intros [= <- <-].
      apply dma_writew_ok in E; [|done..]. by apply ps2_step_ok.
  - intros [= <- <-]. by apply ps2_step_ok.
Qed.

Lemma ps2_loop_ok fuel s port d (w : W) d' w' :
  is_u32 (dma_mask s) -> dma_ok d -> ps2_loop fuel s port d w = Some (d', w') -> dma_ok d'.
Proof.
  intros Hm. revert d w. induction fuel as [|fuel IH]; intros d w Hd; cbn [ps2_loop]; [done|].
  destruct (ps2_unit s port d w) as [[d1 w1]|] eqn:E; [|done]. cbn [mbind option_bind].
  apply ps2_unit_ok in E; [|done..].
  assert (dma_ok (d1 <| cc := swrap 32 (cc d1 - 1) |>)) as Hd1 by (revert E; chan_ok).
  destruct (0 <=? _); [by apply IH|by intros [= <- <-]].
Qed.

Lemma ps2_run_ok c s (w : W) s' w' : state_ok s -> dma_ps2_run cfg c s w = Some (s', w') -> state_ok s'.
Proof.
  intros Hs. unfold dma_ps2_run. destruct (arr_get (dma s) c) as [d|] eqn:Hd; [|done]. cbn [mbind option_bind].
  destruct (channel_ok c d s Hs Hd) as [Hdo Hc]. pose proof (bit_ok c Hc) as Hb. cbv zeta.
  destruct (ps2_loop _ _ _ d w) as [[d1 w1]|] eqn:E; [|done]. cbn [mbind option_bind].
  apply ps2_loop_ok in E; [|apply (ok_mask s Hs)|done].
  assert (dma_ok (d1 <| cc := cb d1 |> <| ac := ab d1 |>)) as Hd1 by (revert E; chan_ok).
  destruct (ctrue (ps2_mode d1 .& _)); intros [= <- <-]; apply put_ok; try done; revert Hs; state_ok_tac.
Qed.

Lemma ps2_grant_ok n c level matched s (w : W) b s' w' :
  state_ok s -> ps2_grant cfg n c level matched s w = Some (b, s', w') -> state_ok s'.
Proof.
  revert c matched s w. induction n as [|n IH]; intros c matched s w Hs; cbn [ps2_grant]; [by intros [= <- <- <-]|].
  destruct (arr_get (dma s) c) as [d|]; [|done]. cbn [mbind option_bind].
  destruct (_ && _); [|by apply IH]. destruct (dma_ps2_run cfg c s w) as [[s1 w1]|] eqn:E; [|done]. cbn [mbind option_bind].
  apply IH. by apply ps2_run_ok in E.
Qed.

Lemma arb_level_ok c s d : state_ok s -> arr_get (dma s) c = Some d -> in_width 4 (dma_ps2_arb_level c d).
Proof.
  intros Hs Hd. destruct (channel_ok c d s Hs Hd) as [_ Hc]. unfold dma_ps2_arb_level.
  destruct (_ =? 0); [ranged|unfold in_width; lia].
Qed.

Lemma ps2_request_ok c s (w : W) s' w' : state_ok s -> dma_ps2_request cfg c s w = Some (s', w') -> state_ok s'.
Proof.
  intros Hs. unfold dma_ps2_request. destruct (arr_get (dma s) c) as [d|] eqn:Hd; [|done]. cbn [mbind option_bind].
  pose proof (arb_level_ok c s d Hs Hd) as Hl. cbv zeta. set (level := dma_ps2_arb_level c d) in *.
  assert (state_ok (s <| arb_status := (arb_status s .& 0x60) .| level |>)) as Hs1 by (revert Hs; state_ok_tac).
  destruct (ps2_grant _ _ _ _ _ _) as [[[b s2] w2]|] eqn:E; [|done]. cbn [mbind option_bind].
  apply ps2_grant_ok in E; [|done]. destruct b; intros [= <- <-]; [done|]. revert E. state_ok_tac.
Qed.

Lemma run_unmasked_ok s (w : W) s' w' : state_ok s -> run_unmasked cfg s w = Some (s', w') -> state_ok s'.
Proof. intros Hs. unfold run_unmasked. destruct (ctrue _); [by intros [= <- <-]|by apply ps2_run_ok]. Qed.

Lemma flip_ok s : state_ok s -> state_ok (flip s).
Proof. apply byte_ptr_ok. ranged. Qed.

Lemma next_of_three_ok s : state_ok s -> state_ok (next_of_three s).
Proof. intros Hs. apply byte_ptr_ok; [|done]. pose proof (ok_byte_ptr s Hs). repeat case_match; ranged. Qed.

Lemma ps2_function_ok val s (w : W) s' w' :
  is_u8 val -> state_ok s -> ps2_function cfg val s w = Some (s', w') -> state_ok s'.
Proof.
  intros Hv Hs0. unfold ps2_function. cbv zeta.
  set (s1 := s <| xfr_channel := val .& 0x7 |> <| xfr_command := val >>> 4 |> <| byte_ptr := 0 |>).
  assert (state_ok s1) as Hs by (subst s1; revert Hs0; state_ok_tac). clearbody s1. clear s Hs0. rename s1 into s.
  assert (is_u8 (bit (xfr_channel s))) as Hb by (apply bit_ok, (ok_channel s Hs)). pose proof (ok_m s Hs).
  register_cases (xfr_command s); try (intros [= <- <-]; done);
    first [intros [= <- <-]; revert Hs; state_ok_tac|idtac].
  - destruct (ctrue _); [by apply ps2_request_ok|by apply ps2_run_ok].
  - intros [= <- <-]. unfold dma_ps2_master_clear. revert Hs. state_ok_tac.
Qed.

Lemma ps2_data_ok val s (w : W) s' w' :
  is_u8 val -> state_ok s -> ps2_data cfg val s w = Some (s', w') -> state_ok s'.
Proof.
  intros Hv Hs. unfold ps2_data. cbv zeta.
  assert (forall c f g, (forall d, dma_ok d -> dma_ok (f d)) -> (forall t, state_ok t -> state_ok (g t)) ->
    return_ w (s ← on_channel c f s; Some (g s)) = Some (s', w') -> state_ok s') as Hthen.
  { intros c f g Hf Hg E%return_ok. destruct (on_channel c f s) as [s1|] eqn:E1; [|done].
    injection E as <-. apply Hg. by apply chan_update_ok in E1. }
  register_cases (xfr_command s); try (intros [= <- <-]; done); try (by apply run_unmasked_ok).
  - apply Hthen; [|apply flip_ok]. intros d. by apply write_io_addr_ok.
  - apply return_channel_ok; [done|]. intros d. by apply write_ps2_mode_ok.
  - destruct (_ || _); [|by intros [= <- <-]]. apply return_channel_ok; [done|]. intros d. chan_ok.
  - apply Hthen; [|apply flip_ok]. intros d. by apply write_ps2_count_ok.
  - apply Hthen; [|apply next_of_three_ok]. intros d. by apply write_ps2_address_ok.
Qed.

Lemma ps2_write_ok a val s (w : W) s' w' :
  is_u8 val -> state_ok s -> dma_ps2_write cfg a val s w = Some (s', w') -> state_ok s'.
Proof.
  intros Hv Hs. unfold dma_ps2_write.
  repeat case_match; try (by intros [= <- <-]); first [by apply ps2_function_ok|by apply ps2_data_ok].
Qed.

Lemma word_byte_ok high v : is_u16 v -> is_u8 (word_byte high v).
Proof. intros. unfold word_byte. destruct high; ranged. Qed.

Lemma address_byte_ok i a : is_u8 (address_byte i a).
Proof. unfold address_byte. repeat case_match; ranged. Qed.

Lemma ps2_read_ok a s (w : W) v s' w' :
  state_ok s -> dma_ps2_read cfg a s w = Some (v, s', w') -> is_u8 v /\ state_ok s'.
Proof.
  intros Hs. unfold dma_ps2_read. destruct (arr_get (dma s) (xfr_channel s)) as [d|] eqn:Hd; [|done].
  cbn [mbind option_bind]. cbv zeta. destruct (channel_ok _ d s Hs Hd) as [[] _].
  pose proof (ok_stat s Hs). pose proof (ok_stat_rq s Hs). pose proof (arb_level_ok _ s d Hs Hd) as Hlevel.
  destruct (negb _); [intros [= <- <- <-]; by split; [ranged|]|].
  register_cases (xfr_command s); try (intros [= <- <- <-]; by split; [ranged|]).
  - intros [= <- <- <-]. split; [by apply word_byte_ok|by apply flip_ok].
  - destruct (run_unmasked cfg s w) as [[s1 w1]|] eqn:E; [|done]. intros [= <- <- <-]. apply run_unmasked_ok in E; [|done].
    by split; [ranged|].
  - intros [= <- <- <-]. split; [apply word_byte_ok; ranged|by apply flip_ok].
  - intros [= <- <- <-]. split; [apply address_byte_ok|by apply next_of_three_ok].
  - destruct (ctrue (byte_ptr s)); intros [= <- <- <-];
      (split; [ranged|apply flip_ok, set_stat_rq_ok; [ranged|apply stat_ok; [ranged|done]]]).
  - intros [= <- <- <-]. split; [by apply word_byte_ok|by apply flip_ok].
  - intros [= <- <- <-]. split; [apply address_byte_ok|by apply next_of_three_ok].
Qed.

(** *** Configuration and reset *)

Lemma set_mask_ok mask s : is_u32 mask -> state_ok s -> state_ok (dma_set_mask mask s).
Proof.
  intros Hm []. unfold dma_set_mask. split; state_fields; try ranged.
  - by rewrite length_map.
  - apply List.Forall_map. eapply Forall_impl; [done|]. intros d. cbn beta. chan_ok.
Qed.

Lemma channel_reset_ok ps2 c : dma_ok (channel_reset ps2 c).
Proof.
  unfold channel_reset, dma_zero, DMA_PS2_SIZE16. destruct (ps2 && _), (ctrue (c .& 4)); split; chan_fields; ranged.
Qed.

Lemma replicate_bank : bank_ok (replicate 16 0).
Proof. split; [done|]. apply Forall_replicate. unfold in_width. lia. Qed.

Lemma registers_reset_ok s : state_ok s -> state_ok (registers_reset s).
Proof.
  intros []. unfold registers_reset. split; state_fields; try ranged; try lazymatch goal with |- map_Forall _ _ => apply map_Forall_empty end.
  - by rewrite length_map, length_seqZ.
  - apply List.Forall_map, List.Forall_forall. intros c _. apply channel_reset_ok.
  - cbn [app length]. rewrite length_drop. lia.
  - apply Forall_cons_2; [apply replicate_bank|]. apply Forall_cons_2; [apply replicate_bank|]. by apply Forall_drop.
Qed.

Lemma reset_state_ok s : state_ok s -> state_ok (reset_state cfg s).
Proof.
  intros Hs%registers_reset_ok. unfold reset_state, legacy_state. set (t := registers_reset s) in *.
  assert (state_ok (t <| dma_sg_base := 0x0400 |> <| dma_mask := 0x00ffffff |> <| dma_at := is286 cfg |>)) as Ht
    by (clearbody t; revert Hs; state_ok_tac).
  set (u := t <| dma_sg_base := _ |> <| dma_mask := _ |> <| dma_at := _ |>) in *. clearbody u. clear t Hs.
  unfold reset_tail. cbv zeta. destruct (is_ps2 _).
  - assert (state_ok (u <| dma_command0 := 0 |> <| dma_command1 := 0 |> <| dma_m := 0xff |> <| byte_ptr := 0 |>
      <| arb_control := 0 |> <| arb_status := 0 |>
      <| dma := alter (fun d => d <| arb_level := 4 |>) 4%nat (alter (fun d => d <| arb_level := 0 |>) 0%nat (dma u)) |>))
      as Hu.
    { destruct Ht. split; state_fields; try ranged; [by rewrite !length_alter|].
      apply Forall_alter; [apply Forall_alter; [done|]|]; intros d _; chan_ok. }
    match goal with |- state_ok (if _ then ?x <| dma_m := _ |> else _) => set (x1 := x) end.
    change (state_ok x1) in Hu. clearbody x1. destruct (dma_page_is_xt _); [|done]. apply m_ok; [|done].
    pose proof (ok_m x1 Hu). ranged.
  - assert (state_ok (u <| dma_command0 := 0 |> <| dma_command1 := 0 |>)) as Hu by (revert Ht; state_ok_tac).
    destruct (dma_page_is_xt _); [|done]. apply m_ok; [|done]. pose proof (ok_m _ Hu). ranged.
Qed.

Lemma power_on_ok : state_ok power_on.
Proof.
  split; cbn; try ranged; try lazymatch goal with |- map_Forall _ _ => apply map_Forall_empty end; try done.
  - repeat constructor; unfold in_width; cbn; lia.
  - repeat constructor; unfold in_width; cbn; lia.
Qed.

Lemma arb_read_ok s : state_ok s -> is_u8 (dma_ps2_arb_read s).1 /\ state_ok (dma_ps2_arb_read s).2.
Proof.
  intros Hs. pose proof (ok_arb_control s Hs). pose proof (ok_arb_status s Hs). split; cbn [fst snd dma_ps2_arb_read];
    [ranged|]. destruct (ctrue _); [|done]. revert Hs. state_ok_tac.
Qed.

Lemma arb_write_ok val s : is_u8 val -> state_ok s -> state_ok (dma_ps2_arb_write val s).
Proof.
  intros Hv Hs. unfold dma_ps2_arb_write. cbv zeta. destruct (ctrue _); revert Hs; state_ok_tac.
Qed.

Lemma set_drq_ok c on s : state_ok s -> state_ok (dma_set_drq c on s).
Proof.
  intros Hs. unfold dma_set_drq. cbv zeta. destruct (Z.ltb_spec c 0); [done|]. destruct (Z.ltb_spec 7 c); [done|].
  pose proof (bit_ok c ltac:(lia)). pose proof (ok_stat_rq_pc s Hs). cbn [orb].
  destruct on; revert Hs; state_ok_tac.
Qed.

Lemma inb_ok port s (w : W) v s' : state_ok s -> dma_inb cfg port s w = Some (v, s') -> is_u8 v /\ state_ok s'.
Proof.
  intros Hs. unfold dma_inb. destruct (port <? 0x10); [by apply dma_read_port_ok|].
  destruct (_ && _); [|destruct (_ && _); [by apply dma16_read_port_ok|done]].
  destruct (dma_page_read cfg port s w) as [x|] eqn:E; [|done]. intros [= <- <-]. split; [by apply page_read_ok in E|done].
Qed.

Lemma outb_ok port val s (w : W) s' w' :
  is_u8 val -> state_ok s -> dma_outb cfg port val s w = Some (s', w') -> state_ok s'.
Proof.
  intros Hv Hs. unfold dma_outb. destruct (port <? 0x10); [by apply dma_write_port_ok|].
  destruct (_ && _); [by apply page_write_ok|]. destruct (_ && _); [by apply dma16_write_port_ok|done].
Qed.

Lemma done_ok x r v s' (w' : W) :
  is_u8 0 -> (forall s1 w1, r = Some (s1, w1) -> state_ok s1) -> (is_u8 v -> result_ok x v) ->
  done_ r = Some (v, s', w') -> result_ok x v /\ state_ok s'.
Proof.
  intros H0 Hr Hx. unfold done_. destruct r as [[s1 w1]|]; [|done]. intros [= <- <- <-].
  split; [by apply Hx|by apply (Hr s1 w1)].
Qed.

Lemma got_ok x s (w : W) r v s' w' :
  state_ok s -> (forall u, r = Some u -> result_ok x u) -> got s w r = Some (v, s', w') -> result_ok x v /\ state_ok s'.
Proof. intros Hs Hr. unfold got. destruct r as [u|]; [|done]. intros [= <- <- <-]. split; [by apply Hr|done]. Qed.

Lemma run_op_ok x s (w : W) v s' w' :
  args_ok x -> state_ok s -> run_op x s w = Some (v, s', w') -> result_ok x v /\ state_ok s'.
Proof.
  intros Hx Hs. assert (is_u8 0) as H0 by ranged.
  destruct x as [port|port val|c port|c port|c port|c port val|c port val|c port val| |port val|port|port val
                |port|port val| |val|x|c on|adv mask|mask|ps2]; cbn [run_op args_ok result_ok] in *.
  - destruct (dma_inb cfg port s w) as [[u s1]|] eqn:E; [|done]. intros [= <- <- <-]. by apply inb_ok in E.
  - destruct Hx as [_ Hx]. apply (done_ok (OutB port val)); [done| |done]. intros s1 w1. by apply outb_ok.
  - apply (got_ok (SgInB c port)); [done|]. intros u. by apply sg_read_ok.
  - apply (got_ok (SgInW c port)); [done|]. intros u. by apply sg_readw_ok.
  - apply (got_ok (SgInL c port)); [done|]. intros u. by apply sg_readl_ok.
  - destruct Hx as [_ Hx]. apply (done_ok (SgOutB c port val)); [done| |done]. intros s1 w1. by apply sg_write_ok.
  - destruct Hx as [_ Hx]. apply (done_ok (SgOutW c port val)); [done| |done]. intros s1 w1. by apply sg_writew_ok.
  - destruct Hx as [_ Hx]. apply (done_ok (SgOutL c port val)); [done| |done]. intros s1 w1. by apply sg_writel_ok.
  - apply (got_ok SgIntStatus); [done|]. intros u. by apply int_bits_ok.
  - apply (done_ok (ExtMode port val)); [done| |done]. intros s1 w1 E%return_ok. by apply ext_write_ok in E.
  - apply (got_ok (HighIn port)); [done|]. intros u. by apply high_page_read_ok.
  - apply (done_ok (HighOut port val)); [done| |done]. intros s1 w1 E%return_ok. by apply high_page_write_ok in E.
  - by apply ps2_read_ok.
  - apply (done_ok (Ps2Out port val)); [done| |done]. intros s1 w1. by apply ps2_write_ok.
  - pose proof (arb_read_ok s Hs) as Ha. destruct (dma_ps2_arb_read s) as [u s1]. by intros [= <- <- <-].
  - intros [= <- <- <-]. split; [done|by apply arb_write_ok].
  - destruct x as [c|c val|c|c]; cbn [run_call];
      first [by apply read_call_ok|by apply write_call_ok|by apply read_only_call_ok|by apply advance_call_ok].
  - intros [= <- <- <-]. split; [done|by apply set_drq_ok].
  - intros [= <- <- <-]. split; [done|]. unfold dma_set_params. revert Hs. state_ok_tac.
  - intros [= <- <- <-]. split; [done|by apply set_mask_ok].
  - intros [= <- <- <-]. split; [done|]. apply reset_state_ok. revert Hs. state_ok_tac.
Qed.

Lemma run_ops_ok l s (w : W) rs s' w' :
  Forall args_ok l -> state_ok s -> run_ops l s w = Some (rs, s', w') -> Forall2 result_ok l rs /\ state_ok s'.
Proof.
  intros Hl. revert s w rs. induction Hl as [|x l Hx _ IH]; intros s w rs Hs; cbn [run_ops].
  - intros [= <- <- <-]. by split.
  - destruct (run_op x s w) as [[[v s1] w1]|] eqn:E; [|done]. cbn [mbind option_bind].
    apply run_op_ok in E as [Hv Hs1]; [|done..].
    destruct (run_ops l s1 w1) as [[[vs s2] w2]|] eqn:E2; [|done]. cbn [mbind option_bind]. intros [= <- <- <-].
    apply IH in E2 as [? ?]; [|done]. by split; [constructor|].
Qed.
(** *** Ports answer *)

(** A write that starts a transfer by itself. *)
Definition software_request (port val : Z) : bool :=
  ctrue (val .& 4) && (((port <? 0x10) && (port .& 0xf =? 9)) || ((0xc0 <=? port) && ((port >>> 1) .& 0xf =? 9))).

Lemma on_channel_total c f s (w : W) :
  state_ok s -> 0 <= c < 8 -> exists s' w', return_ w (on_channel c f s) = Some (s', w').
Proof.
  intros Hs Hc. destruct (lookup_ok c s Hs Hc) as [d Hd]. unfold on_channel. rewrite Hd. cbn. eauto.
Qed.

Lemma convert_range a : 0 <= convert a.
Proof. unfold convert. apply (Forall_nth_default (fun x => 0 <= x)); [|done]. repeat constructor; lia. Qed.

Lemma page_channel_range a : 0 <= page_channel a.
Proof. unfold page_channel. pose proof (convert_range (a .& 7)). destruct (8 <=? a); [apply Z.lor_nonneg; lia|done]. Qed.

Lemma inb_total port s (w : W) :
  state_ok s -> mapped port = true -> exists v s', dma_inb cfg port s w = Some (v, s').
Proof.
  intros Hs Hp. unfold dma_inb. destruct (port <? 0x10) eqn:Hlow.
  - pose proof (two_bits (port >>> 1)) as H2. destruct (lookup_ok ((port >>> 1) .& 3) s Hs) as [d Hd]; [unfold in_width in H2; lia|].
    unfold dma_read. cbv zeta. change (dma (s <| dma_wp0 := _ |>)) with (dma s). rewrite Hd. cbn [mbind option_bind].
    register_cases (port .& 0xf); eauto. destruct (is_ps2 s); eauto.
  - destruct ((0x80 <=? port) && (port <? 0x90)) eqn:Hpage.
    + unfold dma_page_read. cbv zeta. destruct (_ && at_wd76c10 cfg); [cbn; eauto|].
      pose proof (page_channel_range (port .& 0x0f)). destruct (Z.ltb_spec (page_channel (port .& 0x0f)) 8); [|cbn; eauto].
      destruct (lookup_ok (page_channel (port .& 0x0f)) s Hs) as [d Hd]; [lia|]. rewrite Hd. cbn. eauto.
    + destruct ((0xc0 <=? port) && (port <? 0xe0)) eqn:Hhigh.
      * pose proof (two_bits (port >>> 2)) as H2.
        destruct (lookup_ok (((port >>> 2) .& 3) + 4) s Hs) as [d Hd]; [unfold in_width in H2; lia|].
        unfold dma16_read. cbv zeta. change (dma (s <| dma_wp1 := _ |>)) with (dma s). rewrite Hd. cbn [mbind option_bind].
        register_cases ((port >>> 1) .& 0xf); eauto. destruct (is_ps2 s); eauto.
      * unfold mapped in Hp. by rewrite Hlow, Hpage, Hhigh, andb_false_r in Hp.
Qed.

Lemma outb_total port val s (w : W) :
  state_ok s -> is_u8 val -> mapped port = true -> software_request port val = false ->
  exists s' w', dma_outb cfg port val s w = Some (s', w').
Proof.
  intros Hs Hv Hp Hr. unfold dma_outb. pose proof (two_bits val) as Hc3. destruct (port <? 0x10) eqn:Hlow.
  - pose proof (two_bits (port >>> 1)) as H2. unfold dma_write. cbv zeta.
    set (t := regs_set 0 (port .& 0xf) val s). assert (state_ok t) as Ht by by apply regs_set_ok. clearbody t.
    assert (forall f, exists s' w', return_ w (on_channel ((port >>> 1) .& 3) f (t <| dma_wp0 := dma_wp0 t .^ 1 |>))
      = Some (s', w')) as Hch.
    { intros f. apply on_channel_total; [|unfold in_width in H2; lia]. apply wp0_ok; [apply toggle_ok, Ht|done]. }
    assert (forall f, exists s' w', return_ w (on_channel (val .& 3) f t) = Some (s', w')) as Hmode
      by (intros f; apply on_channel_total; [done|unfold in_width in Hc3; lia]).
    assert (port .& 0xf = 9 -> ctrue (val .& 4) = false) as Hreq.
    { intros E. unfold software_request in Hr. rewrite Hlow, E in Hr. cbn in Hr. by rewrite andb_true_r in Hr. }
    register_cases (port .& 0xf); eauto; try apply Hch; try apply Hmode. rewrite Hreq by done. eauto.
  - destruct ((0x80 <=? port) && (port <? 0x90)) eqn:Hpage.
    + unfold dma_page_write. cbv zeta. set (c := if xt_ibm5550 cfg then _ else _).
      assert (0 <= c) as Hc.
      { subst c. destruct (xt_ibm5550 cfg); [|apply page_channel_range]. destruct (4 <=? _); [lia|].
        apply Z.land_nonneg. lia. }
      destruct (Z.ltb_spec c 8); [|eauto]. apply on_channel_total; [by apply regs_set_ok|lia].
    + destruct ((0xc0 <=? port) && (port <? 0xe0)) eqn:Hhigh.
      * pose proof (two_bits (port >>> 2)) as H2. unfold dma16_write. cbv zeta.
        set (t := regs_set 1 ((port >>> 1) .& 0xf) val s). assert (state_ok t) as Ht by by apply regs_set_ok. clearbody t.
        assert (forall f, exists s' w', return_ w (on_channel (((port >>> 2) .& 3) + 4) f
          (t <| dma_wp1 := dma_wp1 t .^ 1 |>)) = Some (s', w')) as Hch.
        { intros f. apply on_channel_total; [|unfold in_width in H2; lia]. apply wp1_ok; [apply toggle_ok, Ht|done]. }
        assert (forall f, exists s' w', return_ w (on_channel ((val .& 3) + 4) f t) = Some (s', w')) as Hmode
          by (intros f; apply on_channel_total; [done|unfold in_width in Hc3; lia]).
        assert ((port >>> 1) .& 0xf = 9 -> ctrue (val .& 4) = false) as Hreq.
        { intros E. unfold software_request in Hr. apply andb_true_iff in Hhigh as [Hhigh _].
          rewrite Hlow, E, Hhigh in Hr. cbn in Hr. by rewrite andb_true_r in Hr. }
        register_cases ((port >>> 1) .& 0xf); eauto; try apply Hch; try apply Hmode. rewrite Hreq by done. eauto.
      * unfold mapped in Hp. by rewrite Hlow, Hpage, Hhigh, andb_false_r in Hp.
Qed.
(** *** The PS/2's transfers *)

(** No channel has a list that is on. *)
Definition listless (s : dma_state) : Prop :=
  forall c d, arr_get (dma s) c = Some d -> dma_advanced s && ctrue (sg_status d .& 1) = false.

Definition listing (s : dma_state) : bool := dma_advanced s && existsb (fun d => ctrue (sg_status d .& 1)) (dma s).

Lemma listing_false s : listing s = false -> listless s.
Proof.
  unfold listing. intros E c d [_ Hd]%arr_get_Some. destruct (dma_advanced s); [|done]. cbn [andb] in *.
  destruct (ctrue (sg_status d .& 1)) eqn:Hb; [|done]. rewrite <- E. symmetry. apply existsb_exists.
  exists d. split; [|done]. apply list_elem_of_In. by apply list_elem_of_lookup_2 in Hd.
Qed.

(** Without a list a transfer of memory leaves the channel. *)
Lemma read_plain s a d (w : W) :
  dma_advanced s && ctrue (sg_status d .& 1) = false -> exists v w', _dma_read s a d w = Some (v, d, w').
Proof.
  intros Hn. unfold _dma_read. destruct (dma_advanced s); cbn [andb] in Hn.
  - rewrite Hn. destruct (dma_bm_read _ _ _ _ _ _). eauto.
  - destruct (mem_readb_phys a w). eauto.
Qed.

Lemma readw_plain s a d (w : W) :
  dma_advanced s && ctrue (sg_status d .& 1) = false -> exists v w', _dma_readw s a d w = Some (v, d, w').
Proof.
  intros Hn. unfold _dma_readw. destruct (read_plain s a d w Hn) as (lo & w1 & ->).
  destruct (dma_advanced s) eqn:Ha; cbn [andb] in Hn.
  - rewrite Hn. destruct (dma_bm_read _ _ _ _ _ _). eauto.
  - cbn [mbind option_bind]. destruct (read_plain s (u32 (a + 1)) d w1) as (hi & w2 & ->); [by rewrite Ha|].
    cbn [mbind option_bind]. eauto.
Qed.

Lemma write_plain s a v d (w : W) :
  dma_advanced s && ctrue (sg_status d .& 1) = false -> exists w', _dma_write s a v d w = Some (d, w').
Proof. intros Hn. unfold _dma_write. destruct (dma_advanced s); cbn [andb] in Hn; [rewrite Hn|]; eauto. Qed.

Lemma writew_plain s a v d (w : W) :
  dma_advanced s && ctrue (sg_status d .& 1) = false -> exists w', _dma_writew s a v d w = Some (d, w').
Proof.
  intros Hn. unfold _dma_writew. destruct (write_plain s a (v .& 0xff) d w Hn) as (w1 & ->).
  destruct (dma_advanced s) eqn:Ha; cbn [andb] in Hn; [rewrite Hn; eauto|]. cbn [mbind option_bind].
  apply write_plain. by rewrite Ha.
Qed.

Lemma ps2_unit_plain s port d (w : W) :
  dma_advanced s && ctrue (sg_status d .& 1) = false -> exists w', ps2_unit s port d w = Some (ps2_step d, w').
Proof.
  intros Hn. unfold ps2_unit. cbv zeta. destruct (_ =? _); [|destruct (_ =? _); [|eauto]]; destruct (size d =? 0).
  - destruct (read_plain s (ac d) d w Hn) as (v & w1 & ->). cbn [mbind option_bind]. eauto.
  - destruct (readw_plain s (ac d) d w Hn) as (v & w1 & ->). cbn [mbind option_bind]. eauto.
  - destruct (inb port w) as [v w1]. destruct (write_plain s (ac d) v d w1 Hn) as (w2 & ->). cbn [mbind option_bind]. eauto.
  - destruct (inw port w) as [v w1]. destruct (writew_plain s (ac d) v d w1 Hn) as (w2 & ->). cbn [mbind option_bind]. eauto.
Qed.

(** The loop then counts down from its first [cc--]. *)
Lemma ps2_loop_total fuel s port d (w : W) :
  dma_advanced s && ctrue (sg_status d .& 1) = false ->
  (Z.to_nat (swrap 32 (cc d - 1) + 1) < fuel)%nat ->
  exists d' w', ps2_loop fuel s port d w = Some (d', w') /\ sg_status d' = sg_status d.
Proof.
  revert d w. induction fuel as [|fuel IH]; intros d w Hn Hf; [lia|]. cbn [ps2_loop].
  destruct (ps2_unit_plain s port d w Hn) as (w1 & ->). cbn [mbind option_bind].
  set (m := swrap 32 (cc d - 1)) in *. change (cc (ps2_step d)) with (cc d). fold m.
  pose proof (swrap_range 32 (cc d - 1) eq_refl) as Hm. fold m in Hm.
  change (cc (_ <| cc := m |>)) with m. destruct (Z.leb_spec 0 m); [|eauto].
  destruct (IH ((ps2_step d) <| cc := m |>) w1) as (d' & w' & -> & Hs); [done| |by exists d', w'].
  change (cc (_ <| cc := m |>)) with m. rewrite swrap_id by lia. lia.
Qed.

Lemma ps2_run_total c s (w : W) :
  state_ok s -> 0 <= c < 8 -> listless s ->
  exists s' w', dma_ps2_run cfg c s w = Some (s', w') /\ listless s'.
Proof.
  intros Hs Hc Hn. unfold dma_ps2_run. destruct (lookup_ok c s Hs Hc) as [d Hd]. rewrite Hd. cbn [mbind option_bind].
  cbv zeta. set (s1 := s <| dma_stat_rq := _ |>). set (port := _ .& (if size d =? 0 then _ else _)).
  destruct (ps2_loop_total (ps2_fuel cfg d) s1 port d w) as (d' & w' & -> & E); [by apply (Hn c)|unfold ps2_fuel; lia|].
  cbn [mbind option_bind].
  assert (forall x t, sg_status x = sg_status d -> dma t = dma s -> dma_advanced t = dma_advanced s ->
    listless (put c x t)) as Hput.
  { intros x t Ex Et Ea c' d2 Hd2. change (dma_advanced (put c x t)) with (dma_advanced t). rewrite Ea.
    destruct (decide (c = c')) as [<-|Hne].
    - rewrite (put_range t c d) in Hd2 by by rewrite Et. injection Hd2 as <-. rewrite Ex. by apply (Hn c).
    - rewrite put_other in Hd2 by lia. rewrite Et in Hd2. by apply (Hn c'). }
  destruct (ctrue (ps2_mode d' .& DMA_PS2_AUTOINIT)); (eexists _, _; split; [reflexivity|]; by apply Hput).
Qed.

Lemma ps2_grant_total n c level matched s (w : W) :
  state_ok s -> 0 <= c -> c + Z.of_nat n <= 8 -> listless s ->
  exists b s' w', ps2_grant cfg n c level matched s w = Some (b, s', w').
Proof.
  revert c matched s w. induction n as [|n IH]; intros c matched s w Hs Hc Hn Hl; cbn [ps2_grant]; [eauto|].
  destruct (lookup_ok c s Hs ltac:(lia)) as [d ->]. cbn [mbind option_bind].
  destruct (_ && _); [|apply IH; (done || lia)].
  destruct (ps2_run_total c s w Hs ltac:(lia) Hl) as (s1 & w1 & E & Hl1). rewrite E. cbn [mbind option_bind].
  apply ps2_run_ok in E; [|done]. apply IH; (done || lia).
Qed.

Lemma ps2_request_total c s (w : W) :
  state_ok s -> 0 <= c < 8 -> listless s -> exists s' w', dma_ps2_request cfg c s w = Some (s', w').
Proof.
  intros Hs Hc Hl. unfold dma_ps2_request. destruct (lookup_ok c s Hs Hc) as [d Hd]. rewrite Hd. cbn [mbind option_bind].
  pose proof (arb_level_ok c s d Hs Hd) as Hv. cbv zeta. set (level := dma_ps2_arb_level c d) in *.
  assert (state_ok (s <| arb_status := (arb_status s .& 0x60) .| level |>)) as Hs1 by (revert Hs; state_ok_tac).
  destruct (ps2_grant_total 8 0 level false _ w Hs1 ltac:(lia) ltac:(lia) Hl) as (b & s' & w' & ->).
  cbn [mbind option_bind]. destruct b; eauto.
Qed.

Lemma run_unmasked_total s (w : W) :
  state_ok s -> listless s -> exists s' w', run_unmasked cfg s w = Some (s', w').
Proof.
  intros Hs Hl. unfold run_unmasked. destruct (ctrue _); [eauto|].
  destruct (ps2_run_total (xfr_channel s) s w Hs (ok_channel s Hs) Hl) as (s' & w' & -> & _). eauto.
Qed.

(** *** Which operations may not return *)

(** A software request that is not known to end: memory-to-memory with other
    modes than a read and a write, which is fatal, or a block of 0x10000. *)
Definition request_may_hang (port val : Z) (s : dma_state) : bool :=
  if (port <? 0x10) && (val .& 3 =? 0) && ctrue (dma_command0 s .& 1) then negb (copy_modes s)
  else match arr_get (dma s) (if port <? 0x10 then val .& 3 else (val .& 3) + 4) with
       | Some d => cb d =? 0xffff
       | None => true
       end.

(** The accesses of the PS/2 that start a transfer. *)
Definition ps2_starts (x : dma_op) (s : dma_state) : bool :=
  match x with
  | Ps2In port => (port =? 0x1a) && (xfr_command s =? 0xb)
  | Ps2Out port val => ((port =? 0x18) && (val >>> 4 =? 0xb)) || ((port =? 0x1a) && (xfr_command s =? 0xb))
  | _ => false
  end.

Definition may_not_return (x : dma_op) (s : dma_state) : bool :=
  match x with
  | OutB port val => software_request port val && request_may_hang port val s
  | _ => ps2_starts x s && listing s
  end.

Lemma request_total port val s (w : W) :
  state_ok s -> is_u8 val -> mapped port = true -> software_request port val = true ->
  request_may_hang port val s = false -> exists s' w', dma_outb cfg port val s w = Some (s', w').
Proof.
  intros Hs Hv Hp Hr Hh. unfold software_request in Hr. apply andb_true_iff in Hr as [H4 Hr].
  pose proof (two_bits val) as Hc3. unfold in_width in Hc3. unfold dma_outb, request_may_hang in *.
  assert (forall c, 0 <= c < 8 ->
    match arr_get (dma s) c with Some d => cb d =? 0xffff | None => true end = false -> capped_at c s) as Hcap.
  { intros c Hc E d Hd. rewrite Hd in E. pose proof (ok_cb d (proj1 (channel_ok c d s Hs Hd))) as Hn.
    unfold in_width, capped in *. apply Z.eqb_neq in E. lia. }
  destruct (port <? 0x10) eqn:Hlow.
  - apply Z.ltb_lt in Hlow. assert ((0xc0 <=? port) = false) as Hno by decide_z. rewrite Hno in Hr. cbn [andb orb] in Hr.
    rewrite orb_false_r in Hr. apply Z.eqb_eq in Hr. cbn [andb] in Hh. unfold dma_write. cbv zeta. rewrite Hr, H4.
    set (t := (regs_set 0 9 val s) <| dma_stat_rq_pc := _ |>).
    assert (state_ok t) as Ht.
    { subst t. pose proof (bit_ok (val .& 3) ltac:(lia)). pose proof (regs_set_ok 0 9 val s Hv Hs) as Hs1.
      apply rq_pc_ok; [|done]. pose proof (ok_stat_rq_pc _ Hs1). ranged. }
    change (dma_command0 t) with (dma_command0 s). destruct ((val .& 3 =? 0) && ctrue (dma_command0 s .& 1)).
    + apply mem_to_mem_total; [done|done|]. by apply negb_false_iff in Hh.
    + apply block_transfer_total; [done|done|lia|]. by apply Hcap; [lia|].
  - destruct ((0x80 <=? port) && (port <? 0x90)) eqn:Hpage.
    { exfalso. cbn [andb orb] in Hr. apply andb_true_iff in Hpage as [_ Hpage%Z.ltb_lt].
      replace (0xc0 <=? port) with false in Hr by decide_z. done. }
    unfold mapped in Hp. rewrite Hlow, Hpage, andb_false_r in Hp. cbn [orb] in Hp. rewrite Hp.
    cbn [andb orb] in Hr. apply andb_true_iff in Hr as [_ Hr%Z.eqb_eq]. cbn [andb] in Hh.
    unfold dma16_write. cbv zeta. rewrite Hr, H4. set (t := (regs_set 1 9 val s) <| dma_stat_rq_pc := _ |>).
    assert (state_ok t) as Ht.
    { subst t. pose proof (bit_ok ((val .& 3) + 4) ltac:(lia)). pose proof (regs_set_ok 1 9 val s Hv Hs) as Hs1.
      apply rq_pc_ok; [|done]. pose proof (ok_stat_rq_pc _ Hs1). ranged. }
    apply block_transfer_total; [done|done|lia|]. by apply Hcap; [lia|].
Qed.

Lemma ps2_read_total a s (w : W) :
  state_ok s -> ps2_starts (Ps2In a) s && listing s = false -> exists v s' w', dma_ps2_read cfg a s w = Some (v, s', w').
Proof.
  intros Hs Hn. unfold dma_ps2_read, ps2_starts in *. destruct (lookup_ok (xfr_channel s) s Hs (ok_channel s Hs)) as [d ->].
  cbn [mbind option_bind]. cbv zeta. destruct (a =? 0x1a) eqn:Ha; cbn [negb andb] in *; [|eauto].
  register_cases (xfr_command s); eauto; [|destruct (ctrue (byte_ptr s)); eauto].
  destruct (run_unmasked_total s w Hs (listing_false s Hn)) as (s' & w' & ->). cbn [mbind option_bind]. eauto.
Qed.

Lemma ps2_write_total a val s (w : W) :
  state_ok s -> is_u8 val -> ps2_starts (Ps2Out a val) s && listing s = false ->
  exists s' w', dma_ps2_write cfg a val s w = Some (s', w').
Proof.
  intros Hs Hv Hn. unfold dma_ps2_write, ps2_starts in *.
  destruct (Z.eq_dec a 0x18) as [->|H18]; [|destruct (Z.eq_dec a 0x1a) as [->|H1a]].
  - cbn [Z.eqb Pos.eqb andb orb] in Hn. rewrite orb_false_r in Hn. unfold ps2_function. cbv zeta.
    set (s1 := s <| xfr_channel := val .& 0x7 |> <| xfr_command := val >>> 4 |> <| byte_ptr := 0 |>).
    assert (state_ok s1) as Hs1 by (subst s1; revert Hs; state_ok_tac).
    change (xfr_command s1) with (val >>> 4). pose proof (ok_channel s1 Hs1) as Hc.
    register_cases (val >>> 4); eauto. pose proof (listing_false s Hn : listless s1) as Hl.
    destruct (ctrue _); [by apply ps2_request_total|].
    destruct (ps2_run_total (xfr_channel s1) s1 w Hs1 Hc Hl) as (s' & w' & -> & _). eauto.
  - cbn [Z.eqb Pos.eqb andb orb] in Hn. unfold ps2_data. cbv zeta.
    destruct (lookup_ok (xfr_channel s) s Hs (ok_channel s Hs)) as [d Hd].
    assert (forall f g, exists s' w', return_ w (s ← on_channel (xfr_channel s) f s; Some (g s)) = Some (s', w')) as Hthen.
    { intros f g. unfold on_channel. rewrite Hd. cbn [mbind option_bind return_]. eauto. }
    assert (forall f, exists s' w', return_ w (on_channel (xfr_channel s) f s) = Some (s', w')) as Hch
      by (intros f; apply on_channel_total; [done|apply (ok_channel s Hs)]).
    register_cases (xfr_command s); eauto; [by apply run_unmasked_total; [|apply listing_false]|].
    destruct (_ || _); eauto.
  - destruct a as [|p|p]; eauto. repeat (destruct p as [p|p|]; eauto); done.
Qed.

Lemma set_ptr_total v d : u32 (mem_size cfg * 1024) <> 0 -> exists d', set_ptr cfg v d = Some d'.
Proof. intros Hm. unfold set_ptr. apply Z.eqb_neq in Hm. rewrite Hm. eauto. Qed.

Lemma sg_write_total c port val s (w : W) :
  u32 (mem_size cfg * 1024) <> 0 -> state_ok s -> 0 <= c < 8 ->
  (exists s' w', dma_sg_write cfg c port val s w = Some (s', w')) /\
  (exists s' w', dma_sg_writew cfg c port val s w = Some (s', w')) /\
  (exists s' w', dma_sg_writel cfg c port val s w = Some (s', w')).
Proof.
  intros Hm Hs Hc. destruct (lookup_ok c s Hs Hc) as [d Hd].
  assert (forall r, (exists d', r = Some d') -> exists s' w', return_put c s w r = Some (s', w')) as Hput
    by (intros r [d' ->]; cbn; eauto).
  assert (forall v, exists d', set_ptr cfg v d = Some d') as Hptr by (intros v; by apply set_ptr_total).
  assert (forall v p, exists d', (dev ← set_ptr cfg v d; Some (dev <| ptr0 := p |>)) = Some d') as Hptr0.
  { intros v p. destruct (Hptr v) as [d' ->]. cbn. eauto. }
  assert (forall port val, exists s' w', dma_sg_write cfg c port val s w = Some (s', w')) as Hb.
  { intros port' val'. unfold dma_sg_write. rewrite Hd. cbn [mbind option_bind].
    destruct (sg_command_write s val' d w). repeat case_match; eauto. }
  split; [done|]. unfold dma_sg_writew, dma_sg_writel. rewrite Hd. cbn [mbind option_bind].
  split; repeat case_match; eauto.
Qed.

Lemma sg_read_total c port s :
  state_ok s -> 0 <= c < 8 ->
  (exists v, dma_sg_read c port s = Some v) /\ (exists v, dma_sg_readw c port s = Some v) /\
  (exists v, dma_sg_readl c port s = Some v).
Proof.
  intros Hs Hc. destruct (lookup_ok c s Hs Hc) as [d Hd]. unfold dma_sg_readw, dma_sg_readl, dma_sg_read. rewrite Hd.
  cbn [mbind option_bind]. split; [eauto|]. split; repeat case_match; eauto.
Qed.

Lemma int_bits_total idx s ret :
  state_ok s -> Forall (fun i => 0 <= i < 8) idx -> exists v, sg_int_bits idx s ret = Some v.
Proof.
  intros Hs Hl. revert ret. induction Hl as [|i idx Hi _ IH]; intros ret; cbn [sg_int_bits]; [eauto|].
  destruct (i =? 4); [apply IH|]. destruct (lookup_ok i s Hs Hi) as [d ->]. cbn [mbind option_bind]. apply IH.
Qed.

Lemma high_page_total a val s (w : W) :
  state_ok s ->
  (exists v, dma_high_page_read a s = Some v) /\
  (exists s' w', return_ w (dma_high_page_write a val s) = Some (s', w')).
Proof.
  intros Hs. unfold dma_high_page_read, dma_high_page_write. cbv zeta. pose proof (page_channel_range (a .& 0x0f)).
  destruct (Z.ltb_spec (page_channel (a .& 0x0f)) 8); [|cbn; eauto]. split; [|by apply on_channel_total].
  destruct (lookup_ok (page_channel (a .& 0x0f)) s Hs) as [d ->]; [lia|]. cbn. eauto.
Qed.

Lemma run_op_total x s (w : W) :
  u32 (mem_size cfg * 1024) <> 0 -> args_ok x -> state_ok s -> may_not_return x s = false ->
  exists v s' w', run_op x s w = Some (v, s', w').
Proof.
  intros Hm Hx Hs Hn.
  assert (forall r, (exists s' w', r = Some (s', w')) -> exists v s' w', done_ r = Some (v, s' : dma_state, w' : W)) as Hd
    by (intros r (s' & w' & ->); cbn; eauto).
  assert (forall r, (exists v, r = Some v) -> exists v s' w', got s w r = Some (v, s', w')) as Hg
    by (intros r (v & ->); cbn; eauto).
  destruct x as [port|port val|c port|c port|c port|c port val|c port val|c port val| |port val|port|port val
                |port|port val| |val|x|c on|adv mask|mask|ps2]; cbn [run_op args_ok may_not_return] in *; eauto.
  - destruct (inb_total port s w Hs Hx) as (v & s' & ->). cbn. eauto.
  - apply Hd. destruct Hx as [Hp Hv]. destruct (software_request port val) eqn:Hr; [by apply request_total|by apply outb_total].
  - by apply Hg, sg_read_total.
  - by apply Hg, sg_read_total.
  - by apply Hg, sg_read_total.
  - apply Hd, (sg_write_total c port val s w Hm Hs), Hx.
  - apply Hd, (sg_write_total c port val s w Hm Hs), Hx.
  - apply Hd, (sg_write_total c port val s w Hm Hs), Hx.
  - apply Hg, int_bits_total; [done|]. by repeat constructor.
  - apply Hd, on_channel_total; [done|]. pose proof (two_bits val) as Hc. pose proof (two_bits val). unfold in_width in *.
    destruct (port =? 0x4d6); [|lia]. assert (in_width 3 ((val .& 3) .| 4)); [ranged|]. unfold in_width in *. lia.
  - by apply Hg, (high_page_total port 0).
  - by apply Hd, (high_page_total port val).
  - by apply ps2_read_total.
  - by apply Hd, ps2_write_total.
  - by apply call_total.
Qed.
(** A sequence that does not run to its end stops at such an operation. *)
Lemma run_ops_stops l s (w : W) :
  u32 (mem_size cfg * 1024) <> 0 -> Forall args_ok l -> state_ok s -> run_ops l s w = None ->
  exists l1 x l2 rs s1 w1, l = l1 ++ x :: l2 /\ run_ops l1 s w = Some (rs, s1, w1) /\ may_not_return x s1 = true.
Proof.
  intros Hm Hl. revert s w. induction Hl as [|x l Hx _ IH]; intros s w Hs; cbn [run_ops]; [done|].
  destruct (may_not_return x s) eqn:Hn; [intros _; by exists [], x, l, [], s, w|].
  destruct (run_op_total x s w Hm Hx Hs Hn) as (v & s1 & w1 & E). rewrite E. cbn [mbind option_bind].
  assert (state_ok s1) as Hs1 by by apply run_op_ok in E as [_ ?].
  destruct (run_ops l s1 w1) as [[[vs s2] w2]|] eqn:E2; [done|]. intros _.
  destruct (IH s1 w1 Hs1 E2) as (l1 & y & l2 & rs & s3 & w3 & -> & E3 & Hy).
  exists (x :: l1), y, l2, (v :: rs), s3, w3. cbn [run_ops]. rewrite E. cbn [mbind option_bind]. rewrite E3.
  cbn [mbind option_bind]. done.
Qed.
End everything.

(** C33: From power on, under every sequence of port accesses, device calls,
    scatter/gather, PS/2 and chipset operations and resets, every register
    and field stays in the range of its C type - the [int]s included, a list's
    remaining count in that of a block - and every access gives a byte, word
    or long, every device call a word with the terminal count mark or the
    value for no data.  The sequence runs to its end unless it comes to a
    software request for 0x10000 units or for a memory-to-memory transfer
    without a read and a write channel, or to the start of a transfer of the
    PS/2 while some channel has a scatter/gather list. *)
Theorem registers_typed {W} `{DmaMachine W} cfg l (w : W) :
  (forall a (w : W), is_u8 (mem_readb_phys a w).1) -> u32 (mem_size cfg * 1024) <> 0 -> Forall args_ok l ->
  match run_ops cfg l power_on w with
  | Some (rs, s', _) => Forall2 result_ok l rs /\ state_ok s'
  | None =>
      exists l1 x l2 rs s1 w1, l = l1 ++ x :: l2 /\ run_ops cfg l1 power_on w = Some (rs, s1, w1) /\
        Forall2 result_ok l1 rs /\ state_ok s1 /\ may_not_return x s1 = true
  end.
Proof.
  intros Hb Hm Hl. destruct (run_ops cfg l power_on w) as [[[rs s'] w']|] eqn:E.
  - by apply (run_ops_ok cfg Hb l power_on w rs s' w' Hl power_on_ok).
  - destruct (run_ops_stops cfg Hb l power_on w Hm Hl power_on_ok E) as (l1 & x & l2 & rs & s1 & w1 & -> & E1 & Hx).
    apply Forall_app in Hl as [Hl1 _]. destruct (run_ops_ok cfg Hb l1 power_on w rs s1 w1 Hl1 power_on_ok E1).
    by exists l1, x, l2, rs, s1, w1.
Qed.

(** ** Examples *)

(** A channel of a chipset whose list of one block at 0x1000 has been started
    through its registers. *)
Definition sg_memory : flat := <[0x1004 := 0x04]> (<[0x1007 := 0x80]> (<[0x1001 := 0x20]> ∅)).
Definition sg_channel : dma_t :=
  (sg_command_write (dma_set_params true 0xffffffff at_state) 0x01
     ((channel_reset false 2) <| mode := 0x4a |> <| ptr := 0x1000 |>) sg_memory).1.
Definition sg_state : dma_state := put 2 sg_channel (dma_set_params true 0xffffffff at_state).

Example sg_started : addr sg_channel = 0x2000 /\ count sg_channel = 4 /\ eot sg_channel = true.
Proof. by vm_compute. Qed.

Lemma sg_never_terminal_witness :
  listed sg_channel /\
  exists rs s' w', run_calls at_config [Read 2; Read 2; Read 2; Read 2; Read 2; Read 2] sg_state sg_memory = Some (rs, s', w') /\
    Forall no_terminal rs /\ dma_stat s' = dma_stat sg_state /\ dma_m s' = dma_m sg_state.
Proof.
  assert (listed sg_channel) as Hl by (split; [reflexivity|by vm_compute]). split; [exact Hl|].
  refine (sg_never_terminal at_config 2 _ sg_state sg_channel sg_memory eq_refl eq_refl eq_refl Hl _).
  repeat constructor.
Defined.

(** Reset, a driver's writes, transfers and a read of the status. *)
Definition session : list dma_op :=
  [Reset false; OutB 0x0c 0; OutB 0x04 0xfe; OutB 0x04 0xff; OutB 0x05 0x01; OutB 0x05 0x00; OutB 0x81 0x01;
   OutB 0x0b 0x4a; OutB 0x0a 0x02; Call (Read 2); Call (Read 2); InB 0x08].

Lemma session_ok : Forall args_ok session.
Proof. repeat (apply Forall_cons_2; [by vm_compute|]). by apply Forall_nil_2. Qed.

Definition session_memory : flat := <[0x1fffe := 0x12]> ∅.

Lemma registers_typed_witness :
  option_map (fun r => r.1.1) (run_ops at_config session power_on session_memory) =
    Some [0; 0; 0; 0; 0; 0; 0; 0; 0; 0x12; 0x10000; 0x04] /\
  match run_ops at_config session power_on session_memory with
  | Some (rs, s', _) => Forall2 result_ok session rs /\ state_ok s'
  | None =>
      exists l1 x l2 rs s1 w1, session = l1 ++ x :: l2 /\
        run_ops at_config l1 power_on session_memory = Some (rs, s1, w1) /\
        Forall2 result_ok l1 rs /\ state_ok s1 /\ may_not_return x s1 = true
  end.
Proof.
  split; [vm_compute; reflexivity|].
  assert (forall a (w : flat), is_u8 (mem_readb_phys a w).1) as Hb
    by (intros a w; cbn [mem_readb_phys flat_machine fst]; apply wrap_range; lia).
  assert (u32 (mem_size at_config * 1024) <> 0) as Hm by (vm_compute; discriminate).
  exact (registers_typed at_config session session_memory Hb Hm session_ok).
Defined.
