(* ===== verification/Nmc93.v ===== *)
(** * Nmc93: the serial memories of src/src/mem/nmc93cxx.c

    The NMC93Cxx EEPROMs of network, SCSI and video cards: three lines in
    (select, clock, data), one out.  [nmc93cxx_eeprom_t] is the device, its
    array as the bytes of [uint16_t array_data[]] on a little-endian host;
    the command timer is the interface [CommandTimer].  [None] is undefined
    behaviour: a failed assertion or an access outside the array.  At the
    end, the memory a driver sees ([chip]), which the lines implement
    command by command. *)
From stdpp Require Import strings.
From S2P Require Import Prelude.

Definition WRITE_TIME_US : Z := 1750.
Definition WRITE_ALL_TIME_US : Z := 8000.
Definition ERASE_TIME_US : Z := 1000.
Definition ERASE_ALL_TIME_US : Z := 8000.

Inductive EepromCommand :=
| COMMAND_INVALID | COMMAND_READ | COMMAND_WRITE | COMMAND_ERASE | COMMAND_LOCK | COMMAND_UNLOCK
| COMMAND_WRITEALL | COMMAND_ERASEALL | COMMAND_COPY_EEPROM_TO_RAM | COMMAND_COPY_RAM_TO_EEPROM.

Inductive EepromState :=
| STATE_IN_RESET | STATE_WAIT_FOR_START_BIT | STATE_WAIT_FOR_COMMAND | STATE_READING_DATA
| STATE_WAIT_FOR_DATA | STATE_WAIT_FOR_COMPLETION.

Inductive EepromEvent :=
| EVENT_CS_RISING_EDGE | EVENT_CS_FALLING_EDGE | EVENT_CLK_RISING_EDGE | EVENT_CLK_FALLING_EDGE.

Record nmc93cxx_eeprom_t := mkEeprom {
  write_tick : Z;
  cs_state : bool;
  clk_state : bool;
  di_state : bool;
  is_busy : bool;
  state : EepromState;
  command_address_accum : Z;
  address : Z;
  shift_register : Z;
  bits_accum : Z;
  command : EepromCommand;
  cells : Z;
  data_bits : Z;
  command_address_bits : Z;
  address_bits : Z;
  is_locked : bool;
  last_cs_rising_edge_tick : Z;
  filename : string;
  array_data : list Z;
}.

(** [timer_on_auto(&dev->cmd_complete_timer, period)], on the rest of the
    machine. *)
Class CommandTimer (W : Type) := { timer_on_auto : Z -> W -> option W }.

(** ** The part numbers: cells, address bits in a command, bits in a cell *)

Inductive nmc93cxx_eeprom_type :=
| NMC_93C06_x16_16 | NMC_93C46_x16_64 | NMC_93C56_x16_128 | NMC_93C57_x16_128 | NMC_93C66_x16_256
| NMC_93C76_x16_512 | NMC_93C86_x16_1024
| NMC_93C46_x8_128 | NMC_93C56_x8_256 | NMC_93C57_x8_256 | NMC_93C66_x8_512 | NMC_93C76_x8_1024
| NMC_93C86_x8_2048.

Definition part (type : nmc93cxx_eeprom_type) : Z * Z * Z :=
  match type with
  | NMC_93C06_x16_16 => (16, 6, 16)
  | NMC_93C46_x16_64 => (64, 6, 16)
  | NMC_93C56_x16_128 => (128, 8, 16)
  | NMC_93C57_x16_128 => (128, 7, 16)
  | NMC_93C66_x16_256 => (256, 8, 16)
  | NMC_93C76_x16_512 => (512, 10, 16)
  | NMC_93C86_x16_1024 => (1024, 10, 16)
  | NMC_93C46_x8_128 => (128, 7, 8)
  | NMC_93C56_x8_256 => (256, 9, 8)
  | NMC_93C57_x8_256 => (256, 8, 8)
  | NMC_93C66_x8_512 => (512, 9, 8)
  | NMC_93C76_x8_1024 => (1024, 11, 8)
  | NMC_93C86_x8_2048 => (1024, 11, 8)
  end.

(** [while (count != 0) { count >>= 1; dev->address_bits++; }] on 32 bits *)
Fixpoint count_bits (fuel : nat) (count bits : Z) : Z :=
  match fuel with
  | O => bits
  | S fuel => if count =? 0 then bits else count_bits fuel (count >>> 1) (u8 (bits + 1))
  end.

(** [fread] of an image that could be opened ([file]): the bytes read and the
    number of complete cells.  [None] for a default content that is too
    short. *)
Definition load_image (file default_content : option (list Z)) (size n : Z) (data : list Z)
    : option (list Z) :=
  let '(data, fill_default) :=
    match file with
    | None => (data, true)
    | Some bytes =>
        let got := take (Z.to_nat (size * n)) bytes in
        (got ++ drop (length got) data, Z.of_nat (length got) / size =? 0)
    end in
  match default_content with
  | Some d => if fill_default then slice d 0 (size * n) else Some data
  | None => Some data
  end.

Definition nmc93cxx_eeprom_init (type : nmc93cxx_eeprom_type) (name : string)
    (file default_content : option (list Z)) : option nmc93cxx_eeprom_t :=
  let '(cells, addrbits, data_bits) := part type in
  let nwords := if data_bits =? 16 then cells else cells / 2 in
  data ← load_image file default_content (data_bits / 8) cells (repeat 0 (Z.to_nat (2 * nwords)));
  Some (mkEeprom 0 false false false false STATE_IN_RESET 0 0 0 0 COMMAND_INVALID cells data_bits
          addrbits (count_bits 32 (cells - 1) 0) true 0 name data).

(** The bytes of the image file. *)
Definition nmc93cxx_eeprom_close (dev : nmc93cxx_eeprom_t) : option (list Z) :=
  slice (array_data dev) 0 (data_bits dev / 8 * cells dev).

Definition nmc93cxx_eeprom_data (dev : nmc93cxx_eeprom_t) : list Z := array_data dev.

(** ** The array *)

Definition nmc93cxx_eeprom_cell_read (dev : nmc93cxx_eeprom_t) (address : Z) : option Z :=
  if data_bits dev =? 16 then
    lo ← arr_get (array_data dev) (2 * address);
    hi ← arr_get (array_data dev) (2 * address + 1);
    Some (lo .| (hi <<< 8))
  else arr_get (array_data dev) address.

Definition nmc93cxx_eeprom_cell_write (address data : Z) (dev : nmc93cxx_eeprom_t)
    : option nmc93cxx_eeprom_t :=
  if data_bits dev =? 16 then
    a ← arr_set (array_data dev) (2 * address) (u8 data);
    a ← arr_set a (2 * address + 1) (u8 (data >>> 8));
    Some (dev <| array_data := a |>)
  else
    a ← arr_set (array_data dev) address (u8 data);
    Some (dev <| array_data := a |>).

(** [for (address = 0; address < (1 << dev->address_bits); ++address)], which
    the number of cells bounds. *)
Fixpoint all_cells (n : nat) (f : Z -> nmc93cxx_eeprom_t -> option nmc93cxx_eeprom_t) (address : Z)
    (dev : nmc93cxx_eeprom_t) : option nmc93cxx_eeprom_t :=
  match n with
  | O => Some dev
  | S n => dev ← f address dev; all_cells n f (address + 1) dev
  end.

Definition and_cell (data address : Z) (dev : nmc93cxx_eeprom_t) : option nmc93cxx_eeprom_t :=
  v ← nmc93cxx_eeprom_cell_read dev address;
  nmc93cxx_eeprom_cell_write address (v .& data) dev.

Section device.
Context {W : Type} `{!CommandTimer W}.

Definition nmc93cxx_eeprom_set_state (s : EepromState) (dev : nmc93cxx_eeprom_t) : nmc93cxx_eeprom_t :=
  dev <| state := s |>.

Definition nmc93cxx_eeprom_cmd_complete_timer_callback (dev : nmc93cxx_eeprom_t) : nmc93cxx_eeprom_t :=
  dev <| is_busy := false |>.

Definition nmc93cxx_eeprom_start_cmd_timer (period : Z) (dev : nmc93cxx_eeprom_t) (w : W)
    : option (nmc93cxx_eeprom_t * W) :=
  let dev := dev <| is_busy := true |> in
  w ← timer_on_auto period w; Some (dev, w).

Definition nmc93cxx_eeprom_handle_cmd_write (address data : Z) (dev : nmc93cxx_eeprom_t) (w : W)
    : option (nmc93cxx_eeprom_t * W) :=
  dev ← nmc93cxx_eeprom_cell_write address data dev;
  nmc93cxx_eeprom_start_cmd_timer WRITE_TIME_US dev w.

Definition nmc93cxx_eeprom_handle_cmd_write_all (data : Z) (dev : nmc93cxx_eeprom_t) (w : W)
    : option (nmc93cxx_eeprom_t * W) :=
  dev ← all_cells (Z.to_nat (1 <<< address_bits dev)) (and_cell data) 0 dev;
  nmc93cxx_eeprom_start_cmd_timer WRITE_ALL_TIME_US dev w.

(** [~0] as [uint32_t] *)
Definition nmc93cxx_eeprom_handle_cmd_erase (address : Z) (dev : nmc93cxx_eeprom_t) (w : W)
    : option (nmc93cxx_eeprom_t * W) :=
  dev ← nmc93cxx_eeprom_cell_write address 0xffffffff dev;
  nmc93cxx_eeprom_start_cmd_timer ERASE_TIME_US dev w.

Definition nmc93cxx_eeprom_handle_cmd_erase_all (dev : nmc93cxx_eeprom_t) (w : W)
    : option (nmc93cxx_eeprom_t * W) :=
  dev ← all_cells (Z.to_nat (1 <<< address_bits dev))
          (fun a => nmc93cxx_eeprom_cell_write a 0xffffffff) 0 dev;
  nmc93cxx_eeprom_start_cmd_timer ERASE_ALL_TIME_US dev w.

Definition nmc93cxx_eeprom_parse_command_and_address (dev : nmc93cxx_eeprom_t) : nmc93cxx_eeprom_t :=
  let dev := dev <| address := command_address_accum dev .& ((1 <<< command_address_bits dev) - 1) |> in
  match command_address_accum dev >>> command_address_bits dev with
  | 0 =>
      let dev :=
        match address dev >>> (command_address_bits dev - 2) with
        | 0 => dev <| command := COMMAND_LOCK |>
        | 1 => dev <| command := COMMAND_WRITEALL |>
        | 2 => dev <| command := COMMAND_ERASEALL |>
        | 3 => dev <| command := COMMAND_UNLOCK |>
        | _ => dev
        end in
      dev <| address := 0 |>
  | 1 => dev <| command := COMMAND_WRITE |>
  | 2 => dev <| command := COMMAND_READ |>
  | 3 => dev <| command := COMMAND_ERASE |>
  | _ => dev <| command := COMMAND_INVALID |>
  end.

Definition nmc93cxx_eeprom_execute_command (dev : nmc93cxx_eeprom_t) (w : W)
    : option (nmc93cxx_eeprom_t * W) :=
  let dev := nmc93cxx_eeprom_parse_command_and_address dev in
  let dev := dev <| bits_accum := 0 |> in
  match command dev with
  | COMMAND_READ =>
      Some (nmc93cxx_eeprom_set_state STATE_READING_DATA (dev <| shift_register := 0 |>), w)
  | COMMAND_WRITE | COMMAND_WRITEALL =>
      Some (nmc93cxx_eeprom_set_state STATE_WAIT_FOR_DATA (dev <| shift_register := 0 |>), w)
  | COMMAND_ERASE =>
      if is_locked dev then Some (nmc93cxx_eeprom_set_state STATE_IN_RESET dev, w) else
      '(dev, w) ← nmc93cxx_eeprom_handle_cmd_erase (address dev) dev w;
      Some (nmc93cxx_eeprom_set_state STATE_WAIT_FOR_COMPLETION dev, w)
  | COMMAND_LOCK =>
      Some (nmc93cxx_eeprom_set_state STATE_IN_RESET (dev <| is_locked := true |>), w)
  | COMMAND_UNLOCK =>
      Some (nmc93cxx_eeprom_set_state STATE_IN_RESET (dev <| is_locked := false |>), w)
  | COMMAND_ERASEALL =>
      if is_locked dev then Some (nmc93cxx_eeprom_set_state STATE_IN_RESET dev, w) else
      '(dev, w) ← nmc93cxx_eeprom_handle_cmd_erase_all dev w;
      Some (nmc93cxx_eeprom_set_state STATE_WAIT_FOR_COMPLETION dev, w)
  | _ => None
  end.

Definition nmc93cxx_eeprom_execute_write_command (dev : nmc93cxx_eeprom_t) (w : W)
    : option (nmc93cxx_eeprom_t * W) :=
  match command dev with
  | COMMAND_WRITE =>
      if is_locked dev then Some (nmc93cxx_eeprom_set_state STATE_IN_RESET dev, w) else
      '(dev, w) ← nmc93cxx_eeprom_handle_cmd_write (address dev) (shift_register dev) dev w;
      Some (nmc93cxx_eeprom_set_state STATE_WAIT_FOR_COMPLETION dev, w)
  | COMMAND_WRITEALL =>
      if is_locked dev then Some (nmc93cxx_eeprom_set_state STATE_IN_RESET dev, w) else
      '(dev, w) ← nmc93cxx_eeprom_handle_cmd_write_all (shift_register dev) dev w;
      Some (nmc93cxx_eeprom_set_state STATE_WAIT_FOR_COMPLETION dev, w)
  | _ => None
  end.

(** The first bit of a read fetches the cell. *)
Definition read_bit (dev : nmc93cxx_eeprom_t) : option nmc93cxx_eeprom_t :=
  let bit_index := bits_accum dev in
  let dev := dev <| bits_accum := u32 (bits_accum dev + 1) |> in
  if (bit_index mod data_bits dev =? 0) && (bit_index =? 0) then
    let addr := u32 (address dev + bits_accum dev / data_bits dev) .& ((1 <<< address_bits dev) - 1) in
    data ← nmc93cxx_eeprom_cell_read dev addr;
    Some (dev <| shift_register := u32 (data <<< (32 - data_bits dev)) |>)
  else Some (dev <| shift_register := u32 (shift_register dev <<< 1) .| 1 |>).

(** A bit of a command, a bit of data. *)
Definition shift_in (x : Z) (di : bool) : Z := u32 (x <<< 1) .| cbool di.

Definition take_command_bit (dev : nmc93cxx_eeprom_t) : nmc93cxx_eeprom_t :=
  dev <| command_address_accum := shift_in (command_address_accum dev) (di_state dev) |>
      <| bits_accum := u32 (bits_accum dev + 1) |>.

Definition take_data_bit (dev : nmc93cxx_eeprom_t) : nmc93cxx_eeprom_t :=
  dev <| shift_register := shift_in (shift_register dev) (di_state dev) |>
      <| bits_accum := u32 (bits_accum dev + 1) |>.

Definition nmc93cxx_eeprom_handle_event (event : EepromEvent) (dev : nmc93cxx_eeprom_t) (w : W)
    : option (nmc93cxx_eeprom_t * W) :=
  match state dev, event with
  | STATE_IN_RESET, EVENT_CS_RISING_EDGE =>
      Some (nmc93cxx_eeprom_set_state STATE_WAIT_FOR_START_BIT dev, w)
  | STATE_WAIT_FOR_START_BIT, EVENT_CLK_RISING_EDGE =>
      if di_state dev && negb (is_busy dev)
         && negb (write_tick dev =? last_cs_rising_edge_tick dev) then
        let dev := dev <| command_address_accum := 0 |> <| bits_accum := 0 |> in
        Some (nmc93cxx_eeprom_set_state STATE_WAIT_FOR_COMMAND dev, w)
      else Some (dev, w)
  | STATE_WAIT_FOR_COMMAND, EVENT_CLK_RISING_EDGE =>
      let dev := take_command_bit dev in
      if bits_accum dev =? 2 + command_address_bits dev then nmc93cxx_eeprom_execute_command dev w
      else Some (dev, w)
  | STATE_READING_DATA, EVENT_CLK_RISING_EDGE => dev ← read_bit dev; Some (dev, w)
  | STATE_WAIT_FOR_DATA, EVENT_CLK_RISING_EDGE =>
      let dev := take_data_bit dev in
      if bits_accum dev =? data_bits dev then nmc93cxx_eeprom_execute_write_command dev w
      else Some (dev, w)
  | (STATE_WAIT_FOR_START_BIT | STATE_WAIT_FOR_COMMAND | STATE_READING_DATA | STATE_WAIT_FOR_DATA
    | STATE_WAIT_FOR_COMPLETION), EVENT_CS_FALLING_EDGE =>
      Some (nmc93cxx_eeprom_set_state STATE_IN_RESET dev, w)
  | _, _ => Some (dev, w)
  end.

(** The two halves of a write to the lines: select, then data and clock. *)
Definition select_line (eecs : bool) (dev : nmc93cxx_eeprom_t) (w : W) : option (nmc93cxx_eeprom_t * W) :=
  if Bool.eqb (cs_state dev) eecs then Some (dev, w) else
  let dev := dev <| cs_state := eecs |> in
  let dev := if eecs then dev <| last_cs_rising_edge_tick := write_tick dev |> else dev in
  nmc93cxx_eeprom_handle_event (if eecs then EVENT_CS_RISING_EDGE else EVENT_CS_FALLING_EDGE) dev w.

Definition clock_line (eesk : bool) (dev : nmc93cxx_eeprom_t) (w : W) : option (nmc93cxx_eeprom_t * W) :=
  if Bool.eqb (clk_state dev) eesk then Some (dev, w) else
  let dev := dev <| clk_state := eesk |> in
  nmc93cxx_eeprom_handle_event (if eesk then EVENT_CLK_RISING_EDGE else EVENT_CLK_FALLING_EDGE) dev w.

Definition nmc93cxx_eeprom_write (eecs eesk eedi : bool) (dev : nmc93cxx_eeprom_t) (w : W)
    : option (nmc93cxx_eeprom_t * W) :=
  let dev := dev <| write_tick := u32 (write_tick dev + 1) |> in
  '(dev, w) ← select_line eecs dev w;
  clock_line eesk (dev <| di_state := eedi |>) w.

Definition nmc93cxx_eeprom_read (dev : nmc93cxx_eeprom_t) : bool :=
  match state dev with
  | STATE_WAIT_FOR_START_BIT => negb (is_busy dev)
  | STATE_READING_DATA => ctrue (shift_register dev .& 0x80000000)
  | _ => true
  end.

(** ** What a driver does on the lines *)

(** One bit: data set up with the clock low, then the rising edge, then the
    output is sampled. *)
Definition clock_bit (b : bool) (dev : nmc93cxx_eeprom_t) (w : W) : option (bool * nmc93cxx_eeprom_t * W) :=
  '(dev, w) ← nmc93cxx_eeprom_write true false b dev w;
  '(dev, w) ← nmc93cxx_eeprom_write true true b dev w;
  Some (nmc93cxx_eeprom_read dev, dev, w).

Fixpoint clock_bits (l : list bool) (dev : nmc93cxx_eeprom_t) (w : W)
    : option (list bool * nmc93cxx_eeprom_t * W) :=
  match l with
  | [] => Some ([], dev, w)
  | b :: l =>
      '(o, dev, w) ← clock_bit b dev w;
      '(os, dev, w) ← clock_bits l dev w;
      Some (o :: os, dev, w)
  end.

(** A session: deselected, selected, a frame of bits, deselected. *)
Definition session (frame : list bool) (dev : nmc93cxx_eeprom_t) (w : W)
    : option (list bool * nmc93cxx_eeprom_t * W) :=
  '(dev, w) ← nmc93cxx_eeprom_write false false false dev w;
  '(dev, w) ← nmc93cxx_eeprom_write true false false dev w;
  let ready := nmc93cxx_eeprom_read dev in
  '(os, dev, w) ← clock_bits frame dev w;
  '(dev, w) ← nmc93cxx_eeprom_write false false false dev w;
  Some (ready :: os, dev, w).

End device.

(** The [n] bits of a number, the most significant first. *)
Fixpoint msb_bits (n : nat) (x : Z) : list bool :=
  match n with
  | O => []
  | S n => Z.testbit x (Z.of_nat n) :: msb_bits n x
  end.

(** The commands of the data sheet; the four without address take filler
    bits [f] in its place, and a read is clocked [n] times. *)
Inductive request :=
| Read (a : Z) (n : nat) | Write (a d : Z) | Erase (a : Z)
| EraseAll (f : Z) | WriteAll (f d : Z) | Lock (f : Z) | Unlock (f : Z)
| Poll.

(** Start bit, opcode and address, data. *)
Definition opcode (n : Z) (r : request) : Z :=
  match r with
  | Read a _ => 2 * 2 ^ n + a
  | Write a _ => 1 * 2 ^ n + a
  | Erase a => 3 * 2 ^ n + a
  | Lock f => 0 * 2 ^ (n - 2) + f
  | WriteAll f _ => 1 * 2 ^ (n - 2) + f
  | EraseAll f => 2 * 2 ^ (n - 2) + f
  | Unlock f => 3 * 2 ^ (n - 2) + f
  | Poll => 0
  end.

Definition data_part (db : Z) (r : request) : list bool :=
  match r with
  | Read _ n => repeat false n
  | Write _ d | WriteAll _ d => msb_bits (Z.to_nat db) d
  | _ => []
  end.

Definition frame (n db : Z) (r : request) : list bool :=
  match r with
  | Poll => []
  | _ => true :: msb_bits (Z.to_nat (2 + n)) (opcode n r) ++ data_part db r
  end.

(** ** The memory the driver sees *)

Record chip := mkChip { mem : list Z; locked : bool; busy : bool }.

Section chip.
Context {W : Type} `{!CommandTimer W}.

(** A change of the cells, if not locked, makes the chip busy for a time. *)
Definition programmed (us : Z) (m : option (list Z)) (c : chip) (w : W) : option (chip * W) :=
  if locked c then Some (c, w) else
  m ← m; w ← timer_on_auto us w; Some (mkChip m false true, w).

(** The cell, then zeros to fill 32 bits, then ones. *)
Definition read_out (db v : Z) (n : nat) : list bool :=
  take n (msb_bits (Z.to_nat db) v ++ repeat false (Z.to_nat (32 - db))) ++ repeat true (n - 32).

(** A write to an address without a cell is undefined. *)
Definition chip_step (db : Z) (r : request) (c : chip) (w : W) : option (chip * W) :=
  match r with
  | Write a d => programmed WRITE_TIME_US (arr_set (mem c) a d) c w
  | Erase a => programmed ERASE_TIME_US (arr_set (mem c) a (2 ^ db - 1)) c w
  | EraseAll _ => programmed ERASE_ALL_TIME_US (Some ((fun _ => 2 ^ db - 1) <$> mem c)) c w
  | WriteAll _ d => programmed WRITE_ALL_TIME_US (Some ((fun v => v .& d) <$> mem c)) c w
  | Lock _ => Some (mkChip (mem c) true (busy c), w)
  | Unlock _ => Some (mkChip (mem c) false (busy c), w)
  | Read _ _ | Poll => Some (c, w)
  end.

(** What the output shows: ready, then high until a read puts a zero bit and
    the cell on it. *)
Definition chip_out (n db : Z) (r : request) (c : chip) : list bool :=
  match r with
  | Poll => [true]
  | Read a k =>
      let v := default 0 (arr_get (mem c) (a mod Z.of_nat (length (mem c)))) in
      repeat true (Z.to_nat (n + 3)) ++ [false] ++ read_out db v k
  | _ => repeat true (S (length (frame n db r)))
  end.

(** A busy chip ignores everything but the end of the operation. *)
Definition chip_request (n db : Z) (r : request) (c : chip) (w : W) : option (list bool * chip * W) :=
  if busy c then Some (repeat false (S (length (frame n db r))), c, w) else
  '(c', w) ← chip_step db r c w;
  Some (chip_out n db r c, c', w).

(** Sessions, and the end of the operation under way. *)
Inductive step := Request (r : request) | Complete.

Definition chip_run1 (n db : Z) (s : step) (c : chip) (w : W) : option (list bool * chip * W) :=
  match s with
  | Request r => chip_request n db r c w
  | Complete => Some ([], mkChip (mem c) (locked c) false, w)
  end.

Definition line_run1 (n db : Z) (s : step) (dev : nmc93cxx_eeprom_t) (w : W)
    : option (list bool * nmc93cxx_eeprom_t * W) :=
  match s with
  | Request r => session (frame n db r) dev w
  | Complete => Some ([], nmc93cxx_eeprom_cmd_complete_timer_callback dev, w)
  end.

Fixpoint run_steps {S : Type} (f : step -> S -> W -> option (list bool * S * W)) (l : list step) (s : S) (w : W)
    : option (list (list bool) * S * W) :=
  match l with
  | [] => Some ([], s, w)
  | x :: l =>
      '(o, s, w) ← f x s w;
      '(os, s, w) ← run_steps f l s w;
      Some (o :: os, s, w)
  end.

End chip.

(** ** The array as cells *)

(** Bytes paired to little-endian words. *)
Fixpoint words (l : list Z) : list Z :=
  match l with
  | lo :: hi :: l => lo .| (hi <<< 8) :: words l
  | _ => []
  end.

Definition cells_of (dev : nmc93cxx_eeprom_t) : list Z :=
  if data_bits dev =? 16 then words (array_data dev) else array_data dev.

(** The geometry and the array of a device. *)
Record geometry (dev : nmc93cxx_eeprom_t) : Prop := {
  geo_db : data_bits dev = 8 \/ data_bits dev = 16;
  geo_bits : 1 <= address_bits dev <= command_address_bits dev;
  geo_cmd : 2 <= command_address_bits dev <= 29;
  geo_cells : cells dev = 2 ^ address_bits dev;
  geo_len : Z.of_nat (length (array_data dev)) = cells dev * (data_bits dev / 8);
  geo_bytes : Forall is_u8 (array_data dev);
}.

Lemma words_lookup l i lo hi :
  l !! (2 * i)%nat = Some lo -> l !! (2 * i + 1)%nat = Some hi -> words l !! i = Some (lo .| (hi <<< 8)).
Proof.
  revert l. induction i as [|i IH]; intros l.
  - destruct l as [|x [|y l]]; cbn; congruence.
  - replace (2 * S i)%nat with (S (S (2 * i))) by lia. replace (S (S (2 * i)) + 1)%nat with (S (S (2 * i + 1))) by lia.
    destruct l as [|x [|y l]]; cbn [lookup list_lookup words]; try done. apply IH.
Qed.

Lemma words_length k l : length l = (2 * k)%nat -> length (words l) = k.
Proof.
  revert l. induction k as [|k IH]; intros [|x [|y l]] Hl; cbn in *; try lia.
  rewrite IH; [done|]. lia.
Qed.

Lemma words_insert k i l lo hi :
  length l = (2 * k)%nat -> (i < k)%nat ->
  words (<[(2 * i + 1)%nat := hi]> (<[(2 * i)%nat := lo]> l)) = <[i := lo .| (hi <<< 8)]> (words l).
Proof.
  intros Hl Hi. apply list_eq. intros j. destruct (decide (j < k)%nat) as [Hj|Hj].
  2: { assert (length (<[(2 * i + 1)%nat := hi]> (<[(2 * i)%nat := lo]> l)) = (2 * k)%nat) as Hl'.
       { rewrite !length_insert. exact Hl. }
       apply words_length in Hl, Hl'. rewrite !lookup_ge_None_2; rewrite ?length_insert; solve [reflexivity | lia]. }
  destruct (lookup_lt_is_Some_2 l (2 * j)) as [a Ha]; [lia|].
  destruct (lookup_lt_is_Some_2 l (2 * j + 1)) as [b Hb]; [lia|].
  destruct (decide (i = j)) as [<-|Hne].
  - rewrite list_lookup_insert_eq by (rewrite (words_length k); lia). apply words_lookup.
    + by rewrite list_lookup_insert_ne, list_lookup_insert_eq by lia.
    + rewrite list_lookup_insert_eq; [done|]. rewrite length_insert. lia.
  - rewrite list_lookup_insert_ne by done. rewrite (words_lookup l j a b) by done.
    apply words_lookup; by rewrite !list_lookup_insert_ne by lia.
Qed.

Lemma arr_get_nat {A} (l : list A) (i : nat) : arr_get l (Z.of_nat i) = l !! i.
Proof. unfold arr_get. rewrite decide_True by lia. by rewrite Nat2Z.id. Qed.

Lemma arr_set_nat {A} (l : list A) (i : nat) x :
  (i < length l)%nat -> arr_set l (Z.of_nat i) x = Some (<[i := x]> l).
Proof. intros. unfold arr_set. rewrite decide_True by lia. by rewrite Nat2Z.id. Qed.

Lemma arr_set_out {A} (l : list A) i x : Z.of_nat (length l) <= i -> arr_set l i x = None.
Proof. intros. unfold arr_set. by rewrite decide_False by lia. Qed.

(** The two bytes of a word, and the word again. *)
Lemma join_bytes x : u8 x .| (u8 (x >>> 8) <<< 8) = wrap 16 x.
Proof.
  apply Z.bits_inj'. intros i Hi. rewrite Z.lor_spec, Z.shiftl_spec, !wrap_testbit by lia.
  destruct (Z.ltb_spec i 8), (Z.ltb_spec i 16), (Z.ltb_spec (i - 8) 8); try lia; cbn [andb orb].
  - rewrite (Z.testbit_neg_r (_ >>> _)) by lia. by rewrite orb_false_r.
  - rewrite Z.shiftr_spec by lia. f_equal. lia.
Qed.

Section geometry.
Context (dev : nmc93cxx_eeprom_t) (G : geometry dev).

Lemma cells_of_length : Z.of_nat (length (cells_of dev)) = 2 ^ address_bits dev.
Proof.
  destruct G as [[Hd|Hd] _ _ Hc Hl _]; unfold cells_of; rewrite Hd in *; cbn [Z.eqb Pos.eqb].
  - rewrite Hl, Hc. change (8 / 8) with 1. lia.
  - change (16 / 8) with 2 in Hl. rewrite (words_length (Z.to_nat (cells dev))); lia.
Qed.

Lemma cell_read_ok a :
  0 <= a < 2 ^ address_bits dev -> nmc93cxx_eeprom_cell_read dev a = arr_get (cells_of dev) a.
Proof.
  pose proof cells_of_length as HL. destruct G as [[Hd|Hd] _ _ Hc Hl _]; intros Ha;
    unfold nmc93cxx_eeprom_cell_read, cells_of in *; rewrite Hd in *; cbn [Z.eqb Pos.eqb] in *; [done|].
  change (16 / 8) with 2 in Hl. set (i := Z.to_nat a).
  replace (2 * a) with (Z.of_nat (2 * i)) by lia. replace (Z.of_nat (2 * i) + 1) with (Z.of_nat (2 * i + 1)) by lia.
  replace a with (Z.of_nat i) by lia. rewrite !arr_get_nat.
  destruct (lookup_lt_is_Some_2 (array_data dev) (2 * i)) as [lo Hlo]; [lia|].
  destruct (lookup_lt_is_Some_2 (array_data dev) (2 * i + 1)) as [hi Hhi]; [lia|].
  by rewrite Hlo, Hhi, (words_lookup _ _ lo hi).
Qed.


(** Writing a cell; an address without one is out of the array. *)
Lemma cell_write_ok a d :
  0 <= a ->
  nmc93cxx_eeprom_cell_write a d dev =
  (m ← arr_set (cells_of dev) a (wrap (data_bits dev) d);
   Some (dev <| array_data := if data_bits dev =? 16
                              then <[Z.to_nat (2 * a + 1) := u8 (d >>> 8)]>
                                     (<[Z.to_nat (2 * a) := u8 d]> (array_data dev))
                              else m |>)).
Proof.
  pose proof cells_of_length as HL. destruct G as [[Hd|Hd] _ _ Hc Hl _]; intros Ha;
    unfold nmc93cxx_eeprom_cell_write, cells_of in *; rewrite Hd in *; cbn [Z.eqb Pos.eqb] in *; [done|].
  change (16 / 8) with 2 in Hl. destruct (decide (a < cells dev)) as [Hin|Hout].
  2: { rewrite !arr_set_out by lia. done. }
  set (i := Z.to_nat a).
  replace (2 * a) with (Z.of_nat (2 * i)) by lia. replace (Z.of_nat (2 * i) + 1) with (Z.of_nat (2 * i + 1)) by lia.
  replace a with (Z.of_nat i) by lia. rewrite arr_set_nat by lia. cbn [mbind option_bind].
  rewrite arr_set_nat by (rewrite length_insert; lia). cbn [mbind option_bind].
  rewrite arr_set_nat by lia. cbn [mbind option_bind]. by rewrite !Nat2Z.id.
Qed.

End geometry.

(** The cells after a write. *)
Lemma cell_write_cells dev a d :
  geometry dev -> 0 <= a < 2 ^ address_bits dev ->
  exists bytes, nmc93cxx_eeprom_cell_write a d dev = Some (dev <| array_data := bytes |>) /\
    geometry (dev <| array_data := bytes |>) /\
    cells_of (dev <| array_data := bytes |>) = <[Z.to_nat a := wrap (data_bits dev) d]> (cells_of dev).
Proof.
  intros G Ha. pose proof (cells_of_length dev G) as HL. rewrite (cell_write_ok dev G) by lia.
  unfold arr_set. rewrite decide_True by lia. cbn [mbind option_bind]. eexists. split; [reflexivity|].
  destruct G as [Hd Hb Hm Hc Hl Hy]. unfold cells_of in *. destruct Hd as [Hd|Hd];
    cbn [set data_bits array_data const] in *; rewrite Hd in *; cbn [Z.eqb Pos.eqb] in *.
  - split; [|done]. split; cbn [set data_bits address_bits command_address_bits cells array_data const]; auto.
    + by rewrite length_insert, Hd.
    + apply Forall_insert; [done|]. width.
  - change (16 / 8) with 2 in Hl. split.
    + split; cbn [set data_bits address_bits command_address_bits cells array_data const]; auto.
      * by rewrite !length_insert, Hd.
      * apply Forall_insert; [apply Forall_insert; [done|]|]; width.
    + rewrite <- join_bytes. replace (Z.to_nat (2 * a + 1)) with (2 * Z.to_nat a + 1)%nat by lia.
      replace (Z.to_nat (2 * a)) with (2 * Z.to_nat a)%nat by lia.
      apply (words_insert (Z.to_nat (cells dev))); lia.
Qed.

(** A loop that rewrites every cell. *)
Lemma all_cells_ok (f : Z -> nmc93cxx_eeprom_t -> option nmc93cxx_eeprom_t) (g : Z -> Z) dev :
  geometry dev ->
  (forall a d v, geometry d -> data_bits d = data_bits dev -> 0 <= a < 2 ^ address_bits d ->
     arr_get (cells_of d) a = Some v ->
     exists bytes, f a d = Some (d <| array_data := bytes |>) /\ geometry (d <| array_data := bytes |>) /\
       cells_of (d <| array_data := bytes |>) = <[Z.to_nat a := g v]> (cells_of d)) ->
  exists bytes, all_cells (Z.to_nat (1 <<< address_bits dev)) f 0 dev = Some (dev <| array_data := bytes |>) /\
    geometry (dev <| array_data := bytes |>) /\ cells_of (dev <| array_data := bytes |>) = g <$> cells_of dev.
Proof.
  intros G Hf. pose proof (cells_of_length dev G) as HL.
  rewrite shiftl_1 by (apply Z.lt_le_incl; destruct G; lia).
  enough (forall n k d0 b0, d0 = dev <| array_data := b0 |> -> geometry d0 ->
    Z.of_nat n + k = 2 ^ address_bits dev -> 0 <= k ->
    cells_of d0 = (g <$> take (Z.to_nat k) (cells_of dev)) ++ drop (Z.to_nat k) (cells_of dev) ->
    exists bytes, all_cells n f k d0 = Some (dev <| array_data := bytes |>) /\
      geometry (dev <| array_data := bytes |>) /\ cells_of (dev <| array_data := bytes |>) = g <$> cells_of dev) as H.
  { apply (H _ 0 dev (array_data dev)); try done; [by destruct dev|lia]. }
  induction n as [|n IH]; intros k d0 b0 -> G0 Hn Hk Hc; cbn [all_cells].
  - exists b0. split; [done|]. split; [done|]. rewrite Hc, take_ge, drop_ge by lia. by rewrite app_nil_r.
  - assert (Z.to_nat k < length (cells_of dev))%nat as Hlt by lia.
    destruct (lookup_lt_is_Some_2 _ _ Hlt) as [v Hv].
    assert (arr_get (cells_of (dev <| array_data := b0 |>)) k = Some v) as Hget.
    { unfold arr_get. rewrite decide_True by lia. rewrite Hc, lookup_app_r by (rewrite length_fmap, length_take; lia).
      rewrite length_fmap, length_take, lookup_drop. by replace (Z.to_nat k + _)%nat with (Z.to_nat k) by lia. }
    destruct (Hf k _ v G0) as (b1 & -> & G1 & Hc1); [done|change (address_bits _) with (address_bits dev); lia|done|].
    cbn [mbind option_bind]. apply (IH _ _ b1); try done; try lia.
    rewrite Hc1, Hc. replace (Z.to_nat (k + 1)) with (S (Z.to_nat k)) by lia.
    rewrite (take_S_r _ _ v), fmap_app by done. rewrite (drop_S _ v) at 1 by done.
    rewrite insert_app_r_alt by (rewrite length_fmap, length_take; lia).
    rewrite length_fmap, length_take. replace (Z.to_nat k - _)%nat with 0%nat by lia. cbn. by rewrite <- app_assoc.
Qed.

(** ** The device on its lines *)

(** What a session leaves unchanged unless a command says otherwise. *)
Definition core (dev : nmc93cxx_eeprom_t) :=
  (is_busy dev, cells dev, data_bits dev, command_address_bits dev, address_bits dev,
   is_locked dev, filename dev, array_data dev).

Lemma geometry_core dev dev' : core dev' = core dev -> geometry dev -> geometry dev'.
Proof. unfold core. intros [= H1 H2 H3 H4 H5 H6 H7 H8] []. split; congruence. Qed.

Lemma core_busy dev dev' : core dev' = core dev -> is_busy dev' = is_busy dev.
Proof. unfold core. congruence. Qed.

Lemma cells_of_core dev dev' : core dev' = core dev -> cells_of dev' = cells_of dev.
Proof. unfold core, cells_of. intros [= H1 H2 H3 H4 H5 H6 H7 H8]. by rewrite H3, H8. Qed.

(** The value of bits that arrive most significant first. *)
Definition bits_value (acc : Z) (l : list bool) : Z := fold_left (fun acc b => 2 * acc + cbool b) l acc.

Lemma bits_value_bound l acc k :
  0 <= acc < 2 ^ k -> 0 <= k -> 0 <= bits_value acc l < 2 ^ (k + Z.of_nat (length l)).
Proof.
  revert acc k. induction l as [|b l IH]; intros acc k Ha Hk; cbn [bits_value fold_left length].
  - by rewrite Z.add_0_r.
  - replace (k + Z.of_nat (S (length l))) with ((k + 1) + Z.of_nat (length l)) by lia.
    apply IH; [|lia]. rewrite Z.pow_add_r, Z.pow_1_r by lia. destruct b; cbn [cbool]; lia.
Qed.

Lemma bits_value_msb n x acc :
  0 <= x < 2 ^ Z.of_nat n -> bits_value acc (msb_bits n x) = acc * 2 ^ Z.of_nat n + x.
Proof.
  revert x acc. induction n as [|n IH]; intros x acc Hx; cbn [msb_bits bits_value fold_left].
  - change (2 ^ Z.of_nat 0) with 1 in *. lia.
  - change (fold_left _ _ ?a) with (bits_value a (msb_bits n x)).
    replace (msb_bits n x) with (msb_bits n (x mod 2 ^ Z.of_nat n)).
    + rewrite IH by (apply Z.mod_pos_bound; lia). rewrite Nat2Z.inj_succ, Z.pow_succ_r in * by lia.
      rewrite (testbit_top x (Z.of_nat n)) by (unfold in_width; rewrite ?Z.pow_add_r, ?Z.pow_1_r; lia).
      assert (x mod 2 ^ Z.of_nat n = x - cbool (2 ^ Z.of_nat n <=? x) * 2 ^ Z.of_nat n) as ->; [|lia].
      destruct (Z.leb_spec (2 ^ Z.of_nat n) x); cbn [cbool].
      * symmetry. apply (Z.mod_unique _ _ 1); lia.
      * rewrite Z.mod_small; lia.
    + clear. assert (forall m, (m <= n)%nat -> msb_bits m (x mod 2 ^ Z.of_nat n) = msb_bits m x) as H; [|by apply H].
      induction m as [|m IHm]; intros Hm; cbn; [done|].
      rewrite IHm, Z.mod_pow2_bits_low by lia. done.
Qed.

Lemma msb_bits_length n x : length (msb_bits n x) = n.
Proof. induction n; cbn; congruence. Qed.

(** The shift registers, as long as nothing is lost. *)
Lemma shift_in_value acc b k : 0 <= acc < 2 ^ k -> 0 <= k < 32 -> shift_in acc b = 2 * acc + cbool b.
Proof.
  intros Ha Hk. unfold shift_in. rewrite Z.shiftl_mul_pow2, Z.pow_1_r by lia.
  assert (2 ^ (k + 1) <= 2 ^ 32) by (apply Z.pow_le_mono_r; lia). rewrite Z.pow_add_r, Z.pow_1_r in * by lia.
  rewrite wrap_id by (unfold in_width; lia). rewrite Z.lor_comm.
  replace (acc * 2) with (acc <<< 1) by (rewrite Z.shiftl_mul_pow2; lia).
  rewrite lor_shiftl_add; [lia..|]. apply in_width_cbool.
Qed.

Section lines.
Context {W : Type} `{!CommandTimer W}.

(** The device after a bit has been set up, before its rising edge. *)
Definition ticked (b : bool) (dev : nmc93cxx_eeprom_t) : nmc93cxx_eeprom_t :=
  dev <| write_tick := u32 (u32 (write_tick dev + 1) + 1) |> <| di_state := b |> <| clk_state := true |>.

Lemma clock_low dev (w : W) : clock_line false dev w = Some (dev <| clk_state := false |>, w).
Proof.
  destruct dev as [t cs clk di bu st acc ad sr ba co ce db cab ab lo la fn arr]. destruct clk; [|reflexivity].
  destruct st; reflexivity.
Qed.

Lemma clock_high dev (w : W) :
  clk_state dev = false ->
  clock_line true dev w = nmc93cxx_eeprom_handle_event EVENT_CLK_RISING_EDGE (dev <| clk_state := true |>) w.
Proof. intros H. unfold clock_line. by rewrite H. Qed.

Lemma select_same cs dev (w : W) : cs_state dev = cs -> select_line cs dev w = Some (dev, w).
Proof. intros <-. unfold select_line. by rewrite eqb_reflx. Qed.

Lemma clock_bit_event b dev (w : W) :
  cs_state dev = true ->
  clock_bit b dev w =
  ('(dev, w) ← nmc93cxx_eeprom_handle_event EVENT_CLK_RISING_EDGE (ticked b dev) w;
   Some (nmc93cxx_eeprom_read dev, dev, w)).
Proof.
  intros Hcs. unfold clock_bit, nmc93cxx_eeprom_write. rewrite select_same by done. cbn [mbind option_bind].
  rewrite clock_low. cbn [mbind option_bind]. rewrite select_same by done. cbn [mbind option_bind].
  by rewrite clock_high.
Qed.

Lemma clock_bits_app l1 l2 dev (w : W) :
  clock_bits (l1 ++ l2) dev w =
  ('(o1, dev, w) ← clock_bits l1 dev w;
   '(o2, dev, w) ← clock_bits l2 dev w;
   Some (o1 ++ o2, dev, w)).
Proof.
  revert dev w. induction l1 as [|b l1 IH]; intros dev w; cbn [app clock_bits mbind option_bind].
  - by destruct (clock_bits l2 dev w) as [[[o d] w']|].
  - destruct (clock_bit b dev w) as [[[o d] w']|]; cbn [mbind option_bind]; [|done]. rewrite IH.
    destruct (clock_bits l1 d w') as [[[o1 d1] w1]|]; cbn [mbind option_bind]; [|done].
    by destruct (clock_bits l2 d1 w1) as [[[o2 d2] w2]|].
Qed.

(** States in which the clock does nothing, the output staying as it is. *)
Definition idle_for (v : bool) (dev : nmc93cxx_eeprom_t) : Prop :=
  match state dev with
  | STATE_IN_RESET | STATE_WAIT_FOR_COMPLETION => v = true
  | STATE_WAIT_FOR_START_BIT => is_busy dev = true /\ v = false
  | _ => False
  end.

Lemma idle_bits v l dev (w : W) :
  cs_state dev = true -> idle_for v dev ->
  exists dev', clock_bits l dev w = Some (repeat v (length l), dev', w) /\
    core dev' = core dev /\ cs_state dev' = true /\ state dev' = state dev.
Proof.
  revert dev. induction l as [|b l IH]; intros dev Hcs Hv; cbn [clock_bits]; [eauto|].
  rewrite clock_bit_event by done.
  assert (exists dev1, nmc93cxx_eeprom_handle_event EVENT_CLK_RISING_EDGE (ticked b dev) w = Some (dev1, w) /\
     core dev1 = core dev /\ cs_state dev1 = true /\ state dev1 = state dev /\ nmc93cxx_eeprom_read dev1 = v)
    as (dev1 & -> & Hc1 & Hcs1 & Hs1 & Hr1).
  { unfold idle_for in Hv. unfold nmc93cxx_eeprom_handle_event, nmc93cxx_eeprom_read.
    change (state (ticked b dev)) with (state dev). change (is_busy (ticked b dev)) with (is_busy dev).
    destruct (state dev) eqn:Es; try done; subst; try (eexists; split_and!; [reflexivity|done..|by cbn; rewrite Es]).
    destruct Hv as [Hb ->]. rewrite Hb, andb_false_r. cbn [negb andb].
    eexists. split_and!; [reflexivity|done..|]. cbn. by rewrite Es, Hb. }
  cbn [mbind option_bind].
  destruct (IH dev1) as (dev' & -> & Hc' & Hcs' & Hs'); [done| |].
  { unfold idle_for in *. rewrite Hs1. destruct (state dev); try done. by rewrite (core_busy _ _ Hc1). }
  cbn [mbind option_bind]. rewrite Hr1. eexists. split; [reflexivity|]. split_and!; congruence.
Qed.

(** *** The command and address *)

Definition listening (acc k : Z) (dev : nmc93cxx_eeprom_t) : Prop :=
  cs_state dev = true /\ state dev = STATE_WAIT_FOR_COMMAND /\
  command_address_accum dev = acc /\ bits_accum dev = k.

Lemma start_bit dev (w : W) :
  cs_state dev = true -> state dev = STATE_WAIT_FOR_START_BIT -> is_busy dev = false ->
  is_u32 (write_tick dev) -> last_cs_rising_edge_tick dev = write_tick dev ->
  exists dev', clock_bits [true] dev w = Some ([true], dev', w) /\ core dev' = core dev /\ listening 0 0 dev'.
Proof.
  intros Hcs Hs Hb Ht Hl. cbn [clock_bits]. rewrite clock_bit_event by done.
  unfold nmc93cxx_eeprom_handle_event. change (state (ticked true dev)) with (state dev). rewrite Hs.
  change (is_busy (ticked true dev)) with (is_busy dev). rewrite Hb.
  change (last_cs_rising_edge_tick (ticked true dev)) with (last_cs_rising_edge_tick dev). rewrite Hl.
  change (di_state (ticked true dev)) with true. change (write_tick (ticked true dev)) with (u32 (u32 (write_tick dev + 1) + 1)).
  rewrite (proj2 (Z.eqb_neq _ _)).
  2: { rewrite wrap_add_wrap_l, <- Z.add_assoc. unfold in_width, wrap in *. intros E. change (1 + 1) with 2 in E. change (2 ^ 32) with 4294967296 in *.
       pose proof (Z.mod_pos_bound (write_tick dev + 2) 4294967296 ltac:(lia)).
       pose proof (Z.div_mod (write_tick dev + 2) 4294967296 ltac:(lia)). lia. }
  cbn [negb andb mbind option_bind]. eexists. split; [reflexivity|]. by split_and!.
Qed.

Lemma listen_bits l acc k dev (w : W) :
  listening acc k dev -> 0 <= k -> 0 <= acc < 2 ^ k -> command_address_bits dev <= 29 ->
  k + Z.of_nat (length l) < 2 + command_address_bits dev ->
  exists dev', clock_bits l dev w = Some (repeat true (length l), dev', w) /\ core dev' = core dev /\
    listening (bits_value acc l) (k + Z.of_nat (length l)) dev'.
Proof.
  revert acc k dev. induction l as [|b l IH]; intros acc k dev (Hcs & Hs & Ha & Hk) Hk0 Hacc Hcab Hlen; cbn [clock_bits length] in *.
  - exists dev. split; [done|]. split; [done|]. by rewrite Z.add_0_r.
  - rewrite clock_bit_event by done. unfold nmc93cxx_eeprom_handle_event.
    change (state (ticked b dev)) with (state dev). rewrite Hs.
    set (dev1 := take_command_bit (ticked b dev)).
    change (command_address_bits dev1) with (command_address_bits dev).
    change (bits_accum dev1) with (u32 (bits_accum dev + 1)). rewrite Hk, wrap_id by (unfold in_width; lia).
    rewrite (proj2 (Z.eqb_neq _ _)) by lia. cbn [mbind option_bind].
    destruct (IH (2 * acc + cbool b) (k + 1) dev1) as (dev' & -> & Hc' & Hl'); try done; try lia;
      try (change (command_address_bits dev1) with (command_address_bits dev); lia).
    + split_and!; try done.
      * change (shift_in (command_address_accum dev) b = 2 * acc + cbool b). rewrite Ha. apply (shift_in_value _ _ k); lia.
      * change (u32 (bits_accum dev + 1) = k + 1). rewrite Hk. apply wrap_id. unfold in_width. lia.
    + rewrite Z.pow_add_r, Z.pow_1_r by lia. destruct b; cbn [cbool]; lia.
    + assert (nmc93cxx_eeprom_read dev1 = true) as Hr.
      { unfold nmc93cxx_eeprom_read. change (state dev1) with (state dev). by rewrite Hs. }
      cbn [mbind option_bind]. rewrite Hr. eexists. split; [reflexivity|]. split; [done|].
      replace (k + Z.of_nat (S (length l))) with (k + 1 + Z.of_nat (length l)) by lia. done.
Qed.

End lines.

(** *** Commands *)

Definition command_of (r : request) : EepromCommand :=
  match r with
  | Read _ _ => COMMAND_READ | Write _ _ => COMMAND_WRITE | Erase _ => COMMAND_ERASE
  | EraseAll _ => COMMAND_ERASEALL | WriteAll _ _ => COMMAND_WRITEALL
  | Lock _ => COMMAND_LOCK | Unlock _ => COMMAND_UNLOCK | Poll => COMMAND_INVALID
  end.

Definition address_of (r : request) : Z :=
  match r with Read a _ | Write a _ | Erase a => a | _ => 0 end.

(** Arguments that fit their fields. *)
Definition fits (n db : Z) (r : request) : Prop :=
  match r with
  | Read a k => 0 <= a < 2 ^ n /\ Z.of_nat k < 2 ^ 32
  | Erase a => 0 <= a < 2 ^ n
  | Write a d => 0 <= a < 2 ^ n /\ 0 <= d < 2 ^ db
  | EraseAll f | Lock f | Unlock f => 0 <= f < 2 ^ (n - 2)
  | WriteAll f d => 0 <= f < 2 ^ (n - 2) /\ 0 <= d < 2 ^ db
  | Poll => True
  end.

Lemma split_field op n a :
  0 <= n -> 0 <= a < 2 ^ n -> (op * 2 ^ n + a) >>> n = op /\ (op * 2 ^ n + a) .& ((1 <<< n) - 1) = a.
Proof.
  intros Hn Ha. rewrite Z.shiftr_div_pow2 by done. replace ((1 <<< n) - 1) with (Z.ones n).
  2: { rewrite Z.ones_equiv, shiftl_1 by done. lia. }
  rewrite land_mask by done. split.
  - rewrite Z.div_add_l by lia. rewrite Z.div_small by done. lia.
  - rewrite Z.add_comm, Z.mod_add by lia. by apply Z.mod_small.
Qed.

(** The fields of a request as one field of [n] bits after a two-bit opcode. *)
Lemma opcode_range n db r : 2 <= n -> fits n db r -> 0 <= opcode n r < 2 ^ (2 + n).
Proof.
  intros Hn Hr. rewrite Z.pow_add_r by lia. change (2 ^ 2) with 4.
  assert (2 ^ n = 4 * 2 ^ (n - 2)) as E by (replace n with (2 + (n - 2)) at 1 by lia; by rewrite Z.pow_add_r by lia).
  destruct r; cbn [fits opcode] in *; lia.
Qed.

Lemma parse_opcode n db dev r :
  command_address_bits dev = n -> 2 <= n -> fits n db r -> r <> Poll ->
  command_address_accum dev = opcode n r ->
  nmc93cxx_eeprom_parse_command_and_address dev = dev <| address := address_of r |> <| command := command_of r |>.
Proof.
  intros Hc Hn Hr Hp Ha. unfold nmc93cxx_eeprom_parse_command_and_address.
  destruct dev as [t cs clk di bu st acc ad sr ba co ce dbits cab ab lo la fn arr].
  cbn [command_address_accum command_address_bits address command set const] in *. subst.
  assert (2 ^ n = 4 * 2 ^ (n - 2)) as E by (replace n with (2 + (n - 2)) at 1 by lia; by rewrite Z.pow_add_r by lia).
  assert (forall op f, 0 <= op < 4 -> 0 <= f < 2 ^ (n - 2) ->
    (op * 2 ^ (n - 2) + f) >>> n = 0 /\ (op * 2 ^ (n - 2) + f) .& ((1 <<< n) - 1) = op * 2 ^ (n - 2) + f
    /\ (op * 2 ^ (n - 2) + f) >>> (n - 2) = op) as H4.
  { intros op f Hop Hf. destruct (split_field 0 n (op * 2 ^ (n - 2) + f)) as [H1 H2]; [lia|nia|].
    rewrite Z.add_0_l in *. split; [done|]. split; [done|]. by apply split_field; [lia|]. }
  destruct r; cbn [opcode fits address_of command_of] in *; try done;
    try (destruct (split_field 2 n a) as [-> ->]; [lia|tauto|reflexivity]);
    try (destruct (split_field 1 n a) as [-> ->]; [lia|tauto|reflexivity]);
    try (destruct (split_field 3 n a) as [-> ->]; [lia|tauto|reflexivity]).
  - destruct (H4 2 f) as (-> & -> & ->); [lia|tauto|reflexivity].
  - destruct (H4 1 f) as (-> & -> & ->); [lia|tauto|reflexivity].
  - destruct (H4 0 f) as (-> & -> & ->); [lia|tauto|reflexivity].
  - destruct (H4 3 f) as (-> & -> & ->); [lia|tauto|reflexivity].
Qed.

(** The device holds the memory of the chip. *)
Record holds (n db : Z) (dev : nmc93cxx_eeprom_t) (c : chip) : Prop := {
  holds_geo : geometry dev;
  holds_n : command_address_bits dev = n;
  holds_db : data_bits dev = db;
  holds_mem : cells_of dev = mem c;
  holds_lock : is_locked dev = locked c;
  holds_busy : is_busy dev = busy c;
}.

Lemma holds_core n db dev dev' c : core dev' = core dev -> holds n db dev c -> holds n db dev' c.
Proof.
  intros Hc [G H1 H2 H3 H4 H5]. split; [by apply (geometry_core dev)|..].
  all: try (by rewrite (cells_of_core _ _ Hc)); unfold core in Hc; congruence.
Qed.

Section requests.
Context {W : Type} `{!CommandTimer W}.

(** The last bit of a command executes it. *)
Lemma command_bits n db r dev (w : W) :
  command_address_bits dev = n -> 2 <= n <= 29 -> fits n db r -> r <> Poll -> listening 0 0 dev ->
  exists dev1, core dev1 = core dev /\ cs_state dev1 = true /\
    command dev1 = command_of r /\ address dev1 = address_of r /\ bits_accum dev1 = 0 /\
    clock_bits (msb_bits (Z.to_nat (2 + n)) (opcode n r)) dev w =
    ('(d, w) ← match command_of r with
      | COMMAND_READ => Some (dev1 <| shift_register := 0 |> <| state := STATE_READING_DATA |>, w)
      | COMMAND_WRITE | COMMAND_WRITEALL =>
          Some (dev1 <| shift_register := 0 |> <| state := STATE_WAIT_FOR_DATA |>, w)
      | COMMAND_ERASE =>
          if is_locked dev1 then Some (dev1 <| state := STATE_IN_RESET |>, w) else
          '(d, w) ← nmc93cxx_eeprom_handle_cmd_erase (address_of r) dev1 w;
          Some (d <| state := STATE_WAIT_FOR_COMPLETION |>, w)
      | COMMAND_LOCK => Some (dev1 <| is_locked := true |> <| state := STATE_IN_RESET |>, w)
      | COMMAND_UNLOCK => Some (dev1 <| is_locked := false |> <| state := STATE_IN_RESET |>, w)
      | COMMAND_ERASEALL =>
          if is_locked dev1 then Some (dev1 <| state := STATE_IN_RESET |>, w) else
          '(d, w) ← nmc93cxx_eeprom_handle_cmd_erase_all dev1 w;
          Some (d <| state := STATE_WAIT_FOR_COMPLETION |>, w)
      | _ => None
      end;
     Some (repeat true (Z.to_nat (1 + n)) ++ [nmc93cxx_eeprom_read d], d, w)).
Proof.
  intros Hn Hn2 Hr Hp Hl. pose proof (opcode_range n db r ltac:(lia) Hr) as Hrange.
  set (bits := msb_bits (Z.to_nat (2 + n)) (opcode n r)).
  assert (length bits = S (Z.to_nat (1 + n))) as Hlen by (unfold bits; rewrite msb_bits_length; lia).
  assert (bits_value 0 bits = opcode n r) as Hval by (unfold bits; rewrite bits_value_msb; rewrite ?Z2Nat.id; lia).
  destruct bits as [|b l _] eqn:Eb using rev_ind; [done|]. clear Eb. rewrite length_app in Hlen. cbn [length] in Hlen.
  unfold bits_value in Hval. rewrite fold_left_app in Hval. cbn [fold_left] in Hval. fold (bits_value 0 l) in Hval.
  destruct (listen_bits l 0 0 dev w Hl) as (d1 & E1 & Hc1 & Hcs & Hs & Ha & Hk); [lia|cbn; lia|lia|lia|].
  pose proof (bits_value_bound l 0 0 ltac:(cbn; lia) ltac:(lia)) as Hb. rewrite Z.add_0_l in *.
  set (d2 := take_command_bit (ticked b d1)).
  assert (command_address_bits d2 = n) as Hn'.
  { change (command_address_bits d1 = n). unfold core in Hc1. congruence. }
  assert (command_address_accum d2 = opcode n r) as Hacc.
  { change (shift_in (command_address_accum d1) b = opcode n r). rewrite Ha, <- Hval.
    apply (shift_in_value _ _ (Z.of_nat (length l))); lia. }
  exists (d2 <| address := address_of r |> <| command := command_of r |> <| bits_accum := 0 |>).
  split; [exact Hc1|]. split_and!; try done.
  rewrite clock_bits_app, E1. cbn [mbind option_bind clock_bits].
  rewrite clock_bit_event by done. unfold nmc93cxx_eeprom_handle_event.
  change (state (ticked b d1)) with (state d1). rewrite Hs. fold d2.
  assert (bits_accum d2 = 2 + n) as Hk2.
  { change (u32 (bits_accum d1 + 1) = 2 + n). rewrite Hk, wrap_id by (unfold in_width; lia). lia. }
  rewrite Hk2, Hn', Z.eqb_refl. unfold nmc93cxx_eeprom_execute_command.
  rewrite (parse_opcode n db d2 r) by (done || lia).
  replace (Z.to_nat (1 + n)) with (length l) by lia.
  destruct r; cbn [command_of address_of command set const is_locked address mbind option_bind]; try reflexivity; try done;
    destruct (is_locked d2); cbn [mbind option_bind]; try reflexivity.
  all: match goal with
       | |- context [nmc93cxx_eeprom_handle_cmd_erase ?a ?d ?w] =>
           destruct (nmc93cxx_eeprom_handle_cmd_erase a d w) as [[? ?]|]
       | |- context [nmc93cxx_eeprom_handle_cmd_erase_all ?d ?w] =>
           destruct (nmc93cxx_eeprom_handle_cmd_erase_all d w) as [[? ?]|]
       end; reflexivity.
Qed.

(** *** Data in *)

Definition receiving (v k : Z) (dev : nmc93cxx_eeprom_t) : Prop :=
  cs_state dev = true /\ state dev = STATE_WAIT_FOR_DATA /\ shift_register dev = v /\ bits_accum dev = k.

Lemma receive_bits l v k dev (w : W) :
  receiving v k dev -> 0 <= k -> 0 <= v < 2 ^ k -> data_bits dev <= 16 ->
  k + Z.of_nat (length l) < data_bits dev ->
  exists dev', clock_bits l dev w = Some (repeat true (length l), dev', w) /\
    core dev' = core dev /\ command dev' = command dev /\ address dev' = address dev /\
    receiving (bits_value v l) (k + Z.of_nat (length l)) dev'.
Proof.
  revert v k dev. induction l as [|b l IH]; intros v k dev (Hcs & Hs & Hv & Hk) Hk0 Hv0 Hdb Hlen; cbn [clock_bits length] in *.
  - exists dev. split_and!; try done. by rewrite Z.add_0_r.
  - rewrite clock_bit_event by done. unfold nmc93cxx_eeprom_handle_event.
    change (state (ticked b dev)) with (state dev). rewrite Hs.
    set (dev1 := take_data_bit (ticked b dev)). change (data_bits dev1) with (data_bits dev).
    change (bits_accum dev1) with (u32 (bits_accum dev + 1)). rewrite Hk, wrap_id by (unfold in_width; lia).
    rewrite (proj2 (Z.eqb_neq _ _)) by lia. cbn [mbind option_bind].
    assert (nmc93cxx_eeprom_read dev1 = true) as Hr.
    { unfold nmc93cxx_eeprom_read. change (state dev1) with (state dev). by rewrite Hs. }
    destruct (IH (2 * v + cbool b) (k + 1) dev1) as (dev' & E & Hc' & Hcm & Had & Hl'); try done; try lia;
      try (change (data_bits dev1) with (data_bits dev); lia).
    + split_and!; try done.
      * change (shift_in (shift_register dev) b = 2 * v + cbool b). rewrite Hv. apply (shift_in_value _ _ k); lia.
      * change (u32 (bits_accum dev + 1) = k + 1). rewrite Hk. apply wrap_id. unfold in_width. lia.
    + rewrite Z.pow_add_r, Z.pow_1_r by lia. destruct b; cbn [cbool]; lia.
    + rewrite E. cbn [mbind option_bind]. rewrite Hr. eexists. split; [reflexivity|]. split_and!; try done.
      replace (k + Z.of_nat (S (length l))) with (k + 1 + Z.of_nat (length l)) by lia. done.
Qed.

(** The last bit of the data executes the write. *)
Lemma data_word d dev (w : W) :
  receiving 0 0 dev -> 1 <= data_bits dev <= 16 -> 0 <= d < 2 ^ data_bits dev ->
  exists dev1, core dev1 = core dev /\ cs_state dev1 = true /\ state dev1 = STATE_WAIT_FOR_DATA /\
    command dev1 = command dev /\ address dev1 = address dev /\ shift_register dev1 = d /\
    clock_bits (msb_bits (Z.to_nat (data_bits dev)) d) dev w =
    ('(dd, w) ← nmc93cxx_eeprom_execute_write_command dev1 w;
     Some (repeat true (Z.to_nat (data_bits dev - 1)) ++ [nmc93cxx_eeprom_read dd], dd, w)).
Proof.
  intros Hr Hdb Hd. set (bits := msb_bits (Z.to_nat (data_bits dev)) d).
  assert (length bits = S (Z.to_nat (data_bits dev - 1))) as Hlen by (unfold bits; rewrite msb_bits_length; lia).
  assert (bits_value 0 bits = d) as Hval by (unfold bits; rewrite bits_value_msb; rewrite ?Z2Nat.id; lia).
  destruct bits as [|b l _] eqn:Eb using rev_ind; [done|]. clear Eb. rewrite length_app in Hlen. cbn [length] in Hlen.
  unfold bits_value in Hval. rewrite fold_left_app in Hval. cbn [fold_left] in Hval. fold (bits_value 0 l) in Hval.
  destruct (receive_bits l 0 0 dev w Hr) as (d1 & E1 & Hc1 & Hcm & Had & Hcs & Hs & Ha & Hk); [lia|cbn; lia|lia|lia|].
  pose proof (bits_value_bound l 0 0 ltac:(cbn; lia) ltac:(lia)) as Hb. rewrite Z.add_0_l in *.
  assert (data_bits d1 = data_bits dev) as Hdb1 by (unfold core in Hc1; congruence).
  exists (take_data_bit (ticked b d1)). split_and!; try done.
  - change (shift_in (shift_register d1) b = d). rewrite Ha, <- Hval.
    apply (shift_in_value _ _ (Z.of_nat (length l))); lia.
  - rewrite clock_bits_app, E1. cbn [mbind option_bind clock_bits].
    rewrite clock_bit_event by done. unfold nmc93cxx_eeprom_handle_event.
    change (state (ticked b d1)) with (state d1). rewrite Hs.
    change (bits_accum (take_data_bit (ticked b d1))) with (u32 (bits_accum d1 + 1)).
    change (data_bits (take_data_bit (ticked b d1))) with (data_bits d1).
    rewrite Hk, wrap_id by (unfold in_width; lia). rewrite (proj2 (Z.eqb_eq _ _)) by lia.
    replace (Z.to_nat (data_bits dev - 1)) with (length l) by lia.
    by destruct (nmc93cxx_eeprom_execute_write_command (take_data_bit (ticked b d1)) w) as [[dd w']|].
Qed.

(** *** Data out *)

Lemma repeat_lookup {A} (x : A) n j : (j < n)%nat -> repeat x n !! j = Some x.
Proof. revert j. induction n as [|n IH]; intros [|j] Hj; cbn; try lia; [done|]. apply IH. lia. Qed.

Lemma msb_bits_lookup n x j : (j < n)%nat -> msb_bits n x !! j = Some (Z.testbit x (Z.of_nat (n - 1 - j))).
Proof.
  revert j. induction n as [|n IH]; intros j Hj; [lia|]. destruct j as [|j]; cbn.
  - do 2 f_equal. lia.
  - rewrite IH by lia. do 3 f_equal. lia.
Qed.

(** The output after [j] bits of a cell [v]: its bits, zeros, then ones. *)
Definition out_bit (db v : Z) (j : nat) : bool :=
  if decide (j < 32)%nat then Z.testbit (v <<< (32 - db)) (31 - Z.of_nat j) else true.

Lemma read_out_lookup db v k j :
  db = 8 \/ db = 16 -> (j < k)%nat -> read_out db v k !! j = Some (out_bit db v j).
Proof.
  intros Hdb Hj. unfold read_out, out_bit.
  assert (length (msb_bits (Z.to_nat db) v ++ repeat false (Z.to_nat (32 - db))) = 32%nat) as Hl
    by (rewrite length_app, msb_bits_length, repeat_length; lia).
  case_decide as Hj32.
  - rewrite lookup_app_l by (rewrite length_take, Hl; lia). rewrite lookup_take_lt by done.
    rewrite Z.shiftl_spec by lia. destruct (decide (j < Z.to_nat db)%nat).
    + rewrite lookup_app_l, msb_bits_lookup by (rewrite ?msb_bits_length; lia). do 2 f_equal. lia.
    + rewrite lookup_app_r, msb_bits_length by (rewrite msb_bits_length; lia).
      rewrite (Z.testbit_neg_r v) by lia. apply repeat_lookup; lia.
  - rewrite lookup_app_r by (rewrite length_take, Hl; lia). rewrite length_take, Hl.
    apply repeat_lookup. lia.
Qed.

Definition reading (db v : Z) (j : nat) (dev : nmc93cxx_eeprom_t) : Prop :=
  cs_state dev = true /\ state dev = STATE_READING_DATA /\ bits_accum dev = Z.of_nat j /\
  forall i, 0 <= i < 32 -> Z.testbit (shift_register dev) i =
    if decide (Z.of_nat j - 1 <= i) then Z.testbit (v <<< (32 - db)) (i - (Z.of_nat j - 1)) else true.

Lemma reading_output db v j dev : reading db v (S j) dev -> nmc93cxx_eeprom_read dev = out_bit db v j.
Proof.
  intros (_ & Hs & _ & Hb). unfold nmc93cxx_eeprom_read, out_bit. rewrite Hs.
  change 0x80000000 with (2 ^ 31). rewrite ctrue_bit, Hb by lia. repeat case_decide; try lia; try done.
  f_equal. lia.
Qed.

(** One more bit out of the shift register. *)
Lemma reading_step db v j dev :
  reading db v (S j) dev -> db = 8 \/ db = 16 -> Z.of_nat (S (S j)) < 2 ^ 32 ->
  exists dev1, read_bit (ticked false dev) = Some dev1 /\ reading db v (S (S j)) dev1 /\ core dev1 = core dev.
Proof.
  intros (Hcs & Hs & Hb & Hsr) Hdb Hj. unfold read_bit.
  change (bits_accum (ticked false dev)) with (bits_accum dev). rewrite Hb.
  rewrite (proj2 (Z.eqb_neq (Z.of_nat (S j)) 0)) by lia. rewrite andb_false_r.
  eexists. split; [reflexivity|]. split; [|done]. split_and!; try done.
  - change (u32 (Z.of_nat (S j) + 1) = Z.of_nat (S (S j))). rewrite wrap_id; [lia|]. unfold in_width. lia.
  - intros i Hi. change (Z.testbit (u32 (shift_register dev <<< 1) .| 2 ^ 0) i = 
      if decide (Z.of_nat (S (S j)) - 1 <= i) then Z.testbit (v <<< (32 - db)) (i - (Z.of_nat (S (S j)) - 1)) else true).
    rewrite lor_bit, wrap_testbit, Z.shiftl_spec by lia. rewrite (proj2 (Z.ltb_lt i 32)) by lia. cbn [andb].
    destruct (Z.eqb_spec i 0) as [->|Hi0]; [rewrite orb_true_r; by rewrite decide_False by lia|].
    rewrite orb_false_r, Hsr by lia. repeat case_decide; try lia; try done. f_equal. lia.
Qed.

Lemma reading_bits db v k j dev (w : W) :
  reading db v (S j) dev -> db = 8 \/ db = 16 -> Z.of_nat (S j + k) < 2 ^ 32 ->
  exists dev', clock_bits (repeat false k) dev w = Some (map (out_bit db v) (seq (S j) k), dev', w) /\
    core dev' = core dev /\ cs_state dev' = true.
Proof.
  revert j dev. induction k as [|k IH]; intros j dev Hrd Hdb Hk; cbn [repeat clock_bits seq map].
  { exists dev. destruct Hrd as (? & _). by split_and!. }
  destruct (reading_step db v j dev Hrd Hdb) as (dev1 & E1 & Hrd1 & Hc1); [lia|].
  destruct Hrd as (Hcs & Hs & _). rewrite clock_bit_event by done. unfold nmc93cxx_eeprom_handle_event.
  change (state (ticked false dev)) with (state dev). rewrite Hs, E1. cbn [mbind option_bind].
  rewrite (reading_output _ _ _ _ Hrd1).
  destruct (IH (S j) dev1 Hrd1 Hdb) as (dev' & E & Hc' & Hcs'); [lia|].
  rewrite E. cbn [mbind option_bind]. eexists. split; [reflexivity|]. split; [congruence|done].
Qed.

(** A whole read, from the state the command leaves. *)
Lemma read_data k dev v (w : W) :
  geometry dev -> cs_state dev = true -> state dev = STATE_READING_DATA -> bits_accum dev = 0 ->
  arr_get (cells_of dev) (address dev mod 2 ^ address_bits dev) = Some v -> is_u32 (address dev) ->
  Z.of_nat k < 2 ^ 32 ->
  exists dev', clock_bits (repeat false k) dev w = Some (read_out (data_bits dev) v k, dev', w) /\
    core dev' = core dev /\ cs_state dev' = true.
Proof.
  intros G Hcs Hs Hb Hv Ha Hk. pose proof (geo_db _ G) as Hdb.
  assert (read_out (data_bits dev) v k = map (out_bit (data_bits dev) v) (seq 0 k)) as ->.
  { apply list_eq. intros j. destruct (decide (j < k)%nat).
    - rewrite read_out_lookup by done. rewrite list_lookup_fmap, lookup_seq_lt by done. done.
    - rewrite !lookup_ge_None_2; [done| |]; [rewrite length_map, length_seq; lia|].
      unfold read_out. rewrite length_app, length_take, length_app, msb_bits_length, !repeat_length. lia. }
  destruct k as [|k]; cbn [repeat clock_bits seq map].
  { exists dev. by split_and!. }
  rewrite clock_bit_event by done. unfold nmc93cxx_eeprom_handle_event.
  change (state (ticked false dev)) with (state dev). rewrite Hs.
  assert (exists dev1, read_bit (ticked false dev) = Some dev1 /\ reading (data_bits dev) v 1 dev1 /\ core dev1 = core dev)
    as (dev1 & E1 & Hrd1 & Hc1).
  { unfold read_bit. change (bits_accum (ticked false dev)) with (bits_accum dev). rewrite Hb.
    set (d1 := (ticked false dev) <| bits_accum := u32 (0 + 1) |>).
    change (0 =? 0) with true. rewrite andb_true_r. change (data_bits d1) with (data_bits dev).
    rewrite Z.mod_0_l by lia. change (0 =? 0) with true. cbv iota.
    assert (u32 (address d1 + bits_accum d1 / data_bits dev) .& ((1 <<< address_bits d1) - 1)
            = address dev mod 2 ^ address_bits dev) as ->.
    { change (address d1) with (address dev). change (address_bits d1) with (address_bits dev).
      change (bits_accum d1) with 1. rewrite Z.div_small by lia. rewrite Z.add_0_r, wrap_id by done.
      rewrite shiftl_1 by (destruct G; lia). rewrite Z.sub_1_r, <- Z.ones_equiv.
      apply land_mask. destruct G; lia. }
    assert (geometry d1) as G1 by (by apply (geometry_core dev)).
    rewrite (cell_read_ok d1 G1) by (apply Z.mod_pos_bound, Z.pow_pos_nonneg; destruct G; cbn; lia).
    change (cells_of d1) with (cells_of dev). rewrite Hv. cbn [mbind option_bind].
    eexists. split; [reflexivity|]. split; [|done]. split_and!; try done.
    intros i Hi. rewrite decide_True by lia.
    change (Z.testbit (u32 (v <<< (32 - data_bits dev))) i = Z.testbit (v <<< (32 - data_bits dev)) (i - 0)).
    rewrite wrap_testbit by lia. rewrite (proj2 (Z.ltb_lt i 32)) by lia. cbn [andb]. f_equal. lia. }
  cbn [mbind option_bind]. rewrite E1. cbn [mbind option_bind]. rewrite (reading_output _ _ _ _ Hrd1).
  destruct (reading_bits _ v k 0 dev1 w Hrd1 Hdb) as (dev' & E & Hc' & Hcs'); [lia|].
  rewrite E. cbn [mbind option_bind]. eexists. split; [reflexivity|]. split; [congruence|done].
Qed.

(** *** Changes of the array *)

(** A change [f] of the array that amounts to a change [M] of the cells. *)
Definition changes (dev : nmc93cxx_eeprom_t) (f : option nmc93cxx_eeprom_t) (M : option (list Z)) : Prop :=
  match M with
  | None => f = None
  | Some m => exists bytes, f = Some (dev <| array_data := bytes |>) /\
                geometry (dev <| array_data := bytes |>) /\ cells_of (dev <| array_data := bytes |>) = m
  end.

Lemma write_changes a d dev :
  geometry dev -> 0 <= a ->
  changes dev (nmc93cxx_eeprom_cell_write a d dev) (arr_set (cells_of dev) a (wrap (data_bits dev) d)).
Proof.
  intros G Ha. unfold changes. pose proof (cells_of_length dev G) as HL.
  destruct (decide (a < 2 ^ address_bits dev)) as [Hlt|Hge].
  - unfold arr_set. rewrite decide_True by lia. by apply cell_write_cells.
  - rewrite (cell_write_ok dev G) by done. by rewrite arr_set_out by lia.
Qed.

Lemma all_ones dev : geometry dev -> wrap (data_bits dev) 0xffffffff = 2 ^ data_bits dev - 1.
Proof. intros [[-> | ->] _ _ _ _ _]; done. Qed.

Lemma erase_all_changes dev :
  geometry dev ->
  changes dev (all_cells (Z.to_nat (1 <<< address_bits dev)) (fun a => nmc93cxx_eeprom_cell_write a 0xffffffff) 0 dev)
    (Some ((fun _ => 2 ^ data_bits dev - 1) <$> cells_of dev)).
Proof.
  intros G. rewrite <- (all_ones dev G). cbn [changes]. apply (all_cells_ok _ (fun _ => wrap (data_bits dev) 0xffffffff)); [done|].
  intros a d v Gd Hd Ha _. rewrite <- Hd. by apply cell_write_cells.
Qed.

Lemma write_all_changes x dev :
  geometry dev -> 0 <= x < 2 ^ data_bits dev ->
  changes dev (all_cells (Z.to_nat (1 <<< address_bits dev)) (and_cell x) 0 dev)
    (Some ((fun v => v .& x) <$> cells_of dev)).
Proof.
  intros G Hx. cbn [changes]. apply (all_cells_ok _ (fun v => v .& x)); [done|].
  intros a d v Gd Hd Ha Hv. unfold and_cell. rewrite (cell_read_ok d Gd), Hv by done. cbn [mbind option_bind].
  destruct (cell_write_cells d a (v .& x) Gd Ha) as (bytes & E & G1 & Hc). exists bytes. split; [done|]. split; [done|].
  rewrite Hc, Hd, wrap_id; [done|]. apply in_width_land_r; [destruct (geo_db _ G); lia|exact Hx].
Qed.

(** The command timer starts and the device is busy. *)
Lemma programming n db us f M dev c (w : W) :
  holds n db dev c -> locked c = false -> changes dev f M ->
  match programmed us M c w with
  | Some (c', w') => exists dev', (dev ← f; nmc93cxx_eeprom_start_cmd_timer us dev w) = Some (dev', w') /\
                       holds n db dev' c' /\ cs_state dev' = cs_state dev
  | None => (dev ← f; nmc93cxx_eeprom_start_cmd_timer us dev w) = None
  end.
Proof.
  intros [G H1 H2 H3 H4 H5] Hl Hf. unfold programmed. rewrite Hl. destruct M as [m|]; cbn [mbind option_bind changes] in *.
  - destruct Hf as (bytes & -> & G1 & Hm). cbn [mbind option_bind]. unfold nmc93cxx_eeprom_start_cmd_timer.
    destruct (timer_on_auto us w) as [w'|]; cbn [mbind option_bind]; [|done].
    eexists. split; [reflexivity|]. split; [|done]. split; try done.
    + by destruct G1; split.
    + cbn. by rewrite H4.
  - by rewrite Hf.
Qed.

(** *** Frames *)

(** The start bit and the command. *)
Lemma head_bits n db r dev c (w : W) :
  holds n db dev c -> fits n db r -> r <> Poll -> busy c = false ->
  cs_state dev = true -> state dev = STATE_WAIT_FOR_START_BIT ->
  is_u32 (write_tick dev) -> last_cs_rising_edge_tick dev = write_tick dev ->
  exists dev0, listening 0 0 dev0 /\ holds n db dev0 c /\
    clock_bits (frame n db r) dev w =
    ('(o, d, w) ← clock_bits (msb_bits (Z.to_nat (2 + n)) (opcode n r) ++ data_part db r) dev0 w;
     Some (true :: o, d, w)).
Proof.
  intros Hh Hr Hp Hb Hcs Hs Ht Hl.
  destruct (start_bit dev w Hcs Hs) as (dev0 & E & Hc & Hl0); [by rewrite (holds_busy _ _ _ _ Hh)|done..|].
  exists dev0. split; [done|]. split; [by apply (holds_core _ _ dev)|].
  assert (frame n db r = [true] ++ msb_bits (Z.to_nat (2 + n)) (opcode n r) ++ data_part db r) as ->
    by (by destruct r).
  rewrite clock_bits_app, E. cbn [mbind option_bind].
  by destruct (clock_bits _ dev0 w) as [[[o d] w']|].
Qed.

(** After the command nothing but the data of a write or a read counts. *)
Definition frame_result (n db : Z) (r : request) (dev0 : nmc93cxx_eeprom_t) (c : chip) (w : W) : Prop :=
  match chip_step db r c w with
  | Some (c', w') =>
      exists o dev', clock_bits (msb_bits (Z.to_nat (2 + n)) (opcode n r) ++ data_part db r) dev0 w = Some (o, dev', w') /\
        true :: true :: o = chip_out n db r c /\ holds n db dev' c' /\ cs_state dev' = true
  | None => clock_bits (msb_bits (Z.to_nat (2 + n)) (opcode n r) ++ data_part db r) dev0 w = None
  end.

Lemma repeat_S_true k : repeat true k ++ [true] = repeat true (S k).
Proof. induction k as [|k IH]; [done|]. cbn [repeat app]. by rewrite IH. Qed.

(** A command without data that ends in [dev1] with the output high. *)
Lemma short_frame n db r dev0 dev1 c c' (w w' : W) :
  data_part db r = [] -> chip_out n db r c = repeat true (S (length (frame n db r))) ->
  frame n db r = true :: msb_bits (Z.to_nat (2 + n)) (opcode n r) ++ data_part db r ->
  2 <= n -> chip_step db r c w = Some (c', w') ->
  clock_bits (msb_bits (Z.to_nat (2 + n)) (opcode n r)) dev0 w =
    Some (repeat true (Z.to_nat (1 + n)) ++ [nmc93cxx_eeprom_read dev1], dev1, w') ->
  nmc93cxx_eeprom_read dev1 = true -> holds n db dev1 c' -> cs_state dev1 = true ->
  frame_result n db r dev0 c w.
Proof.
  intros Hd Ho Hf Hn Hs E Hr Hh Hcs. unfold frame_result. rewrite Hs, Hd, app_nil_r, E, Hr, repeat_S_true.
  eexists _, _. split; [reflexivity|]. split; [|done]. rewrite Ho, Hf, Hd, app_nil_r. cbn [length].
  rewrite msb_bits_length. replace (Z.to_nat (2 + n)) with (S (Z.to_nat (1 + n))) by lia. done.
Qed.

Lemma locked_holds n db dev c s : holds n db dev c -> holds n db (dev <| state := s |>) c.
Proof. by apply holds_core. Qed.

Lemma unlock_holds n db dev c b :
  holds n db dev c -> holds n db (dev <| is_locked := b |> <| state := STATE_IN_RESET |>) (mkChip (mem c) b (busy c)).
Proof. intros [G H1 H2 H3 H4 H5]. split; try done. by destruct G; split. Qed.

Lemma lock_frame n db r dev0 c (w : W) b :
  r = Lock b \/ r = Unlock b -> holds n db dev0 c -> fits n db r -> listening 0 0 dev0 ->
  frame_result n db r dev0 c w.
Proof.
  intros Hr0 Hh Hr Hl. pose proof (holds_geo _ _ _ _ Hh) as G. pose proof (geo_cmd _ G) as Hn.
  pose proof (holds_n _ _ _ _ Hh) as <-.
  destruct (command_bits _ db r dev0 w eq_refl ltac:(lia) Hr) as (dev1 & Hc1 & Hcs1 & _ & _ & _ & E); [by destruct Hr0 as [-> | ->]|done|].
  pose proof (holds_core _ _ _ _ _ Hc1 Hh) as Hh1. pose proof Hh1 as [G1 _ _ Hm _ _].
  destruct Hr0 as [-> | ->]; cbn [command_of mbind option_bind] in E;
    (eapply short_frame; [done..|lia|reflexivity|exact E|done|by apply unlock_holds|done]).
Qed.

(** A command that programs the array at once. *)
Lemma erase_frame n db r us f M dev0 c (w : W) :
  holds n db dev0 c -> fits n db r -> listening 0 0 dev0 ->
  (forall d, core d = core dev0 -> changes d (f d) M) ->
  chip_step db r c w = programmed us M c w ->
  data_part db r = [] -> chip_out n db r c = repeat true (S (length (frame n db r))) ->
  frame n db r = true :: msb_bits (Z.to_nat (2 + n)) (opcode n r) ++ data_part db r ->
  r <> Poll ->
  (forall dev1, cs_state dev1 = true -> core dev1 = core dev0 ->
     clock_bits (msb_bits (Z.to_nat (2 + n)) (opcode n r)) dev0 w =
     ('(d, w) ← (if is_locked dev1 then Some (dev1 <| state := STATE_IN_RESET |>, w) else
          '(d, w) ← (d ← f dev1; nmc93cxx_eeprom_start_cmd_timer us d w);
          Some (d <| state := STATE_WAIT_FOR_COMPLETION |>, w));
     Some (repeat true (Z.to_nat (1 + n)) ++ [nmc93cxx_eeprom_read d], d, w)) ->
     frame_result n db r dev0 c w).
Proof.
  intros Hh Hr Hl Hf Hs Hd Ho Hfr Hp dev1 Hcs1 Hc1 E. pose proof (holds_geo _ _ _ _ Hh) as G. pose proof (geo_cmd _ G) as Hn.
  pose proof (holds_n _ _ _ _ Hh) as Hn0. pose proof (holds_core _ _ _ _ _ Hc1 Hh) as Hh1.
  rewrite (holds_lock _ _ _ _ Hh1) in E. destruct (locked c) eqn:El.
  - cbn [mbind option_bind] in E. eapply (short_frame n db r dev0 _ c c w w Hd Ho Hfr); [lia| |exact E|done|by apply locked_holds|done].
    rewrite Hs. unfold programmed. by rewrite El.
  - pose proof (programming n db us (f dev1) M dev1 c w Hh1 El (Hf dev1 Hc1)) as Hpr.
    destruct (programmed us M c w) as [[c' w']|] eqn:Ep.
    + destruct Hpr as (d & Ed & Hhd & Hcd). rewrite Ed in E. cbn [mbind option_bind] in E.
      eapply (short_frame n db r dev0 _ c c' w w' Hd Ho Hfr); [lia|exact Hs|exact E|done|by apply locked_holds|cbn; congruence].
    + rewrite Hpr in E. cbn [mbind option_bind] in E. unfold frame_result. by rewrite Hs, Hd, app_nil_r, E.
Qed.

(** *** Writes *)

Lemma repeat_app_true (a b : nat) : repeat true a ++ repeat true b = repeat true (a + b).
Proof. symmetry. apply repeat_app. Qed.

Lemma write_frame n db r us f M d dev0 c (w : W) :
  holds n db dev0 c -> fits n db r -> listening 0 0 dev0 ->
  command_of r = COMMAND_WRITE \/ command_of r = COMMAND_WRITEALL ->
  data_part db r = msb_bits (Z.to_nat db) d -> 0 <= d < 2 ^ db ->
  chip_out n db r c = repeat true (S (length (frame n db r))) ->
  frame n db r = true :: msb_bits (Z.to_nat (2 + n)) (opcode n r) ++ data_part db r ->
  chip_step db r c w = programmed us M c w ->
  (forall dd, core dd = core dev0 -> changes dd (f dd) M) ->
  (forall dd (w : W), command dd = command_of r -> address dd = address_of r -> shift_register dd = d ->
     nmc93cxx_eeprom_execute_write_command dd w =
     if is_locked dd then Some (dd <| state := STATE_IN_RESET |>, w) else
     '(dd, w) ← (dd ← f dd; nmc93cxx_eeprom_start_cmd_timer us dd w);
     Some (dd <| state := STATE_WAIT_FOR_COMPLETION |>, w)) ->
  frame_result n db r dev0 c w.
Proof.
  intros Hh Hr Hl Hcmd Hd Hd0 Ho Hfr Hs Hf Hx. pose proof (holds_geo _ _ _ _ Hh) as G. pose proof (geo_cmd _ G) as Hn.
  pose proof (geo_db _ G) as Hdb. pose proof (holds_n _ _ _ _ Hh) as Hn0. pose proof (holds_db _ _ _ _ Hh) as Hdb0.
  destruct (command_bits n db r dev0 w Hn0 ltac:(lia) Hr) as (dev1 & Hc1 & Hcs1 & Hcm & Had & Hba & E);
    [intros ->; by destruct Hcmd|done|].
  set (dev2 := dev1 <| shift_register := 0 |> <| state := STATE_WAIT_FOR_DATA |>).
  assert (clock_bits (msb_bits (Z.to_nat (2 + n)) (opcode n r)) dev0 w
          = Some (repeat true (Z.to_nat (1 + n)) ++ [true], dev2, w)) as E1 by (destruct Hcmd as [Hcmd|Hcmd]; by rewrite E, Hcmd).
  clear E. assert (data_bits dev2 = db) as Hdb2 by (change (data_bits dev1 = db); unfold core in Hc1; congruence).
  destruct (data_word d dev2 w) as (dev3 & Hc3 & Hcs3 & Hs3 & Hcm3 & Had3 & Hsr3 & E2); [done|lia|by rewrite Hdb2|].
  rewrite Hdb2 in E2. assert (core dev3 = core dev0) as Hc30 by (by rewrite Hc3).
  pose proof (holds_core _ _ _ _ _ Hc30 Hh) as Hh3.
  rewrite Hx in E2 by (rewrite ?Hcm3, ?Had3; done). rewrite (holds_lock _ _ _ _ Hh3) in E2.
  assert (forall dd c' w', holds n db dd c' -> cs_state dd = true -> nmc93cxx_eeprom_read dd = true ->
    chip_step db r c w = Some (c', w') ->
    clock_bits (msb_bits (Z.to_nat db) d) dev2 w = Some (repeat true (Z.to_nat (db - 1)) ++ [nmc93cxx_eeprom_read dd], dd, w') ->
    frame_result n db r dev0 c w) as Hfin.
  { intros dd c' w' Hhd Hcd Hrd Hst Ed. unfold frame_result. rewrite Hst, clock_bits_app, E1, Hd. cbn [mbind option_bind].
    rewrite Ed. cbn [mbind option_bind]. eexists _, _. split; [reflexivity|]. split; [|done].
    rewrite Hrd, !repeat_S_true, repeat_app_true, Ho, Hfr, Hd. cbn [length]. rewrite length_app, !msb_bits_length.
    change (true :: true :: ?l) with (repeat true 2 ++ l). rewrite repeat_app_true. f_equal. lia. }
  destruct (locked c) eqn:El.
  - cbn [mbind option_bind] in E2. apply (Hfin (dev3 <| state := STATE_IN_RESET |>) c w); [by apply locked_holds|done|done| |exact E2].
    rewrite Hs. unfold programmed. by rewrite El.
  - pose proof (programming n db us (f dev3) M dev3 c w Hh3 El (Hf dev3 Hc30)) as Hpr.
    destruct (programmed us M c w) as [[c' w']|] eqn:Ep.
    + destruct Hpr as (dd & Ed & Hhd & Hcd). rewrite Ed in E2. cbn [mbind option_bind] in E2.
      apply (Hfin (dd <| state := STATE_WAIT_FOR_COMPLETION |>) c' w'); [by apply locked_holds|cbn; congruence|done|done|exact E2].
    + rewrite Hpr in E2. cbn [mbind option_bind] in E2. unfold frame_result.
      by rewrite Hs, clock_bits_app, E1, Hd; cbn [mbind option_bind]; rewrite E2.
Qed.

(** *** Reads *)

Lemma read_frame n db a k dev0 c (w : W) :
  holds n db dev0 c -> fits n db (Read a k) -> listening 0 0 dev0 -> frame_result n db (Read a k) dev0 c w.
Proof.
  intros Hh Hr Hl. pose proof (holds_geo _ _ _ _ Hh) as G. pose proof (geo_cmd _ G) as Hn.
  pose proof (holds_n _ _ _ _ Hh) as Hn0. pose proof (holds_db _ _ _ _ Hh) as Hdb0.
  destruct (command_bits n db (Read a k) dev0 w Hn0 ltac:(lia) Hr) as (dev1 & Hc1 & Hcs1 & Hcm & Had & Hba & E); [done..|].
  cbn [command_of mbind option_bind] in E.
  set (dev2 := dev1 <| shift_register := 0 |> <| state := STATE_READING_DATA |>) in *.
  assert (core dev2 = core dev0) as Hc2 by done. pose proof (holds_core _ _ _ _ _ Hc2 Hh) as Hh2.
  assert (geometry dev2) as G2 by apply Hh2. pose proof (cells_of_length dev2 G2) as HL.
  assert (0 < 2 ^ address_bits dev2) as Hpos by (apply Z.pow_pos_nonneg; [done|]; destruct G2; lia).
  assert (address dev2 = a) as Ha by done. destruct Hr as [Hra Hrk].
  assert (2 ^ n <= 2 ^ 32) by (apply Z.pow_le_mono_r; lia).
  pose proof (Z.mod_pos_bound a _ Hpos) as Hmod.
  destruct (lookup_lt_is_Some_2 (cells_of dev2) (Z.to_nat (a mod 2 ^ address_bits dev2))) as [v Hv]; [lia|].
  assert (arr_get (cells_of dev2) (a mod 2 ^ address_bits dev2) = Some v) as Hget.
  { unfold arr_get. by rewrite decide_True by lia. }
  destruct (read_data k dev2 v w G2 Hcs1) as (dev' & E2 & Hc' & Hcs'); [done|exact Hba|by rewrite Ha|rewrite Ha; unfold in_width; lia|done|].
  unfold frame_result. cbn [chip_step data_part]. rewrite clock_bits_app, E. cbn [mbind option_bind]. rewrite E2. cbn [mbind option_bind].
  eexists _, _. split; [reflexivity|]. split; [|split; [by apply (holds_core _ _ dev2)|done]].
  cbn [chip_out]. rewrite <- (holds_mem _ _ _ _ Hh2), HL, Hget. cbn [default from_option id].
  change (nmc93cxx_eeprom_read dev2) with false. rewrite (holds_db _ _ _ _ Hh2).
  replace (Z.to_nat (n + 3)) with (S (S (Z.to_nat (1 + n)))) by lia. cbn [repeat app]. by rewrite <- app_assoc.
Qed.

(** Every command does what the chip does. *)
Lemma command_result n db r dev0 c (w : W) :
  holds n db dev0 c -> fits n db r -> r <> Poll -> listening 0 0 dev0 -> frame_result n db r dev0 c w.
Proof.
  intros Hh Hr Hp Hl. pose proof (holds_geo _ _ _ _ Hh) as G. pose proof (geo_cmd _ G) as Hn.
  pose proof (holds_n _ _ _ _ Hh) as Hn0. pose proof (holds_db _ _ _ _ Hh) as Hdb0. pose proof (holds_mem _ _ _ _ Hh) as Hm0.
  assert (forall d, core d = core dev0 -> geometry d /\ data_bits d = db /\ cells_of d = mem c) as Hcore.
  { intros d Hd. pose proof (holds_core _ _ _ _ _ Hd Hh) as []. done. }
  destruct r; [by apply read_frame| | | | | | |done].
  - destruct Hr as [Hra Hrd]. eapply (write_frame n db _ WRITE_TIME_US (nmc93cxx_eeprom_cell_write a d) (arr_set (mem c) a d) d); try done.
    + by left.
    + intros dd Hdd. destruct (Hcore dd Hdd) as (Gd & Hdb & Hm). rewrite <- Hm.
      rewrite <- (wrap_id db d) at 2 by done. rewrite <- Hdb. apply write_changes; [done|lia].
    + intros dd w0 Hcm Had Hsr. unfold nmc93cxx_eeprom_execute_write_command. by rewrite Hcm, Had, Hsr.
  - destruct (command_bits n db (Erase a) dev0 w Hn0 ltac:(lia) Hr) as (dev1 & Hc1 & Hcs1 & Hcm & Had & Hba & E); [done..|].
    eapply (erase_frame n db _ ERASE_TIME_US (nmc93cxx_eeprom_cell_write a 0xffffffff)); try done.
    intros dd Hdd. destruct (Hcore dd Hdd) as (Gd & Hdb & Hm). rewrite <- Hm, <- Hdb, <- (all_ones dd Gd).
    apply write_changes; [done|]. cbn in Hr. lia.
  - destruct (command_bits n db (EraseAll f) dev0 w Hn0 ltac:(lia) Hr) as (dev1 & Hc1 & Hcs1 & Hcm & Had & Hba & E); [done..|].
    eapply (erase_frame n db _ ERASE_ALL_TIME_US (fun d => all_cells (Z.to_nat (1 <<< address_bits d)) (fun a => nmc93cxx_eeprom_cell_write a 0xffffffff) 0 d)); try done.
    intros dd Hdd. destruct (Hcore dd Hdd) as (Gd & Hdb & Hm). rewrite <- Hm, <- Hdb. by apply erase_all_changes.
  - destruct Hr as [Hrf Hrd]. eapply (write_frame n db _ WRITE_ALL_TIME_US (fun dd => all_cells (Z.to_nat (1 <<< address_bits dd)) (and_cell d) 0 dd) _ d); try done.
    + by right.
    + intros dd Hdd. destruct (Hcore dd Hdd) as (Gd & Hdb & Hm). rewrite <- Hm. apply write_all_changes; [done|by rewrite Hdb].
    + intros dd w0 Hcm Had Hsr. unfold nmc93cxx_eeprom_execute_write_command. by rewrite Hcm, Hsr.
  - eapply (lock_frame n db (Lock f)); try done. by left.
  - eapply (lock_frame n db (Unlock f)); try done. by right.
Qed.

(** *** Sessions *)

Definition idle (dev : nmc93cxx_eeprom_t) : Prop := cs_state dev = false /\ state dev = STATE_IN_RESET.

Lemma select_rise dev (w : W) :
  idle dev ->
  select_line true dev w =
  Some (dev <| cs_state := true |> <| last_cs_rising_edge_tick := write_tick dev |>
            <| state := STATE_WAIT_FOR_START_BIT |>, w).
Proof.
  intros [Hcs Hs]. destruct dev as [t cs clk di bu st acc ad sr ba co ce db cab ab lo la fn arr].
  cbn [cs_state state] in Hcs, Hs. by subst.
Qed.

Lemma select_fall dev (w : W) :
  cs_state dev = true ->
  select_line false dev w = Some (dev <| cs_state := false |> <| state := STATE_IN_RESET |>, w).
Proof.
  intros Hcs. destruct dev as [t cs clk di bu st acc ad sr ba co ce db cab ab lo la fn arr].
  cbn [cs_state] in Hcs. subst. by destruct st.
Qed.

Lemma select_ok dev (w : W) :
  idle dev ->
  exists dev0 dev1, nmc93cxx_eeprom_write false false false dev w = Some (dev0, w) /\
    nmc93cxx_eeprom_write true false false dev0 w = Some (dev1, w) /\
    core dev1 = core dev /\ cs_state dev1 = true /\ state dev1 = STATE_WAIT_FOR_START_BIT /\
    is_u32 (write_tick dev1) /\ last_cs_rising_edge_tick dev1 = write_tick dev1.
Proof.
  intros [Hcs Hs]. eexists _, _. unfold nmc93cxx_eeprom_write.
  split; [rewrite select_same by done; cbn [mbind option_bind]; by rewrite clock_low|].
  rewrite select_rise by done. cbn [mbind option_bind]. rewrite clock_low. split; [reflexivity|].
  split; [done|]. split; [done|]. split; [done|]. split; [|reflexivity].
  exact (wrap_range 32 (u32 (write_tick dev + 1) + 1) ltac:(lia)).
Qed.

Lemma deselect_ok dev (w : W) :
  cs_state dev = true ->
  exists dev', nmc93cxx_eeprom_write false false false dev w = Some (dev', w) /\ core dev' = core dev /\ idle dev'.
Proof.
  intros Hcs. unfold nmc93cxx_eeprom_write. rewrite select_fall by done. cbn [mbind option_bind].
  rewrite clock_low. eexists. split; [reflexivity|]. by split.
Qed.

Lemma chip_session_ok n db r dev c (w : W) :
  holds n db dev c -> idle dev -> fits n db r ->
  match chip_request n db r c w with
  | Some (o, c', w') => exists dev', session (frame n db r) dev w = Some (o, dev', w') /\ holds n db dev' c' /\ idle dev'
  | None => session (frame n db r) dev w = None
  end.
Proof.
  intros Hh Hi Hr. destruct (select_ok dev w Hi) as (d0 & d1 & E0 & E1 & Hc1 & Hcs1 & Hs1 & Ht1 & Hl1).
  pose proof (holds_core _ _ _ _ _ Hc1 Hh) as Hh1. unfold chip_request, session. rewrite E0. cbn [mbind option_bind].
  rewrite E1. cbn [mbind option_bind].
  assert (nmc93cxx_eeprom_read d1 = negb (busy c)) as -> by (unfold nmc93cxx_eeprom_read; by rewrite Hs1, (holds_busy _ _ _ _ Hh1)).
  assert (forall o d2 c' w', clock_bits (frame n db r) d1 w = Some (o, d2, w') -> holds n db d2 c' -> cs_state d2 = true ->
    exists dev', ('(os, dev, w) ← clock_bits (frame n db r) d1 w; '(dev, w) ← nmc93cxx_eeprom_write false false false dev w;
                  Some (negb (busy c) :: os, dev, w)) = Some (negb (busy c) :: o, dev', w') /\ holds n db dev' c' /\ idle dev') as Hend.
  { intros o d2 c' w' E2 Hh2 Hcs2. rewrite E2. cbn [mbind option_bind].
    destruct (deselect_ok d2 w' Hcs2) as (d3 & -> & Hc3 & Hi3). cbn [mbind option_bind].
    eexists. split; [reflexivity|]. split; [by apply (holds_core _ _ d2)|done]. }
  destruct (busy c) eqn:Eb.
  - destruct (idle_bits false (frame n db r) d1 w Hcs1) as (d2 & E2 & Hc2 & Hcs2 & _).
    { unfold idle_for. rewrite Hs1, (holds_busy _ _ _ _ Hh1). done. }
    destruct (Hend _ _ _ _ E2 (holds_core _ _ _ _ _ Hc2 Hh1) Hcs2) as (dev' & E & ?). by exists dev'.
  - assert (r = Poll \/ r <> Poll) as [->|Hp] by (destruct r; auto).
    { cbn [chip_step mbind option_bind chip_out]. by apply (Hend [] d1 c w). }
    destruct (head_bits n db r d1 c w Hh1 Hr Hp Eb Hcs1 Hs1 Ht1 Hl1) as (dl & Hl & Hhl & Eh).
    pose proof (command_result n db r dl c w Hhl Hr Hp Hl) as Hres. unfold frame_result in Hres.
    destruct (chip_step db r c w) as [[c' w']|]; cbn [mbind option_bind].
    + destruct Hres as (o & d2 & E2 & Ho & Hh2 & Hcs2). rewrite E2 in Eh. cbn [mbind option_bind] in Eh.
      destruct (Hend _ _ _ _ Eh Hh2 Hcs2) as (dev' & E & ?). exists dev'. by rewrite E, <- Ho.
    + rewrite Hres in Eh. cbn [mbind option_bind] in Eh. by rewrite Eh.
Qed.

Definition step_fits (n db : Z) (s : step) : Prop :=
  match s with Request r => fits n db r | Complete => True end.

Lemma steps_ok n db l dev c (w : W) :
  holds n db dev c -> idle dev -> Forall (step_fits n db) l ->
  match run_steps (chip_run1 n db) l c w with
  | Some (os, c', w') => exists dev', run_steps (line_run1 n db) l dev w = Some (os, dev', w') /\
                           holds n db dev' c' /\ idle dev'
  | None => run_steps (line_run1 n db) l dev w = None
  end.
Proof.
  intros Hh Hi Hl. revert dev c w Hh Hi. induction Hl as [|s l Hs Hl IH]; intros dev c w Hh Hi; cbn [run_steps].
  { exists dev. done. }
  assert (match chip_run1 n db s c w with
    | Some (o, c', w') => exists dev', line_run1 n db s dev w = Some (o, dev', w') /\ holds n db dev' c' /\ idle dev'
    | None => line_run1 n db s dev w = None end) as H1.
  { destruct s as [r|]; cbn [chip_run1 line_run1]; [by apply chip_session_ok|]. eexists. split; [reflexivity|].
    split; [|exact Hi]. destruct Hh as [G H1 H2 H3 H4 H5]. split; try done. by destruct G; split. }
  destruct (chip_run1 n db s c w) as [[[o c1] w1]|]; cbn [mbind option_bind]; [|by rewrite H1].
  destruct H1 as (d1 & -> & Hh1 & Hi1). cbn [mbind option_bind]. specialize (IH d1 c1 w1 Hh1 Hi1).
  destruct (run_steps (chip_run1 n db) l c1 w1) as [[[os c2] w2]|]; cbn [mbind option_bind]; [|by rewrite IH].
  destruct IH as (d2 & -> & ?). cbn [mbind option_bind]. by exists d2.
Qed.

End requests.

(** *** Power on *)

Definition image_ok (file : option (list Z)) : Prop :=
  match file with Some l => Forall is_u8 l | None => True end.

Lemma load_image_ok file content size n data r :
  image_ok file -> image_ok content -> Forall is_u8 data ->
  Z.of_nat (length data) = size * n -> load_image file content size n data = Some r ->
  Forall is_u8 r /\ length r = length data.
Proof.
  intros Hf Hc Hd Hl. unfold load_image.
  set (p := match file with None => (data, true) | Some bytes => _ end).
  assert (Forall is_u8 p.1 /\ length p.1 = length data) as [Hp1 Hp2].
  { unfold p. destruct file as [bytes|]; cbn [fst]; [|done]. split.
    - apply Forall_app. split; [by apply Forall_take|by apply Forall_drop].
    - rewrite length_app, length_drop, length_take. lia. }
  destruct p as [d b]. cbn [fst] in *. destruct content as [dc|]; [|intros [= <-]; done].
  destruct b; [|intros [= <-]; done]. unfold slice. case_decide as Hdc; [|done]. intros [= <-]. split.
  - by apply Forall_take, Forall_drop.
  - rewrite length_take, length_drop. lia.
Qed.

(** The bits of a part number. *)
Lemma part_bits type :
  let '(ce, n, db) := part type in
  exists ab, count_bits 32 (ce - 1) 0 = ab /\ 1 <= ab <= n /\ 2 <= n <= 29 /\ ce = 2 ^ ab /\ (db = 8 \/ db = 16) /\
    2 * (if db =? 16 then ce else ce / 2) = ce * (db / 8).
Proof. destruct type; (eexists; split; [reflexivity|]; cbv; repeat split; auto; discriminate). Qed.

Lemma init_ok type name file content dev :
  nmc93cxx_eeprom_init type name file content = Some dev -> image_ok file -> image_ok content ->
  let '(ce, n, db) := part type in
  holds n db dev (mkChip (cells_of dev) true false) /\ idle dev /\ cells dev = ce.
Proof.
  unfold nmc93cxx_eeprom_init. pose proof (part_bits type) as Hp.
  destruct (part type) as [[ce n] db]. destruct Hp as (ab & Hab & Hab1 & Hn & -> & Hdb & Hw).
  intros E Hf Hc. destruct (load_image _ _ _ _ _) as [data|] eqn:El; cbn [mbind option_bind] in E; [|done].
  rewrite Hab in E. apply (inj Some) in E. subst dev.
  rewrite Hw in El. assert (0 <= 2 ^ ab * (db / 8)).
  { apply Z.mul_nonneg_nonneg; [lia|]. apply Z.div_pos; lia. }
  apply load_image_ok in El as [Hu Hl]; [|done|done| |rewrite repeat_length; lia].
  2: { clear. induction (Z.to_nat _); cbn [repeat]; constructor; [unfold in_width; lia|done]. }
  rewrite repeat_length in Hl. split; [|done]. split; try done.
  split; cbn [data_bits address_bits command_address_bits cells array_data]; try done. lia.
Qed.

(** C35: Whatever commands a driver clocks into the device bit by bit, it
    behaves as the memory of the data sheet: each cell keeps the word last
    written, erasing sets all ones, nothing changes while the chip is locked
    or busy, and the bits it shifts out are those of the cell.  The model of
    the memory and the device are undefined on the same writes, those to an
    address without a cell. *)
Theorem lines_refine_chip {W} `{!CommandTimer W} type name file content dev l (w : W) :
  nmc93cxx_eeprom_init type name file content = Some dev -> image_ok file -> image_ok content ->
  let '(_, n, db) := part type in
  Forall (step_fits n db) l ->
  match run_steps (chip_run1 n db) l (mkChip (cells_of dev) true false) w with
  | Some (os, c', w') =>
      exists dev', run_steps (line_run1 n db) l dev w = Some (os, dev', w') /\
        cells_of dev' = mem c' /\ is_locked dev' = locked c' /\ is_busy dev' = busy c'
  | None => run_steps (line_run1 n db) l dev w = None
  end.
Proof.
  intros Hi Hf Hc. pose proof (init_ok _ _ _ _ _ Hi Hf Hc) as H. destruct (part type) as [[ce n] db].
  destruct H as (Hh & Hid & _). intros Hl. pose proof (steps_ok n db l dev _ w Hh Hid Hl) as Hs.
  destruct (run_steps (chip_run1 n db) l _ w) as [[[os c'] w']|]; [|done].
  destruct Hs as (dev' & E & [] & _). by exists dev'.
Qed.

(** ** The image *)

Lemma slice_full {A} (l : list A) : slice l 0 (Z.of_nat (length l)) = Some l.
Proof. unfold slice. rewrite decide_True by lia. by rewrite Nat2Z.id, drop_0, firstn_all. Qed.

(** An image written when the emulator closes is the memory found at the
    next start, with the chip locked. *)
Theorem image_round_trip type name file content content' dev image :
  nmc93cxx_eeprom_init type name file content = Some dev -> image_ok file -> image_ok content ->
  nmc93cxx_eeprom_close dev = Some image ->
  exists dev', nmc93cxx_eeprom_init type name (Some image) content' = Some dev' /\
    cells_of dev' = cells_of dev /\ is_locked dev' = true.
Proof.
  intros Hi Hf Hc. pose proof (init_ok _ _ _ _ _ Hi Hf Hc) as H. pose proof (part_bits type) as Hp. revert Hi.
  unfold nmc93cxx_eeprom_init. destruct (part type) as [[ce n] db]. destruct H as ([G Hn Hdb _ _ _] & _ & Hce).
  intros Hi. destruct (load_image file _ _ _ _) as [data0|]; [|done]. cbn [mbind option_bind] in Hi.
  assert (cells dev * (data_bits dev / 8) = data_bits dev / 8 * cells dev) as Hm by lia.
  unfold nmc93cxx_eeprom_close. rewrite <- Hm, <- (geo_len _ G), slice_full. intros [= <-].
  destruct Hp as (ab & Hab & _ & _ & _ & _ & Hw). rewrite Hab in *. apply (inj Some) in Hi.
  assert (0 < cells dev) by (rewrite (geo_cells _ G); apply Z.pow_pos_nonneg; destruct G; lia).
  assert (0 < data_bits dev / 8) by (by destruct (geo_db _ G) as [-> | ->]).
  unfold load_image. rewrite Hw. rewrite <- Hce, <- Hdb, <- Hm, <- (geo_len _ G), Nat2Z.id, firstn_all.
  rewrite (proj2 (Z.eqb_neq _ 0)) by (rewrite (geo_len _ G), Z.div_mul; lia).
  rewrite drop_ge, app_nil_r by (rewrite repeat_length; lia).
  destruct content'; (eexists; split; [reflexivity|]); (split; [|done]); subst dev; done.
Qed.

(** ** Activity on the lines that follows no protocol *)

Inductive line_op := Lines (eecs eesk eedi : bool) | Expire.

Section activity.
Context {W : Type} `{!CommandTimer W}.

Definition line_step (o : line_op) (dev : nmc93cxx_eeprom_t) (w : W) : option (nmc93cxx_eeprom_t * W) :=
  match o with
  | Lines eecs eesk eedi => nmc93cxx_eeprom_write eecs eesk eedi dev w
  | Expire => Some (nmc93cxx_eeprom_cmd_complete_timer_callback dev, w)
  end.

Fixpoint run_lines (l : list line_op) (dev : nmc93cxx_eeprom_t) (w : W) : option (nmc93cxx_eeprom_t * W) :=
  match l with
  | [] => Some (dev, w)
  | o :: l => '(dev, w) ← line_step o dev w; run_lines l dev w
  end.

Lemma run_lines_app l1 l2 dev (w : W) :
  run_lines (l1 ++ l2) dev w = ('(dev, w) ← run_lines l1 dev w; run_lines l2 dev w).
Proof.
  revert dev w. induction l1 as [|o l1 IH]; intros dev w; [done|]. cbn [app run_lines].
  destruct (line_step o dev w) as [[d w']|]; cbn [mbind option_bind]; [|done]. apply IH.
Qed.

(** A session as activity. *)
Definition session_lines (frame : list bool) : list line_op :=
  [Lines false false false; Lines true false false]
  ++ flat_map (fun b => [Lines true false b; Lines true true b]) frame ++ [Lines false false false].

Lemma clock_lines frame dev (w : W) :
  run_lines (flat_map (fun b => [Lines true false b; Lines true true b]) frame) dev w
  = ('(_, dev, w) ← clock_bits frame dev w; Some (dev, w)).
Proof.
  revert dev w. induction frame as [|b l IH]; intros dev w; [done|].
  cbn [flat_map app run_lines line_step clock_bits]. unfold clock_bit.
  destruct (nmc93cxx_eeprom_write true false b dev w) as [[d w1]|]; cbn [mbind option_bind]; [|done].
  destruct (nmc93cxx_eeprom_write true true b d w1) as [[d' w2]|]; cbn [mbind option_bind]; [|done].
  rewrite IH. by destruct (clock_bits l d' w2) as [[[o d2] w3]|].
Qed.

Lemma session_activity frame dev (w : W) :
  run_lines (session_lines frame) dev w = ('(_, dev, w) ← session frame dev w; Some (dev, w)).
Proof.
  unfold session_lines, session. cbn [app run_lines line_step].
  destruct (nmc93cxx_eeprom_write false false false dev w) as [[d w1]|]; cbn [mbind option_bind]; [|done].
  destruct (nmc93cxx_eeprom_write true false false d w1) as [[d' w2]|]; cbn [mbind option_bind]; [|done].
  rewrite run_lines_app, clock_lines. destruct (clock_bits frame d' w2) as [[[o d2] w3]|]; cbn [mbind option_bind]; [|done].
  cbn [run_lines line_step]. by destruct (nmc93cxx_eeprom_write false false false d2 w3) as [[d3 w4]|].
Qed.

(** The bits taken so far fit the registers, and a write waiting for its
    data has a command and an address of the part. *)
Definition registers_ok (dev : nmc93cxx_eeprom_t) : Prop :=
  match state dev with
  | STATE_WAIT_FOR_COMMAND =>
      0 <= bits_accum dev < 2 + command_address_bits dev /\ 0 <= command_address_accum dev < 2 ^ bits_accum dev
  | STATE_WAIT_FOR_DATA =>
      0 <= bits_accum dev < data_bits dev /\ 0 <= shift_register dev < 2 ^ bits_accum dev /\
      (command dev = COMMAND_WRITE \/ command dev = COMMAND_WRITEALL) /\
      0 <= address dev < 2 ^ command_address_bits dev
  | _ => True
  end.

(** All addresses of a command have a cell. *)
Definition full (dev : nmc93cxx_eeprom_t) : Prop :=
  geometry dev /\ address_bits dev = command_address_bits dev.

Definition sound (dev : nmc93cxx_eeprom_t) : Prop := full dev /\ registers_ok dev.

Lemma full_core dev dev' : core dev' = core dev -> full dev -> full dev'.
Proof. intros Hc [G H]. split; [by apply (geometry_core dev)|]. unfold core in Hc. congruence. Qed.

Hypothesis timer_starts : forall us (w : W), is_Some (timer_on_auto us w).

Lemma parse_sound dev :
  2 <= command_address_bits dev <= 29 -> 0 <= command_address_accum dev < 2 ^ (2 + command_address_bits dev) ->
  exists a co, nmc93cxx_eeprom_parse_command_and_address dev = dev <| address := a |> <| command := co |> /\
    0 <= a < 2 ^ command_address_bits dev /\
    match co with
    | COMMAND_INVALID | COMMAND_COPY_EEPROM_TO_RAM | COMMAND_COPY_RAM_TO_EEPROM => False
    | _ => True
    end.
Proof.
  intros Hn Ha. unfold nmc93cxx_eeprom_parse_command_and_address.
  destruct dev as [t cs clk di bu st acc ad sr ba co ce dbits cab ab lo la fn arr].
  cbn [command_address_accum command_address_bits address command set const] in *.
  assert (0 < 2 ^ cab) by (apply Z.pow_pos_nonneg; lia). assert (0 < 2 ^ (cab - 2)) by (apply Z.pow_pos_nonneg; lia).
  assert (2 ^ cab = 4 * 2 ^ (cab - 2)) as E by (replace cab with (2 + (cab - 2)) at 1 by lia; by rewrite Z.pow_add_r by lia).
  rewrite Z.pow_add_r in Ha by lia. change (2 ^ 2) with 4 in Ha.
  replace ((1 <<< cab) - 1) with (Z.ones cab) by (rewrite Z.ones_equiv, shiftl_1 by lia; lia).
  rewrite land_mask by lia. set (a := acc mod 2 ^ cab).
  assert (0 <= a < 2 ^ cab) as Hab by (apply Z.mod_pos_bound; lia).
  rewrite !Z.shiftr_div_pow2 by lia.
  assert (0 <= acc / 2 ^ cab < 4) as Hop by (split; [apply Z.div_pos; lia|apply Z.div_lt_upper_bound; lia]).
  assert (0 <= a / 2 ^ (cab - 2) < 4) as Hop2 by (split; [apply Z.div_pos; lia|apply Z.div_lt_upper_bound; lia]).
  assert (acc / 2 ^ cab = 0 \/ acc / 2 ^ cab = 1 \/ acc / 2 ^ cab = 2 \/ acc / 2 ^ cab = 3) as [-> | [-> | [-> | ->]]] by lia;
    [|by eexists a, _; split; [reflexivity|]; split; [done|exact I]..].
  assert (a / 2 ^ (cab - 2) = 0 \/ a / 2 ^ (cab - 2) = 1 \/ a / 2 ^ (cab - 2) = 2 \/ a / 2 ^ (cab - 2) = 3)
    as [-> | [-> | [-> | ->]]] by lia;
    (eexists 0, _; split; [reflexivity|]; split; [lia|exact I]).
Qed.

(** A change of a cell or of all cells succeeds and the device stays sound. *)
Lemma change_sound us f M dev (w : W) :
  full dev -> changes dev f M -> is_Some M ->
  exists dev' w', ('(d, w) ← (d ← f; nmc93cxx_eeprom_start_cmd_timer us d w);
                   Some (d <| state := STATE_WAIT_FOR_COMPLETION |>, w)) = Some (dev', w') /\ sound dev'.
Proof.
  intros [G Hab] Hf [m ->]. destruct Hf as (bytes & -> & G1 & _). unfold nmc93cxx_eeprom_start_cmd_timer.
  cbn [mbind option_bind]. destruct (timer_starts us w) as [w' ->]. cbn [mbind option_bind].
  eexists _, _. split; [reflexivity|]. split; [|done]. split; [by destruct G1; split|done].
Qed.

Lemma cell_exists dev a v :
  full dev -> 0 <= a < 2 ^ command_address_bits dev -> is_Some (arr_set (cells_of dev) a v).
Proof.
  intros [G Hab] Ha. pose proof (cells_of_length dev G) as HL. rewrite Hab in HL.
  unfold arr_set. rewrite decide_True by lia. eauto.
Qed.

Lemma reset_sound dev : full dev -> sound (dev <| state := STATE_IN_RESET |>).
Proof. intros H. split; [by apply (full_core dev)|done]. Qed.

Lemma execute_sound dev (w : W) :
  full dev -> 0 <= command_address_accum dev < 2 ^ (2 + command_address_bits dev) ->
  exists dev' w', nmc93cxx_eeprom_execute_command dev w = Some (dev', w') /\ sound dev'.
Proof.
  intros Hfu Ha. pose proof Hfu as [G Hab]. destruct (parse_sound dev (geo_cmd _ G) Ha) as (a & co & E & Hra & Hco).
  unfold nmc93cxx_eeprom_execute_command. rewrite E. set (d := dev <| address := a |> <| command := co |> <| bits_accum := 0 |>).
  change (command d) with co. assert (full d) as Hd by (by apply (full_core dev)).
  pose proof (geo_db _ G). assert (geometry d) as Gd by apply Hd.
  assert (co = COMMAND_WRITE \/ co = COMMAND_WRITEALL -> sound (d <| shift_register := 0 |> <| state := STATE_WAIT_FOR_DATA |>)) as Hw.
  { intros Hcw. split; [by apply (full_core dev)|].
    change (0 <= 0 < data_bits dev /\ 0 <= 0 < 2 ^ 0 /\ (co = COMMAND_WRITE \/ co = COMMAND_WRITEALL) /\ 0 <= a < 2 ^ command_address_bits dev).
    split_and!; try lia; done. }
  pose proof (reset_sound d Hd) as Hr.
  destruct co; try done.
  - eexists _, _. split; [reflexivity|]. split; [by apply (full_core dev)|done].
  - eauto 6.
  - destruct (is_locked d); [eauto|]. unfold nmc93cxx_eeprom_handle_cmd_erase.
    by eapply change_sound; [|apply write_changes; [|cbn; lia]|apply cell_exists].
  - eexists _, _. split; [reflexivity|]. split; [|done].
    split; [by destruct Gd; split|exact Hab].
  - eexists _, _. split; [reflexivity|]. split; [|done].
    split; [by destruct Gd; split|exact Hab].
  - eauto 6.
  - destruct (is_locked d); [eauto|]. by eapply change_sound; [|apply erase_all_changes|].
Qed.

Lemma execute_write_sound dev (w : W) :
  full dev -> 0 <= shift_register dev < 2 ^ data_bits dev ->
  command dev = COMMAND_WRITE \/ command dev = COMMAND_WRITEALL ->
  0 <= address dev < 2 ^ command_address_bits dev ->
  exists dev' w', nmc93cxx_eeprom_execute_write_command dev w = Some (dev', w') /\ sound dev'.
Proof.
  intros Hfu Hsr Hco Ha. pose proof Hfu as [G Hab]. pose proof (reset_sound dev Hfu) as Hr.
  unfold nmc93cxx_eeprom_execute_write_command.
  destruct Hco as [-> | ->]; (destruct (is_locked dev); [eauto|]).
  - by eapply change_sound; [|apply write_changes; [|lia]|apply cell_exists].
  - by eapply change_sound; [|apply write_all_changes|].
Qed.

Lemma read_sound dev :
  full dev -> state dev = STATE_READING_DATA ->
  exists dev', read_bit dev = Some dev' /\ state dev' = STATE_READING_DATA /\ core dev' = core dev.
Proof.
  intros [G Hab] Hs. unfold read_bit. destruct (_ && _); [|by eexists].
  set (d := dev <| bits_accum := u32 (bits_accum dev + 1) |>).
  assert (geometry d) as Gd by (by apply (geometry_core dev)).
  assert (0 <= address_bits d) as Hb by (destruct Gd; lia). assert (0 < 2 ^ address_bits d) by (by apply Z.pow_pos_nonneg).
  replace ((1 <<< address_bits d) - 1) with (Z.ones (address_bits d)) by (rewrite Z.ones_equiv, shiftl_1 by lia; lia).
  rewrite land_mask by done. set (x := _ mod _). assert (0 <= x < 2 ^ address_bits d) by (by apply Z.mod_pos_bound).
  rewrite (cell_read_ok d Gd) by done. pose proof (cells_of_length d Gd).
  destruct (lookup_lt_is_Some_2 (cells_of d) (Z.to_nat x)) as [v Hv]; [lia|].
  unfold arr_get. rewrite decide_True, Hv by lia. by eexists.
Qed.

Lemma event_sound ev dev (w : W) :
  sound dev -> exists dev' w', nmc93cxx_eeprom_handle_event ev dev w = Some (dev', w') /\ sound dev'.
Proof.
  intros [Hfu Hreg]. pose proof Hfu as [G Hab]. pose proof (reset_sound dev Hfu) as Hr. pose proof (geo_cmd _ G) as Hn.
  pose proof (geo_db _ G) as Hdb. unfold registers_ok in Hreg. unfold nmc93cxx_eeprom_handle_event.
  assert (sound dev) as Hsame by (split; [done|done]).
  assert (forall s, match s with STATE_WAIT_FOR_COMMAND | STATE_WAIT_FOR_DATA => False | _ => True end ->
    sound (nmc93cxx_eeprom_set_state s dev)) as Hset.
  { intros s Hs. split; [by apply (full_core dev)|]. by destruct s. }
  destruct (state dev) eqn:Es, ev; try (eexists _, _; split; [reflexivity|]; first [exact Hsame | by apply Hset]).
  - destruct (_ && _); (eexists _, _; split; [reflexivity|]); [|exact Hsame].
    split; [by apply (full_core dev)|]. change (0 <= 0 < 2 + command_address_bits dev /\ 0 <= 0 < 2 ^ 0). lia.
  - destruct Hreg as [Hk Hacc]. set (d := take_command_bit dev).
    assert (bits_accum d = bits_accum dev + 1) as Hkd.
    { change (u32 (bits_accum dev + 1) = bits_accum dev + 1). apply wrap_id. unfold in_width. lia. }
    assert (0 <= command_address_accum d < 2 ^ (bits_accum dev + 1)) as Had.
    { change (command_address_accum d) with (shift_in (command_address_accum dev) (di_state dev)).
      rewrite (shift_in_value _ _ (bits_accum dev)), Z.pow_add_r by lia. destruct (di_state dev); cbn [cbool]; lia. }
    assert (full d) as Hd by (by apply (full_core dev)). change (command_address_bits d) with (command_address_bits dev).
    rewrite Hkd. destruct (Z.eqb_spec (bits_accum dev + 1) (2 + command_address_bits dev)) as [Hlast|Hmore].
    + apply execute_sound; [done|]. change (command_address_bits d) with (command_address_bits dev). by rewrite <- Hlast.
    + eexists _, _. split; [reflexivity|]. split; [done|]. unfold registers_ok.
      change (state d) with (state dev). rewrite Es, Hkd. change (command_address_bits d) with (command_address_bits dev). lia.
  - destruct (read_sound dev Hfu) as (d & Ed & Hsd & Hcd); [done|]. rewrite Ed. cbn [mbind option_bind].
    eexists _, _. split; [reflexivity|]. split; [by apply (full_core dev)|]. unfold registers_ok. by rewrite Hsd.
  - destruct Hreg as (Hk & Hsr & Hco & Hadr). set (d := take_data_bit dev).
    assert (bits_accum d = bits_accum dev + 1) as Hkd.
    { change (u32 (bits_accum dev + 1) = bits_accum dev + 1). apply wrap_id. unfold in_width. lia. }
    assert (0 <= shift_register d < 2 ^ (bits_accum dev + 1)) as Had.
    { change (shift_register d) with (shift_in (shift_register dev) (di_state dev)).
      rewrite (shift_in_value _ _ (bits_accum dev)), Z.pow_add_r by lia. destruct (di_state dev); cbn [cbool]; lia. }
    assert (full d) as Hd by (by apply (full_core dev)). change (data_bits d) with (data_bits dev).
    rewrite Hkd. destruct (Z.eqb_spec (bits_accum dev + 1) (data_bits dev)) as [Hlast|Hmore].
    + apply execute_write_sound; [done| |done|done]. change (data_bits d) with (data_bits dev). by rewrite <- Hlast.
    + eexists _, _. split; [reflexivity|]. split; [done|]. unfold registers_ok.
      change (state d) with (state dev). rewrite Es, Hkd. change (data_bits d) with (data_bits dev).
      split; [lia|]. split; [done|]. split; done.
Qed.

Lemma select_sound cs dev (w : W) :
  sound dev -> exists dev' w', select_line cs dev w = Some (dev', w') /\ sound dev'.
Proof.
  intros [Hfu Hreg]. unfold select_line. destruct (Bool.eqb (cs_state dev) cs); [by eexists _, _|].
  apply event_sound. destruct cs; (split; [by apply (full_core dev)|exact Hreg]).
Qed.

Lemma clock_sound sk dev (w : W) :
  sound dev -> exists dev' w', clock_line sk dev w = Some (dev', w') /\ sound dev'.
Proof.
  intros [Hfu Hreg]. unfold clock_line. destruct (Bool.eqb (clk_state dev) sk); [by eexists _, _|].
  apply event_sound. split; [by apply (full_core dev)|exact Hreg].
Qed.

Lemma step_sound o dev (w : W) :
  sound dev -> exists dev' w', line_step o dev w = Some (dev', w') /\ sound dev'.
Proof.
  intros [Hfu Hreg]. destruct o as [cs sk di|]; cbn [line_step].
  - unfold nmc93cxx_eeprom_write.
    destruct (select_sound cs (dev <| write_tick := u32 (write_tick dev + 1) |>) w) as (d & w1 & -> & [Hfd Hrd]).
    { split; [by apply (full_core dev)|exact Hreg]. }
    cbn [mbind option_bind]. apply clock_sound. split; [by apply (full_core d)|exact Hrd].
  - eexists _, _. split; [reflexivity|]. destruct Hfu as [G Hab]. split; [|exact Hreg].
    split; [by destruct G; split|exact Hab].
Qed.

Lemma run_sound l dev (w : W) : sound dev -> is_Some (run_lines l dev w).
Proof.
  revert dev w. induction l as [|o l IH]; intros dev w Hs; cbn [run_lines]; [by eexists|].
  destruct (step_sound o dev w Hs) as (d & w' & -> & Hd). by apply IH.
Qed.

End activity.

(** Unlocking, then a write to the first address without a cell. *)
Definition stray_write (n db a : Z) : list line_op :=
  session_lines (frame n db (Unlock 0)) ++ session_lines (frame n db (Write a 0)).

Lemma stray_write_crashes {W} `{!CommandTimer W} n db dev c (w : W) :
  holds n db dev c -> idle dev -> busy c = false -> Z.of_nat (length (mem c)) < 2 ^ n -> 2 <= n ->
  run_lines (stray_write n db (Z.of_nat (length (mem c)))) dev w = None.
Proof.
  intros Hh Hi Hb Hn Hn2. unfold stray_write. rewrite run_lines_app, session_activity.
  assert (0 < 2 ^ (n - 2)) by (apply Z.pow_pos_nonneg; lia).
  assert (fits n db (Unlock 0)) as Hf1 by (cbn; lia).
  pose proof (chip_session_ok n db _ dev c w Hh Hi Hf1) as H1. unfold chip_request in H1. rewrite Hb in H1.
  cbn [chip_step mbind option_bind] in H1. destruct H1 as (d1 & -> & Hh1 & Hi1). cbn [mbind option_bind].
  rewrite session_activity. pose proof (holds_geo _ _ _ _ Hh) as G. pose proof (holds_db _ _ _ _ Hh) as Hd.
  assert (0 < 2 ^ db) by (apply Z.pow_pos_nonneg; destruct (geo_db _ G); lia).
  assert (fits n db (Write (Z.of_nat (length (mem c))) 0)) as Hf2 by (cbn; lia).
  pose proof (chip_session_ok n db _ d1 _ w Hh1 Hi1 Hf2) as H2. unfold chip_request in H2. cbn [busy] in H2. rewrite Hb in H2.
  cbn [chip_step locked mem] in H2. unfold programmed in H2. cbn [locked mem] in H2.
  rewrite arr_set_out in H2 by lia. cbn [mbind option_bind] in H2. by rewrite H2.
Qed.

(** C36: No activity on the lines, with or without sense, makes the device
    access memory outside its array or fail an assertion - exactly on the
    parts whose commands have no more address bits than the part has cells.
    On the others (93C06, 93C56, 93C76, and the 93C86 of 8 bits) a driver
    that unlocks the chip can write past the array. *)
Theorem lines_safe_iff {W} `{!CommandTimer W} type name file content dev (w : W) :
  (forall us (w : W), is_Some (timer_on_auto us w)) ->
  nmc93cxx_eeprom_init type name file content = Some dev -> image_ok file -> image_ok content ->
  (forall l, is_Some (run_lines l dev w)) <->
  let '(cells, n, _) := part type in cells = 2 ^ n.
Proof.
  intros Ht Hi Hf Hc. pose proof (init_ok _ _ _ _ _ Hi Hf Hc) as H. pose proof (part_bits type) as Hp.
  destruct (part type) as [[ce n] db]. destruct H as (Hh & Hid & Hce).
  destruct Hp as (ab & _ & Hab & Hn & Hab2 & _). pose proof Hh as [G Hdn _ _ _ _]. cbn [mem] in Hh.
  pose proof (geo_cells _ G) as Hgc. split.
  - intros Hsafe. destruct (decide (ce = 2 ^ n)) as [|Hne]; [done|exfalso].
    assert (2 ^ ab <= 2 ^ n) by (apply Z.pow_le_mono_r; lia).
    pose proof (cells_of_length dev G) as HL.
    pose proof (stray_write_crashes n db dev _ w Hh Hid eq_refl) as Hcr. cbn [mem] in Hcr.
    destruct (Hsafe (stray_write n db (Z.of_nat (length (cells_of dev))))) as [r Hr]. rewrite Hcr in Hr; [done|lia|lia].
  - intros Hfull l. apply run_sound; [done|]. destruct Hid as [_ Hs]. split; [|unfold registers_ok; by rewrite Hs].
    split; [done|]. rewrite Hdn. apply (Z.pow_inj_r 2); destruct G; lia.
Qed.

(** ** Examples *)

(** A timer that only counts its starts. *)
#[local] Instance counting_timer : CommandTimer (list Z) := {| timer_on_auto us w := Some (us :: w) |}.

Definition sample_type := NMC_93C46_x16_64.
Definition sample_dev : nmc93cxx_eeprom_t :=
  mkEeprom 0 false false false false STATE_IN_RESET 0 0 0 0 COMMAND_INVALID 64 16 6 6 true 0 "card.nvr"
    (repeat 0xff 128).
Definition sample_image : option (list Z) := Some (repeat 0xff 128).

Lemma sample_image_ok : image_ok sample_image.
Proof. unfold sample_image. generalize 128%nat. intros n. induction n; cbn [repeat]; constructor; [unfold in_width; lia|done]. Qed.

(** Writing while locked, then unlocked, while busy, and reading. *)
Definition sample_steps : list step :=
  [Request (Write 5 0x1234); Request (Unlock 3); Request (Write 5 0xbeef); Request (Write 6 1); Request Poll;
   Complete; Request (Read 5 16); Request (Erase 5); Complete; Request (Read 5 4)].

Lemma lines_refine_chip_witness :
  exists os c' dev', run_steps (chip_run1 6 16) sample_steps (mkChip (repeat 0xffff 64) true false) [] = Some (os, c', [1000; 1750]) /\
    run_steps (line_run1 6 16) sample_steps sample_dev [] = Some (os, dev', [1000; 1750]) /\
    cells_of dev' = mem c' /\ is_locked dev' = locked c' /\ is_busy dev' = busy c'.
Proof.
  pose proof (lines_refine_chip sample_type "card.nvr" sample_image None sample_dev sample_steps ([] : list Z)
    eq_refl sample_image_ok I) as H. cbn [part sample_type] in H.
  assert (Forall (step_fits 6 16) sample_steps) as Hl.
  { repeat (apply Forall_cons_2; [by vm_compute|]). by apply Forall_nil_2. }
  specialize (H Hl).
  destruct (run_steps (chip_run1 6 16) sample_steps (mkChip (cells_of sample_dev) true false) []) as [[[os c'] w']|] eqn:E;
    [|exfalso; vm_compute in E; discriminate E].
  destruct H as (dev' & E2 & H). exists os, c', dev'.
  assert (w' = [1000; 1750]) as -> by (vm_compute in E; congruence).
  split; [exact E|]. split; [exact E2|exact H].
Defined.

Lemma lines_safe_iff_witness :
  (forall l, is_Some (run_lines l sample_dev ([] : list Z))) /\
  ~ (forall l, is_Some (run_lines l (mkEeprom 0 false false false false STATE_IN_RESET 0 0 0 0 COMMAND_INVALID 128 16 8 7 true 0 "nvram" (repeat 0 256)) ([] : list Z))).
Proof.
  split.
  - apply (lines_safe_iff sample_type "card.nvr" sample_image None sample_dev []); [by eexists|reflexivity|exact sample_image_ok|exact I|reflexivity].
  - intros H. apply (lines_safe_iff NMC_93C56_x16_128 "nvram" None None _ []) in H; [vm_compute in H; discriminate H|by eexists|reflexivity|exact I|exact I].
Defined.

Lemma image_round_trip_witness :
  exists dev', nmc93cxx_eeprom_init sample_type "card.nvr" (Some (repeat 0xff 128)) None = Some dev' /\
    cells_of dev' = cells_of sample_dev /\ is_locked dev' = true.
Proof. exact (image_round_trip sample_type "card.nvr" sample_image None None sample_dev _ eq_refl sample_image_ok I eq_refl). Defined.
