(* ===== verification/I2c.v ===== *)
(** * I2c: the I2C buses of src/src/device/i2c.c

    A bus has a chain of devices for each of 128 addresses, linked like the
    handlers of [Io]; a device registers four functions and a private
    pointer on a range of addresses.  [i2c_bus_t] holds the chain heads and
    tails by address and the allocated nodes, which no other bus shares.
    Function pointers are numbers, whose meaning is the argument [callees]
    on the state [D] of the devices.  [None] is a crash: a NULL dereference
    or an address outside the arrays. *)
From stdpp Require Import functions strings.
From S2P Require Import Prelude Dll.

Abbreviation ptr := Z.
Definition NADDRS : Z := 128.

(** What a device registers: [i2c_t] without its links. *)
Record i2c_ops := mkOps {
  start_fn : option Z;
  read_fn : option Z;
  write_fn : option Z;
  stop_fn : option Z;
  priv : Z;
}.

#[export] Instance i2c_ops_eq_dec : EqDecision i2c_ops.
Proof. solve_decision. Defined.

Record i2c_t := mkI2c { ops : i2c_ops; prev : option ptr; next : option ptr }.

#[export] Instance i2c_node : DllNode ptr i2c_t := {
  nprev := prev;
  nnext := next;
  set_nprev p n := n <| prev := p |>;
  set_nnext p n := n <| next := p |>;
}.

#[export] Instance i2c_node_laws : DllNodeLaws ptr i2c_t.
Proof. by split. Qed.

Record i2c_bus_t := mkBus {
  name : string;
  devices : gmap Z ptr;
  last : gmap Z ptr;
  nodes : gmap ptr i2c_t;
  brk : ptr;
}.

Definition i2c_addbus (name : string) : i2c_bus_t := mkBus name ∅ ∅ ∅ 1.

Definition i2c_getbusname (bus_handle : option i2c_bus_t) : option string := name <$> bus_handle.

(** The loop of [i2c_removebus] over one chain, and over all of them. *)
Fixpoint free_chain (fuel : nat) (p : option ptr) (h : gmap ptr i2c_t) : option (gmap ptr i2c_t) :=
  match p, fuel with
  | None, _ => Some h
  | Some _, O => None
  | Some x, S fuel => n ← h !! x; free_chain fuel (next n) (delete x h)
  end.

Fixpoint free_chains (n : nat) (c : Z) (heads : gmap Z ptr) (h : gmap ptr i2c_t) : option (gmap ptr i2c_t) :=
  match n with
  | O => Some h
  | S n => h ← free_chain (S (size h)) (heads !! c) h; free_chains n (c + 1) heads h
  end.

(** The nodes left allocated after the bus is gone. *)
Definition i2c_removebus (bus_handle : option i2c_bus_t) : option (gmap ptr i2c_t) :=
  match bus_handle with
  | None => Some ∅
  | Some bus => free_chains (Z.to_nat NADDRS) 0 (devices bus) (nodes bus)
  end.

(** One iteration of [i2c_sethandler]: a node at the tail of [a]. *)
Definition link_tail (a : Z) (q : ptr) (bus : i2c_bus_t) : option i2c_bus_t :=
  match last bus !! a with
  | Some p => h ← link_after q p (nodes bus); Some (bus <| nodes := h |>)
  | None => Some (bus <| devices ::= insert a q |>)
  end.

Definition set_address (o : i2c_ops) (a : Z) (bus : i2c_bus_t) : option i2c_bus_t :=
  let q := brk bus in
  let bus := bus <| brk ::= Z.succ |> <| nodes ::= insert q (mkI2c o None None) |> in
  bus ← link_tail a q bus;
  Some (bus <| last ::= insert a q |>).

(** One iteration of [i2c_removehandler]: the first node with the same
    functions and pointer is unlinked and freed. *)
Fixpoint find_ops (fuel : nat) (o : i2c_ops) (p : option ptr) (bus : i2c_bus_t) : option (option ptr) :=
  match p, fuel with
  | None, _ => Some None
  | Some _, O => None
  | Some x, S fuel =>
      n ← nodes bus !! x;
      if decide (ops n = o) then Some (Some x) else find_ops fuel o (next n) bus
  end.

Definition unlink_address (a : Z) (x : ptr) (bus : i2c_bus_t) : option i2c_bus_t :=
  n ← nodes bus !! x;
  h ← unlink x (nodes bus);
  let bus := match prev n with
             | Some _ => bus
             | None => bus <| devices ::= partial_alter (fun _ => next n) a |>
             end in
  let bus := match next n with
             | Some _ => bus
             | None => bus <| last ::= partial_alter (fun _ => prev n) a |>
             end in
  Some (bus <| nodes := delete x h |>).

Definition remove_address (o : i2c_ops) (a : Z) (bus : i2c_bus_t) : option i2c_bus_t :=
  r ← find_ops (S (size (nodes bus))) o (devices bus !! a) bus;
  match r with
  | None => Some bus
  | Some x => unlink_address a x bus
  end.

(** [for (c = 0; c < size; c++)] from [base] on *)
Fixpoint for_addresses (n : nat) (f : Z -> i2c_bus_t -> option i2c_bus_t) (a : Z) (bus : i2c_bus_t)
    : option i2c_bus_t :=
  match n with
  | O => Some bus
  | S n => bus ← f a bus; for_addresses n f (a + 1) bus
  end.

(** A call on the NULL handle or past the last address does nothing. *)
Definition on_range (f : i2c_ops -> Z -> i2c_bus_t -> option i2c_bus_t)
    (base size : Z) (o : i2c_ops) (bus_handle : option i2c_bus_t) : option (option i2c_bus_t) :=
  match bus_handle with
  | None => Some None
  | Some bus =>
      if NADDRS <? base + size then Some (Some bus)
      else bus ← for_addresses (Z.to_nat size) (f o) base bus; Some (Some bus)
  end.

Definition i2c_sethandler := on_range set_address.
Definition i2c_removehandler := on_range remove_address.
Definition i2c_handler (set : Z) (base size : Z) (o : i2c_ops) (bus_handle : option i2c_bus_t) :=
  if ctrue set then i2c_sethandler base size o bus_handle else i2c_removehandler base size o bus_handle.

(** ** Calls of the devices *)

Record callees (D : Type) := mkCallees {
  run_start : Z -> Z -> Z -> Z -> D -> option (Z * D);  (** function, address, read, private *)
  run_read : Z -> Z -> Z -> D -> option (Z * D);
  run_write : Z -> Z -> Z -> Z -> D -> option (Z * D);
  run_stop : Z -> Z -> Z -> D -> option D;
}.
Arguments run_start {D}.
Arguments run_read {D}.
Arguments run_write {D}.
Arguments run_stop {D}.

Section calls.
Context {D : Type} (c : callees D).
Implicit Types (d : D).

(** The loop over a chain: [step] says what is done for a node, and whether
    to go on. *)
Fixpoint chain_loop {A} (fuel : nat) (step : i2c_ops -> A -> D -> option (A * D * bool))
    (h : gmap ptr i2c_t) (p : option ptr) (acc : A) d : option (A * D) :=
  match p, fuel with
  | None, _ => Some (acc, d)
  | Some _, O => None
  | Some x, S fuel =>
      n ← h !! x;
      '(acc, d, more) ← step (ops n) acc d;
      if more : bool then chain_loop fuel step h (next n) acc d else Some (acc, d)
  end.

Definition on_chain {A} (step : i2c_ops -> A -> D -> option (A * D * bool))
    (bus : i2c_bus_t) (addr : Z) (acc : A) d : option (A * D) :=
  if negb (addr <? NADDRS) then None
  else chain_loop (S (size (nodes bus))) step (nodes bus) (devices bus !! addr) acc d.

Definition start_step (addr read : Z) (o : i2c_ops) (ret : Z) d : option (Z * D * bool) :=
  match start_fn o with
  | Some f => '(r, d) ← run_start c f addr read (priv o) d; Some (u8 (ret .| u8 r), d, true)
  | None => Some (ret, d, true)
  end.

Definition i2c_start (bus_handle : option i2c_bus_t) (addr read : Z) d : option (Z * D) :=
  match bus_handle with
  | None => Some (0, d)
  | Some bus => on_chain (start_step addr read) bus addr 0 d
  end.

(** The first device that can read answers. *)
Definition read_step (addr : Z) (o : i2c_ops) (ret : Z) d : option (Z * D * bool) :=
  match read_fn o with
  | Some f => '(r, d) ← run_read c f addr (priv o) d; Some (u8 r, d, false)
  | None => Some (ret, d, true)
  end.

Definition i2c_read (bus_handle : option i2c_bus_t) (addr : Z) d : option (Z * D) :=
  match bus_handle with
  | None => Some (0, d)
  | Some bus => on_chain (read_step addr) bus addr 0 d
  end.

Definition write_step (addr data : Z) (o : i2c_ops) (ret : Z) d : option (Z * D * bool) :=
  match write_fn o with
  | Some f => '(r, d) ← run_write c f addr data (priv o) d; Some (u8 (ret .| u8 r), d, true)
  | None => Some (ret, d, true)
  end.

Definition i2c_write (bus_handle : option i2c_bus_t) (addr data : Z) d : option (Z * D) :=
  match bus_handle with
  | None => Some (0, d)
  | Some bus => on_chain (write_step addr data) bus addr 0 d
  end.

Definition stop_step (addr : Z) (o : i2c_ops) (_ : unit) d : option (unit * D * bool) :=
  match stop_fn o with
  | Some f => d ← run_stop c f addr (priv o) d; Some (tt, d, true)
  | None => Some (tt, d, true)
  end.

Definition i2c_stop (bus_handle : option i2c_bus_t) (addr : Z) d : option D :=
  match bus_handle with
  | None => Some d
  | Some bus => '(_, d) ← on_chain (stop_step addr) bus addr tt d; Some d
  end.

End calls.

(** ** The abstract bus: the devices of each address, in order *)

Abbreviation view := (Z -> list i2c_ops).

Fixpoint remove_first (o : i2c_ops) (l : list i2c_ops) : list i2c_ops :=
  match l with
  | [] => []
  | o' :: l => if decide (o' = o) then l else o' :: remove_first o l
  end.

Definition on_addresses (f : list i2c_ops -> list i2c_ops) (base size : Z) (v : view) : view :=
  fun a => if (base <=? a) && (a <? base + size) then f (v a) else v a.

Definition is_address (a : Z) : Prop := 0 <= a < NADDRS.

Section bus.
Implicit Types (bus : i2c_bus_t) (ch : Z -> list ptr) (l : list ptr) (v : view).

(** [ch] lists the nodes of every chain. *)
Record bus_ok ch bus : Prop := {
  bus_seg : forall a, is_address a -> dseg (nodes bus) None (ch a) None;
  bus_head : forall a, is_address a -> devices bus !! a = first (ch a) None;
  bus_tail : forall a, is_address a -> last bus !! a = final None (ch a);
  bus_nodup : forall a, is_address a -> NoDup (ch a);
  bus_disjoint : forall a b x, is_address a -> is_address b -> x ∈ ch a -> x ∈ ch b -> a = b;
  bus_fresh : forall x, is_Some (nodes bus !! x) -> x < brk bus;
}.

Definition ops_of (h : gmap ptr i2c_t) l : list i2c_ops := omap (fun x => ops <$> h !! x) l.

Definition represents bus v : Prop :=
  exists ch, bus_ok ch bus /\ forall a, is_address a -> ops_of (nodes bus) (ch a) = v a.

Lemma i2c_ops_of_ext (h h' : gmap ptr i2c_t) l :
  (forall x, x ∈ l -> ops <$> h' !! x = ops <$> h !! x) -> ops_of h' l = ops_of h l.
Proof.
  intros Hl. induction l as [|x l IH]; [done|]. unfold ops_of in *. cbn.
  rewrite Hl by (by left). rewrite IH; [done|]. intros y Hy. apply Hl. by right.
Qed.

(** One chain changes from [ch a] to [l]; the nodes of the others stay. *)
Lemma represents_change ch bus bus' v a l os :
  bus_ok ch bus -> (forall q, is_address q -> ops_of (nodes bus) (ch q) = v q) -> is_address a ->
  dseg (nodes bus') None l None -> devices bus' !! a = first l None ->
  last bus' !! a = final None l -> NoDup l -> ops_of (nodes bus') l = os ->
  (forall q, q <> a -> devices bus' !! q = devices bus !! q /\ last bus' !! q = last bus !! q) ->
  (forall q x, is_address q -> q <> a -> x ∈ ch q -> nodes bus' !! x = nodes bus !! x /\ x ∉ l) ->
  (forall x, is_Some (nodes bus' !! x) -> x < brk bus') ->
  represents bus' (<[a := os]> v).
Proof.
  intros [Hseg Hhead Htail Hnd Hdis Hfr] Hv Ha Hseg' Hhead' Htail' Hnd' Hos Hoth Hkeep Hfr'.
  exists (<[a := l]> ch). split.
  - split; [..|done]; try (intros q Hq; destruct (decide (a = q)) as [<-|Hne];
      [by rewrite fn_lookup_insert|rewrite fn_lookup_insert_ne by done]).
    + apply (dseg_links _ _ _ _ _ (Hseg q Hq)). intros x nd Hx Hlk.
      destruct (Hkeep q x) as [-> _]; [done..|]. eauto.
    + destruct (Hoth q) as [-> _]; [done|]. by apply Hhead.
    + destruct (Hoth q) as [_ ->]; [done|]. by apply Htail.
    + by apply Hnd.
    + intros p q x Hp Hq. destruct (decide (a = p)) as [<-|Hnp], (decide (a = q)) as [<-|Hnq];
        rewrite ?fn_lookup_insert, ?fn_lookup_insert_ne by done; try done.
      * intros Hx Hxq. by destruct (Hkeep q x) as [_ []].
      * intros Hxp Hx. by destruct (Hkeep p x) as [_ []].
      * by apply Hdis.
  - intros q Hq. destruct (decide (a = q)) as [<-|Hne]; [by rewrite !fn_lookup_insert|].
    rewrite !fn_lookup_insert_ne by done. rewrite <- Hv by done.
    apply i2c_ops_of_ext. intros x Hx. by destruct (Hkeep q x) as [-> _].
Qed.

(** *** Registration at an address *)

Lemma i2c_link_tail_ok ch bus a o :
  bus_ok ch bus -> is_address a ->
  let q := brk bus in
  let bus1 := bus <| brk ::= Z.succ |> <| nodes ::= insert q (mkI2c o None None) |> in
  exists bus2, link_tail a q bus1 = Some bus2 /\
    dseg (nodes bus2) None (ch a ++ [q]) None /\ devices bus2 !! a = first (ch a ++ [q]) None /\
    (forall r, r <> a -> devices bus2 !! r = devices bus !! r) /\ last bus2 = last bus /\
    brk bus2 = brk bus + 1 /\ edits (q :: ch a) (nodes bus1) (nodes bus2).
Proof.
  intros [Hseg Hhead Htail Hnd Hdis Hfr] Ha q bus1.
  assert (q ∉ ch a) as Hq.
  { intros Hin. destruct (dseg_lookup _ _ _ _ q (Hseg a Ha) Hin) as [n Hn].
    specialize (Hfr q ltac:(eauto)). unfold q in *. lia. }
  unfold link_tail. change (last bus1) with (last bus). rewrite (Htail a Ha).
  destruct (ch a) as [|y l _] eqn:Ech using rev_ind.
  - eexists. split; [reflexivity|]. cbn. rewrite !lookup_insert_eq. split_and!; try done.
    + eexists. split_and!; [reflexivity|done..].
    + intros r Hr. by rewrite lookup_insert_ne.
  - rewrite final_app. cbn [final].
    assert (dseg (nodes bus1) None (l ++ [y]) None) as Hseg1.
    { apply dseg_frame; [done|]. rewrite <- Ech. by apply Hseg. }
    destruct (link_after_ok q y l (nodes bus1) (mkI2c o None None)) as (h & Hla & Hseg2 & He);
      [done|rewrite <- Ech; by apply Hnd|done|cbn; by rewrite lookup_insert_eq|done|].
    rewrite Hla. eexists. split; [reflexivity|]. split_and!; try done. cbn.
    rewrite (Hhead a Ha), Ech. by destruct l.
Qed.

Lemma i2c_edits_ops l (h h' : gmap ptr i2c_t) z : edits l h h' -> ops <$> h' !! z = ops <$> h !! z.
Proof. intros He. by apply (edits_data _ _ _ He _ ops). Qed.

Lemma set_address_ok bus v o a :
  represents bus v -> is_address a ->
  exists bus', set_address o a bus = Some bus' /\ represents bus' (<[a := v a ++ [o]]> v).
Proof.
  intros (ch & Hok & Hv) Ha. pose proof Hok as [Hseg Hhead Htail Hnd Hdis Hfr]. unfold set_address.
  destruct (i2c_link_tail_ok ch bus a o Hok Ha) as (b2 & -> & Hseg2 & Hd2 & Hd2' & Hl2 & Hb2 & He2).
  cbn [mbind option_bind]. eexists. split; [reflexivity|]. set (q := brk bus) in *.
  assert (forall b x, is_address b -> x ∈ ch b -> x <> q) as Hne.
  { intros b x Hb Hx ->. destruct (dseg_lookup _ _ _ _ q (Hseg b Hb) Hx) as [n Hn].
    specialize (Hfr q ltac:(eauto)). unfold q in *. lia. }
  assert (forall b x, is_address b -> b <> a -> x ∈ ch b -> x ∉ q :: ch a) as Hsep.
  { intros b x Hb Hba Hx [->|Hin]%elem_of_cons; [by eapply (Hne b)|]. destruct Hba. by apply (Hdis b a x). }
  apply (represents_change ch bus _ _ _ (ch a ++ [q])); try done; cbn.
  - by rewrite lookup_insert_eq, final_app.
  - apply NoDup_app. split_and!; [by apply Hnd| |apply NoDup_singleton].
    intros x Hx ->%list_elem_of_singleton. by eapply (Hne a).
  - unfold ops_of at 1. rewrite omap_app. rewrite <- (Hv a Ha). cbn. f_equal.
    + apply i2c_ops_of_ext. intros x Hx. rewrite (i2c_edits_ops _ _ _ x He2). cbn.
      rewrite lookup_insert_ne; [done|]. intros <-. by eapply (Hne a).
    + pose proof (i2c_edits_ops _ _ _ q He2) as Ho. cbn in Ho. rewrite lookup_insert_eq in Ho. by rewrite Ho.
  - intros r Hr. rewrite lookup_insert_ne, Hl2 by done. auto.
  - intros b x Hb Hba Hx. specialize (Hsep b x Hb Hba Hx). split.
    + rewrite (edits_frame _ _ _ He2) by done. cbn. rewrite lookup_insert_ne; [done|]. set_solver.
    + set_solver.
  - intros x [n Hx]. rewrite Hb2. destruct (decide (x = q)) as [->|Hxq]; [unfold q; lia|].
    destruct (nodes bus !! x) eqn:E; [specialize (Hfr x ltac:(eauto)); lia|].
    pose proof (i2c_edits_ops _ _ _ x He2) as Ho. cbn in Ho. by rewrite lookup_insert_ne, E, Hx in Ho.
Qed.

(** *** Removal *)

Lemma i2c_find_ops_ok bus p l o fuel :
  dseg (nodes bus) p l None -> (length l < fuel)%nat ->
  (find_ops fuel o (first l None) bus = Some None /\ remove_first o (ops_of (nodes bus) l) = ops_of (nodes bus) l) \/
  exists l1 x l2, l = l1 ++ x :: l2 /\ find_ops fuel o (first l None) bus = Some (Some x) /\
    remove_first o (ops_of (nodes bus) l) = ops_of (nodes bus) (l1 ++ l2).
Proof.
  revert p fuel. induction l as [|x l IH]; intros p [|fuel]; try (cbn; lia); [by left|].
  intros (n & Hx & Hp & Hn & Hl) Hfuel. cbn [length] in Hfuel. cbn [first find_ops].
  rewrite Hx. cbn [mbind option_bind]. cbn in Hn.
  assert (forall l', ops_of (nodes bus) (x :: l') = ops n :: ops_of (nodes bus) l') as Eo
    by (intros l'; unfold ops_of; cbn; by rewrite Hx).
  rewrite Eo. cbn [remove_first]. case_decide as Ho.
  - right. by exists [], x, l.
  - rewrite Hn. destruct (IH (Some x) fuel Hl ltac:(lia)) as [[-> Hr]|(l1 & y & l2 & -> & -> & Hr)].
    + left. by rewrite Hr.
    + right. exists (x :: l1), y, l2. split_and!; [done..|]. rewrite Hr. cbn [app]. by rewrite Eo.
Qed.

Lemma unlink_address_ok ch bus v a l1 x l2 :
  bus_ok ch bus -> (forall q, is_address q -> ops_of (nodes bus) (ch q) = v q) -> is_address a ->
  ch a = l1 ++ x :: l2 ->
  exists bus', unlink_address a x bus = Some bus' /\
    represents bus' (<[a := ops_of (nodes bus) (l1 ++ l2)]> v).
Proof.
  intros Hok Hv Ha Ech. pose proof Hok as [Hseg Hhead Htail Hnd Hdis Hfr].
  pose proof (Hseg a Ha) as Hs. pose proof (Hnd a Ha) as Hn. rewrite Ech in Hs, Hn.
  destruct (dseg_mid _ _ _ _ _ _ Hs) as (n & Hx & Hp & Hnx). cbn in Hp, Hnx.
  destruct (unlink_ok x l1 l2 (nodes bus) Hs Hn) as (h & Hun & Hs' & He).
  unfold unlink_address. rewrite Hx, Hun. cbn [mbind option_bind]. rewrite Hp, Hnx.
  rewrite <- Permutation_middle in Hn. apply NoDup_cons in Hn as [Hxn Hn].
  assert (forall q y, is_address q -> q <> a -> y ∈ ch q -> y ∉ (x :: l1 ++ l2)) as Hsep.
  { intros q y Hq Hqp Hy Hin. destruct Hqp. apply (Hdis q a y); try done.
    rewrite Ech, <- Permutation_middle. done. }
  eexists. split; [reflexivity|]. set (bn := _ <| nodes := _ |>).
  assert (nodes bn = delete x h) as Hnn by done.
  assert (brk bn = brk bus) as Hb by (unfold bn; destruct (final None l1), (first l2 None); done).
  assert (forall q, q <> a -> devices bn !! q = devices bus !! q /\ last bn !! q = last bus !! q) as Hoth.
  { intros q Hq. unfold bn. destruct (final None l1), (first l2 None); cbn;
      rewrite ?lookup_partial_alter_ne by done; done. }
  assert (devices bn !! a = first (l1 ++ l2) None) as Hde.
  { unfold bn. destruct l1 as [|b l1]; cbn.
    - destruct l2; cbn; by rewrite lookup_partial_alter_eq.
    - destruct (final (Some b) l1) eqn:E; [|by destruct (final_None _ _ E)].
      destruct (first l2 None); cbn; by rewrite (Hhead a Ha), Ech. }
  assert (last bn !! a = final None (l1 ++ l2)) as Hla.
  { unfold bn. rewrite final_app. destruct l2 as [|b l2]; cbn.
    - destruct (final None l1); cbn; by rewrite lookup_partial_alter_eq.
    - destruct (final None l1); cbn; by rewrite (Htail a Ha), Ech, final_app. }
  assert (forall y, y <> x -> ops <$> nodes bn !! y = ops <$> nodes bus !! y) as Hops.
  { intros y Hy. rewrite Hnn, lookup_delete_ne by done. by apply (i2c_edits_ops _ _ _ y He). }
  apply (represents_change ch bus _ _ _ (l1 ++ l2)); try done.
  - rewrite Hnn. apply (dseg_links _ _ _ _ _ Hs'). intros y ny Hy Hlk.
    rewrite lookup_delete_ne by set_solver. eauto.
  - apply i2c_ops_of_ext. intros y Hy. apply Hops. set_solver.
  - intros q y Hq Hqp Hy. specialize (Hsep q y Hq Hqp Hy). rewrite Hnn. split; [|set_solver].
    rewrite lookup_delete_ne by set_solver. apply (edits_frame _ _ _ He). set_solver.
  - intros y [ny Hy]. rewrite Hb. apply Hfr. rewrite Hnn in Hy. apply lookup_delete_Some in Hy as [Hxy Hy].
    pose proof (i2c_edits_ops _ _ _ y He) as Ho. rewrite Hy in Ho. destruct (nodes bus !! y); [eauto|done].
Qed.

Lemma chain_fuel ch bus a : bus_ok ch bus -> is_address a -> (length (ch a) < S (size (nodes bus)))%nat.
Proof.
  intros [Hseg _ _ Hnd _ _] Ha. apply le_n_S, length_le_size; [by apply Hnd|].
  intros x Hx. by eapply dseg_lookup; [apply Hseg|].
Qed.

Lemma remove_address_ok bus v o a :
  represents bus v -> is_address a ->
  exists bus', remove_address o a bus = Some bus' /\ represents bus' (<[a := remove_first o (v a)]> v).
Proof.
  intros (ch & Hok & Hv) Ha. unfold remove_address. rewrite (bus_head _ _ Hok a Ha).
  pose proof (chain_fuel ch bus a Hok Ha) as Hfu.
  destruct (i2c_find_ops_ok bus None (ch a) o _ (bus_seg _ _ Hok a Ha) Hfu) as [[-> Hr]|(l1 & x & l2 & Ech & -> & Hr)];
    cbn [mbind option_bind]; rewrite <- (Hv a Ha), Hr.
  - exists bus. split; [done|]. exists ch. split; [done|]. intros q Hq.
    destruct (decide (a = q)) as [<-|]; [by rewrite fn_lookup_insert|by rewrite fn_lookup_insert_ne; auto].
  - by apply (unlink_address_ok ch).
Qed.

(** *** Ranges *)

Lemma i2c_represents_ext bus v v' :
  (forall a, is_address a -> v' a = v a) -> represents bus v -> represents bus v'.
Proof. intros He (ch & Hok & Hv). exists ch. split; [done|]. intros q Hq. by rewrite He, Hv. Qed.

Lemma for_addresses_ok (f : Z -> i2c_bus_t -> option i2c_bus_t) (g : list i2c_ops -> list i2c_ops) n a bus v :
  (forall bus v a, represents bus v -> is_address a ->
     exists bus', f a bus = Some bus' /\ represents bus' (<[a := g (v a)]> v)) ->
  represents bus v -> 0 <= a -> a + Z.of_nat n <= NADDRS ->
  exists bus', for_addresses n f a bus = Some bus' /\ represents bus' (on_addresses g a (Z.of_nat n) v).
Proof.
  intros Hf. revert a bus v. induction n as [|n IH]; intros a bus v Hr Ha Hn; cbn [for_addresses].
  - exists bus. split; [done|]. apply (i2c_represents_ext bus v); [|done]. intros q _. unfold on_addresses.
    destruct (Z.leb_spec a q), (Z.ltb_spec q (a + Z.of_nat 0)); cbn; try done; lia.
  - destruct (Hf bus v a Hr) as (b1 & -> & Hr1); [unfold is_address, NADDRS in *; lia|]. cbn [mbind option_bind].
    destruct (IH (a + 1) b1 _ Hr1) as (b2 & -> & Hr2); [lia..|]. exists b2. split; [done|].
    eapply i2c_represents_ext; [|exact Hr2]. intros q _. unfold on_addresses.
    destruct (decide (a = q)) as [<-|Hne].
    + rewrite fn_lookup_insert. destruct (Z.leb_spec a a), (Z.ltb_spec a (a + Z.of_nat (S n))), (Z.leb_spec (a + 1) a); cbn; try done; lia.
    + rewrite fn_lookup_insert_ne by done.
      destruct (Z.leb_spec a q), (Z.ltb_spec q (a + Z.of_nat (S n))), (Z.leb_spec (a + 1) q),
        (Z.ltb_spec q (a + 1 + Z.of_nat n)); cbn; try done; lia.
Qed.

End bus.

(** ** Calls go to the registered devices in order *)

Fixpoint list_loop {A D} (step : i2c_ops -> A -> D -> option (A * D * bool)) (l : list i2c_ops) (acc : A) (d : D)
    : option (A * D) :=
  match l with
  | [] => Some (acc, d)
  | o :: l => '(acc, d, more) ← step o acc d;
              if more : bool then list_loop step l acc d else Some (acc, d)
  end.

Lemma chain_loop_ok {A D} fuel (step : i2c_ops -> A -> D -> option (A * D * bool)) h p l acc d :
  dseg h p l None -> (length l < fuel)%nat ->
  chain_loop fuel step h (first l None) acc d = list_loop step (ops_of h l) acc d.
Proof.
  revert p fuel acc d. induction l as [|x l IH]; intros p [|fuel] acc d; try (cbn; lia); [done|].
  intros (n & Hx & Hp & Hn & Hl) Hfuel. cbn [length] in Hfuel. cbn in Hn. cbn [first chain_loop].
  assert (ops_of h (x :: l) = ops n :: ops_of h l) as -> by (unfold ops_of; cbn; by rewrite Hx).
  rewrite Hx. cbn [mbind option_bind list_loop].
  destruct (step (ops n) acc d) as [[[acc' d'] []]|]; cbn [mbind option_bind]; [|done..].
  rewrite Hn. apply (IH (Some x)); [done|lia].
Qed.

Lemma on_chain_ok {A D} (step : i2c_ops -> A -> D -> option (A * D * bool)) bus v a acc d :
  represents bus v -> is_address a -> on_chain step bus a acc d = list_loop step (v a) acc d.
Proof.
  intros (ch & Hok & Hv) Ha. unfold on_chain. rewrite (proj2 (Z.ltb_lt _ _)) by apply Ha. cbn [negb].
  rewrite (bus_head _ _ Hok a Ha), <- (Hv a Ha).
  apply (chain_loop_ok _ _ _ None); [by apply (bus_seg _ _ Hok)|by apply chain_fuel].
Qed.

(** Registrations on a bus, and what they do to the abstract bus. *)
Inductive registration := Set_ (base size : Z) (o : i2c_ops) | Remove (base size : Z) (o : i2c_ops).

Definition register (r : registration) (bus_handle : option i2c_bus_t) : option (option i2c_bus_t) :=
  match r with
  | Set_ base size o => i2c_sethandler base size o bus_handle
  | Remove base size o => i2c_removehandler base size o bus_handle
  end.

Definition spec_register (r : registration) (v : view) : view :=
  match r with
  | Set_ base size o => if NADDRS <? base + size then v else on_addresses (fun l => l ++ [o]) base size v
  | Remove base size o => if NADDRS <? base + size then v else on_addresses (remove_first o) base size v
  end.

Definition from_zero (r : registration) : Prop :=
  match r with Set_ base _ _ | Remove base _ _ => 0 <= base end.

Lemma addbus_represents name : represents (i2c_addbus name) (fun _ => []).
Proof.
  exists (fun _ => []). split; [|done]. split; cbn; try done.
  - intros a _. apply NoDup_nil_2.
  - intros a b x _ _ Hx. set_solver.
  - intros x [n Hx]. by rewrite lookup_empty in Hx.
Qed.

Lemma on_addresses_nonpos g base size v a : size <= 0 -> on_addresses g base size v a = v a.
Proof. intros Hs. unfold on_addresses. destruct (Z.leb_spec base a), (Z.ltb_spec a (base + size)); try done; lia. Qed.

Lemma i2c_register_ok r bus v :
  from_zero r -> represents bus v ->
  exists bus', register r (Some bus) = Some (Some bus') /\ represents bus' (spec_register r v).
Proof.
  intros Hr Hv.
  assert (forall f g base size o, 0 <= base ->
    (forall bus v a, represents bus v -> is_address a ->
       exists bus', f o a bus = Some bus' /\ represents bus' (<[a := g (v a)]> v)) ->
    exists bus', on_range f base size o (Some bus) = Some (Some bus') /\
      represents bus' (if NADDRS <? base + size then v else on_addresses g base size v)) as H.
  { intros f g base size o Hb Hf. unfold on_range. destruct (Z.ltb_spec NADDRS (base + size)); [by exists bus|].
    destruct (decide (0 <= size)) as [Hs|Hs].
    - destruct (for_addresses_ok (f o) g (Z.to_nat size) base bus v Hf Hv) as (b' & -> & Hr'); [lia..|].
      rewrite Z2Nat.id in Hr' by done. by exists b'.
    - replace (Z.to_nat size) with 0%nat by lia. exists bus. split; [done|].
      apply (i2c_represents_ext bus v); [|done]. intros a _. apply on_addresses_nonpos. lia. }
  destruct r as [base size o|base size o]; apply H; try done; intros ? ? ? ? ?;
    [by apply set_address_ok|by apply remove_address_ok].
Qed.

Fixpoint register_all (l : list registration) (bus_handle : option i2c_bus_t) : option (option i2c_bus_t) :=
  match l with
  | [] => Some bus_handle
  | r :: l => h ← register r bus_handle; register_all l h
  end.

Lemma register_all_ok l bus v :
  Forall from_zero l -> represents bus v ->
  exists bus', register_all l (Some bus) = Some (Some bus') /\
    represents bus' (fold_left (fun v r => spec_register r v) l v).
Proof.
  intros Hl. revert bus v. induction Hl as [|r l Hr Hl IH]; intros bus v Hv; cbn [register_all fold_left]; [by exists bus|].
  destruct (i2c_register_ok r bus v Hr Hv) as (b1 & -> & H1). by apply IH.
Qed.

(** The four calls on the list of devices: every start and write function,
    the results or-ed; the first read function; every stop function. *)
Definition spec_start {D} (c : callees D) l addr read (d : D) := list_loop (start_step c addr read) l 0 d.
Definition spec_read {D} (c : callees D) l addr (d : D) := list_loop (read_step c addr) l 0 d.
Definition spec_write {D} (c : callees D) l addr data (d : D) := list_loop (write_step c addr data) l 0 d.
Definition spec_stop {D} (c : callees D) l addr (d : D) :=
  '(_, d) ← list_loop (stop_step c addr) l tt d; Some d.

(** C37: After any sequence of registrations and removals on ranges of
    addresses of a new bus, every call goes to the devices registered at its
    address in the order of their registration, less those removed; a range
    past the last address leaves the bus as it was. *)
Theorem i2c_bus_refines {D} (c : callees D) name l :
  Forall from_zero l ->
  exists bus, register_all l (Some (i2c_addbus name)) = Some (Some bus) /\
    forall addr, is_address addr ->
      let on := fold_left (fun v r => spec_register r v) l (fun _ => []) addr in
      (forall read d, i2c_start c (Some bus) addr read d = spec_start c on addr read d) /\
      (forall d, i2c_read c (Some bus) addr d = spec_read c on addr d) /\
      (forall data d, i2c_write c (Some bus) addr data d = spec_write c on addr data d) /\
      (forall d, i2c_stop c (Some bus) addr d = spec_stop c on addr d).
Proof.
  intros Hl. destruct (register_all_ok l _ _ Hl (addbus_represents name)) as (bus & -> & Hr).
  exists bus. split; [done|]. intros addr Ha. cbn zeta. unfold i2c_start, i2c_read, i2c_write, i2c_stop.
  split_and!; intros; rewrite (on_chain_ok _ bus _ addr _ _ Hr Ha); done.
Qed.

(** Two devices share address 0x50; the first is removed again. *)
Definition sample_ops (p : Z) : i2c_ops := mkOps (Some p) (Some p) (Some p) None p.

Definition sample_callees : callees (list Z) :=
  mkCallees (list Z) (fun f _ _ _ d => Some (1, f :: d)) (fun f _ _ d => Some (f, d))
    (fun f _ _ _ d => Some (1, f :: d)) (fun _ _ _ d => Some d).
Definition sample_registrations : list registration :=
  [Set_ 0x50 2 (sample_ops 1); Set_ 0x50 1 (sample_ops 2); Set_ 0x7f 2 (sample_ops 3); Remove 0x50 1 (sample_ops 1)].

Lemma i2c_bus_refines_witness :
  exists bus, register_all sample_registrations (Some (i2c_addbus "ddc")) = Some (Some bus) /\
    i2c_start sample_callees (Some bus) 0x50 0 [] = Some (1, [2]).
Proof.
  destruct (i2c_bus_refines sample_callees "ddc" sample_registrations) as (bus & E & H).
  - repeat (apply Forall_cons_2; [by vm_compute|]). by apply Forall_nil_2.
  - exists bus. split; [exact E|]. destruct (H 0x50) as (Hs & _); [by vm_compute|].
    rewrite (Hs 0 []). by vm_compute.
Defined.
