(* ===== verification/I2cGpio.v ===== *)
(** * I2cGpio: the bit-banged host of src/src/device/i2c_gpio.c

    A driver sets the clock and data lines of an I2C bus one step at a time
    and reads them back; the host turns the steps into calls of the bus.
    The bus is the interface [I2cBus], which [I2cEeprom] implements with
    [I2c].  [transaction] is what a driver means: start, send a byte,
    receive a byte, stop. *)
From S2P Require Import Prelude.

(** The calls of i2c.c, on the state [W] of the bus and its devices. *)
Class I2cBus (W : Type) := {
  i2c_start : Z -> Z -> W -> option (Z * W);
  i2c_read : Z -> W -> option (Z * W);
  i2c_write : Z -> Z -> W -> option (Z * W);
  i2c_stop : Z -> W -> option W;
}.

Record i2c_gpio_t := mkGpio {
  prev_scl : Z;
  prev_sda : Z;
  slave_sda : Z;
  started : Z;
  slave_addr_received : Z;
  slave_addr : Z;
  slave_read : Z;
  pos : Z;
  byte : Z;
}.

Definition i2c_gpio_init : i2c_gpio_t := mkGpio 1 1 1 0 0 0xff 0 0 0.

Definition i2c_gpio_get_scl (dev : i2c_gpio_t) : Z := prev_scl dev.
Definition i2c_gpio_get_sda (dev : i2c_gpio_t) : Z := cbool (ctrue (prev_sda dev) && ctrue (slave_sda dev)).

Section host.
Context {W : Type} `{!I2cBus W}.

Definition start_condition (dev : i2c_gpio_t) : i2c_gpio_t :=
  dev <| started := 1 |> <| pos := 0 |> <| slave_addr := 0xff |> <| slave_read := 2 |> <| slave_sda := 1 |>.

Definition stop_condition (dev : i2c_gpio_t) (w : W) : option (i2c_gpio_t * W) :=
  let dev := dev <| started := 0 |> in
  w ← (if slave_addr dev =? 0xff then Some w else i2c_stop (slave_addr dev) w);
  Some (dev <| slave_addr := 0xff |> <| slave_sda := 1 |>, w).

(** A bit out when the slave sends, a bit in otherwise. *)
Definition shift_bit (sda : Z) (dev : i2c_gpio_t) : i2c_gpio_t :=
  if slave_read dev =? 1 then
    dev <| slave_sda := cbool (ctrue (byte dev .& 0x80)) |> <| byte := u8 (byte dev <<< 1) |>
  else dev <| byte := u8 (u8 (byte dev <<< 1) .| sda) |>.

(** The eighth bit of an address and of a byte written. *)
Definition address_byte (dev : i2c_gpio_t) (w : W) : option (i2c_gpio_t * W) :=
  let addr := byte dev >>> 1 in
  let read := byte dev .& 1 in
  let dev := dev <| slave_addr := addr |> <| slave_read := read |> in
  '(r, w) ← i2c_start addr read w;
  let nack := negb (ctrue r) in
  let dev := dev <| slave_sda := cbool nack |> in
  '(dev, w) ← (if negb nack && ctrue read then '(v, w) ← i2c_read addr w; Some (dev <| byte := u8 v |>, w)
               else Some (dev, w));
  Some (dev <| slave_read := read .| 0x80 |>, w).

Definition written_byte (dev : i2c_gpio_t) (w : W) : option (i2c_gpio_t * W) :=
  '(r, w) ← i2c_write (slave_addr dev) (byte dev) w;
  Some (dev <| slave_sda := cbool (negb (ctrue r)) |>, w).

(** The ninth bit. *)
Definition ack_bit (sda : Z) (dev : i2c_gpio_t) (w : W) : option (i2c_gpio_t * W) :=
  '(dev, w) ←
    (if slave_read dev =? 1 then
       if negb (ctrue sda) then '(v, w) ← i2c_read (slave_addr dev) w; Some (dev <| byte := u8 v |>, w)
       else Some (dev, w)
     else Some (dev <| slave_read := slave_read dev .& 1 |>, w));
  Some (dev <| pos := 0 |>, w).

Definition clock_rise (sda : Z) (dev : i2c_gpio_t) (w : W) : option (i2c_gpio_t * W) :=
  let p := pos dev in
  let dev := dev <| pos := u8 (p + 1) |> in
  let dev := if p <? 8 then shift_bit sda dev else dev in
  if pos dev =? 8 then
    if slave_read dev =? 2 then address_byte dev w
    else if slave_read dev =? 0 then written_byte dev w
    else Some (dev, w)
  else if pos dev =? 9 then ack_bit sda dev w
  else Some (dev, w).

Definition i2c_gpio_set (scl sda : Z) (dev : i2c_gpio_t) (w : W) : option (i2c_gpio_t * W) :=
  '(dev, w) ←
    (if ctrue (prev_scl dev) && ctrue scl then
       if ctrue (prev_sda dev) && negb (ctrue sda) then Some (start_condition dev, w)
       else if negb (ctrue (prev_sda dev)) && ctrue sda then stop_condition dev w
       else Some (dev, w)
     else if negb (ctrue (prev_scl dev)) && ctrue scl && ctrue (started dev) then clock_rise sda dev w
     else if ctrue (prev_scl dev) && negb (ctrue scl) && negb (pos dev =? 8) then
       Some (dev <| slave_sda := 1 |>, w)
     else Some (dev, w));
  Some (dev <| prev_scl := scl |> <| prev_sda := sda |>, w).

(** ** What a driver does with the lines *)

(** The lines in sequence. *)
Fixpoint drive (l : list (Z * Z)) (dev : i2c_gpio_t) (w : W) : option (i2c_gpio_t * W) :=
  match l with
  | [] => Some (dev, w)
  | (scl, sda) :: l => '(dev, w) ← i2c_gpio_set scl sda dev w; drive l dev w
  end.

(** One clock: data set up, clock high, data sampled, clock low.  [high] is
    the value the driver passes for a high data line. *)
Definition clock (high : Z) (b : bool) (dev : i2c_gpio_t) (w : W) : option (bool * i2c_gpio_t * W) :=
  let sda := if b then high else 0 in
  '(dev, w) ← drive [(0, sda); (1, sda)] dev w;
  let sample := ctrue (i2c_gpio_get_sda dev) in
  '(dev, w) ← i2c_gpio_set 0 sda dev w;
  Some (sample, dev, w).

Fixpoint clocks (high : Z) (l : list bool) (dev : i2c_gpio_t) (w : W) : option (list bool * i2c_gpio_t * W) :=
  match l with
  | [] => Some ([], dev, w)
  | b :: l =>
      '(o, dev, w) ← clock high b dev w;
      '(os, dev, w) ← clocks high l dev w;
      Some (o :: os, dev, w)
  end.

End host.

(** The eight bits of a byte, the most significant first, and back. *)
Definition bits_of (v : Z) : list bool := map (fun i => Z.testbit v i) [7; 6; 5; 4; 3; 2; 1; 0].
Definition of_bits (l : list bool) : Z := fold_left (fun acc b => 2 * acc + cbool b) l 0.

Inductive transaction := Start | Send (b : Z) | Recv (ack : bool) | Stop.

Section driver.
Context {W : Type} `{!I2cBus W}.

(** A byte sent returns the acknowledge bit, a byte received its value. *)
Definition transact (high : Z) (t : transaction) (dev : i2c_gpio_t) (w : W) : option (Z * i2c_gpio_t * W) :=
  match t with
  | Start => '(dev, w) ← drive [(0, high); (1, high); (1, 0); (0, 0)] dev w; Some (0, dev, w)
  | Send b =>
      '(_, dev, w) ← clocks high (bits_of b) dev w;
      '(nack, dev, w) ← clock high true dev w;
      Some (cbool nack, dev, w)
  | Recv ack =>
      '(l, dev, w) ← clocks high (repeat true 8) dev w;
      '(_, dev, w) ← clock high (negb ack) dev w;
      Some (of_bits l, dev, w)
  | Stop => '(dev, w) ← drive [(0, 0); (1, 0); (1, high)] dev w; Some (0, dev, w)
  end.

(** ** The protocol *)

(** Between transactions: nothing, a start, a device addressed to be written
    or to be read, with the byte it has ready. *)
Inductive phase := Idle | Addressing | Writing (a : Z) | Reading (a v : Z).

Definition protocol_step (t : transaction) (p : phase) (w : W) : option (Z * phase * W) :=
  match t, p with
  | Start, _ => Some (0, Addressing, w)
  | Send b, Addressing =>
      let a := b >>> 1 in
      '(r, w) ← i2c_start a (b .& 1) w;
      if Z.odd b then
        if ctrue r then '(v, w) ← i2c_read a w; Some (0, Reading a (u8 v), w)
        else Some (1, Reading a b, w)
      else Some (cbool (negb (ctrue r)), Writing a, w)
  | Send b, Writing a =>
      '(r, w) ← i2c_write a b w; Some (cbool (negb (ctrue r)), Writing a, w)
  | Recv ack, Reading a v =>
      if ack then '(v', w) ← i2c_read a w; Some (v, Reading a (u8 v'), w)
      else Some (v, Reading a 0, w)
  | Stop, (Writing a | Reading a _) => w ← i2c_stop a w; Some (0, Idle, w)
  | Stop, _ => Some (0, Idle, w)
  | _, _ => Some (0, p, w)
  end.

Fixpoint run {S} (f : transaction -> S -> W -> option (Z * S * W)) (l : list transaction) (s : S) (w : W)
    : option (list Z * S * W) :=
  match l with
  | [] => Some ([], s, w)
  | t :: l => '(o, s, w) ← f t s w; '(os, s, w) ← run f l s w; Some (o :: os, s, w)
  end.

End driver.

(** The transactions a driver may use one after the other: bytes go out
    after a start and after a write address, and come in after a read
    address. *)
Inductive role := NoBus | Address | Writes | Reads.

Definition next_role (t : transaction) (r : role) : option role :=
  match t, r with
  | Start, _ => Some Address
  | Send b, Address => if (0 <=? b) && (b <? 256) then Some (if Z.odd b then Reads else Writes) else None
  | Send b, Writes => if (0 <=? b) && (b <? 256) then Some Writes else None
  | Recv _, Reads => Some Reads
  | Stop, _ => Some NoBus
  | _, _ => None
  end.

Fixpoint well_formed (l : list transaction) (r : role) : bool :=
  match l with
  | [] => true
  | t :: l => match next_role t r with Some r => well_formed l r | None => false end
  end.

Definition role_of (p : phase) : role :=
  match p with Idle => NoBus | Addressing => Address | Writing _ => Writes | Reading _ _ => Reads end.

(** ** Bytes, bit by bit *)

(** The data lines of a byte. *)
Definition line (high : Z) (b : bool) : Z := if b then high else 0.

(** What the register holds after one more bit. *)
Definition shifted (y s : Z) : Z := u8 (u8 (y <<< 1) .| s).

Definition packed (l : list Z) (y : Z) : Z := fold_left (fun y s => (y <<< 1) .| s) l y.

Lemma u8_lor_shift x s : u8 ((u8 x <<< 1) .| s) = u8 ((x <<< 1) .| s).
Proof.
  apply Z.bits_inj'. intros i Hi. rewrite !wrap_testbit, !Z.lor_spec, !Z.shiftl_spec, wrap_testbit by lia.
  destruct (Z.ltb_spec i 8), (Z.ltb_spec (i - 1) 8); try lia; done.
Qed.

Lemma shifted_u8 y s : shifted y s = u8 ((y <<< 1) .| s).
Proof.
  unfold shifted. apply Z.bits_inj'. intros i Hi. rewrite !wrap_testbit, !Z.lor_spec, wrap_testbit by lia.
  by destruct (Z.ltb_spec i 8).
Qed.

Lemma fold_shifted l y : u8 (fold_left shifted l y) = u8 (packed l y).
Proof.
  assert (forall y y', u8 y = u8 y' -> u8 (fold_left shifted l y) = u8 (packed l y')) as H; [|by apply H].
  induction l as [|s l IH]; intros z z' Hz; [done|]. cbn [fold_left packed]. apply IH.
  rewrite shifted_u8, wrap_wrap by lia. rewrite <- u8_lor_shift, Hz. apply u8_lor_shift.
Qed.

Lemma fold_shifted_range l y : is_u8 y -> is_u8 (fold_left shifted l y).
Proof. revert y. induction l as [|s l IH]; intros y Hy; [done|]. cbn [fold_left]. apply IH. unfold shifted. width. Qed.

(** Eight bits push out whatever the register held. *)
Lemma packed_eight l y : length l = 8%nat -> u8 (packed l y) = u8 (packed l 0).
Proof.
  intros Hl. assert (forall l y, packed l y = (y <<< Z.of_nat (length l)) .| packed l 0) as H.
  { clear. induction l as [|s l IH]; intros y; cbn [packed fold_left length]; [by rewrite Z.shiftl_0_r, Z.lor_0_r|].
    change (fold_left _ l ?a) with (packed l a). rewrite (IH (_ .| s)), (IH (0 <<< 1 .| s)).
    rewrite Z.shiftl_0_l, Z.lor_0_l, Z.lor_assoc, !Z.shiftl_lor, Z.shiftl_shiftl by lia. do 2 f_equal. f_equal. lia. }
  rewrite H, Hl. apply Z.bits_inj'. intros i Hi. rewrite !wrap_testbit, Z.lor_spec, Z.shiftl_spec by lia.
  destruct (Z.ltb_spec i 8); [|done]. rewrite Z.testbit_neg_r by lia. done.
Qed.

Lemma packed_byte high b :
  high = 1 \/ high = 2 -> is_u8 b -> u8 (packed (map (line high) (bits_of b)) 0) = u8 (high * b).
Proof.
  intros Hh Hb. apply Z.eqb_eq. revert b Hb. destruct Hh as [-> | ->];
    [apply (u8_forallb (fun b => u8 (packed (map (line 1) (bits_of b)) 0) =? u8 (1 * b)))
    |apply (u8_forallb (fun b => u8 (packed (map (line 2) (bits_of b)) 0) =? u8 (2 * b)))]; by vm_compute.
Qed.

Lemma sent_byte high b y :
  high = 1 \/ high = 2 -> is_u8 b -> is_u8 y ->
  fold_left shifted (map (line high) (bits_of b)) y = u8 (high * b).
Proof.
  intros Hh Hb Hy. rewrite <- (wrap_id 8 (fold_left _ _ _)) by (by apply fold_shifted_range).
  rewrite fold_shifted, packed_eight by done. by apply packed_byte.
Qed.

Lemma ctrue_cbool b : ctrue (cbool b) = b.
Proof. by destruct b. Qed.

Section refinement.
Context {W : Type} `{!I2cBus W}.
Implicit Types (w : W) (dev : i2c_gpio_t).

(** The clock stays low, rises, falls. *)
Lemma set_low s dev w :
  prev_scl dev = 0 -> i2c_gpio_set 0 s dev w = Some ((dev <| prev_scl := 0 |>) <| prev_sda := s |>, w).
Proof. intros H. unfold i2c_gpio_set. by rewrite H. Qed.

Lemma set_rise s dev w :
  prev_scl dev = 0 -> started dev = 1 ->
  i2c_gpio_set 1 s dev w =
  ('(d, w) ← clock_rise s dev w; Some ((d <| prev_scl := 1 |>) <| prev_sda := s |>, w)).
Proof. intros H1 H2. unfold i2c_gpio_set. by rewrite H1, H2. Qed.

Lemma set_fall s dev w :
  prev_scl dev = 1 ->
  i2c_gpio_set 0 s dev w =
  Some (((if pos dev =? 8 then dev else dev <| slave_sda := 1 |>) <| prev_scl := 0 |>) <| prev_sda := s |>, w).
Proof. intros H. unfold i2c_gpio_set. rewrite H. cbn [andb negb]. change (ctrue 1) with true. change (ctrue 0) with false.
  cbn [andb negb]. by destruct (pos dev =? 8). Qed.

(** A clock is a rising edge; then the acknowledge of the eighth bit stays on
    the line. *)
Lemma clock_edge high b dev w :
  prev_scl dev = 0 -> started dev = 1 ->
  clock high b dev w =
  ('(d, w) ← clock_rise (line high b) ((dev <| prev_scl := 0 |>) <| prev_sda := line high b |>) w;
   Some (ctrue (line high b) && ctrue (slave_sda d),
         ((if pos d =? 8 then d else d <| slave_sda := 1 |>) <| prev_scl := 0 |>) <| prev_sda := line high b |>, w)).
Proof.
  intros Hscl Hst. unfold clock. fold (line high b). generalize (line high b). intros s. cbn [drive].
  rewrite set_low by done. cbn [mbind option_bind]. rewrite set_rise by done.
  destruct (clock_rise s _ w) as [[d w1]|]; cbn [mbind option_bind]; [|done].
  rewrite set_fall by done. cbn [mbind option_bind]. unfold i2c_gpio_get_sda.
  rewrite ctrue_cbool. destruct d as [scl' sda' ss' st' sar' sa' sr' k' y'].
  cbn [prev_scl prev_sda slave_sda pos set const]. by destruct (k' =? 8).
Qed.

(** The host inside a byte, the clock low. *)
Definition inside (sda sar sa sr k y : Z) : i2c_gpio_t := mkGpio 0 sda 1 1 sar sa sr k y.

(** A bit that comes in, before the last of its byte. *)
Lemma clock_in high b ps sar sa sr k y w :
  0 <= k < 7 -> sr <> 1 ->
  clock high b (inside ps sar sa sr k y) w =
  Some (ctrue (line high b) && true, inside (line high b) sar sa sr (k + 1) (shifted y (line high b)), w).
Proof.
  intros Hk Hsr. rewrite clock_edge by done. unfold clock_rise, inside, shift_bit.
  cbn [pos slave_read set const byte].
  rewrite (proj2 (Z.ltb_lt k 8)), (proj2 (Z.eqb_neq sr 1)) by lia. cbn [pos set const].
  rewrite wrap_id by (unfold in_width; lia).
  rewrite (proj2 (Z.eqb_neq (k + 1) 8)), (proj2 (Z.eqb_neq (k + 1) 9)) by lia. cbn [mbind option_bind pos set const].
  by rewrite (proj2 (Z.eqb_neq (k + 1) 8)) by lia.
Qed.

(** A bit that goes out, before the last of its byte. *)
Lemma clock_out b ps sar sa k y w :
  0 <= k < 7 ->
  clock 1 b (inside ps sar sa 1 k y) w =
  Some (b && Z.testbit y 7, inside (line 1 b) sar sa 1 (k + 1) (u8 (y <<< 1)), w).
Proof.
  intros Hk. rewrite clock_edge by done. unfold clock_rise, inside, shift_bit.
  cbn [pos slave_read set const byte]. rewrite (proj2 (Z.ltb_lt k 8)) by lia.
  change (1 =? 1) with true. cbn [pos set const].
  rewrite wrap_id by (unfold in_width; lia).
  rewrite (proj2 (Z.eqb_neq (k + 1) 8)), (proj2 (Z.eqb_neq (k + 1) 9)) by lia. cbn [mbind option_bind pos set const slave_sda].
  rewrite (proj2 (Z.eqb_neq (k + 1) 8)) by lia. change 0x80 with (2 ^ 7).
  rewrite ctrue_bit, !ctrue_cbool by lia. by destruct b.
Qed.

(** *** A byte sent *)

(** The eighth bit of a byte that comes in. *)
Lemma clock_eighth high b ps sar sa sr y w :
  sr <> 1 ->
  clock high b (inside ps sar sa sr 7 y) w =
  ('(d, w) ← (let dev := mkGpio 0 (line high b) 1 1 sar sa sr 8 (shifted y (line high b)) in
              if sr =? 2 then address_byte dev w else if sr =? 0 then written_byte dev w else Some (dev, w));
   Some (ctrue (line high b) && ctrue (slave_sda d),
         ((if pos d =? 8 then d else d <| slave_sda := 1 |>) <| prev_scl := 0 |>) <| prev_sda := line high b |>, w)).
Proof.
  intros Hsr. rewrite clock_edge by done. unfold clock_rise, inside, shift_bit.
  cbn [pos slave_read set const byte]. change (7 <? 8) with true. rewrite (proj2 (Z.eqb_neq sr 1)) by lia. done.
Qed.

(** The first seven bits, then the eighth. *)
Lemma clocks_byte high b ps sar sa sr y w :
  sr <> 1 ->
  exists os y7, clocks high (bits_of b) (inside ps sar sa sr 0 y) w =
    ('(o, d, w) ← clock high (Z.testbit b 0) (inside (line high (Z.testbit b 1)) sar sa sr 7 y7) w; Some (os ++ [o], d, w)) /\
    shifted y7 (line high (Z.testbit b 0)) = fold_left shifted (map (line high) (bits_of b)) y.
Proof.
  intros Hsr. unfold bits_of. cbn [map clocks].
  do 7 (rewrite clock_in by lia; cbn [mbind option_bind]).
  eexists [_; _; _; _; _; _; _], _. split; [|cbn [fold_left]; reflexivity].
  destruct (clock high (Z.testbit b 0) _ w) as [[[o d] w1]|]; reflexivity.
Qed.

(** *** A byte received: its bits from the top, and what is left. *)

Fixpoint outs (n : nat) (y : Z) : list bool :=
  match n with O => [] | S n => Z.testbit y 7 :: outs n (u8 (y <<< 1)) end.
Fixpoint rest (n : nat) (y : Z) : Z :=
  match n with O => y | S n => rest n (u8 (y <<< 1)) end.

Lemma out_byte v : is_u8 v -> of_bits (outs 7 v ++ [Z.testbit (rest 7 v) 7]) = v /\ u8 (rest 7 v <<< 1) = 0.
Proof.
  intros Hv. split; apply Z.eqb_eq; revert v Hv;
    [apply (u8_forallb (fun v => of_bits (outs 7 v ++ [Z.testbit (rest 7 v) 7]) =? v))
    |apply (u8_forallb (fun v => u8 (rest 7 v <<< 1) =? 0))]; by vm_compute.
Qed.

Lemma clocks_app high l1 l2 dev w :
  clocks high (l1 ++ l2) dev w =
  ('(o1, dev, w) ← clocks high l1 dev w; '(o2, dev, w) ← clocks high l2 dev w; Some (o1 ++ o2, dev, w)).
Proof.
  revert dev w. induction l1 as [|b l1 IH]; intros dev w; cbn [app clocks mbind option_bind].
  - by destruct (clocks high l2 dev w) as [[[o d] w']|].
  - destruct (clock high b dev w) as [[[o d] w']|]; cbn [mbind option_bind]; [|done]. rewrite IH.
    destruct (clocks high l1 d w') as [[[o1 d1] w1]|]; cbn [mbind option_bind]; [|done].
    by destruct (clocks high l2 d1 w1) as [[[o2 d2] w2]|].
Qed.

(** The ninth clock of a byte that came in. *)
Lemma clock_ninth high b ps ss sar sa sr y w :
  sr <> 1 ->
  clock high b (mkGpio 0 ps ss 1 sar sa sr 8 y) w =
  Some (ctrue (line high b) && ctrue ss, inside (line high b) sar sa (sr .& 1) 0 y, w).
Proof.
  intros Hsr. rewrite clock_edge by done. unfold clock_rise, ack_bit. cbn [pos slave_read set const].
  change (8 <? 8) with false. change (u8 (8 + 1)) with 9. cbv iota. cbn [pos slave_read set const].
  rewrite (proj2 (Z.eqb_neq sr 1)) by lia. done.
Qed.

(** Of a byte that went out: the driver acknowledges with a low line, and
    the next byte is fetched. *)
Lemma clock_ninth_out b ps ss sar sa y w :
  clock 1 b (mkGpio 0 ps ss 1 sar sa 1 8 y) w =
  ('(v, w) ← (if b then Some (y, w) else '(v, w) ← i2c_read sa w; Some (u8 v, w));
   Some (b && ctrue ss, inside (line 1 b) sar sa 1 0 v, w)).
Proof.
  rewrite clock_edge by done. unfold clock_rise, ack_bit. cbn [pos slave_read set const].
  change (8 <? 8) with false. change (u8 (8 + 1)) with 9. cbv iota. cbn [pos slave_read slave_addr set const].
  destruct b; [done|]. change (ctrue (line 1 false)) with false. cbn [negb andb].
  change (1 =? 1) with true. change (9 =? 8) with false. change (9 =? 9) with true. cbv iota.
  destruct (i2c_read sa w) as [[v w1]|]; done.
Qed.

(** What [clock] leaves of the host after a rising edge. *)
Definition fallen (s : Z) (d : i2c_gpio_t) : i2c_gpio_t :=
  ((if pos d =? 8 then d else d <| slave_sda := 1 |>) <| prev_scl := 0 |>) <| prev_sda := s |>.

Lemma ninth_high high s sar a rd r v' w :
  ctrue high = true -> rd = 0 \/ rd = 1 ->
  ('(nack, d, w) ← clock high true (mkGpio 0 s (cbool (negb r)) 1 sar a (rd .| 0x80) 8 v') w; Some (cbool nack, d, w)) =
  Some (cbool (negb r), inside high sar a rd 0 v', w).
Proof.
  intros Hh Hrd. rewrite clock_ninth by (destruct Hrd as [-> | ->]; done). cbn [line]. rewrite ctrue_cbool, Hh.
  replace ((rd .| 0x80) .& 1) with rd by (destruct Hrd as [-> | ->]; done). done.
Qed.

(** The acknowledge of an address and the ninth clock. *)
Lemma address_end high s sar v w :
  ctrue high = true -> v .& 1 = 0 \/ v .& 1 = 1 ->
  ('(d, w) ← address_byte (mkGpio 0 s 1 1 sar 0xff 2 8 v) w;
   '(nack, d, w) ← clock high true (fallen s d) w; Some (cbool nack, d, w)) =
  ('(r, w) ← i2c_start (v >>> 1) (v .& 1) w;
   '(v', w) ← (if ctrue r && ctrue (v .& 1) then '(v', w) ← i2c_read (v >>> 1) w; Some (u8 v', w) else Some (v, w));
   Some (cbool (negb (ctrue r)), inside high sar (v >>> 1) (v .& 1) 0 v', w)).
Proof.
  intros Hh Hv. unfold address_byte. cbn [byte].
  generalize dependent (v .& 1). generalize (v >>> 1). intros a rd Hrd.
  pose proof (fun r v' w2 => ninth_high high s sar a rd r v' w2 Hh Hrd) as Hfin. revert Hfin.
  generalize (rd .| 0x80). intros rd80 Hfin.
  destruct (i2c_start a rd w) as [[r w1]|]; cbn [mbind option_bind]; [|done].
  rewrite negb_involutive. generalize (ctrue rd) (ctrue r). intros rdb rb.
  destruct (rb && rdb).
  - destruct (i2c_read a w1) as [[v' w2]|]; cbn [mbind option_bind]; [|done].
    generalize (u8 v'). intros v1. exact (Hfin rb v1 w2).
  - cbn [mbind option_bind]. exact (Hfin rb v w1).
Qed.

(** An address. *)
Lemma send_address high b ps sar y w :
  high = 1 \/ high = 2 -> is_u8 b -> is_u8 y ->
  let v := u8 (high * b) in
  transact high (Send b) (inside ps sar 0xff 2 0 y) w =
  ('(r, w) ← i2c_start (v >>> 1) (v .& 1) w;
   '(v', w) ← (if ctrue r && ctrue (v .& 1) then '(v', w) ← i2c_read (v >>> 1) w; Some (u8 v', w) else Some (v, w));
   Some (cbool (negb (ctrue r)), inside high sar (v >>> 1) (v .& 1) 0 v', w)).
Proof.
  intros Hh Hb Hy. cbn zeta. cbn [transact].
  destruct (clocks_byte high b ps sar 0xff 2 y w) as (os & y7 & -> & Ey); [done|].
  rewrite sent_byte in Ey by done. rewrite clock_eighth, Ey by done. clear Ey.
  generalize (u8 (high * b)). intros v.
  assert (v .& 1 = 0 \/ v .& 1 = 1) as Hv.
  { change (v .& 1) with (v .& Z.ones 1). rewrite land_mask by done. change (2 ^ 1) with 2.
    pose proof (Z.mod_pos_bound v 2 ltac:(lia)). lia. }
  rewrite <- (address_end high (line high (Z.testbit b 0)) sar v w) by (done || by destruct Hh as [-> | ->]).
  change (2 =? 2) with true. cbv iota zeta.
  destruct (address_byte _ w) as [[d w1]|]; cbn [mbind option_bind]; [|done].
  unfold fallen. by destruct (clock high true _ w1) as [[[nack d'] w2]|].
Qed.

(** A byte to a device. *)
Lemma written_end high s sar a v w :
  ctrue high = true ->
  ('(d, w) ← written_byte (mkGpio 0 s 1 1 sar a 0 8 v) w;
   '(nack, d, w) ← clock high true (fallen s d) w; Some (cbool nack, d, w)) =
  ('(r, w) ← i2c_write a v w; Some (cbool (negb (ctrue r)), inside high sar a 0 0 v, w)).
Proof.
  intros Hh. unfold written_byte. cbn [byte slave_addr].
  assert (forall r w2, ('(nack, d, w) ← clock high true (mkGpio 0 s (cbool (negb r)) 1 sar a 0 8 v) w2; Some (cbool nack, d, w)) =
    Some (cbool (negb r), inside high sar a 0 0 v, w2)) as Hfin.
  { intros r w2. rewrite clock_ninth by done. cbn [line]. by rewrite ctrue_cbool, Hh. }
  destruct (i2c_write a v w) as [[r w1]|]; cbn [mbind option_bind]; [|done].
  generalize (ctrue r). intros rb. exact (Hfin rb w1).
Qed.

Lemma send_data high b ps sar a y w :
  high = 1 \/ high = 2 -> is_u8 b -> is_u8 y ->
  let v := u8 (high * b) in
  transact high (Send b) (inside ps sar a 0 0 y) w =
  ('(r, w) ← i2c_write a v w; Some (cbool (negb (ctrue r)), inside high sar a 0 0 v, w)).
Proof.
  intros Hh Hb Hy. cbn zeta. cbn [transact].
  destruct (clocks_byte high b ps sar a 0 y w) as (os & y7 & -> & Ey); [done|].
  rewrite sent_byte in Ey by done. rewrite clock_eighth, Ey by done. clear Ey.
  generalize (u8 (high * b)). intros v.
  rewrite <- (written_end high (line high (Z.testbit b 0)) sar a v w) by (by destruct Hh as [-> | ->]).
  change (0 =? 2) with false. change (0 =? 0) with true. cbv iota zeta.
  destruct (written_byte _ w) as [[d w1]|]; cbn [mbind option_bind]; [|done].
  unfold fallen. by destruct (clock high true _ w1) as [[[nack d'] w2]|].
Qed.

(** The eighth bit that goes out. *)
Lemma clock_out_eighth b ps sar sa y w :
  clock 1 b (inside ps sar sa 1 7 y) w =
  Some (b && Z.testbit y 7, mkGpio 0 (line 1 b) (cbool (Z.testbit y 7)) 1 sar sa 1 8 (u8 (y <<< 1)), w).
Proof.
  rewrite clock_edge by done. unfold clock_rise, inside, shift_bit.
  cbn [pos slave_read set const byte]. change (7 <? 8) with true. change (1 =? 1) with true.
  change (u8 (7 + 1)) with 8. cbn [pos set const]. change (8 =? 8) with true. cbn [slave_read set const].
  change (1 =? 2) with false. change (1 =? 0) with false. cbn [mbind option_bind pos set const slave_sda].
  change (8 =? 8) with true. change 0x80 with (2 ^ 7).
  rewrite ctrue_bit, !ctrue_cbool by lia. by destruct b.
Qed.

(** A byte from a device. *)
Lemma clocks_out n ps sar sa k y w :
  0 <= k -> k + Z.of_nat n <= 7 ->
  exists ps', clocks 1 (repeat true n) (inside ps sar sa 1 k y) w =
    Some (outs n y, inside ps' sar sa 1 (k + Z.of_nat n) (rest n y), w).
Proof.
  revert ps k y. induction n as [|n IH]; intros ps k y Hk Hn; cbn [repeat clocks outs rest].
  - exists ps. by rewrite Z.add_0_r.
  - rewrite clock_out by lia. cbn [mbind option_bind].
    destruct (IH (line 1 true) (k + 1) (u8 (y <<< 1))) as (ps' & E); [lia..|]. rewrite E. cbn [mbind option_bind andb].
    exists ps'. by replace (k + Z.of_nat (S n)) with (k + 1 + Z.of_nat n) by lia.
Qed.

Lemma recv_end ack ps sar a (y : Z) (o : list bool) w :
  ('(l, dev, w) ← ('(os, dev, w) ← clocks 1 [true] (inside ps sar a 1 7 y) w; Some (o ++ os, dev, w));
   '(_, dev, w) ← clock 1 (negb ack) dev w;
   Some (of_bits l, dev, w)) =
  ('(v', w) ← (if ack then '(v', w) ← i2c_read a w; Some (u8 v', w) else Some (u8 (y <<< 1), w));
   Some (of_bits (o ++ [Z.testbit y 7]), inside (line 1 (negb ack)) sar a 1 0 v', w)).
Proof.
  cbn [clocks]. rewrite clock_out_eighth. cbn [mbind option_bind andb]. rewrite clock_ninth_out.
  destruct ack; cbn [negb mbind option_bind]; [|done]. by destruct (i2c_read a w) as [[v' w1]|].
Qed.

Lemma transact_recv high ack dev w :
  transact high (Recv ack) dev w =
  ('(l, dev, w) ← clocks high (repeat true 8) dev w;
   '(_, dev, w) ← clock high (negb ack) dev w;
   Some (of_bits l, dev, w)).
Proof. reflexivity. Qed.

(** A step of a computation whose result is known. *)
Lemma bind_known {A B C D} (x : option (A * B * C)) a b c (f : A -> B -> C -> option D) :
  x = Some (a, b, c) -> ('(a, b, c) ← x; f a b c) = f a b c.
Proof. by intros ->. Qed.

Lemma recv_byte ack ps sar a v w :
  is_u8 v ->
  transact 1 (Recv ack) (inside ps sar a 1 0 v) w =
  ('(v', w) ← (if ack then '(v', w) ← i2c_read a w; Some (u8 v', w) else Some (0, w));
   Some (v, inside (line 1 (negb ack)) sar a 1 0 v', w)).
Proof.
  intros Hv. destruct (out_byte v Hv) as [Ho Hr]. destruct (clocks_out 7 ps sar a 0 v w) as (ps' & E); [lia..|].
  assert (0 + Z.of_nat 7 = 7) as E7 by done. rewrite E7 in E. clear E7.
  assert (repeat true 8 = repeat true 7 ++ [true]) as E8 by done.
  rewrite transact_recv, E8, clocks_app. clear E8.
  rewrite (bind_known _ _ _ _ (fun o1 dev w => '(o2, dev, w) ← clocks 1 [true] dev w; Some (o1 ++ o2, dev, w)) E).
  rewrite recv_end, Ho, Hr. reflexivity.
Qed.

(** *** Start and stop *)

(** The host between two transactions. *)
Definition between (p : phase) (dev : i2c_gpio_t) : Prop :=
  match p with
  | Idle => exists sda sar sr k y, dev = mkGpio 1 sda 1 0 sar 0xff sr k y /\ ctrue sda = true /\ is_u8 y
  | Addressing => exists ps sar y, dev = inside ps sar 0xff 2 0 y /\ is_u8 y
  | Writing a => exists ps sar y, dev = inside ps sar a 0 0 y /\ is_u8 y /\ a <> 0xff
  | Reading a v => exists ps sar, dev = inside ps sar a 1 0 v /\ is_u8 v /\ a <> 0xff
  end.

(** The clock edge before a repeated start or a stop shifts the register. *)
Lemma rise_first s ps sar sa sr y w :
  exists ss y', clock_rise s (inside ps sar sa sr 0 y) w = Some (mkGpio 0 ps ss 1 sar sa sr 1 y', w) /\ is_u8 y'.
Proof.
  unfold clock_rise, inside, shift_bit. cbn [pos slave_read set const byte].
  change (0 <? 8) with true. change (u8 (0 + 1)) with 1. cbv iota. destruct (sr =? 1).
  - eexists _, (u8 (y <<< 1)). split; [reflexivity|width].
  - eexists _, (shifted y s). split; [reflexivity|unfold shifted; width].
Qed.

(** A start from the middle of a session, and a stop. *)
Lemma restart high ps sar sa sr y w :
  high = 1 \/ high = 2 ->
  exists y', transact high Start (inside ps sar sa sr 0 y) w = Some (0, inside 0 sar 0xff 2 0 y', w) /\ is_u8 y'.
Proof.
  intros Hh. destruct (rise_first high high sar sa sr y w) as (ss & y' & E & Hy'). exists y'. split; [|done].
  unfold transact. cbn [drive]. rewrite set_low by done. cbn [mbind option_bind].
  rewrite set_rise by done.
  change (((inside ps sar sa sr 0 y) <| prev_scl := 0 |>) <| prev_sda := high |>) with (inside high sar sa sr 0 y).
  rewrite E. cbn [mbind option_bind]. clear E. destruct Hh as [-> | ->]; reflexivity.
Qed.

Lemma stop_session high ps sar sa sr y w :
  high = 1 \/ high = 2 ->
  exists y', is_u8 y' /\ transact high Stop (inside ps sar sa sr 0 y) w =
    (w ← (if sa =? 0xff then Some w else i2c_stop sa w); Some (0, mkGpio 1 high 1 0 sar 0xff sr 1 y', w)).
Proof.
  intros Hh. destruct (rise_first 0 0 sar sa sr y w) as (ss & y' & E & Hy'). exists y'. split; [done|].
  unfold transact. cbn [drive]. rewrite set_low by done. cbn [mbind option_bind].
  rewrite set_rise by done.
  change (((inside ps sar sa sr 0 y) <| prev_scl := 0 |>) <| prev_sda := 0 |>) with (inside 0 sar sa sr 0 y).
  rewrite E. cbn [mbind option_bind]. clear E.
  assert (i2c_gpio_set 1 high (((mkGpio 0 0 ss 1 sar sa sr 1 y') <| prev_scl := 1 |>) <| prev_sda := 0 |>) w =
    (w ← (if sa =? 0xff then Some w else i2c_stop sa w); Some (mkGpio 1 high 1 0 sar 0xff sr 1 y', w))) as ->.
  { destruct Hh as [-> | ->]; unfold i2c_gpio_set, stop_condition; cbn [slave_addr prev_scl prev_sda set const];
      by destruct (sa =? 0xff); cbn; [|destruct (i2c_stop sa w)]. }
  by destruct (if sa =? 0xff then Some w else i2c_stop sa w).
Qed.

Lemma start_idle high sda sar sr k y w :
  high = 1 \/ high = 2 -> ctrue sda = true ->
  transact high Start (mkGpio 1 sda 1 0 sar 0xff sr k y) w = Some (0, inside 0 sar 0xff 2 0 y, w).
Proof.
  intros Hh Hs. unfold transact. cbn [drive]. rewrite set_fall by done. cbn [mbind option_bind pos].
  destruct Hh as [-> | ->]; destruct (k =? 8); reflexivity.
Qed.

Lemma stop_idle high sda sar sr k y w :
  high = 1 \/ high = 2 ->
  transact high Stop (mkGpio 1 sda 1 0 sar 0xff sr k y) w = Some (0, mkGpio 1 high 1 0 sar 0xff sr k y, w).
Proof.
  intros Hh. unfold transact. cbn [drive]. rewrite set_fall by done. cbn [mbind option_bind pos].
  destruct Hh as [-> | ->]; destruct (k =? 8); reflexivity.
Qed.

(** What arrives of a transaction when the high line is the value [high]. *)
Definition scaled (high : Z) (t : transaction) : transaction :=
  match t with Send b => Send (u8 (high * b)) | _ => t end.

Definition sendable (high : Z) (t : transaction) : Prop :=
  match t with Send b => is_u8 b | Recv _ => high = 1 | _ => True end.

(** Each transaction does what the protocol says of what arrives. *)
Lemma transact_ok high t p r dev w :
  high = 1 \/ high = 2 -> sendable high t -> between p dev -> next_role (scaled high t) (role_of p) = Some r ->
  match protocol_step (scaled high t) p w with
  | Some (o, p', w') => exists dev', transact high t dev w = Some (o, dev', w') /\ between p' dev' /\ role_of p' = r
  | None => transact high t dev w = None
  end.
Proof.
  intros Hh Ht Hb Hr. destruct t as [|b|ack|]; cbn [scaled sendable] in *.
  - assert (exists sar y', transact high Start dev w = Some (0, inside 0 sar 0xff 2 0 y', w) /\ is_u8 y') as (sar & y' & E & Hy).
    { destruct p as [| |a|a v]; cbn [between] in Hb.
      - destruct Hb as (sda & sar & sr & k & y & -> & Hs & Hy). exists sar, y. split; [|done]. by apply start_idle.
      - destruct Hb as (ps & sar & y & -> & Hy). exists sar. by apply restart.
      - destruct Hb as (ps & sar & y & -> & Hy & _). exists sar. by apply restart.
      - destruct Hb as (ps & sar & -> & Hy & _). exists sar. by apply restart. }
    cbn in Hr. injection Hr as <-. destruct p; (eexists; split; [exact E|]; split; [|done]; by exists 0, sar, y').
  - destruct p as [| |a|a v]; cbn [between role_of next_role] in *; try done.
    + destruct Hb as (ps & sar & y & -> & Hy). rewrite send_address by auto.
      assert (is_u8 (u8 (high * b))) as Hb8 by width. revert Hr Hb8. generalize (u8 (high * b)). clear b Ht. intros b Hr Hb8.
      rewrite (proj2 (Z.leb_le 0 b)), (proj2 (Z.ltb_lt b 256)) in Hr by (unfold in_width in Hb8; lia).
      cbn [andb] in Hr. injection Hr as <-. cbn [protocol_step].
      assert (b >>> 1 <> 0xff) as Ha.
      { rewrite Z.shiftr_div_pow2 by done. change (2 ^ 1) with 2. intros E.
        pose proof (Z.mul_div_le b 2 ltac:(lia)). unfold in_width in Hb8. lia. }
      destruct (i2c_start (b >>> 1) (b .& 1) w) as [[r w1]|]; cbn [mbind option_bind]; [|done].
      assert (b .& 1 = cbool (Z.odd b)) as Eo.
      { change (b .& 1) with (b .& Z.ones 1). rewrite land_mask by done. rewrite Zmod_odd. by destruct (Z.odd b). }
      rewrite Eo, ctrue_cbool. destruct (Z.odd b), (ctrue r); cbn [andb negb cbool].
      * destruct (i2c_read (b >>> 1) w1) as [[v w2]|]; cbn [mbind option_bind]; [|done].
        eexists. split; [reflexivity|]. split; [|done]. exists high, sar. split_and!; [done|width|done].
      * eexists. split; [reflexivity|]. split; [|done]. by exists high, sar.
      * eexists. split; [reflexivity|]. split; [|done]. by exists high, sar, b.
      * eexists. split; [reflexivity|]. split; [|done]. by exists high, sar, b.
    + destruct Hb as (ps & sar & y & -> & Hy & Ha). rewrite send_data by auto.
      assert (is_u8 (u8 (high * b))) as Hb8 by width. revert Hr Hb8. generalize (u8 (high * b)). clear b Ht. intros b Hr Hb8.
      rewrite (proj2 (Z.leb_le 0 b)), (proj2 (Z.ltb_lt b 256)) in Hr by (unfold in_width in Hb8; lia).
      cbn [andb] in Hr. injection Hr as <-. cbn [protocol_step].
      destruct (i2c_write a b w) as [[r w1]|]; cbn [mbind option_bind]; [|done].
      eexists. split; [reflexivity|]. split; [|done]. by exists high, sar, b.
  - destruct p as [| |a|a v]; try done. cbn in Hr. injection Hr as <-. cbn [between] in Hb.
    destruct Hb as (ps & sar & -> & Hv & Ha). subst high. rewrite recv_byte by done. cbn [protocol_step].
    destruct ack; cbn [negb mbind option_bind].
    + destruct (i2c_read a w) as [[v' w1]|]; cbn [mbind option_bind]; [|done].
      eexists. split; [reflexivity|]. split; [|done]. exists 0, sar. split_and!; [done|width|done].
    + eexists. split; [reflexivity|]. split; [|done]. exists 1, sar. split_and!; [done|unfold in_width; lia|done].
  - assert (role_of Idle = r) as Hrole by (destruct p; cbn in *; congruence).
    assert (forall sda sar sr k y, ctrue sda = true -> is_u8 y -> between Idle (mkGpio 1 sda 1 0 sar 0xff sr k y)) as Hidle.
    { intros sda sar sr k y Hs Hy. by exists sda, sar, sr, k, y. }
    assert (ctrue high = true) as Hhigh by (by destruct Hh as [-> | ->]).
    destruct p as [| |a|a v]; cbn [between] in Hb; cbn [protocol_step].
    + destruct Hb as (sda & sar & sr & k & y & -> & Hs & Hy). rewrite stop_idle by auto. eexists. split; [reflexivity|]. split; [by apply Hidle|done].
    + destruct Hb as (ps & sar & y & -> & Hy).
      destruct (stop_session high ps sar 0xff 2 y w) as (y' & Hy' & ->); [auto|]. cbn [Z.eqb Pos.eqb mbind option_bind]. eauto 6.
    + destruct Hb as (ps & sar & y & -> & Hy & Ha). destruct (stop_session high ps sar a 0 y w) as (y' & Hy' & ->); [auto|].
      rewrite (proj2 (Z.eqb_neq a 0xff)) by done. destruct (i2c_stop a w); cbn [mbind option_bind]; [|done]. eauto 6.
    + destruct Hb as (ps & sar & -> & Hy & Ha). destruct (stop_session high ps sar a 1 v w) as (y' & Hy' & ->); [auto|].
      rewrite (proj2 (Z.eqb_neq a 0xff)) by done. destruct (i2c_stop a w); cbn [mbind option_bind]; [|done]. eauto 6.
Qed.

Lemma scaled_ok high l p dev w :
  high = 1 \/ high = 2 -> Forall (sendable high) l -> between p dev ->
  well_formed (map (scaled high) l) (role_of p) = true ->
  match run protocol_step (map (scaled high) l) p w with
  | Some (os, p', w') => exists dev', run (transact high) l dev w = Some (os, dev', w') /\ between p' dev'
  | None => run (transact high) l dev w = None
  end.
Proof.
  revert p dev w. induction l as [|t l IH]; intros p dev w Hh Hs Hb Hl; cbn [map run well_formed] in *; [by exists dev|].
  apply Forall_cons in Hs as [Hs1 Hs].
  destruct (next_role (scaled high t) (role_of p)) as [r|] eqn:Er; [|done].
  pose proof (transact_ok high t p r dev w Hh Hs1 Hb Er) as Ht.
  destruct (protocol_step (scaled high t) p w) as [[[o p1] w1]|]; cbn [mbind option_bind]; [|by rewrite Ht].
  destruct Ht as (d1 & -> & Hb1 & <-). cbn [mbind option_bind]. specialize (IH p1 d1 w1 Hh Hs Hb1 Hl).
  destruct (run protocol_step (map (scaled high) l) p1 w1) as [[[os p2] w2]|]; cbn [mbind option_bind]; [|by rewrite IH].
  destruct IH as (d2 & -> & ?). cbn [mbind option_bind]. by exists d2.
Qed.

(** With the value 1 everything arrives as it is. *)
Lemma well_formed_plain l r : well_formed l r = true -> Forall (sendable 1) l /\ map (scaled 1) l = l.
Proof.
  revert r. induction l as [|t l IH]; intros r Hl; [done|]. cbn [well_formed] in Hl.
  destruct (next_role t r) as [r'|] eqn:Er; [|done]. destruct (IH r' Hl) as [IH1 IH2]. cbn [map]. rewrite IH2.
  assert (forall b r0, (if (0 <=? b) && (b <? 256) then Some r0 else None) = Some r' -> is_u8 b) as Hb.
  { intros b r0. by destruct (Z.leb_spec 0 b), (Z.ltb_spec b 256). }
  assert (sendable 1 t) as Ht by (destruct t as [|b|ack|], r; try done; by apply Hb in Er).
  split; [by constructor|]. f_equal. destruct t as [|b|ack|]; try done. cbn [scaled].
  by rewrite Z.mul_1_l, wrap_id.
Qed.

Lemma transactions_ok l p dev w :
  between p dev -> well_formed l (role_of p) = true ->
  match run protocol_step l p w with
  | Some (os, p', w') => exists dev', run (transact 1) l dev w = Some (os, dev', w') /\ between p' dev'
  | None => run (transact 1) l dev w = None
  end.
Proof.
  intros Hb Hl. destruct (well_formed_plain l _ Hl) as [Hs Em].
  pose proof (scaled_ok 1 l p dev w ltac:(auto) Hs Hb) as H. rewrite Em in H. by apply H.
Qed.

Lemma idle_init : between Idle i2c_gpio_init.
Proof. exists 1, 0, 0, 0, 0. split_and!; [done|done|unfold in_width; lia]. Qed.

(** C38: A driver that toggles the lines, bit by bit, gets from the host the
    protocol of the bus: the devices see one start call per address, one
    write call per byte sent and one read call per byte received or
    acknowledged, in this order; every byte arrives as it was sent, and the
    driver samples their acknowledges and their bytes. *)
Theorem gpio_refines_protocol l w :
  well_formed l NoBus = true ->
  match run protocol_step l Idle w with
  | Some (os, p, w') => exists dev, run (transact 1) l i2c_gpio_init w = Some (os, dev, w')
  | None => run (transact 1) l i2c_gpio_init w = None
  end.
Proof.
  intros Hl. pose proof (transactions_ok l Idle _ w idle_init Hl) as H.
  destruct (run protocol_step l Idle w) as [[[os p] w']|]; [|done]. destruct H as (dev & E & _). by exists dev.
Qed.

Lemma doubled b : is_u8 b -> u8 (2 * b) >>> 1 = b .& 0x7f /\ u8 (2 * b) .& 1 = 0.
Proof.
  intros Hb. split; apply Z.eqb_eq; revert b Hb; [apply (u8_forallb (fun b => u8 (2 * b) >>> 1 =? b .& 0x7f))
    |apply (u8_forallb (fun b => u8 (2 * b) .& 1 =? 0))]; by vm_compute.
Qed.

(** C40: A driver whose high data line is the value 2, as the CS423x codec
    passes it, sends every byte doubled: a session of starts, bytes sent and
    stops has the calls and acknowledges of the session with the bytes
    2 * b mod 256.  So an address byte starts device [b & 0x7f] instead of
    [b >> 1] - another one unless all its bits are the same - and always for
    writing. *)
Theorem high_line_two_doubles l w :
  Forall (sendable 2) l -> well_formed (map (scaled 2) l) NoBus = true ->
  match run protocol_step (map (scaled 2) l) Idle w with
  | Some (os, p, w') => exists dev, run (transact 2) l i2c_gpio_init w = Some (os, dev, w')
  | None => run (transact 2) l i2c_gpio_init w = None
  end /\
  forall b, is_u8 b -> exists b', scaled 2 (Send b) = Send b' /\ b' >>> 1 = b .& 0x7f /\ b' .& 1 = 0 /\
    (b .& 0x7f = b >>> 1 <-> b = 0 \/ b = 0xff).
Proof.
  intros Hs Hl. split.
  - pose proof (scaled_ok 2 l Idle _ w ltac:(auto) Hs idle_init Hl) as H.
    destruct (run protocol_step _ Idle w) as [[[os p] w']|]; [|done]. destruct H as (dev & E & _). by exists dev.
  - intros b Hb. destruct (doubled b Hb) as [E1 E2]. exists (u8 (2 * b)). split_and!; [done..|].
    assert (Bool.eqb (b .& 0x7f =? b >>> 1) ((b =? 0) || (b =? 0xff)) = true) as E.
    { clear E1 E2. revert b Hb. apply (u8_forallb (fun b => Bool.eqb (b .& 0x7f =? b >>> 1) ((b =? 0) || (b =? 0xff)))). by vm_compute. }
    apply eqb_prop in E. rewrite <- Z.eqb_eq, E, orb_true_iff, !Z.eqb_eq. done.
Qed.

End refinement.

(** A device at address 3 that logs its calls and sends its address. *)
#[local] Instance log_bus : I2cBus (list Z) := {|
  i2c_start a read w := Some (cbool (a =? 3), w ++ [a; read]);
  i2c_read a w := Some (0x50 + a, w ++ [a]);
  i2c_write a v w := Some (1, w ++ [v]);
  i2c_stop a w := Some (w ++ [255]);
|}.

Definition sample_session : list transaction := [Start; Send 6; Send 0x42; Start; Send 7; Recv true; Recv false; Stop].

Lemma gpio_refines_protocol_witness :
  well_formed sample_session NoBus = true /\
  exists dev, run (transact 1) sample_session i2c_gpio_init [] =
    Some ([0; 0; 0; 0; 0; 0x53; 0x53; 0], dev, [3; 0; 0x42; 3; 1; 3; 3; 255]).
Proof.
  split; [by vm_compute|]. pose proof (gpio_refines_protocol sample_session [] ltac:(by vm_compute)) as H.
  assert (exists ph, run protocol_step sample_session Idle [] =
    Some ([0; 0; 0; 0; 0; 0x53; 0x53; 0], ph, [3; 0; 0x42; 3; 1; 3; 3; 255])) as [ph E] by (eexists; by vm_compute).
  rewrite E in H. exact H.
Defined.

Lemma high_line_two_doubles_witness :
  well_formed (map (scaled 2) [Start; Send 3; Send 0x42; Stop]) NoBus = true /\
  exists dev, run (transact 2) [Start; Send 3; Send 0x42; Stop] i2c_gpio_init [] =
    Some ([0; 0; 0; 0], dev, [3; 0; 0x84; 255]).
Proof.
  split; [by vm_compute|].
  destruct (high_line_two_doubles [Start; Send 3; Send 0x42; Stop] []) as [H _];
    [repeat constructor; by vm_compute|by vm_compute|].
  assert (exists ph, run protocol_step (map (scaled 2) [Start; Send 3; Send 0x42; Stop]) Idle [] =
    Some ([0; 0; 0; 0], ph, [3; 0; 0x84; 255])) as [ph E] by (eexists; by vm_compute).
  rewrite E in H. exact H.
Defined.
