(* ===== verification/I2cEeprom.v ===== *)
(** * I2cEeprom: the memories of src/src/mem/i2c_eeprom.c

    The 24Cxx EEPROMs on an I2C bus: the functions the bus calls, creation
    and removal.  Through [I2c] they implement the interface of [I2cGpio],
    and the theorem at the end is about all three: what a driver writes bit
    by bit it reads back.  [data] is the buffer of the owner; [None] is an
    access outside it. *)
From S2P Require Import Prelude I2cGpio.
From S2P Require I2c.

Abbreviation ptr := Z.

Record i2c_eeprom_t := mkEeprom {
  addr : Z;
  data : list Z;
  writable : Z;
  addr_mask : Z;
  addr_register : Z;
  addr_len : Z;
  addr_pos : Z;
}.

Definition i2c_eeprom_start (a read : Z) (dev : i2c_eeprom_t) : Z * i2c_eeprom_t :=
  (1, if ctrue read then dev
      else dev <| addr_pos := 0 |> <| addr_register := u32 (a <<< addr_len dev) .& addr_mask dev |>).

Definition i2c_eeprom_read (dev : i2c_eeprom_t) : option (Z * i2c_eeprom_t) :=
  ret ← arr_get (data dev) (addr_register dev);
  Some (ret, dev <| addr_register := u32 (addr_register dev + 1) .& addr_mask dev |>).

(** A byte of the memory address, then data. *)
Definition take_address (a v : Z) (dev : i2c_eeprom_t) : i2c_eeprom_t :=
  let r := u32 (addr_register dev <<< 8) .| v in
  let r := r .& ((1 <<< addr_len dev) - 1) in
  let r := u32 (r .| (a <<< addr_len dev)) in
  dev <| addr_register := r .& addr_mask dev |> <| addr_pos := u8 (addr_pos dev + 8) |>.

Definition i2c_eeprom_write (a v : Z) (dev : i2c_eeprom_t) : option (Z * i2c_eeprom_t) :=
  if addr_pos dev <? addr_len dev then Some (1, take_address a v dev)
  else
    d ← (if ctrue (writable dev) then arr_set (data dev) (addr_register dev) v else Some (data dev));
    Some (writable dev,
          dev <| data := d |> <| addr_register := u32 (addr_register dev + 1) .& addr_mask dev |>).

Definition i2c_eeprom_stop (dev : i2c_eeprom_t) : i2c_eeprom_t := dev <| addr_pos := 0 |>.

(** [while (i >>= 1) ret++;] *)
Fixpoint log2i_loop (fuel : nat) (i ret : Z) : Z :=
  match fuel with
  | O => ret
  | S fuel => let i := i >>> 1 in if i =? 0 then ret else log2i_loop fuel i (u8 (ret + 1))
  end.
Definition log2i (i : Z) : Z := log2i_loop 32 i 0.

(** The size the device is given; [1 << 31] overflows an [int]. *)
Definition eeprom_size (size : Z) : option Z :=
  if 31 <=? log2i size then None else
  let pow_size := 1 <<< log2i size in
  let size := if pow_size <? size then pow_size <<< 1 else size in
  Some (if 8388608 <=? size then 8388608 else size).

(** The functions of the device as the bus stores them. *)
Definition eeprom_ops (p : ptr) : I2c.i2c_ops := I2c.mkOps (Some 1) (Some 2) (Some 3) (Some 4) p.

Definition device_mask (dev : i2c_eeprom_t) : Z := u8 (addr_mask dev >>> addr_len dev).
Definition device_base (dev : i2c_eeprom_t) : Z := addr dev .&~ device_mask dev.

(** The devices by address. *)
Abbreviation eeproms := (gmap ptr i2c_eeprom_t).

Definition i2c_eeprom_init (p : ptr) (i2c : option I2c.i2c_bus_t) (a : Z) (buf : list Z) (size w : Z) (d : eeproms)
    : option (option I2c.i2c_bus_t * eeproms) :=
  size ← eeprom_size size;
  let dev := mkEeprom a buf w (u32 (size - 1)) 0 (if 4096 <=? size then 16 else 8) 0 in
  bus ← I2c.i2c_sethandler (device_base dev) (device_mask dev + 1) (eeprom_ops p) i2c;
  Some (bus, <[p := dev]> d).

Definition i2c_eeprom_close (p : ptr) (i2c : option I2c.i2c_bus_t) (d : eeproms)
    : option (option I2c.i2c_bus_t * eeproms) :=
  dev ← d !! p;
  bus ← I2c.i2c_removehandler (device_base dev) (device_mask dev + 1) (eeprom_ops p) i2c;
  Some (bus, delete p d).

(** ** The bus of [I2c] with these devices *)

Definition on_device {A} (p : ptr) (f : i2c_eeprom_t -> option (A * i2c_eeprom_t)) (d : eeproms)
    : option (A * eeproms) :=
  dev ← d !! p; '(r, dev) ← f dev; Some (r, <[p := dev]> d).

Definition eeprom_callees : I2c.callees eeproms := {|
  I2c.run_start f a read p d := if f =? 1 then on_device p (fun dev => Some (i2c_eeprom_start a read dev)) d else None;
  I2c.run_read f a p d := if f =? 2 then on_device p i2c_eeprom_read d else None;
  I2c.run_write f a v p d := if f =? 3 then on_device p (i2c_eeprom_write a v) d else None;
  I2c.run_stop f a p d :=
    if f =? 4 then '(_, d) ← on_device p (fun dev => Some (tt, i2c_eeprom_stop dev)) d; Some d else None;
|}.

(** The bus and its memories as the world of [I2cGpio]. *)
Abbreviation world := (I2c.i2c_bus_t * eeproms)%type.

#[export] Instance eeprom_bus : I2cBus world := {|
  i2c_start a read w := '(r, d) ← I2c.i2c_start eeprom_callees (Some w.1) a read w.2; Some (r, (w.1, d));
  i2c_read a w := '(r, d) ← I2c.i2c_read eeprom_callees (Some w.1) a w.2; Some (r, (w.1, d));
  i2c_write a v w := '(r, d) ← I2c.i2c_write eeprom_callees (Some w.1) a v w.2; Some (r, (w.1, d));
  i2c_stop a w := d ← I2c.i2c_stop eeprom_callees (Some w.1) a w.2; Some (w.1, d);
|}.

(** ** Creation puts the device on its addresses *)

(** The device [p] alone answers to [n] addresses from [base] on. *)
Definition attached (bus : I2c.i2c_bus_t) (p : ptr) (base n : Z) : Prop :=
  I2c.represents bus (fun a => if (base <=? a) && (a <? base + n) then [eeprom_ops p] else []).

Section calls.
Context (bus : I2c.i2c_bus_t) (p : ptr) (base n : Z) (Hat : attached bus p base n).
Context (a : Z) (Ha : base <= a < base + n) (Haddr : 0 <= a < 128).
Context (d : eeproms) (dev : i2c_eeprom_t).

Lemma device_chain {A} (step : I2c.i2c_ops -> A -> eeproms -> option (A * eeproms * bool)) acc d0 :
  I2c.on_chain step bus a acc d0 = ('(r, d, _) ← step (eeprom_ops p) acc d0; Some (r, d)).
Proof.
  rewrite (I2c.on_chain_ok _ _ _ _ _ _ Hat) by done.
  rewrite (proj2 (Z.leb_le _ _)), (proj2 (Z.ltb_lt _ _)) by lia. cbn [andb I2c.list_loop].
  by destruct (step (eeprom_ops p) acc d0) as [[[r d1] []]|].
Qed.

Lemma start_call read :
  i2c_start a read (bus, <[p := dev]> d) = Some (1, (bus, <[p := (i2c_eeprom_start a read dev).2]> d)).
Proof.
  cbn [i2c_start eeprom_bus fst snd I2c.i2c_start]. rewrite device_chain.
  unfold I2c.start_step. cbn [eeprom_ops I2c.start_fn I2c.run_start eeprom_callees I2c.priv].
  unfold on_device. rewrite lookup_insert_eq. cbn. by rewrite insert_insert_eq.
Qed.

Lemma read_call v dev' :
  i2c_eeprom_read dev = Some (v, dev') ->
  i2c_read a (bus, <[p := dev]> d) = Some (u8 v, (bus, <[p := dev']> d)).
Proof.
  intros E. cbn [i2c_read eeprom_bus fst snd I2c.i2c_read]. rewrite device_chain.
  unfold I2c.read_step. cbn [eeprom_ops I2c.read_fn I2c.run_read eeprom_callees I2c.priv].
  unfold on_device. rewrite lookup_insert_eq. cbn [mbind option_bind]. change (2 =? 2) with true. cbn [mbind option_bind].
  rewrite E. cbn [mbind option_bind]. by rewrite insert_insert_eq.
Qed.

Lemma write_call v r dev' :
  i2c_eeprom_write a v dev = Some (r, dev') ->
  i2c_write a v (bus, <[p := dev]> d) = Some (u8 r, (bus, <[p := dev']> d)).
Proof.
  intros E. cbn [i2c_write eeprom_bus fst snd I2c.i2c_write]. rewrite device_chain.
  unfold I2c.write_step. cbn [eeprom_ops I2c.write_fn I2c.run_write eeprom_callees I2c.priv].
  unfold on_device. rewrite lookup_insert_eq. change (3 =? 3) with true. cbn [mbind option_bind].
  rewrite E. cbn [mbind option_bind]. rewrite Z.lor_0_l, wrap_wrap by lia. by rewrite insert_insert_eq.
Qed.

Lemma stop_call :
  i2c_stop a (bus, <[p := dev]> d) = Some (bus, <[p := i2c_eeprom_stop dev]> d).
Proof.
  cbn [i2c_stop eeprom_bus fst snd I2c.i2c_stop]. rewrite device_chain.
  unfold I2c.stop_step. cbn [eeprom_ops I2c.stop_fn I2c.run_stop eeprom_callees I2c.priv].
  unfold on_device. rewrite lookup_insert_eq. cbn. by rewrite insert_insert_eq.
Qed.
End calls.

(** ** Addresses inside the memory *)

(** A memory of [2 ^ k] bytes whose device address is [a0]. *)
Record shape (k a0 : Z) (dev : i2c_eeprom_t) : Prop := {
  sh_k : 0 <= k <= 23;
  sh_len : addr_len dev = if 12 <=? k then 16 else 8;
  sh_mask : addr_mask dev = Z.ones k;
  sh_data : Z.of_nat (length (data dev)) = 2 ^ k;
  sh_reg : 0 <= addr_register dev < 2 ^ k;
  sh_addr : addr dev = a0;
  sh_a0 : 0 <= a0 < 128;
}.

(** The bits of the memory address in the device address. *)
Definition high_bits (k : Z) : Z := if 12 <=? k then Z.max 0 (k - 16) else Z.max 0 (k - 8).

(** The device address for the memory address [A], and its other bytes. *)
Definition select (dev : i2c_eeprom_t) (A : Z) : Z := device_base dev .| (A >>> addr_len dev).
Definition address_bytes (dev : i2c_eeprom_t) (A : Z) : list Z :=
  if addr_len dev =? 16 then [(A >>> 8) .& 0xff; A .& 0xff] else [A .& 0xff].

Lemma ones_bits n i : 0 <= n -> 0 <= i -> Z.testbit (Z.ones n) i = (i <? n).
Proof. intros. by apply Z.testbit_ones_nonneg. Qed.

Lemma in_ones k x : 0 <= k -> 0 <= x < 2 ^ k -> forall i, k <= i -> Z.testbit x i = false.
Proof. intros Hk Hx. by apply in_width_testbit. Qed.

Section address.
Context (k a0 : Z) (dev : i2c_eeprom_t) (S : shape k a0 dev).

Lemma len_cases : addr_len dev = 8 /\ k < 12 \/ addr_len dev = 16 /\ 12 <= k.
Proof. rewrite (sh_len _ _ _ S). destruct (Z.leb_spec 12 k); auto. Qed.

Lemma high_bits_range : 0 <= high_bits k <= 7 /\ high_bits k = Z.max 0 (k - addr_len dev).
Proof.
  pose proof (sh_k _ _ _ S). unfold high_bits. rewrite (sh_len _ _ _ S). destruct (Z.leb_spec 12 k); lia.
Qed.

Lemma device_mask_ones : device_mask dev = Z.ones (high_bits k).
Proof.
  pose proof (sh_k _ _ _ S). destruct high_bits_range as [Hj Hj2]. unfold device_mask. rewrite (sh_mask _ _ _ S).
  apply Z.bits_inj'. intros i Hi. rewrite wrap_testbit, Z.shiftr_spec, !ones_bits by (destruct len_cases; lia).
  destruct len_cases as [[E ?]|[E ?]]; rewrite E in *;
    [destruct (Z.ltb_spec i 8), (Z.ltb_spec (i + 8) k), (Z.ltb_spec i (high_bits k))
    |destruct (Z.ltb_spec i 8), (Z.ltb_spec (i + 16) k), (Z.ltb_spec i (high_bits k))]; try done; lia.
Qed.

Lemma base_bits i : 0 <= i -> Z.testbit (device_base dev) i = Z.testbit a0 i && negb (i <? high_bits k).
Proof.
  intros Hi. unfold device_base. rewrite device_mask_ones, (sh_addr _ _ _ S), Z.land_spec, Z.lnot_spec by done.
  rewrite ones_bits; [done|apply high_bits_range|done].
Qed.

(** The device registers on an aligned block of addresses. *)
Lemma base_block : 0 <= device_base dev /\ device_base dev + 2 ^ high_bits k <= 128 /\
  device_mask dev + 1 = 2 ^ high_bits k.
Proof.
  destruct high_bits_range as [Hj _]. pose proof (sh_a0 _ _ _ S) as Ha.
  rewrite device_mask_ones, Z.ones_equiv. split; [|split; [|lia]].
  - unfold device_base. apply Z.land_nonneg. left. rewrite (sh_addr _ _ _ S). lia.
  - assert (device_base dev = (a0 / 2 ^ high_bits k) * 2 ^ high_bits k) as ->.
    { rewrite <- Z.shiftl_mul_pow2, <- Z.shiftr_div_pow2 by lia. apply Z.bits_inj'. intros i Hi.
      rewrite base_bits, Z.shiftl_spec by done. destruct (Z.ltb_spec i (high_bits k)).
      - rewrite andb_false_r. by rewrite Z.testbit_neg_r by lia.
      - rewrite Z.shiftr_spec, andb_true_r by lia. f_equal. lia. }
    assert (128 = 2 ^ (7 - high_bits k) * 2 ^ high_bits k) as E.
    { rewrite <- Z.pow_add_r by lia. by replace (7 - high_bits k + high_bits k) with 7 by lia. }
    assert (0 < 2 ^ high_bits k) by (apply Z.pow_pos_nonneg; lia).
    assert (a0 / 2 ^ high_bits k < 2 ^ (7 - high_bits k)) by (apply Z.div_lt_upper_bound; lia). nia.
Qed.

Context (A : Z) (HA : 0 <= A < 2 ^ k).

Lemma A_bits i : k <= i -> Z.testbit A i = false.
Proof. apply in_ones; [apply (sh_k _ _ _ S)|done]. Qed.

Lemma select_bits i : 0 <= i ->
  Z.testbit (select dev A) i = (Z.testbit a0 i && negb (i <? high_bits k)) || Z.testbit A (i + addr_len dev).
Proof.
  intros Hi. unfold select. rewrite Z.lor_spec, base_bits, Z.shiftr_spec by done. done.
Qed.

(** The selected address is one of the device's. *)
Lemma select_range : device_base dev <= select dev A < device_base dev + (device_mask dev + 1).
Proof.
  destruct base_block as (Hb & Hblk & ->). destruct high_bits_range as [Hj Hj2].
  assert (0 <= A >>> addr_len dev < 2 ^ high_bits k) as Hh.
  { apply (in_width_testbit (high_bits k)); [lia|]. split; [apply Z.shiftr_nonneg; lia|].
    intros i Hi. rewrite Z.shiftr_spec by lia. apply A_bits. lia. }
  assert (select dev A = device_base dev + (A >>> addr_len dev)) as ->; [|lia].
  unfold select. rewrite Z.add_comm, Z.lor_comm. rewrite <- Z.lxor_lor, <- Z.add_nocarry_lxor; [done|..];
    apply Z.bits_inj'; intros i Hi; rewrite Z.land_spec, base_bits, Z.bits_0 by done;
    (destruct (Z.ltb_spec i (high_bits k)); [by rewrite andb_false_r, andb_false_r
      |rewrite (in_ones (high_bits k) (A >>> addr_len dev)); [done|lia|done|lia]]).
Qed.

End address.

(** The bytes of an address, taken one after the other. *)
Definition addressed (a : Z) (l : list Z) (dev : i2c_eeprom_t) : i2c_eeprom_t :=
  fold_left (fun dev v => take_address a v dev) l dev.

Section addressing.
Context (k a0 : Z) (dev : i2c_eeprom_t) (Hs : shape k a0 dev).

(** The bits of the register after a byte of the address. *)
Lemma take_address_bits a v i :
  is_u8 v -> 0 <= i ->
  Z.testbit (addr_register (take_address a v dev)) i =
  (i <? k) && (if i <? addr_len dev then (if i <? 8 then Z.testbit v i else Z.testbit (addr_register dev) (i - 8))
               else Z.testbit a (i - addr_len dev)).
Proof.
  intros Hv Hi. pose proof (sh_k _ _ _ Hs) as Hk. destruct (len_cases _ _ _ Hs) as [[El _]|[El _]].
  all: unfold take_address; cbn; rewrite (sh_mask _ _ _ Hs), El.
  1: change ((1 <<< 8) - 1) with (Z.ones 8).
  2: change ((1 <<< 16) - 1) with (Z.ones 16).
  all: rewrite Z.land_spec, wrap_testbit, Z.lor_spec, Z.land_spec, Z.lor_spec, wrap_testbit, !Z.shiftl_spec,
    !ones_bits by lia.
  all: rewrite (andb_comm _ (i <? k)); destruct (Z.ltb_spec i k); [cbn [andb]|done].
  all: rewrite (proj2 (Z.ltb_lt i 32)) by lia; cbn [andb].
  - destruct (Z.ltb_spec i 8).
    + by rewrite !(Z.testbit_neg_r _ (i - 8)), orb_false_r, andb_true_r by lia.
    + by rewrite andb_false_r.
  - destruct (Z.ltb_spec i 8).
    + rewrite (proj2 (Z.ltb_lt i 16)) by lia.
      by rewrite (Z.testbit_neg_r _ (i - 8)), (Z.testbit_neg_r a (i - 16)), orb_false_r, andb_true_r by lia.
    + destruct (Z.ltb_spec i 16).
      * rewrite (in_ones 8 v) by (done || lia). by rewrite (Z.testbit_neg_r a), !orb_false_r, andb_true_r by lia.
      * by rewrite andb_false_r.
Qed.
End addressing.

(** The fields the address bytes leave alone. *)
Lemma take_address_shape k a0 a v dev :
  shape k a0 dev -> shape k a0 (take_address a v dev).
Proof.
  intros [Hk Hl Hm Hd Hr Ha Ha0]. split; try done. cbn. rewrite Hm.
  apply in_width_land_r; [lia|]. unfold in_width. rewrite Z.ones_equiv.
  assert (0 < 2 ^ k) by (apply Z.pow_pos_nonneg; lia). lia.
Qed.

Lemma eeprom_ext (d1 d2 : i2c_eeprom_t) :
  addr d1 = addr d2 -> data d1 = data d2 -> writable d1 = writable d2 -> addr_mask d1 = addr_mask d2 ->
  addr_register d1 = addr_register d2 -> addr_len d1 = addr_len d2 -> addr_pos d1 = addr_pos d2 -> d1 = d2.
Proof. destruct d1, d2. cbn. intros. by subst. Qed.

Section addressed.
Context (k a0 : Z) (dev : i2c_eeprom_t) (Hs : shape k a0 dev) (A : Z) (HA : 0 <= A < 2 ^ k).

Lemma select_high i : addr_len dev <= i < k -> Z.testbit (select dev A) (i - addr_len dev) = Z.testbit A i.
Proof.
  intros Hi. destruct (high_bits_range _ _ _ Hs) as [Hj Hj2]. pose proof (len_cases _ _ _ Hs).
  rewrite (select_bits _ _ _ Hs) by lia. replace (i - addr_len dev + addr_len dev) with i by lia.
  rewrite (proj2 (Z.ltb_lt _ _)) by lia. by rewrite andb_false_r.
Qed.

Lemma low_byte_bit i x : 0 <= i < 8 -> Z.testbit (x .& 0xff) i = Z.testbit x i.
Proof.
  intros Hi. change 0xff with (Z.ones 8). rewrite Z.land_spec, ones_bits by lia.
  rewrite (proj2 (Z.ltb_lt _ _)) by lia. apply andb_true_r.
Qed.

Lemma low_byte_range x : is_u8 (x .& 0xff).
Proof. change 0xff with (Z.ones 8). rewrite land_mask by done. apply Z.mod_pos_bound. done. Qed.

Lemma bit_of_A i : (i <? k) && Z.testbit A i = Z.testbit A i.
Proof.
  destruct (Z.ltb_spec i k); [done|]. symmetry. apply in_ones with k; [apply (sh_k _ _ _ Hs)|done|done].
Qed.

(** Sending the bytes of the memory address sets the register to it. *)
Lemma addressed_register r :
  0 <= r < 2 ^ k ->
  addressed (select dev A) (address_bytes dev A) (dev <| addr_pos := 0 |> <| addr_register := r |>) =
  dev <| addr_register := A |> <| addr_pos := addr_len dev |>.
Proof.
  intros Hr. set (d0 := dev <| addr_pos := 0 |> <| addr_register := r |>).
  assert (shape k a0 d0) as H0 by (destruct Hs; by split).
  pose proof (low_byte_range A) as Hlo. pose proof (low_byte_range (A >>> 8)) as Hhi.
  pose proof (sh_k _ _ _ Hs) as Hk. unfold address_bytes.
  destruct (len_cases _ _ _ Hs) as [[El ?]|[El ?]]; rewrite El; cbn [Z.eqb Pos.eqb addressed fold_left].
  - apply eeprom_ext; try done. cbn [addr_register]. apply Z.bits_inj'. intros i Hi.
    rewrite (take_address_bits _ _ _ H0) by done. change (addr_len d0) with (addr_len dev). rewrite El.
    match goal with |- _ = ?x => change x with (Z.testbit A i) end. rewrite <- (bit_of_A i).
    destruct (Z.ltb_spec i k); [cbn [andb]|done]. destruct (Z.ltb_spec i 8); [by apply low_byte_bit|].
    rewrite <- El. apply select_high. lia.
  - assert (shape k a0 (take_address (select dev A) ((A >>> 8) .& 0xff) d0)) as H1 by by apply take_address_shape.
    apply eeprom_ext; try done. cbn [addr_register]. apply Z.bits_inj'. intros i Hi.
    rewrite (take_address_bits _ _ _ H1) by done.
    change (addr_len (take_address _ _ d0)) with (addr_len dev). rewrite El.
    match goal with |- _ = ?x => change x with (Z.testbit A i) end. rewrite <- (bit_of_A i).
    destruct (Z.ltb_spec i k); [cbn [andb]|done]. destruct (Z.ltb_spec i 16).
    + destruct (Z.ltb_spec i 8); [by apply low_byte_bit|]. rewrite (take_address_bits _ _ _ H0) by (done || lia).
      change (addr_len d0) with (addr_len dev). rewrite El, !(proj2 (Z.ltb_lt _ _)) by lia. cbn [andb].
      rewrite low_byte_bit by lia. rewrite Z.shiftr_spec by lia. f_equal. lia.
    + rewrite <- El. apply select_high. lia.
Qed.
End addressed.

(** ** What is stored and what is read *)

(** Bytes from the address [A] on, the next one after the last being 0. *)
Fixpoint stored (size : Z) (m : list Z) (A : Z) (bs : list Z) : list Z :=
  match bs with
  | [] => m
  | b :: bs => stored size (<[Z.to_nat A := b]> m) ((A + 1) mod size) bs
  end.

Fixpoint fetched (size : Z) (m : list Z) (A : Z) (n : nat) : list Z :=
  match n with
  | O => []
  | S n => nth (Z.to_nat A) m 0 :: fetched size m ((A + 1) mod size) n
  end.

Lemma nth_insert_eq (l : list Z) i x : (i < length l)%nat -> nth i (<[i := x]> l) 0 = x.
Proof. intros Hi. apply nth_lookup_Some. by apply list_lookup_insert_eq. Qed.

Lemma nth_insert_ne (l : list Z) i j x : i <> j -> nth i (<[j := x]> l) 0 = nth i l 0.
Proof. intros Hi. rewrite !nth_lookup. by rewrite list_lookup_insert_ne. Qed.

Section cells.
Context (size : Z) (Hsize : 0 < size).

Lemma stored_length m A bs : length (stored size m A bs) = length m.
Proof. revert m A. induction bs as [|b bs IH]; intros m A; [done|]. cbn. rewrite IH. apply length_insert. Qed.

(** Storing fewer bytes than the memory has cells passes no cell twice. *)
Lemma stored_behind m A B bs :
  Z.of_nat (length m) = size -> 0 <= A < size -> 0 <= B < size ->
  (B - A) mod size + Z.of_nat (length bs) <= size -> 0 < (B - A) mod size \/ bs = [] ->
  nth (Z.to_nat A) (stored size m B bs) 0 = nth (Z.to_nat A) m 0.
Proof.
  revert m B. induction bs as [|b bs IH]; intros m B Hm HA HB Hlen Hpos; [done|]. cbn [stored length] in *.
  destruct Hpos as [Hpos|]; [|done].
  assert (A <> B) as Hne by (intros ->; by rewrite Z.sub_diag, Z.mod_0_l in Hpos by lia).
  pose proof (Z.mod_pos_bound (B - A) size ltac:(lia)).
  rewrite IH; [..|by rewrite length_insert|done|apply Z.mod_pos_bound; lia| |].
  - apply (nth_insert_ne m). lia.
  - assert (((B + 1) mod size - A) mod size = ((B - A) mod size + 1) mod size) as ->.
    { rewrite Zminus_mod_idemp_l, Zplus_mod_idemp_l. f_equal. lia. }
    destruct (decide ((B - A) mod size + 1 = size)) as [->|]; [rewrite Z.mod_same by lia; lia|].
    rewrite (Z.mod_small (_ + 1)) by lia. lia.
  - destruct bs; [by right|left]. cbn [length] in Hlen.
    assert (((B + 1) mod size - A) mod size = ((B - A) mod size + 1) mod size) as ->.
    { rewrite Zminus_mod_idemp_l, Zplus_mod_idemp_l. f_equal. lia. }
    rewrite Z.mod_small by lia. lia.
Qed.

(** Up to a memory full of bytes comes back as it was stored. *)
Lemma fetched_stored m A bs :
  Z.of_nat (length m) = size -> 0 <= A < size -> Z.of_nat (length bs) <= size ->
  fetched size (stored size m A bs) A (length bs) = bs.
Proof.
  revert m A. induction bs as [|b bs IH]; intros m A Hm HA Hlen; [done|]. cbn [stored fetched length] in *. f_equal.
  - assert (((A + 1) mod size - A) mod size = 1 mod size) as E.
    { rewrite Zminus_mod_idemp_l. f_equal. lia. }
    rewrite stored_behind; [|by rewrite length_insert|done|apply Z.mod_pos_bound; lia|..].
    + apply nth_insert_eq. lia.
    + rewrite E. destruct (decide (size = 1)) as [E1|]; [rewrite E1, Z.mod_1_r in *; lia|]. rewrite Z.mod_small by lia. lia.
    + rewrite E. destruct bs; [by right|]. left. cbn [length] in Hlen. rewrite Z.mod_small by lia. lia.
  - apply IH; [by rewrite length_insert|apply Z.mod_pos_bound; lia|lia].
Qed.
End cells.

(** ** The device on the bus *)

Section memory.
Context (k a0 : Z).

Lemma size_pos : 0 <= k -> 0 < 2 ^ k.
Proof. intros. by apply Z.pow_pos_nonneg. Qed.

(** Roll-over. *)
Lemma next_register dev : shape k a0 dev ->
  u32 (addr_register dev + 1) .& addr_mask dev = (addr_register dev + 1) mod 2 ^ k.
Proof.
  intros Hs. pose proof (sh_k _ _ _ Hs) as Hk. pose proof (sh_reg _ _ _ Hs) as Hr. rewrite (sh_mask _ _ _ Hs).
  rewrite land_mask by lia. rewrite wrap_id; [done|]. unfold in_width.
  assert (2 ^ k <= 2 ^ 23) by (apply Z.pow_le_mono_r; lia). change (2 ^ 23) with 8388608 in *. lia.
Qed.

Definition moved (dev : i2c_eeprom_t) (m : list Z) : i2c_eeprom_t :=
  dev <| data := m |> <| addr_register := (addr_register dev + 1) mod 2 ^ k |>.

Lemma moved_shape dev m : shape k a0 dev -> length m = length (data dev) -> shape k a0 (moved dev m).
Proof.
  intros [Hk Hl Hm Hd Hr Ha Ha0] Hlen. split; try done; cbn; [by rewrite Hlen|].
  apply Z.mod_pos_bound. apply size_pos. lia.
Qed.

Lemma eeprom_read_ok dev : shape k a0 dev ->
  i2c_eeprom_read dev = Some (nth (Z.to_nat (addr_register dev)) (data dev) 0, moved dev (data dev)).
Proof.
  intros Hs. unfold i2c_eeprom_read. rewrite (next_register _ Hs). unfold arr_get.
  pose proof (sh_reg _ _ _ Hs). pose proof (sh_data _ _ _ Hs). rewrite decide_True by lia.
  destruct (lookup_lt_is_Some_2 (data dev) (Z.to_nat (addr_register dev))) as [v Hv]; [lia|].
  rewrite Hv. cbn [mbind option_bind]. rewrite (nth_lookup_Some _ _ _ _ Hv). do 2 f_equal.
Qed.

Lemma eeprom_write_ok dev a v : shape k a0 dev -> addr_len dev <= addr_pos dev -> ctrue (writable dev) = true ->
  i2c_eeprom_write a v dev =
  Some (writable dev, moved dev (<[Z.to_nat (addr_register dev) := v]> (data dev))).
Proof.
  intros Hs Hp Hw. unfold i2c_eeprom_write. rewrite (proj2 (Z.ltb_ge _ _)) by done. rewrite Hw.
  pose proof (sh_reg _ _ _ Hs). pose proof (sh_data _ _ _ Hs).
  rewrite arr_set_Some by lia. cbn [mbind option_bind]. by rewrite (next_register _ Hs).
Qed.
End memory.

(** ** Sessions of the protocol *)

Lemma run_app {W} `{!I2cBus W} (l1 l2 : list transaction) (ph : phase) (w : W) :
  run protocol_step (l1 ++ l2) ph w =
  ('(os1, ph, w) ← run protocol_step l1 ph w; '(os2, ph, w) ← run protocol_step l2 ph w; Some (os1 ++ os2, ph, w)).
Proof.
  revert ph w. induction l1 as [|t l1 IH]; intros ph w; cbn [app run mbind option_bind].
  - by destruct (run protocol_step l2 ph w) as [[[? ?] ?]|].
  - destruct (protocol_step t ph w) as [[[o p1] w1]|]; cbn [mbind option_bind]; [|done]. rewrite IH.
    destruct (run protocol_step l1 p1 w1) as [[[os1 p2] w2]|]; cbn [mbind option_bind]; [|done].
    by destruct (run protocol_step l2 p2 w2) as [[[os2 p3] w3]|].
Qed.

Lemma run_app_known {W} `{!I2cBus W} (l1 l2 : list transaction) (ph ph1 : phase) (w w1 : W) os1 :
  run protocol_step l1 ph w = Some (os1, ph1, w1) ->
  run protocol_step (l1 ++ l2) ph w = ('(os2, ph, w) ← run protocol_step l2 ph1 w1; Some (os1 ++ os2, ph, w)).
Proof. intros E. by rewrite run_app, E. Qed.

Section sessions.
Context (k a0 : Z) (bus : I2c.i2c_bus_t) (p : ptr) (d : eeproms).
Context (base : Z) (n : Z) (Hat : attached bus p base n).
Context (a : Z) (Ha : base <= a < base + n) (Haddr : 0 <= a < 128).
Implicit Types (dev : i2c_eeprom_t).

Abbreviation at_ dev := (bus, <[p := dev]> d).

(** The data bytes of a write, and the reads. *)
Definition written dev (bs : list Z) : i2c_eeprom_t :=
  fold_left (fun dev b => moved k dev (<[Z.to_nat (addr_register dev) := b]> (data dev))) bs dev.

Lemma written_ok dev bs : shape k a0 dev ->
  shape k a0 (written dev bs) /\ data (written dev bs) = stored (2 ^ k) (data dev) (addr_register dev) bs /\
  writable (written dev bs) = writable dev /\ addr_pos (written dev bs) = addr_pos dev.
Proof.
  revert dev. induction bs as [|b bs IH]; intros dev Hs; [done|]. cbn [written fold_left].
  destruct (IH (moved k dev (<[Z.to_nat (addr_register dev) := b]> (data dev)))) as (H1 & H2 & H3 & H4);
    [by apply moved_shape; [|apply length_insert]|].
  split_and!; [exact H1|exact H2|exact H3|exact H4].
Qed.

Lemma address_sent dev l : 
  Z.of_nat (length l) * 8 = addr_len dev - addr_pos dev -> 0 <= addr_pos dev -> addr_len dev <= 16 ->
  run protocol_step (map Send l) (Writing a) (at_ dev) = Some (repeat 0 (length l), Writing a, at_ (addressed a l dev)).
Proof.
  revert dev. induction l as [|v l IH]; intros dev Hl Hp Hlen; [done|].
  cbn [map run protocol_step length repeat] in *. rewrite (write_call _ _ _ _ Hat _ Ha Haddr _ _ v 1 (take_address a v dev)).
  2: { unfold i2c_eeprom_write. rewrite (proj2 (Z.ltb_lt _ _)) by lia. done. }
  cbn [mbind option_bind]. rewrite IH; cbn [addr_len addr_pos take_address]; [done|..|done].
  - cbn. rewrite wrap_id by (unfold in_width; lia). lia.
  - cbn. rewrite wrap_id by (unfold in_width; lia). lia.
Qed.

Lemma data_sent dev bs :
  shape k a0 dev -> addr_len dev <= addr_pos dev -> 0 < writable dev < 256 ->
  run protocol_step (map Send bs) (Writing a) (at_ dev) = Some (repeat 0 (length bs), Writing a, at_ (written dev bs)).
Proof.
  revert dev. induction bs as [|v bs IH]; intros dev Hs Hp Hw; [done|].
  cbn [map run protocol_step length repeat written fold_left].
  assert (ctrue (writable dev) = true) as Hc by (unfold ctrue; apply negb_true_iff, Z.eqb_neq; lia).
  rewrite (write_call _ _ _ _ Hat _ Ha Haddr _ _ v _ _ (eeprom_write_ok k a0 dev a v Hs Hp Hc)).
  cbn [mbind option_bind]. rewrite wrap_id by (unfold in_width; lia). rewrite Hc. cbn [negb cbool].
  rewrite IH; [done|by apply moved_shape; [|apply length_insert]|done|done].
Qed.

(** [n] reads from the device. *)
Lemma data_received dev v m :
  shape k a0 dev ->
  exists dev', shape k a0 dev' /\
  run protocol_step (repeat (Recv true) m ++ [Recv false]) (Reading a v) (at_ dev) =
  Some (v :: map u8 (fetched (2 ^ k) (data dev) (addr_register dev) m), Reading a 0, at_ dev').
Proof.
  revert dev v. induction m as [|m IH]; intros dev v Hs; [by exists dev|].
  cbn [repeat app run protocol_step fetched map].
  rewrite (read_call _ _ _ _ Hat _ Ha Haddr _ _ _ _ (eeprom_read_ok k a0 dev Hs)). cbn [mbind option_bind].
  destruct (IH (moved k dev (data dev)) (u8 (nth (Z.to_nat (addr_register dev)) (data dev) 0))) as (dev' & Hs' & E);
    [by apply moved_shape|].
  exists dev'. split; [done|]. rewrite wrap_wrap, E by done. done.
Qed.
End sessions.

Section transfers.
Context (k a0 : Z) (bus : I2c.i2c_bus_t) (p : ptr) (d : eeproms) (base n : Z) (Hat : attached bus p base n).
Context (sel : Z) (Hsel : base <= sel < base + n) (Haddr : 0 <= sel < 128).

Abbreviation at_ dev := (bus, <[p := dev]> d).

Lemma address_byte_bits r : r = 0 \/ r = 1 ->
  (2 * sel + r) >>> 1 = sel /\ (2 * sel + r) .& 1 = r /\ Z.odd (2 * sel + r) = (r =? 1).
Proof.
  intros Hr. rewrite Z.shiftr_div_pow2 by done. change (2 ^ 1) with 2.
  change ((2 * sel + r) .& 1) with ((2 * sel + r) .& Z.ones 1). rewrite land_mask by done. change (2 ^ 1) with 2.
  rewrite (Z.add_comm (2 * sel)), Z.odd_add_mul_2, (Z.mul_comm 2), Z.div_add, Z.mod_add by done.
  destruct Hr as [-> | ->]; done.
Qed.

(** A start for writing, from whatever the bus was doing. *)
Lemma start_write ph dev :
  run protocol_step [Start; Send (2 * sel + 0)] ph (at_ dev) =
  Some ([0; 0], Writing sel, at_ (i2c_eeprom_start sel 0 dev).2).
Proof.
  cbn [run protocol_step mbind option_bind]. destruct (address_byte_bits 0) as (E1 & E2 & E3); [by left|].
  rewrite E1, E2, E3, (start_call _ _ _ _ Hat _ Hsel Haddr). done.
Qed.

Lemma start_read ph dev v dev' :
  i2c_eeprom_read dev = Some (v, dev') ->
  run protocol_step [Start; Send (2 * sel + 1)] ph (at_ dev) = Some ([0; 0], Reading sel (u8 v), at_ dev').
Proof.
  intros Hr. cbn [run protocol_step mbind option_bind]. destruct (address_byte_bits 1) as (E1 & E2 & E3); [by right|].
  rewrite E1, E2, E3, (start_call _ _ _ _ Hat _ Hsel Haddr). cbn [mbind option_bind Z.eqb Pos.eqb].
  change (ctrue 1) with true. cbn [i2c_eeprom_start snd]. change (ctrue 1) with true. cbv iota.
  rewrite (read_call _ _ _ _ Hat _ Hsel Haddr _ _ _ _ Hr). cbn [mbind option_bind]. by rewrite wrap_wrap.
Qed.

Lemma stop_ends ph dev : (exists v, ph = Reading sel v) \/ ph = Writing sel ->
  run protocol_step [Stop] ph (at_ dev) = Some ([0], Idle, at_ (i2c_eeprom_stop dev)).
Proof.
  intros Hph. destruct Hph as [[v ->]| ->]; cbn [run protocol_step];
    rewrite (stop_call _ _ _ _ Hat _ Hsel Haddr); done.
Qed.
End transfers.

(** What the data sheet of a memory of [2 ^ k] bytes at [a0] says: the
    device address for the memory address [A], the address bytes that follow
    it, a write of [bs] from [A] on and a read of [m + 1] bytes. *)
Definition wire_select (k a0 A : Z) : Z := (a0 .&~ Z.ones (high_bits k)) .| (A >>> (if 12 <=? k then 16 else 8)).
Definition wire_bytes (k A : Z) : list Z := if 12 <=? k then [(A >>> 8) .& 0xff; A .& 0xff] else [A .& 0xff].

Definition wire_address (k a0 A : Z) : list transaction :=
  [Start; Send (2 * wire_select k a0 A + 0)] ++ map Send (wire_bytes k A).

Definition write_session (k a0 A : Z) (bs : list Z) : list transaction :=
  wire_address k a0 A ++ map Send bs ++ [Stop].

Definition read_session (k a0 A : Z) (m : nat) : list transaction :=
  wire_address k a0 A ++ [Start; Send (2 * wire_select k a0 A + 1)] ++ (repeat (Recv true) m ++ [Recv false]) ++ [Stop].

Section sheet.
Context (k a0 A : Z) (HA : 0 <= A < 2 ^ k).
Implicit Types (dev : i2c_eeprom_t).

Lemma wire_select_ok dev : shape k a0 dev -> wire_select k a0 A = select dev A.
Proof.
  intros Hs. unfold wire_select, select, device_base.
  by rewrite (device_mask_ones _ _ _ Hs), (sh_addr _ _ _ Hs), (sh_len _ _ _ Hs).
Qed.

Lemma wire_bytes_ok dev : shape k a0 dev -> wire_bytes k A = address_bytes dev A.
Proof. intros Hs. unfold wire_bytes, address_bytes. rewrite (sh_len _ _ _ Hs). by destruct (12 <=? k). Qed.

Context (bus : I2c.i2c_bus_t) (p : ptr) (d : eeproms) (base n : Z) (Hat : attached bus p base n).

Definition on_block dev : Prop := base = device_base dev /\ n = device_mask dev + 1.

Lemma select_on_block dev : shape k a0 dev -> on_block dev ->
  base <= wire_select k a0 A < base + n /\ 0 <= wire_select k a0 A < 128.
Proof.
  intros Hs [-> ->]. rewrite (wire_select_ok _ Hs). pose proof (select_range _ _ _ Hs A HA).
  pose proof (base_block _ _ _ Hs). lia.
Qed.

Lemma wire_address_ok dev ph : shape k a0 dev -> on_block dev ->
  run protocol_step (wire_address k a0 A) ph (bus, <[p := dev]> d) =
  Some (repeat 0 (2 + length (wire_bytes k A)), Writing (wire_select k a0 A),
        (bus, <[p := dev <| addr_register := A |> <| addr_pos := addr_len dev |>]> d)).
Proof.
  intros Hs Hb. destruct (select_on_block _ Hs Hb) as [Hsel Hlt]. unfold wire_address.
  rewrite (run_app_known _ _ _ _ _ _ _ (start_write _ _ _ _ _ Hat _ Hsel Hlt ph dev)).
  cbn [i2c_eeprom_start snd]. change (ctrue 0) with false. cbv iota.
  assert (0 <= u32 (wire_select k a0 A <<< addr_len dev) .& addr_mask dev < 2 ^ k) as Hr.
  { rewrite (sh_mask _ _ _ Hs). pose proof (sh_k _ _ _ Hs). rewrite land_mask by lia.
    apply Z.mod_pos_bound. apply size_pos. lia. }
  rewrite (address_sent bus p d base n Hat _ Hsel Hlt).
  - cbn [mbind option_bind]. rewrite (wire_select_ok _ Hs), (wire_bytes_ok _ Hs), (addressed_register _ _ _ Hs A HA _) by
      by rewrite <- (wire_select_ok _ Hs). done.
  - cbn. unfold wire_bytes. rewrite (sh_len _ _ _ Hs). by destruct (12 <=? k).
  - done.
  - cbn. destruct (len_cases _ _ _ Hs); lia.
Qed.
End sheet.

Section transfer.
Context (k a0 A : Z) (HA : 0 <= A < 2 ^ k).
Context (bus : I2c.i2c_bus_t) (p : ptr) (d : eeproms) (base n : Z) (Hat : attached bus p base n).
Implicit Types (dev : i2c_eeprom_t).

Lemma write_session_ok dev ph bs :
  shape k a0 dev -> on_block base n dev -> 0 < writable dev < 256 ->
  exists dev', shape k a0 dev' /\ on_block base n dev' /\ data dev' = stored (2 ^ k) (data dev) A bs /\
    run protocol_step (write_session k a0 A bs) ph (bus, <[p := dev]> d) =
    Some (repeat 0 (2 + length (wire_bytes k A)) ++ repeat 0 (length bs) ++ [0], Idle, (bus, <[p := dev']> d)).
Proof.
  intros Hs Hb Hw. destruct (select_on_block _ _ _ HA _ _ _ _ Hat _ Hs Hb) as [Hsel Hlt].
  set (d1 := dev <| addr_register := A |> <| addr_pos := addr_len dev |>).
  assert (shape k a0 d1) as H1 by (destruct Hs; by split).
  destruct (written_ok k a0 d1 bs H1) as (Hs2 & Hd2 & Hw2 & Hp2).
  exists (i2c_eeprom_stop (written k d1 bs)). split_and!; [by destruct Hs2| | |].
  - assert (forall l dv, addr (written k dv l) = addr dv /\ addr_mask (written k dv l) = addr_mask dv /\
      addr_len (written k dv l) = addr_len dv) as Hk.
    { induction l as [|x l IH]; intros dv; [done|]. cbn [written fold_left]. by apply (IH (moved k dv _)). }
    destruct (Hk bs d1) as (E1 & E2 & E3). destruct Hb as [-> ->].
    unfold on_block, device_base, device_mask. cbn [i2c_eeprom_stop addr addr_mask addr_len].
    unfold i2c_eeprom_stop. cbn. by rewrite E1, E2, E3.
  - exact Hd2.
  - unfold write_session. rewrite (run_app_known _ _ _ _ _ _ _ (wire_address_ok k a0 A HA bus p d base n Hat dev ph Hs Hb)).
    fold d1. rewrite (run_app_known _ _ _ _ _ _ _
      (data_sent k a0 bus p d base n Hat _ Hsel Hlt d1 bs H1 ltac:(done) Hw)).
    rewrite (stop_ends bus p d base n Hat _ Hsel Hlt) by by right. done.
Qed.

Lemma read_session_ok dev ph m :
  shape k a0 dev -> on_block base n dev ->
  exists dev', shape k a0 dev' /\
    run protocol_step (read_session k a0 A m) ph (bus, <[p := dev]> d) =
    Some (repeat 0 (2 + length (wire_bytes k A)) ++ [0; 0] ++ map u8 (fetched (2 ^ k) (data dev) A (S m)) ++ [0],
          Idle, (bus, <[p := dev']> d)).
Proof.
  intros Hs Hb. destruct (select_on_block _ _ _ HA _ _ _ _ Hat _ Hs Hb) as [Hsel Hlt].
  set (d1 := dev <| addr_register := A |> <| addr_pos := addr_len dev |>).
  assert (shape k a0 d1) as H1 by (destruct Hs; by split).
  destruct (data_received k a0 bus p d base n Hat _ Hsel Hlt (moved k d1 (data d1))
    (u8 (nth (Z.to_nat A) (data dev) 0)) m) as (d2 & H2 & E2); [by apply moved_shape|].
  exists (i2c_eeprom_stop d2). split; [by destruct H2|]. unfold read_session.
  rewrite (run_app_known _ _ _ _ _ _ _ (wire_address_ok k a0 A HA bus p d base n Hat dev ph Hs Hb)). fold d1.
  rewrite (run_app_known _ _ _ _ _ _ _ (start_read bus p d base n Hat _ Hsel Hlt _ d1 _ _ (eeprom_read_ok k a0 d1 H1))).
  rewrite (run_app_known _ _ _ _ _ _ _ E2).
  rewrite (stop_ends bus p d base n Hat _ Hsel Hlt) by (left; eauto). done.
Qed.
End transfer.

(** ** Creation *)

Lemma log2i_loop_ok fuel i ret :
  0 <= i < 2 ^ Z.of_nat fuel -> 0 <= ret -> ret + Z.log2 i < 256 ->
  log2i_loop fuel i ret = ret + Z.log2 i.
Proof.
  revert i ret. induction fuel as [|fuel IH]; intros i ret Hi Hr Hl; cbn [log2i_loop].
  - cbn in Hi. replace i with 0 by lia. cbn. lia.
  - rewrite Nat2Z.inj_succ, Z.pow_succ_r in Hi by lia. rewrite Z.shiftr_div_pow2 by done. change (2 ^ 1) with 2.
    assert (0 <= i / 2 < 2 ^ Z.of_nat fuel) by (split; [apply Z.div_pos; lia|apply Z.div_lt_upper_bound; lia]).
    destruct (Z.eqb_spec (i / 2) 0) as [E|E].
    + assert (i < 2) by (pose proof (Z.div_mod i 2 ltac:(lia)); pose proof (Z.mod_pos_bound i 2 ltac:(lia)); lia).
      assert (i = 0 \/ i = 1) as [-> | ->] by lia; cbn; lia.
    + assert (Z.log2 i = 1 + Z.log2 (i / 2)) as El.
      { assert (2 <= i) as H2 by (destruct (decide (2 <= i)); [done|]; by rewrite Z.div_small in E by lia).
        pose proof (Z.log2_shiftr i 1 ltac:(lia)) as Hs. rewrite Z.shiftr_div_pow2 in Hs by done. change (2 ^ 1) with 2 in Hs.
        assert (1 <= Z.log2 i); [|lia]. change 1 with (Z.log2 2). by apply Z.log2_le_mono. }
      pose proof (Z.log2_nonneg (i / 2)). rewrite wrap_id by (unfold in_width; lia). rewrite IH; lia.
Qed.

Lemma log2i_ok i : 0 <= i < 2 ^ 32 -> log2i i = Z.log2 i.
Proof.
  intros Hi. unfold log2i. rewrite log2i_loop_ok; [lia|done|done|].
  destruct (decide (i = 0)) as [->|]; [done|]. pose proof (proj1 (Z.log2_lt_pow2 i 32 ltac:(lia)) ltac:(lia)). lia.
Qed.

(** Any size from 1 byte to 2 GB less one is given to the device as the
    next power of two, and no more than the 8 MB that 7 address bits and 16
    command bits reach. *)
Theorem eeprom_size_bounds size :
  1 <= size < 2 ^ 31 ->
  exists k, eeprom_size size = Some (2 ^ k) /\ 0 <= k <= 23 /\ (k < 23 -> size <= 2 ^ k) /\ 2 ^ k < 2 * size.
Proof.
  intros Hs. unfold eeprom_size. rewrite log2i_ok by lia.
  assert (Z.log2 size < 31) as Hl by (apply Z.log2_lt_pow2; lia).
  pose proof (Z.log2_spec size ltac:(lia)) as Hspec. pose proof (Z.log2_nonneg size) as H0.
  rewrite (proj2 (Z.leb_gt 31 _)) by lia. rewrite Z.shiftl_1_l.
  assert (forall m, size <= 2 ^ m -> 2 ^ m < 2 * size -> 0 <= m -> exists k,
    (if 8388608 <=? 2 ^ m then Some 8388608 else Some (2 ^ m)) = Some (2 ^ k) /\
    0 <= k <= 23 /\ (k < 23 -> size <= 2 ^ k) /\ 2 ^ k < 2 * size) as Hm.
  { intros m Hle Hlt Hm. change 8388608 with (2 ^ 23). destruct (Z.leb_spec (2 ^ 23) (2 ^ m)).
    - exists 23. split_and!; [done|lia..].
    - exists m. assert (m < 23) by (apply (Z.pow_lt_mono_r_iff 2); lia). split_and!; [done|lia..]. }
  rewrite Z.pow_succ_r in Hspec by done.
  destruct (Z.ltb_spec (2 ^ Z.log2 size) size).
  - rewrite Z.shiftl_mul_pow2 by done. replace (2 ^ Z.log2 size * 2 ^ 1) with (2 ^ (Z.log2 size + 1)) in *
      by (rewrite Z.pow_add_r by lia; done).
    destruct (Hm (Z.log2 size + 1)) as (k & Hk); [rewrite Z.pow_add_r by lia; lia..|lia|]. exists k.
    by destruct (8388608 <=? 2 ^ (Z.log2 size + 1)).
  - assert (size = 2 ^ Z.log2 size) as E by lia. destruct (Hm (Z.log2 size)) as (k & Hk); [lia..|]. exists k.
    rewrite <- E in Hk. by destruct (8388608 <=? size).
Qed.

Lemma i2c_eeprom_init_ok p name a0 buf size w d k :
  eeprom_size size = Some (2 ^ k) -> 0 <= k <= 23 -> 0 <= a0 < 128 -> Z.of_nat (length buf) = 2 ^ k ->
  exists bus dev base n,
    i2c_eeprom_init p (Some (I2c.i2c_addbus name)) a0 buf size w d = Some (Some bus, <[p := dev]> d) /\
    shape k a0 dev /\ on_block base n dev /\ attached bus p base n /\ data dev = buf /\ writable dev = w.
Proof.
  intros Hsize Hk Ha0 Hbuf. unfold i2c_eeprom_init. rewrite Hsize. cbn [mbind option_bind].
  assert (2 ^ k <= 2 ^ 23) as Hle by (apply Z.pow_le_mono_r; lia). change (2 ^ 23) with 8388608 in Hle.
  pose proof (size_pos k ltac:(lia)) as Hpos.
  set (dev := mkEeprom a0 buf w (u32 (2 ^ k - 1)) 0 (if 4096 <=? 2 ^ k then 16 else 8) 0).
  assert (shape k a0 dev) as Hs.
  { split; try done; cbn [addr_len addr_mask addr_register dev]; [|rewrite wrap_id by (unfold in_width; lia)].
    - change 4096 with (2 ^ 12). destruct (Z.leb_spec 12 k) as [H|H].
      + rewrite (proj2 (Z.leb_le _ _)); [done|]. apply Z.pow_le_mono_r; lia.
      + rewrite (proj2 (Z.leb_gt _ _)); [done|]. apply Z.pow_lt_mono_r; lia.
    - rewrite Z.ones_equiv. lia. }
  destruct (base_block _ _ _ Hs) as (Hb0 & Hb1 & Hb2).
  destruct (I2c.i2c_register_ok (I2c.Set_ (device_base dev) (device_mask dev + 1) (eeprom_ops p))
    (I2c.i2c_addbus name) _ Hb0 (I2c.addbus_represents name)) as (bus & E & Hr).
  cbn [I2c.register] in E. rewrite E. cbn [mbind option_bind].
  exists bus, dev, (device_base dev), (device_mask dev + 1). split_and!; [done|done|by split| |done|done].
  cbn [I2c.spec_register] in Hr. unfold I2c.NADDRS in Hr. rewrite (proj2 (Z.ltb_ge _ _)) in Hr by lia. exact Hr.
Qed.

(** ** All the way from the lines to the cells *)

Section well_formed.
Context (k a0 A : Z) (Hsel : 0 <= wire_select k a0 A < 128).

Lemma well_formed_sends l l2 : Forall is_u8 l -> well_formed (map Send l ++ l2) Writes = well_formed l2 Writes.
Proof.
  induction 1 as [|b l Hb Hl IH]; [done|]. cbn [map app well_formed next_role]. destruct Hb as [H1 H2].
  change (2 ^ 8) with 256 in H2. by rewrite (proj2 (Z.leb_le _ _)), (proj2 (Z.ltb_lt _ _)) by lia.
Qed.

Lemma well_formed_start r l role : r = 0 \/ r = 1 ->
  well_formed ([Start; Send (2 * wire_select k a0 A + r)] ++ l) role = well_formed l (if r =? 1 then Reads else Writes).
Proof.
  intros Hr. cbn [app well_formed next_role]. rewrite (proj2 (Z.leb_le _ _)), (proj2 (Z.ltb_lt _ _)) by lia.
  rewrite Z.add_comm, Z.odd_add_mul_2. by destruct Hr as [-> | ->].
Qed.

Lemma well_formed_address l role : well_formed (wire_address k a0 A ++ l) role = well_formed l Writes.
Proof.
  unfold wire_address. rewrite <- app_assoc, well_formed_start by by left. cbn [Z.eqb]. apply well_formed_sends.
  unfold wire_bytes. destruct (12 <=? k); repeat (apply Forall_cons_2; [apply low_byte_range|]); by apply Forall_nil_2.
Qed.

Lemma well_formed_recvs m l : well_formed ((repeat (Recv true) m ++ [Recv false]) ++ l) Reads = well_formed l Reads.
Proof. induction m as [|m IH]; [done|]. exact IH. Qed.

Lemma sessions_well_formed bs m : Forall is_u8 bs ->
  well_formed (write_session k a0 A bs ++ read_session k a0 A m) NoBus = true.
Proof.
  intros Hbs. unfold write_session, read_session.
  rewrite <- !app_assoc, well_formed_address, well_formed_sends by done.
  cbn [app well_formed next_role]. rewrite well_formed_address.
  change (?x :: ?y :: ?l) with ([x; y] ++ l). rewrite well_formed_start by by right. cbn [Z.eqb Pos.eqb].
  change [Recv false; Stop] with ([Recv false] ++ [Stop]). rewrite app_assoc. by rewrite well_formed_recvs.
Qed.
End well_formed.

Lemma map_u8 l : Forall is_u8 l -> map u8 l = l.
Proof. induction 1 as [|x l Hx Hl IH]; [done|]. cbn [map]. by rewrite wrap_id, IH. Qed.

(** C39: What a driver writes to a memory bit by bit on the two lines, it
    reads back bit by bit: on a bus with a memory of [2 ^ k] bytes made by
    [i2c_eeprom_init], every byte of a write from any address on, which may
    roll over the end, is acknowledged, and a read of as many bytes from
    there gives them, whatever the memory held before. *)
Theorem eeprom_bits_round_trip p name a0 buf size w d k A bs b :
  eeprom_size size = Some (2 ^ k) -> 0 <= k <= 23 -> 0 <= a0 < 128 -> Z.of_nat (length buf) = 2 ^ k ->
  0 < w < 256 -> 0 <= A < 2 ^ k -> Forall is_u8 (b :: bs) -> Z.of_nat (length (b :: bs)) <= 2 ^ k ->
  exists bus d0 d1 gpio,
    i2c_eeprom_init p (Some (I2c.i2c_addbus name)) a0 buf size w d = Some (Some bus, d0) /\
    run (transact 1) (write_session k a0 A (b :: bs) ++ read_session k a0 A (length bs)) i2c_gpio_init (bus, d0) =
    Some ((repeat 0 (2 + length (wire_bytes k A)) ++ repeat 0 (length (b :: bs)) ++ [0]) ++
          repeat 0 (2 + length (wire_bytes k A)) ++ [0; 0] ++ (b :: bs) ++ [0], gpio, (bus, d1)).
Proof.
  intros Hsize Hk Ha0 Hbuf Hw HA Hbs Hlen.
  destruct (i2c_eeprom_init_ok p name a0 buf size w d k) as (bus & dev & base & n & E & Hs & Hb & Hat & Hd & Hwr);
    [assumption..|].
  destruct (select_on_block _ _ _ HA _ _ _ _ Hat _ Hs Hb) as [_ Hsel]. subst buf w.
  destruct (write_session_ok k a0 A HA bus p d base n Hat dev Idle (b :: bs) Hs Hb Hw) as (d1 & Hs1 & Hb1 & Hd1 & E1).
  destruct (read_session_ok k a0 A HA bus p d base n Hat d1 Idle (length bs) Hs1 Hb1) as (d2 & _ & E2).
  pose proof (transactions_ok (write_session k a0 A (b :: bs) ++ read_session k a0 A (length bs)) Idle i2c_gpio_init
    (bus, <[p := dev]> d) idle_init (sessions_well_formed k a0 A Hsel (b :: bs) (length bs) Hbs)) as H.
  rewrite (run_app_known _ _ _ _ _ _ _ E1), E2 in H. cbn [mbind option_bind] in H. destruct H as (g & H & _).
  exists bus, (<[p := dev]> d), (<[p := d2]> d), g. split; [exact E|]. rewrite H. do 4 f_equal.
  assert (fetched (2 ^ k) (data d1) A (length (b :: bs)) = b :: bs) as Ef.
  { rewrite Hd1. apply fetched_stored; [apply size_pos; lia|assumption..]. }
  cbn [length] in Ef. rewrite Ef. do 4 f_equal. by apply map_u8.
Qed.

Lemma eeprom_bits_round_trip_witness :
  eeprom_size 2 = Some (2 ^ 1) /\
  exists bus d0 d1 gpio,
    i2c_eeprom_init 7 (Some (I2c.i2c_addbus String.EmptyString)) 0x50 [0; 0] 2 1 ∅ = Some (Some bus, d0) /\
    run (transact 1) (write_session 1 0x50 1 [0xa5; 0x3c] ++ read_session 1 0x50 1 1) i2c_gpio_init (bus, d0) =
    Some ([0; 0; 0; 0; 0; 0; 0; 0; 0; 0; 0; 0xa5; 0x3c; 0], gpio, (bus, d1)).
Proof.
  split; [by vm_compute|].
  apply (eeprom_bits_round_trip 7 String.EmptyString 0x50 [0; 0] 2 1 ∅ 1 1 [0x3c] 0xa5); try (vm_compute; done); try lia.
  repeat (apply Forall_cons_2; [by vm_compute|]). by apply Forall_nil_2.
Defined.

Lemma eeprom_size_bounds_witness :
  exists k, eeprom_size 384 = Some (2 ^ k) /\ 0 <= k <= 23 /\ (k < 23 -> 384 <= 2 ^ k) /\ 2 ^ k < 2 * 384.
Proof. apply (eeprom_size_bounds 384). lia. Defined.
