(* ===== verification/NvrAt.v ===== *)
(** * NvrAt: the real-time clock of the AT, src/src/nvr_at.c

    The MC146818 and its descendants: the time registers over the clock of
    [Nvr], update cycle, alarm, periodic interrupt, the interrupt line, the
    CMOS memory with its banks, locks and the corrections for some BIOSes,
    and the ports.  Its timers are on the queue of [Timer]; the interrupt
    controller and the rest of the machine are the interface [RtcMachine].
    [None] is undefined behaviour: an index outside an array, a shift by a
    negative number, a signed overflow. *)
From S2P Require Import Prelude.
From S2P Require Timer Io Nvr.

Abbreviation ptr := Z.

(** ** Registers and bits *)

Definition RTC_SECONDS : Z := 0.
Definition RTC_MINUTES : Z := 2.
Definition RTC_HOURS : Z := 4.
Definition RTC_AMPM : Z := 0x80.
Definition RTC_DOW : Z := 6.
Definition RTC_DOM : Z := 7.
Definition RTC_MONTH : Z := 8.
Definition RTC_YEAR : Z := 9.
Definition RTC_REGA : Z := 10.
Definition REGA_UIP : Z := 0x80.
Definition REGA_RS : Z := 0x0f.
Definition RTC_REGB : Z := 11.
Definition REGB_SET : Z := 0x80.
Definition REGB_PIE : Z := 0x40.
Definition REGB_AIE : Z := 0x20.
Definition REGB_UIE : Z := 0x10.
Definition REGB_SQWE : Z := 0x08.
Definition REGB_DM : Z := 0x04.
Definition REGB_2412 : Z := 0x02.
Definition RTC_REGC : Z := 12.
Definition REGC_IRQF : Z := 0x80.
Definition REGC_PF : Z := 0x40.
Definition REGC_AF : Z := 0x20.
Definition REGC_UF : Z := 0x10.
Definition RTC_REGD : Z := 13.
Definition REGD_VRT : Z := 0x80.
Definition RTC_CENTURY_VIA : Z := 0x7f.

Definition FLAG_ZERO_DEFAULT : Z := 0x0001.
Definition FLAG_NO_NMI : Z := 0x0002.
Definition FLAG_MULTI_ADDRESS : Z := 0x0004.
Definition FLAG_MULTI_BANK : Z := 0x0008.
Definition FLAG_PIIX4 : Z := 0x0010.
Definition FLAG_MARTIN_HACK : Z := 0x0040.
Definition FLAG_AMI_1992_HACK : Z := 0x0080.
Definition FLAG_AMI_1994_HACK : Z := 0x0100.
Definition FLAG_P6RP4_HACK : Z := 0x0200.
Definition FLAG_AMI_1995_HACK : Z := 0x0400.
Definition FLAG_AMI_1999_HACK : Z := 0x0800.
Definition FLAG_AMI_1999J_HACK : Z := 0x1000.

Definition RTC_BCD (x : Z) : Z := Z.rem x 10 .| (Z.quot x 10 <<< 4).
Definition RTC_DCB (x : Z) : Z := ((x .& 0xf0) >>> 4) * 10 + (x .& 0x0f).

(** ** State *)

(** [local_t]; timers are addresses in the queue, [rtc_time] is not used. *)
Record local_t := mkLocal {
  stat : Z;
  cent : Z;
  def : Z;
  read_addr : Z;
  wp_0d : Z;
  wp_32 : Z;
  irq_state : Z;
  smi_status : Z;
  wp : list Z;
  bank : list Z;
  lock : list Z;
  count : Z;
  state : Z;
  hacks : Z;          (* [flags] *)
  default_addr : Z;
  addr : list Z;
  smi_enable : Z;
  ecount : Z;
  update_timer : ptr;
  rtc_timer : ptr;
}.

(** The device ([nvr_t] with its [irq] and [data]), the clock of nvr.c, and
    the timer queue, whose payload [E] is the rest of the machine. *)
Record rtc {E : Type} := mkRtc {
  nvr : Nvr.nvr_t;
  irq : Z;
  local : local_t;
  intclk : Nvr.tm;
  nvr_dosave : Z;
  nmi_mask : Z;
  queue : Timer.world E;
}.
Arguments rtc : clear implicits.
Arguments mkRtc {E}.

Class RtcMachine (E : Type) := {
  picintlevel : Z -> Z -> E -> option (Z * E);   (* line, [*irq_state] *)
  picintclevel : Z -> Z -> E -> option (Z * E);
  smi_raise : E -> E;
  isa_delay : E -> E;                            (* [cycles -= ISA_CYCLES(8)] *)
  alt_access : E -> bool;
  at_bx6 : bool;                                 (* the machine is an Abit BX6 *)
  RTCCONST : Z;
  time_sync : Z;
}.

(** ** The time in the registers *)

Definition time_get (r : list Z) (cent : Z) : option Nvr.tm :=
  b ← arr_get r RTC_REGB;
  let dcb x := if ctrue (b .& REGB_DM) then x else RTC_DCB x in
  sec ← arr_get r RTC_SECONDS; min ← arr_get r RTC_MINUTES; hours ← arr_get r RTC_HOURS;
  dow ← arr_get r RTC_DOW; dom ← arr_get r RTC_DOM; month ← arr_get r RTC_MONTH; year ← arr_get r RTC_YEAR;
  let temp := swrap 8 (dcb hours) in
  year ← (if cent =? 0xff then Some (dcb year)
          else c ← arr_get r cent; Some (dcb year + (dcb c * 100 - 1900)));
  let hour := if ctrue (b .& REGB_2412) then temp
              else Z.rem (temp .&~ RTC_AMPM) 12 + (if ctrue (temp .& RTC_AMPM) then 12 else 0) in
  Some (Nvr.mkTm (dcb sec) (dcb min) hour (dcb dom) (dcb month - 1) year (dcb dow - 1)).

Definition put (i v : Z) (r : list Z) : option (list Z) := arr_set r i (u8 v).

(** The hours register: 12 stands for 0, the top bit for the afternoon. *)
Definition hours_register (bcd : Z -> Z) (b hour : Z) : Z :=
  if ctrue (b .& REGB_2412) then u8 (bcd hour)
  else
    let h := u8 (if ctrue (Z.rem hour 12) then bcd (Z.rem hour 12) else bcd 12) in
    if 11 <? hour then h .| RTC_AMPM else h.

Definition time_set (t : Nvr.tm) (cent : Z) (r : list Z) : option (list Z) :=
  year ← Nvr.int_add (Nvr.tm_year t) 1900;
  b ← arr_get r RTC_REGB;
  let bcd x := if ctrue (b .& REGB_DM) then x else RTC_BCD x in
  r ← put RTC_SECONDS (bcd (Nvr.tm_sec t)) r;
  r ← put RTC_MINUTES (bcd (Nvr.tm_min t)) r;
  r ← put RTC_DOW (bcd (Nvr.tm_wday t + 1)) r;
  r ← put RTC_DOM (bcd (Nvr.tm_mday t)) r;
  r ← put RTC_MONTH (bcd (Nvr.tm_mon t + 1)) r;
  r ← put RTC_YEAR (bcd (Z.rem year 100)) r;
  r ← (if cent =? 0xff then Some r else put cent (bcd (Z.quot year 100)) r);
  b ← arr_get r RTC_REGB;
  put RTC_HOURS (hours_register bcd b (Nvr.tm_hour t)) r.

(** ** Alarm, interrupt and timers *)

Section rtc.
Context {E : Type} `{!RtcMachine E}.
Implicit Types w : rtc E.

Definition regs w : list Z := Nvr.regs (nvr w).
Definition set_regs (r : list Z) w : rtc E := w <| nvr ::= fun n => n <| Nvr.regs := r |> |>.
Definition reg (i : Z) w : option Z := arr_get (regs w) i.
Definition put_reg (i v : Z) w : option (rtc E) := r ← put i v (regs w); Some (set_regs r w).
Definition on_queue (f : Timer.world E -> option (Timer.world E)) w : option (rtc E) :=
  q ← f (queue w); Some (w <| queue := q |>).
Definition on_machine (f : E -> E) w : rtc E := w <| queue ::= fun q => q <| Timer.dev := f (Timer.dev q) |> |>.






(** [picintlevel (1 << nvr->irq, &local->irq_state)] or [picintclevel];
    [irq] is -1 for a clock without an interrupt. *)
Definition pic_line (f : Z -> Z -> E -> option (Z * E)) w : option (rtc E) :=
  if irq w <? 0 then None else
  '(st, e) ← f (1 <<< irq w) (irq_state (local w)) (Timer.dev (queue w));
  Some (w <| local ::= (fun l => l <| irq_state := st |>) |> <| queue ::= (fun q => q <| Timer.dev := e |>) |>).

Definition raise_smi w : rtc E :=
  if ctrue (smi_enable (local w))
  then (on_machine smi_raise w) <| local ::= fun l => l <| smi_status := 1 |> |>
  else w.

Definition timer_update_irq w : option (rtc E) :=
  b ← reg RTC_REGB w; c ← reg RTC_REGC w;
  let irq := b .& c .& (REGB_UIE .| REGB_AIE .| REGB_PIE) in
  if ctrue irq || negb (irq_state (local w) =? cbool (ctrue irq)) then
    if ctrue irq then
      w ← put_reg RTC_REGC (c .| REGC_IRQF) w;
      w ← pic_line picintlevel w;
      Some (raise_smi w)
    else
      w ← put_reg RTC_REGC (c .&~ REGC_IRQF) w;
      pic_line picintclevel w
  else Some w.


Definition usec (n : Z) w : Z := u64 (n * Timer.TIMER_USEC (queue w)).

Definition set_delay (x : ptr) (delay : Z) : rtc E -> option (rtc E) :=
  on_queue (Timer.timer_set_delay_u64 (Some x) delay).






(** The periodic interrupt; the count is an [int16_t]. *)
Definition timer_load_count w : option (rtc E) :=
  a ← reg RTC_REGA w;
  let c := a .& REGA_RS in
  w ← on_queue (Timer.timer_disable (Some (rtc_timer (local w)))) w;
  if negb (a .& 0x70 =? 0x20) then Some (w <| local ::= fun l => l <| state := 0 |> |>)
  else
    if c =? 0 then Some (w <| local ::= fun l => l <| state := 0 |> |>)
    else
      let n := 1 <<< (if c <=? 2 then c + 6 else c - 1) in
      let w := w <| local ::= (fun l => l <| state := 1 |> <| count := swrap 16 n |>) |> in
      set_delay (rtc_timer (local w)) (u64 (count (local w) * RTCCONST)) w.



(** ** Accesses *)

Definition has_flag (f : Z) w : bool := ctrue (hacks (local w) .& f).
Definition old_image w : rtc E := w <| nvr ::= fun n => n <| Nvr.is_new := 0 |> |>.

(** The writes after which an image counts as set up. *)
Definition mark_old (r : Z) w : rtc E :=
  if existsb (fun '(i, f) => (r =? i) && has_flag f w)
       [(0x2c, FLAG_AMI_1994_HACK); (0x2d, FLAG_AMI_1992_HACK); (0x52, FLAG_AMI_1995_HACK);
        (0x54, FLAG_AMI_1999_HACK); (0x55, FLAG_AMI_1999J_HACK)]
  then old_image w else w.

Definition nvr_reg_common_write (r v : Z) w : option (rtc E) :=
  l ← arr_get (lock (local w)) r;
  if ctrue l then Some w else
  let w := mark_old r w in
  wp0 ← arr_get (wp (local w)) 0; wp1 ← arr_get (wp (local w)) 1;
  if (0x38 <=? r) && (r <=? 0x3f) && ctrue wp0 then Some w
  else if (0xb8 <=? r) && (r <=? 0xbf) && ctrue wp1 then Some w
  else
    old ← reg r w;
    if old =? v then Some w else
    w ← put_reg r v w;
    Some (if (0x0d <=? r) && ((cent (local w) =? 0xff) || negb (r =? cent (local w)))
          then w <| nvr_dosave := 1 |> else w).

Definition write_rega (v : Z) w : option (rtc E) :=
  a ← reg RTC_REGA w;
  if ctrue (v .& a .&~ REGA_UIP) then
    w ← put_reg RTC_REGA ((a .& REGA_UIP) .| (v .&~ REGA_UIP)) w;
    timer_load_count w
  else Some w.

(** Also gives the value as the rest of [nvr_reg_write] sees it. *)
Definition write_regb (old v : Z) w : option (Z * rtc E) :=
  let '(v, w) :=
    if ctrue ((Z.lxor old v) .& REGB_SET) && ctrue (v .& REGB_SET)
    then (v .&~ REGB_UIE, w <| local ::= fun l => l <| stat := swrap 8 (stat l .&~ REGA_UIP) |> |>)
    else (v, w) in
  w ← put_reg RTC_REGB v w;
  w ← timer_update_irq w;
  Some (v, w).

Definition write_reg (r old v : Z) w : option (Z * rtc E) :=
  if r =? RTC_SECONDS then w ← nvr_reg_common_write r (v .& 0x7f) w; Some (v, w)
  else if r =? RTC_REGA then w ← write_rega v w; Some (v, w)
  else if r =? RTC_REGB then write_regb old v w
  else if r =? RTC_REGC then Some (v, w)
  else if r =? RTC_REGD then w ← put_reg RTC_REGD (v .& 0x80) w; Some (v, w)
  else if r =? 0x32 then
    if (cent (local w) =? RTC_CENTURY_VIA) && ctrue (wp_32 (local w)) then Some (v, w)
    else w ← nvr_reg_common_write r v w; Some (v, w)
  else if r =? 0x39 then
    w ← nvr_reg_common_write r (if at_bx6 then v .| 0x08 else v) w; Some (v, w)
  else w ← nvr_reg_common_write r v w; Some (v, w).

(** The registers whose writes set the clock. *)
Definition is_time (r : Z) w : bool :=
  ((r <? RTC_REGA) || (negb (cent (local w) =? 0xff) && (r =? cent (local w))))
  && negb (r =? 1) && negb (r =? 3) && negb (r =? 5).

Definition set_clock w : option (rtc E) :=
  t ← time_get (regs w) (cent (local w));
  clk ← Nvr.nvr_time_set t;
  Some (w <| intclk := clk |>).

Definition nvr_reg_write (r v : Z) w : option (rtc E) :=
  old ← reg r w;
  '(v, w) ← write_reg r old v w;
  if is_time r w && negb (old =? v) then set_clock w else Some w.

Definition nvr_write_index (addr_id v : Z) w : option (rtc E) :=
  let a := v .& (Nvr.size (nvr w) - 1) in
  bk ← arr_get (bank (local w)) addr_id;
  let a :=
    if addr_id =? 0 then
      let a := a .& 0x7f in if has_flag FLAG_MULTI_BANK w then a .| (0x80 * bk) else a
    else if (addr_id =? 1) && has_flag FLAG_PIIX4 w then (a .& 0x7f) .| 0x80 else a in
  let a := if 0 <? bk then (a .& 0x7f) .| (0x80 * bk) else a in
  addrs ← arr_set (addr (local w)) addr_id (u16 a);
  let w := w <| local ::= (fun l => l <| addr := addrs |>) |> in
  Some (if has_flag FLAG_NO_NMI w then w else w <| nmi_mask := 0x80 .&~ v |>).

Definition nvr_write (port v : Z) w : option (rtc E) :=
  let addr_id := (port .& 0x0e) >>> 1 in
  let w := on_machine isa_delay w in
  bk ← arr_get (bank (local w)) addr_id;
  if bk =? 0xff then Some w
  else if ctrue (port .& 1) then a ← arr_get (addr (local w)) addr_id; nvr_reg_write a v w
  else nvr_write_index addr_id v w.

Definition nvr_get_index (addr_id : Z) w : option Z := a ← arr_get (addr (local w)) addr_id; Some (u8 a).

(** *** Reading: checksums as the BIOS expects them *)

(** The sum of registers, one of them corrected. *)
Fixpoint checksum (l : list Z) (which : Z) (fix_ : Z -> Z) (sum : Z) w : option Z :=
  match l with
  | [] => Some sum
  | i :: l =>
      v ← reg i w;
      checksum l which fix_ (u16 (sum + (if i =? which then fix_ v else v))) w
  end.

Definition range (first last : Z) : list Z := seqZ first (last - first + 1).

(** A byte of a checksum, the high one at the even address. *)
Definition checksum_byte (high : bool) (l : list Z) (which : Z) (fix_ : Z -> Z) w : option Z :=
  sum ← checksum l which fix_ 0 w; Some (if high then sum >>> 8 else sum .& 0xff).

Definition read_2e (i : Z) w : option Z :=
  let on f := (Nvr.is_new (nvr w) =? 0) && has_flag f w in
  let sum := checksum_byte (i =? 0x2e) (range 0x10 0x2d) in
  if on FLAG_AMI_1992_HACK then sum 0x2d (fun v => v .& 0xf7) w
  else if on FLAG_AMI_1994_HACK then sum 0x2c (fun v => v .& 0x7f) w
  else if on FLAG_MARTIN_HACK then sum 0x11 (fun v => v .| 0x02) w
  else reg i w.

Definition read_3e (i : Z) w : option Z :=
  let on f := (Nvr.is_new (nvr w) =? 0) && has_flag f w in
  let sum last := checksum_byte (i =? 0x3e) (range 0x37 0x3d ++ range 0x40 last) in
  if on FLAG_AMI_1995_HACK then sum 0x7f 0x52 (fun v => v .& 0xf3) w
  else if on FLAG_AMI_1999_HACK then sum 0x73 0x54 (fun v => v .& 0x3f) w
  else if on FLAG_AMI_1999J_HACK then sum 0x73 0x55 (fun v => v .& 0xfc) w
  else if on FLAG_P6RP4_HACK then sum 0x51 0x43 (fun v => v .| 0x02) w
  else reg i w.

(** A register of an old image corrected for a BIOS. *)
Definition read_fixed (i : Z) (on : bool) (fix_ : Z -> Z) w : option Z :=
  v ← reg i w; Some (if on then fix_ v else v).

(** A register that may be locked against reading. *)
Definition read_lockable (i : Z) (fix_ : Z -> Z) w : option Z :=
  l ← arr_get (lock (local w)) i;
  if ctrue (l .& 0x02) then Some 0xff else v ← reg i w; Some (fix_ v).

Definition read_regc w : option (Z * rtc E) :=
  c ← reg RTC_REGC w;
  let m := REGC_IRQF .| REGC_PF .| REGC_AF .| REGC_UF in
  w ← put_reg RTC_REGC (c .&~ m) w;
  w ← timer_update_irq w;
  Some (c .& m, w).

(** A [case] per register. *)
Definition read_reg (i : Z) w : option (Z * rtc E) :=
  let on f := (Nvr.is_new (nvr w) =? 0) && has_flag f w in
  let pure v := v ← v; Some (v, w) in
  if i =? RTC_REGA then a ← reg RTC_REGA w; Some (u8 ((a .& 0x7f) .| stat (local w)), w)
  else if i =? RTC_REGC then read_regc w
  else if i =? RTC_REGD then Some (REGD_VRT, w)
  else if i =? 0x11 then pure (read_fixed i (has_flag FLAG_MARTIN_HACK w) (fun v => v .| 0x02) w)
  else if i =? 0x2c then pure (read_fixed i (on FLAG_AMI_1994_HACK) (fun v => v .& 0x7f) w)
  else if i =? 0x2d then pure (read_fixed i (on FLAG_AMI_1992_HACK) (fun v => v .& 0xf7) w)
  else if (i =? 0x2e) || (i =? 0x2f) then pure (read_2e i w)
  else if i =? 0x39 then pure (read_lockable i (fun v => if at_bx6 then v .| 0x08 else v) w)
  else if (i =? 0x3e) || (i =? 0x3f) then pure (read_3e i w)
  else if i =? 0x43 then pure (read_fixed i (on FLAG_P6RP4_HACK) (fun v => v .| 0x02) w)
  else if i =? 0x52 then pure (read_fixed i (on FLAG_AMI_1995_HACK) (fun v => v .& 0xf3) w)
  else if i =? 0x54 then pure (read_fixed i (on FLAG_AMI_1999_HACK) (fun v => v .& 0x3f) w)
  else if i =? 0x55 then pure (read_fixed i (on FLAG_AMI_1999J_HACK) (fun v => v .& 0xfc) w)
  else pure (read_lockable i (fun v => v) w).

Definition nvr_read (port : Z) w : option (Z * rtc E) :=
  let addr_id := (port .& 0x0e) >>> 1 in
  let w := on_machine isa_delay w in
  bk ← arr_get (bank (local w)) addr_id;
  if bk =? 0xff then Some (0xff, w)
  else
    a ← arr_get (addr (local w)) addr_id;
    if ctrue (port .& 1) then '(v, w) ← read_reg a w; Some (u8 v, w)
    else
      let v := u8 a in
      let v := if ctrue (read_addr (local w)) then v else v .& 0x80 in
      Some (if alt_access (Timer.dev (queue w))
            then (v .& 0x7f) .| (if ctrue (nmi_mask w) then 0x00 else 0x80) else v, w).

Definition nvr_sec_write (port v : Z) w : option (rtc E) := nvr_write (0x72 + (port .& 1)) v w.
Definition nvr_sec_read (port : Z) w : option (Z * rtc E) := nvr_read (0x72 + (port .& 1)) w.

(** ** Start, reset and settings *)

Definition nvr_reset w : option (rtc E) :=
  let n := nvr w in
  if Z.of_nat (length (Nvr.regs n)) <? Nvr.size n then None else
  let w := set_regs (replicate (Z.to_nat (Nvr.size n)) (def (local w))
                       ++ drop (Z.to_nat (Nvr.size n)) (Nvr.regs n)) w in
  w ← put_reg RTC_DOM 1 w; w ← put_reg RTC_MONTH 1 w; w ← put_reg RTC_YEAR (RTC_BCD 80) w;
  w ← (if cent (local w) =? 0xff then Some w else put_reg (cent (local w)) (RTC_BCD 19) w);
  put_reg RTC_REGD REGD_VRT w.

Definition nvr_start w : option (rtc E) :=
  let n := nvr w in
  found ← slice (Nvr.regs n) 0 (Nvr.size n);
  w ← (if forallb (fun v => v =? def (local w)) found then put_reg 0x0e 0xff w else Some w);
  w ← (if ctrue (time_sync .& Nvr.TIME_SYNC_ENABLED) then
         t ← Nvr.nvr_time_get (intclk w); r ← time_set t (cent (local w)) (regs w); Some (set_regs r w)
       else set_clock w);
  w ← put_reg RTC_REGA 0x06 w;
  put_reg RTC_REGB REGB_2412 w.

Definition nvr_at_speed_changed w : option (rtc E) :=
  w ← timer_load_count w;
  w ← on_queue (Timer.timer_disable (Some (update_timer (local w)))) w;
  w ← (if 0 <? ecount (local w) then set_delay (update_timer (local w)) (ecount (local w)) w else Some w);
  w ← on_queue (Timer.timer_disable (Some (Nvr.onesec_time (nvr w)))) w;
  set_delay (Nvr.onesec_time (nvr w)) (usec 10000 w) w.

Definition nvr_at_reset w : option (rtc E) :=
  b ← reg RTC_REGB w;
  w ← put_reg RTC_REGB (b .&~ (REGB_PIE .| REGB_AIE .| REGB_UIE .| REGB_SQWE)) w;
  c ← reg RTC_REGC w;
  put_reg RTC_REGC (c .&~ (REGC_PF .| REGC_AF .| REGC_UF .| REGC_IRQF)) w.

(** The first initialisation starts the timers; [cb_update] and [cb_intr]
    name [timer_update] and [timer_intr], [x] is the device. *)
Definition start_timers (cb_update cb_intr x : Z) w : option (rtc E) :=
  w ← on_queue (Timer.timer_add (update_timer (local w)) (Some cb_update) x false) w;
  w ← on_queue (Timer.timer_add (rtc_timer (local w)) (Some cb_intr) x false) w;
  a ← reg RTC_REGA w;
  w ← (if a .& 0x70 =? 0x00 then put_reg RTC_REGA ((a .& 0x8f) .| 0x20) w else Some w);
  w ← nvr_at_reset w;
  timer_load_count w.

Definition stop_timers w : option (rtc E) :=
  w ← on_queue (Timer.timer_disable (Some (rtc_timer (local w)))) w;
  w ← on_queue (Timer.timer_disable (Some (update_timer (local w)))) w;
  on_queue (Timer.timer_disable (Some (Nvr.onesec_time (nvr w)))) w.

Definition nvr_read_addr_set (set_ : Z) w : rtc E := w <| local ::= fun l => l <| read_addr := u8 set_ |> |>.

Definition nvr_wp_set (set_ h : Z) w : option (rtc E) :=
  l ← arr_set (wp (local w)) h (u8 set_); Some (w <| local ::= fun s => s <| wp := l |> |>).

Definition nvr_via_wp_set (set_ r : Z) w : rtc E :=
  w <| local ::= fun l => if r =? 0x0d then l <| wp_0d := u8 set_ |> else l <| wp_32 := u8 set_ |> |>.

Definition nvr_bank_set (base bk : Z) w : option (rtc E) :=
  l ← arr_set (bank (local w)) base bk; Some (w <| local ::= fun s => s <| bank := l |> |>).

Fixpoint lock_all (n : nat) (base v : Z) (l : list Z) : option (list Z) :=
  match n with
  | O => Some l
  | S n => l ← arr_set l base (u8 v); lock_all n (base + 1) v l
  end.

Definition nvr_lock_set (base size v : Z) w : option (rtc E) :=
  l ← lock_all (Z.to_nat size) base v (lock (local w)); Some (w <| local ::= fun s => s <| lock := l |> |>).

Definition nvr_irq_set (i : Z) w : rtc E := w <| irq := swrap 8 i |>.

Definition nvr_smi_enable (enable : Z) w : rtc E :=
  w <| local ::= fun l => let l := l <| smi_enable := enable |> in
                          if ctrue enable then l else l <| smi_status := 0 |> |>.

Definition nvr_smi_status w : Z := smi_status (local w).
Definition nvr_smi_status_clear w : rtc E := w <| local ::= fun l => l <| smi_status := 0 |> |>.
End rtc.

(** ** The ports *)

Definition nvr_ops (x : ptr) : Io.io_ops := Io.mkOps (Some (Io.Dev 1)) None None (Some (Io.Dev 2)) None None x.
Definition index_ops (x : ptr) : Io.io_ops := Io.mkOps None None None (Some (Io.Dev 2)) None None x.
Definition sec_ops (x : ptr) : Io.io_ops := Io.mkOps (Some (Io.Dev 3)) None None (Some (Io.Dev 4)) None None x.

Section ports.
Context {B : Type}.
Implicit Types (bus : Io.iobus B).

Definition nvr_at_handler (set_ base : Z) (x : ptr) bus : option (Io.iobus B) :=
  Io.io_handler set_ base 2 (nvr_ops x) bus.

Definition nvr_at_index_read_handler (set_ base : Z) (x : ptr) bus : option (Io.iobus B) :=
  bus ← Io.io_handler 0 base 1 (index_ops x) bus;
  bus ← nvr_at_handler 0 base x bus;
  if ctrue set_ then nvr_at_handler 1 base x bus
  else
    bus ← Io.io_handler 1 base 1 (index_ops x) bus;
    Io.io_handler 1 (base + 1) 1 (nvr_ops x) bus.

Definition nvr_at_data_port (set_ : Z) (x : ptr) bus : option (Io.iobus B) :=
  bus ← Io.io_handler 0 0x71 1 (nvr_ops x) bus;
  if ctrue set_ then Io.io_handler 1 0x71 1 (nvr_ops x) bus else Some bus.

Definition nvr_at_sec_handler (set_ base : Z) (x : ptr) bus : option (Io.iobus B) :=
  Io.io_handler set_ base 2 (sec_ops x) bus.
End ports.

(** ** The time in the registers is the time of the clock *)

Lemma put_register_ok i v r : 0 <= i < Z.of_nat (length r) ->
  exists r', put i v r = Some r' /\ length r' = length r /\ arr_get r' i = Some (u8 v) /\
    forall j, j <> i -> arr_get r' j = arr_get r j.
Proof.
  intros Hi. unfold put. rewrite arr_set_Some by done. eexists. split; [reflexivity|].
  rewrite length_insert. split_and!; [done| |].
  - unfold arr_get. rewrite decide_True by lia. apply list_lookup_insert_eq. lia.
  - intros j Hj. unfold arr_get. destruct (decide (0 <= j)); [|done]. by rewrite list_lookup_insert_ne by lia.
Qed.

Lemma below_100 (P : Z -> bool) : forallb P (map Z.of_nat (seq 0 100)) = true -> forall x, 0 <= x < 100 -> P x = true.
Proof.
  rewrite forallb_forall. intros H x Hx. apply H. apply in_map_iff. exists (Z.to_nat x). split; [lia|]. apply in_seq. lia.
Qed.

Lemma bcd_dcb x : 0 <= x < 100 -> RTC_DCB (u8 (RTC_BCD x)) = x.
Proof. intros Hx. apply Z.eqb_eq. revert x Hx. apply below_100. by vm_compute. Qed.

(** What the hours register is read back as. *)
Definition hours_back (b hour : Z) : Z :=
  let dm := ctrue (b .& REGB_DM) in
  let v := u8 (hours_register (fun x => if dm then x else RTC_BCD x) b hour) in
  let temp := swrap 8 (if dm then v else RTC_DCB v) in
  if ctrue (b .& REGB_2412) then temp
  else Z.rem (temp .&~ RTC_AMPM) 12 + (if ctrue (temp .& RTC_AMPM) then 12 else 0).

Lemma eqb_iff a x n c : Bool.eqb (a =? x) (c || (x <? n)) = true -> (a = x <-> c = true \/ x < n).
Proof. rewrite eqb_true_iff. intros H. by rewrite <- Z.eqb_eq, H, orb_true_iff, Z.ltb_lt. Qed.

Lemma hours_back_ok b hour :
  0 <= hour < 24 -> (hours_back b hour = hour <-> ctrue (b .& REGB_2412) = true \/ hour < 12).
Proof.
  intros Hh. apply eqb_iff. unfold hours_back, hours_register. generalize (ctrue (b .& REGB_DM)), (ctrue (b .& REGB_2412)).
  assert (forall P : Z -> bool, forallb (fun h => negb (h <? 24) || P h) (map Z.of_nat (seq 0 100)) = true -> P hour = true) as H.
  { intros P HP. pose proof (below_100 _ HP hour ltac:(lia)) as H. cbn in H.
    rewrite (proj2 (Z.ltb_lt _ _)) in H by lia. exact H. }
  intros dm h24. pattern hour. match goal with |- (fun z => @?P z = true) hour => apply (H P) end.
  by destruct dm, h24; vm_compute.
Qed.

(** The registers [time_set] writes, and the others. *)
Lemma time_set_ok t cent r b year :
  Nvr.int_add (Nvr.tm_year t) 1900 = Some year -> arr_get r RTC_REGB = Some b ->
  14 <= Z.of_nat (length r) -> cent = 0xff \/ 14 <= cent < Z.of_nat (length r) ->
  let bcd x := u8 (if ctrue (b .& REGB_DM) then x else RTC_BCD x) in
  exists r', time_set t cent r = Some r' /\ length r' = length r /\
    arr_get r' RTC_SECONDS = Some (bcd (Nvr.tm_sec t)) /\ arr_get r' RTC_MINUTES = Some (bcd (Nvr.tm_min t)) /\
    arr_get r' RTC_HOURS =
      Some (u8 (hours_register (fun x => if ctrue (b .& REGB_DM) then x else RTC_BCD x) b (Nvr.tm_hour t))) /\
    arr_get r' RTC_DOW = Some (bcd (Nvr.tm_wday t + 1)) /\ arr_get r' RTC_DOM = Some (bcd (Nvr.tm_mday t)) /\
    arr_get r' RTC_MONTH = Some (bcd (Nvr.tm_mon t + 1)) /\ arr_get r' RTC_YEAR = Some (bcd (Z.rem year 100)) /\
    (cent <> 0xff -> arr_get r' cent = Some (bcd (Z.quot year 100))) /\
    forall j, j ∉ [0; 2; 4; 6; 7; 8; 9] -> j <> cent -> arr_get r' j = arr_get r j.
Proof.
  intros Hy Hb Hl Hc bcd. unfold time_set. rewrite Hy, Hb. cbn [mbind option_bind].
  assert (forall i, 0 <= i < 14 -> forall r' v, length r' = length r -> exists r2, put i v r' = Some r2 /\ length r2 = length r /\
    arr_get r2 i = Some (u8 v) /\ forall j, j <> i -> arr_get r2 j = arr_get r' j) as P.
  { intros i Hi r' v E. destruct (put_register_ok i v r') as (r2 & ? & E2 & ?); [lia|]. exists r2. rewrite E2. auto. }
  repeat match goal with |- context [put ?i ?v ?r'] =>
    match i with cent => fail 1 | _ => idtac end;
    let r2 := fresh "r" in let L := fresh "L" in let G := fresh "G" in let F := fresh "F" in
    destruct (P i ltac:(vm_compute; split; congruence) r' v ltac:(done || assumption)) as (r2 & -> & L & G & F);
    cbn [mbind option_bind] end.
  match goal with |- context [(if cent =? 0xff then Some ?r5 else ?e) ≫= _] =>
    assert (exists r6, (if cent =? 0xff then Some r5 else e) = Some r6 /\ length r6 = length r /\
      (cent <> 0xff -> arr_get r6 cent = Some (bcd (Z.quot year 100))) /\
      forall j, j <> cent -> arr_get r6 j = arr_get r5 j) as (r6 & -> & L6 & G6 & F6) end.
  { destruct (Z.eqb_spec cent 0xff); [by eexists|].
    edestruct (put_register_ok cent) as (r7 & -> & L7 & ? & ?); [|by exists r7; rewrite L7; auto].
    match goal with L : length ?x = length r |- _ <= _ < Z.of_nat (length ?x) => rewrite L end. lia. }
  cbn [mbind option_bind]. assert (arr_get r6 RTC_REGB = Some b) as ->.
  { rewrite F6 by (unfold RTC_REGB; lia). repeat match goal with F : forall j, j <> _ -> arr_get ?x j = _ |- context [arr_get ?x ?k] =>
      rewrite (F k) by (by vm_compute) end. done. }
  cbn [mbind option_bind]. destruct (P RTC_HOURS ltac:(vm_compute; split; congruence) r6
    (hours_register (fun x => if ctrue (b .& REGB_DM) then x else RTC_BCD x) b (Nvr.tm_hour t)) L6) as (r7 & -> & L7 & G7 & F7).
  exists r7. unfold RTC_SECONDS, RTC_MINUTES, RTC_HOURS, RTC_DOW, RTC_DOM, RTC_MONTH, RTC_YEAR in *.
  split_and!; try done.
  all: repeat first [eassumption | match goal with F : forall j, j <> _ -> arr_get ?x j = _ |- arr_get ?x _ = _ => rewrite F by lia end].
  - intros Hce. rewrite F7 by lia. by apply G6.
  - intros j Hj Hjc. rewrite !not_elem_of_cons in Hj. destruct Hj as (?&?&?&?&?&?&?&_).
    rewrite F7, F6 by done. repeat match goal with F : forall j, j <> _ -> arr_get ?x j = _ |- arr_get ?x _ = _ => rewrite F by done end.
    done.
Qed.

Lemma field_back dm x : 0 <= x < 100 ->
  (if dm : bool then u8 (if dm then x else RTC_BCD x) else RTC_DCB (u8 (if dm then x else RTC_BCD x))) = x.
Proof. intros Hx. destruct dm; [apply wrap_id; unfold in_width; lia|by apply bcd_dcb]. Qed.

Lemma wday_range t : 0 <= Nvr.wday_of t < 7.
Proof.
  unfold Nvr.wday_of. match goal with |- context [Z.rem (?x + 6) 7] => assert (0 <= x) by (by apply Z.mod_pos_bound);
    assert (0 <= Z.rem (x + 6) 7 < 7) by (apply Z.rem_bound_pos; lia) end.
  rewrite wrap_id by (unfold in_width; lia). lia.
Qed.

Lemma rtc_int_add_ok x y : - 2 ^ 31 <= x + y < 2 ^ 31 -> Nvr.int_add x y = Some (x + y).
Proof. intros H. unfold Nvr.int_add. by rewrite (proj2 (Z.leb_le _ _)), (proj2 (Z.ltb_lt _ _)) by lia. Qed.

(** The years the registers can hold. *)
Definition year_fits (cent y : Z) : Prop := if cent =? 0xff then 1900 <= y < 2000 else 0 <= y < 10000.

Lemma year_back cent y : year_fits cent y ->
  0 <= Z.rem y 100 < 100 /\ 0 <= Z.quot y 100 < 100 /\
  (if cent =? 0xff then Z.rem y 100 else Z.rem y 100 + (Z.quot y 100 * 100 - 1900)) = y - 1900.
Proof.
  unfold year_fits. intros Hy. assert (0 <= y < 10000) as H by (destruct (cent =? 0xff); lia).
  pose proof (Z.rem_bound_pos y 100 ltac:(lia) ltac:(lia)). pose proof (Z.quot_rem' y 100).
  destruct (cent =? 0xff); lia.
Qed.

Record shown_by (r : list Z) (cent b : Z) (clk : Nvr.tm) (r' : list Z) : Prop := {
  sh_length : length r' = length r;
  sh_other : forall j, j ∉ [0; 2; 4; 6; 7; 8; 9] -> j <> cent -> arr_get r' j = arr_get r j;
  sh_time : time_get r' cent =
    Some (Nvr.mkTm (Nvr.tm_sec clk) (Nvr.tm_min clk) (hours_back b (Nvr.tm_hour clk)) (Nvr.tm_mday clk)
            (Nvr.tm_mon clk - 1) (Nvr.tm_year clk - 1900) (Nvr.wday_of clk));
}.

Lemma clock_shown clk cent r b :
  Nvr.valid clk -> year_fits cent (Nvr.tm_year clk) -> arr_get r RTC_REGB = Some b ->
  14 <= Z.of_nat (length r) -> cent = 0xff \/ 14 <= cent < Z.of_nat (length r) ->
  exists t r', Nvr.nvr_time_get clk = Some t /\ time_set t cent r = Some r' /\ shown_by r cent b clk r'.
Proof.
  intros [Hsec Hmin Hhour Hmon Hmday Hyr] Hfit Hb Hl Hc. unfold Nvr.nvr_time_get.
  assert (0 <= Nvr.tm_year clk < 10000) as Hyr2 by (unfold year_fits in Hfit; destruct (cent =? 0xff); lia).
  rewrite !rtc_int_add_ok by lia. cbn [mbind option_bind].
  match goal with |- context [Some ?T = Some _] => exists T end.
  destruct (year_back _ _ Hfit) as (Hy1 & Hy2 & Hy3). pose proof (wday_range clk) as Hw.
  assert (Nvr.tm_mday clk < 100) as Hd.
  { pose proof (Nvr.month_start_bounds (Nvr.tm_mon clk + 1) (Nvr.leap (Nvr.tm_year clk)) ltac:(lia)).
    clear - Hmon Hmday. revert Hmday. generalize (Nvr.tm_mday clk), (Nvr.leap (Nvr.tm_year clk)). intros d l.
    revert Hmon. generalize (Nvr.tm_mon clk). intros m Hm. pattern m. revert m Hm. apply Nvr.month_cases; destruct l; vm_compute Nvr.month_start; lia. }
  match goal with |- context [time_set ?t cent r] => destruct (time_set_ok t cent r b (Nvr.tm_year clk)) as
    (r' & E & HL & G0 & G2 & G4 & G6 & G7 & G8 & G9 & Gc & F); [cbn; rewrite rtc_int_add_ok by lia; f_equal; lia|done..|] end.
  exists r'. split; [reflexivity|]. split; [exact E|]. cbn [Nvr.tm_sec Nvr.tm_min Nvr.tm_hour Nvr.tm_mday Nvr.tm_mon Nvr.tm_wday] in *.
  split; [done|done|]. unfold time_get.
  assert (arr_get r' RTC_REGB = Some b) as ->.
  { rewrite F; [done| |unfold RTC_REGB; lia]. by apply (bool_decide_unpack _). }
  rewrite G0, G2, G4, G6, G7, G8, G9. cbn [mbind option_bind].
  rewrite <- Hy3. pose proof (field_back (ctrue (b .& REGB_DM))) as Hf.
  destruct (Z.eqb_spec cent 0xff) as [Ec|Ec].
  2: rewrite (Gc Ec).
  all: cbn [mbind option_bind]; rewrite !Hf by lia; unfold hours_back; f_equal; f_equal; lia.
Qed.

(** C21: The time registers and the clock hold the same time: the registers
    [time_set] writes for a clock give the clock back, in binary and in BCD,
    with and without a century register - except, in 12-hour mode, after
    noon: the code loses the top bit of the hours (in BCD it decodes it as a
    decimal digit, in binary it extends it as a sign), so that the time read
    back is another hour. *)
Theorem registers_hold_clock clk cent r b :
  Nvr.valid clk -> year_fits cent (Nvr.tm_year clk) -> arr_get r RTC_REGB = Some b ->
  14 <= Z.of_nat (length r) -> cent = 0xff \/ 14 <= cent < Z.of_nat (length r) ->
  exists t r' t' hour, Nvr.nvr_time_get clk = Some t /\ time_set t cent r = Some r' /\ time_get r' cent = Some t' /\
    Nvr.nvr_time_set t' = Some (clk <| Nvr.tm_hour := hour |> <| Nvr.tm_wday := Nvr.wday_of clk |>) /\
    (hour = Nvr.tm_hour clk <-> ctrue (b .& REGB_2412) = true \/ Nvr.tm_hour clk < 12).
Proof.
  intros Hv Hfit Hb Hl Hc. destruct (clock_shown clk cent r b Hv Hfit Hb Hl Hc) as (t & r' & Et & Er & [_ _ Eg]).
  eexists t, r', _, (hours_back b (Nvr.tm_hour clk)). split_and!; [done|done|exact Eg| |apply hours_back_ok; apply Hv].
  unfold Nvr.nvr_time_set. cbn [Nvr.tm_mon Nvr.tm_year]. destruct Hv.
  assert (0 <= Nvr.tm_year clk < 10000) by (unfold year_fits in Hfit; destruct (cent =? 0xff); lia).
  rewrite !rtc_int_add_ok by lia. cbn [mbind option_bind]. rewrite !Z.sub_add. by destruct clk.
Qed.

(** ** The timers of the device in the queue *)


Section queue.
Context {E : Type}.
Implicit Types q : Timer.world E.





End queue.

(** ** The interrupt line *)

(** What the interrupt controller promises: the line is up after
    [picintlevel], down after [picintclevel], and only then changes. *)
Class RtcMachineLaws (E : Type) `{!RtcMachine E} := {
  line : E -> bool;
  level_up n st e : exists e', picintlevel n st e = Some (1, e') /\ line e' = true;
  level_down n st e : exists e', picintclevel n st e = Some (0, e') /\ line e' = false;
  smi_line e : line (smi_raise e) = line e;
  delay_line e : line (isa_delay e) = line e;
}.

Section invariant.
Context {E : Type} `{!RtcMachine E} `{!RtcMachineLaws E}.
Implicit Types w : rtc E.












































(** ** Accesses keep the line on the flags and stay in the arrays *)



























(** *** The update cycle *)












(** ** Everything that happens to the device *)










End invariant.

(** ** Examples *)

(** A machine whose state is the interrupt line. *)
#[local] Instance wire : RtcMachine bool := {|
  picintlevel n st e := Some (1, true);
  picintclevel n st e := Some (0, false);
  smi_raise e := e;
  isa_delay e := e;
  alt_access e := false;
  at_bx6 := false;
  RTCCONST := 2 ^ 37;
  time_sync := 0;
|}.

#[local] Instance wire_laws : RtcMachineLaws bool.
Proof. by refine {| line e := e |}; intros; try eexists. Defined.


(** Midnight of the last of February 1999, in BCD and 24-hour mode; update
    interrupts are enabled. *)
Definition sample_clock : Nvr.tm := Nvr.mkTm 59 59 23 28 2 1999 0.
Definition sample_regs : list Z :=
  [0x59; 0xff; 0x59; 0xff; 0x23; 0xff; 1; 0x28; 2; 0x99; 0x26; 0x12; 0; 0x80] ++ replicate 498 0.





Lemma registers_hold_clock_witness :
  exists t r' t' hour, Nvr.nvr_time_get sample_clock = Some t /\ time_set t 0x32 sample_regs = Some r' /\
    time_get r' 0x32 = Some t' /\ Nvr.nvr_time_set t' = Some (sample_clock <| Nvr.tm_hour := hour |> <| Nvr.tm_wday := 5 |>) /\
    hour = 23.
Proof.
  destruct (registers_hold_clock sample_clock 0x32 sample_regs 0x12) as (t & r' & t' & hour & H1 & H2 & H3 & H4 & H5).
  - by split; vm_compute.
  - by vm_compute.
  - reflexivity.
  - by vm_compute.
  - right. by vm_compute.
  - exists t, r', t', hour. split_and!; [done|done|done|exact H4|]. apply H5. by left.
Defined.


